(* ===== verification/_CoqProject ===== *)
-Q . S2P
Prelude.v
GoStrings.v
GoNum.v
GoTime.v
GoCrypto.v
GoNet.v
GoFlag.v
Redact.v
ApiTypes.v
Effects.v
AgentRunner.v
NetUtil.v
NetPolicy.v
EgressProxy.v
GrantController.v
GrantSystem.v
BrokerEnv.v
Artifacts.v
GitHub.v
Broker.v
BrokerApi.v
Webhook.v
PortShare.v
HomeTemplate.v
Desktop.v
AgentPod.v
AgentJobs.v
CheckRuns.v
Services.v
CliEnv.v
SshConfig.v
WsProxy.v
Wsctl.v
Orders.v
Doctor.v
WsctlMain.v
ProxyCommand.v
Operator.v
Relayd.v
RelaySystem.v
RelayDaemon.v
RelayClients.v
DesktopAgent.v
RelayStart.v
RelayLogin.v
Access.v
AuditLog.v
AuditTrail.v
AuditShip.v
