(* ===== verification/Prelude.v ===== *)
(** * Workspaces platform: a verification development

    The repository runs desktops and coding agents in a Kubernetes cluster.  Its
    programs, and the files that model them:

    - custom resources (src/api/v1alpha1): [ApiTypes], with the fields the program
      uses of the Kubernetes objects it manages;
    - [workspaces-operator] (src/internal/controller, src/cmd/workspaces-operator):
      [GrantController], [PortShare], [HomeTemplate], [Desktop], [AgentPod] and
      [AgentJobs], started by [Operator];
    - [capability-broker] (src/cmd/capability-broker), which agents and people ask
      for network grants, agent jobs and pull requests: [NetPolicy]
      (netpolicy.go), [BrokerEnv] (auth.go and the server's state), [GitHub]
      (github.go), [Broker] (the handlers of main.go), [BrokerApi] (routes and
      decoding), [CheckRuns] (checkruns.go), [Artifacts]
      (src/internal/artifacts), [Services] (the start);
    - [egress-proxy] (src/cmd/egress-proxy), the only way out of an agent's pod:
      [EgressProxy], [Services];
    - [github-webhook] (src/cmd/github-webhook): [Webhook];
    - the reverse tunnel: the relay [ws-relayd] ([Relayd], [RelaySystem],
      [RelayDaemon], [RelayStart]), its client [ws-relay] and the agent in the
      desktop [ws-desktop-agent] ([RelayClients], [DesktopAgent]);
    - [wsctl] (src/cmd/wsctl) and [ws-proxy] (src/cmd/ws-proxy): [Wsctl],
      [WsctlMain], [SshConfig], [WsProxy], [Doctor];
    - [agent-runner] and its redaction (src/internal/redact): [AgentRunner],
      [Redact];
    - the audit trail: the emitter (src/internal/audit) and [auditctl] in
      [AuditLog] and [AuditTrail], [auditship] in [AuditShip];
    - host names (src/internal/netutil): [NetUtil].

    Files about several programs at once: [GrantSystem] (the grant controller and
    the proxy), [Orders] (from a command of [wsctl] or a comment on GitHub to the
    broker's handler), [Access] (every way to a desktop ends at the same one),
    [RelayLogin] (from the operator's signing secret to the relay's tables),
    [ProxyCommand] (from the written ssh configuration through ssh and the shell
    back into [wsctl]).

    ** How the code is modelled

    Go's standard library is written out as far as the code uses it: [GoStrings]
    (bytes, UTF-8 white space), [GoNum] (int32 and int64 with their wrap-around,
    strconv, durations), [GoTime] (RFC 3339), [GoCrypto] (SHA-256, HMAC),
    [GoNet] (addresses), [GoFlag] (command lines).  Other libraries are arguments
    of the definitions that use them: JSON decoders, the JWT library, YAML and
    PEM parsing, ssh and the user's shell; what a theorem needs of them is a named
    hypothesis ([JwtLibrary], [token_law], [sort_law], ...), which a concrete
    function of the witness satisfies.

    Code that acts on the world is a program [prog E A] (below): a tree of calls
    of [E], each with every possible answer.  [exec p tr a] says that [p] returns
    [a] with the calls and answers [tr].  Theorems are about all executions, so
    about every behaviour of the API server, GitHub, the clock or a peer, unless
    a hypothesis says otherwise.  [run] executes a program against a concrete
    world; the witnesses use it.  A Go function of a request is one definition
    with all its calls, guards and early returns; its errors are values of
    [result].  Errors are unrendered: the format string with its arguments.

    Shared state: the broker's policy maps are a heap of Go maps ([pheap]), since
    copies of the policy share them; the environments of a pod are Go slices in a
    heap of arrays ([AgentPod]), since [append] may write in place; the indexes
    of the proxy are read and stored by separate calls, so that an execution sees
    what other goroutines stored in between; the relay is a step relation on its
    shared maps and channels with one thread per connection ([Relayd.step]), and
    its theorems hold for every interleaving; the desktop's agent is a step
    relation with its semaphore and its goroutines ([agent_step]).

    ** What is proved

    - Network access: which host names are accepted ([NetUtil]); exactly which
      grants a non-admin may have ([NetPolicy]); that a created or approved grant
      was checked by the rules of its caller ([Broker]); exactly which grants the
      controller accepts, that it deactivates the others, and that for an accepted
      one it panics in the library before a policy is written ([GrantController]);
      that the
      proxy connects a pod only where an active grant of its job allows, and not
      to an internal address ([EgressProxy]); what happens between the two
      ([GrantSystem]).
    - Agent jobs: job tokens are bound to their job ([BrokerEnv]); a job is
      created from an allowed order and removed again when its creation fails
      half-way ([Broker]); its pod is confined and its environment is the
      configured one ([AgentPod], [AgentJobs]); its output is redacted and capped
      ([Redact], [AgentRunner]); a pull request passes every gate ([GitHub]); the
      outcome is reported to GitHub once due ([CheckRuns]).
    - Desktops: a reconcile mounts one home, is hardened and suspends exactly when
      told or idle; resets go through ready snapshots; claims and snapshots are
      rotated ([Desktop], [HomeTemplate]); ports are shared until they expire
      ([PortShare]).
    - Ways to a desktop: [Access], [ProxyCommand]; the tunnel's invariant,
      termination and liveness ([RelayDaemon]); that a desktop can always log in
      ([RelayLogin]); the user's ssh configuration keeps what is not ours
      ([SshConfig]).
    - Orders of people: the webhook carries out comments of approvers and
      launchers only ([Webhook]); requests of clients arrive at the handler meant,
      with the texts as JSON passes them ([Orders]).
    - The audit trail: what the emitter writes verifies, over any sequence of
      events, restarts and days, for lines below 4 MiB and writes that are never
      torn ([torn_write_breaks_trail] has one that is); what verifies fixes the
      events, unless two hashed texts of the files themselves collide under
      SHA-256 ([AuditTrail]); what is shipped is a prefix of it ([AuditShip]).

    Theorems with hypotheses have a witness: a concrete input where they hold.
    Lemmas named after a defect ([cut_key_leaks], [long_name_reset],
    [second_open_lost], [rotation_locks_out], ...) show what the code does where
    that is not what it means to do.

    ** Bounds and fuel

    Recursion is structural wherever the code's loops allow it.  Fuel is used for
    the blocks of SHA-256, the groups of an IPv6 address, the reads of a tunnel
    connection ([run_loop]; [run_loop_fuel] shows that the length of the input is
    enough) and the parts of a duration, each of which takes a byte at least; the
    fuel is the length of the input.  Integers are [Z] with the
    conversions of the source ([wrap32], [wrap64], [seconds]); times are
    nanoseconds since year 1, and theorems that print them are limited to the
    years of four digits.

    ** Not modelled

    - src/api/v1alpha1/zz_generated.deepcopy.go is generated; values here are
      immutable, so a copy is the value.
    - SetupWithManager, scheme registration, the construction of clients and HTTP
      servers, contexts and their deadlines (they show as errors of the calls),
      and log output.
    - The JSON (but for what [BrokerApi] says of the bodies of requests), YAML, PEM
      and JWT libraries, Kubernetes, GitHub, git, the shell of
      an agent, and the bytes copied by io.Copy.
    - Floating point: [time.ParseDuration] of a fraction is exact here. *)
From stdpp Require Export base tactics list gmap strings pretty numbers.
From stdpp Require Import options.

(** * Results and errors

    A Go [error] is kept unrendered: the format string of the [fmt.Errorf] (or
    [errors.New]) that builds it, with its arguments.  [value] is the type of
    the dynamically typed data the program passes to JSON encoders, audit
    fields and format strings ([any], [map[string]any], [[]any]);
    [VStrMap] is a [map[string]string], a different dynamic type. *)
Inductive value :=
| VStr (s : string)
| VInt (z : Z)
| VBool (b : bool)
| VList (l : list value)
| VObj (l : list (string * value))
| VErr (fmt : string) (args : list value)
| VStrMap (m : gmap string string).

Record error := Errorf { e_fmt : string; e_args : list value }.

#[global] Instance value_eq_dec : EqDecision value.
Proof.
  refine (fix go v w :=
    let _ : EqDecision value := @go in
    match v, w with
    | VStr s, VStr t => cast_if (decide (s = t))
    | VInt a, VInt b => cast_if (decide (a = b))
    | VBool a, VBool b => cast_if (decide (a = b))
    | VList l, VList k => cast_if (decide (l = k))
    | VObj l, VObj k => cast_if (decide (l = k))
    | VErr f l, VErr g k => cast_if_and (decide (f = g)) (decide (l = k))
    | VStrMap m, VStrMap n => cast_if (decide (m = n))
    | _, _ => right _
    end); abstract congruence.
Defined.

(** What [json.Unmarshal] could have produced (and the [DeepCopy] of
    unstructured objects accepts): in particular no [map[string]string]. *)
Fixpoint json_value (v : value) : bool :=
  match v with
  | VStr _ | VInt _ | VBool _ => true
  | VList l => forallb json_value l
  | VObj l => forallb (fun '(_, x) => json_value x) l
  | VErr _ _ | VStrMap _ => false
  end.

Definition err_value (e : error) : value := VErr (e_fmt e) (e_args e).

(** Results of fallible calls: Go's [(T, error)] pair, with [Err] for a
    non-nil error. *)
Inductive result (E A : Type) :=
| Ok (a : A)
| Err (e : E).
Arguments Ok {E A} a.
Arguments Err {E A} e.

#[global] Instance result_ret {E} : MRet (result E) := fun A a => Ok a.
#[global] Instance result_bind {E} : MBind (result E) := fun A B f m =>
  match m with
  | Ok a => f a
  | Err e => Err e
  end.

Definition is_ok {E A} (r : result E A) : bool :=
  match r with Ok _ => true | Err _ => false end.

Definition ok_opt {E A} (r : result E A) : option A :=
  match r with Ok a => Some a | Err _ => None end.

(** [guard_err b e]: the early return [if b { return e }]. *)
Definition guard_err {E} (b : bool) (e : E) : result E unit :=
  if b then Err e else Ok tt.

Lemma bind_ok_inv {E A B} (m : result E A) (f : A -> result E B) b :
  (m ≫= f) = Ok b -> exists a, m = Ok a /\ f a = Ok b.
Proof. destruct m as [a|e]; cbn; [eauto | discriminate]. Qed.

Lemma guard_err_ok {E} b (e : E) u : guard_err b e = Ok u -> b = false.
Proof. destruct b; [discriminate | done]. Qed.

(** Left-to-right loops with an early error return, as in
    [for i, x := range l { if bad { return err } ... }]. *)
Section loops.
Context {E A B : Type}.

Fixpoint forE_from (i : nat) (f : nat -> A -> B -> result E B)
    (l : list A) (acc : B) : result E B :=
  match l with
  | [] => Ok acc
  | x :: l' =>
      match f i x acc with
      | Ok acc' => forE_from (S i) f l' acc'
      | Err e => Err e
      end
  end.

Definition forE := forE_from 0.

(** A loop that succeeds ran its body successfully on every element. *)
Lemma forE_from_inv (P : B -> Prop) (Q : A -> Prop) f l : forall i acc acc',
  P acc ->
  (forall i x b b', f i x b = Ok b' -> P b -> P b' /\ Q x) ->
  forE_from i f l acc = Ok acc' -> P acc' /\ Forall Q l.
Proof.
  induction l as [|x l IH]; intros i acc acc' HP Hstep H; cbn in H.
  - injection H as <-. split; [done | constructor].
  - destruct (f i x acc) as [b|e] eqn:Hf; [|discriminate].
    destruct (Hstep _ _ _ _ Hf HP) as [HP' HQ].
    destruct (IH _ _ _ HP' Hstep H) as [? ?]. split; [done | by constructor].
Qed.

Lemma forE_from_app f l1 l2 : forall i acc,
  forE_from i f (l1 ++ l2) acc
  = match forE_from i f l1 acc with
    | Ok b => forE_from (i + length l1) f l2 b
    | Err e => Err e
    end.
Proof.
  induction l1 as [|x l1 IH]; intros i acc; cbn.
  - by rewrite Nat.add_0_r.
  - destruct (f i x acc); [|done]. rewrite IH, Nat.add_succ_comm. done.
Qed.
End loops.

(** A loop whose body succeeds exactly on [Q], updating its state by [g]. *)
Lemma forE_from_iff {E A B} (f : nat -> A -> B -> result E B) (Q : A -> Prop)
    (g : B -> A -> B) l : forall i b b',
  (forall i x b b', f i x b = Ok b' <-> Q x /\ b' = g b x) ->
  forE_from i f l b = Ok b' <-> Forall Q l /\ b' = fold_left g l b.
Proof.
  induction l as [|x l IH]; intros i b b' Hf; cbn.
  - split; [by intros [= <-] | by intros [_ ->]].
  - rewrite list.Forall_cons. destruct (f i x b) as [b1|e] eqn:Hx.
    + rewrite IH by done. apply Hf in Hx as [HQ ->]. tauto.
    + split; [done|]. intros [[HQ _] _].
      assert (f i x b = Ok (g b x)) by (by apply Hf). congruence.
Qed.

Lemma forE_iff {E A} (f : nat -> A -> unit -> result E unit) (Q : A -> Prop) l :
  (forall i x b, f i x b = Ok tt <-> Q x) -> forE f l tt = Ok tt <-> Forall Q l.
Proof.
  intros Hf. unfold forE. rewrite (forE_from_iff f Q (fun b _ => b)).
  - split; [by intros [? _] | intros ?; split; [done | by destruct (fold_left _ _ _)]].
  - intros i x [] []. rewrite Hf. tauto.
Qed.

Lemma forE_Forall {E A} (f : nat -> A -> unit -> result E unit) (Q : A -> Prop) l u u' :
  (forall i x b b', f i x b = Ok b' -> Q x) ->
  forE f l u = Ok u' -> Forall Q l.
Proof.
  intros Hf H. refine (proj2 (forE_from_inv (fun _ => True) Q f l 0 u u' I _ H)).
  eauto.
Qed.

(** * Effectful programs

    A handler or a reconcile step is a finite tree of calls to the outside
    world ([E]: the API server, the clock, the network, ...).  The
    continuation of a call takes whatever answer the world gives: nothing is
    assumed of it, unless a theorem says so. *)
Section prog.
Context {E : Type -> Type}.

Inductive prog (A : Type) : Type :=
| Ret (a : A)
| Vis {X : Type} (e : E X) (k : X -> prog A).

(** One observed call with its answer. *)
Inductive obs : Type :=
| Obs {X : Type} (e : E X) (x : X).

Fixpoint prog_bind_def {A B} (f : A -> prog B) (p : prog A) : prog B :=
  match p with
  | Ret _ a => f a
  | Vis _ e k => Vis _ e (fun x => prog_bind_def f (k x))
  end.

(** [exec p tr a]: with the calls and the answers of [tr], in this order,
    [p] returns [a]. *)
Fixpoint exec {A} (p : prog A) (tr : list obs) (a : A) : Prop :=
  match p with
  | Ret _ a' => tr = [] /\ a = a'
  | Vis _ e k => exists x tr', tr = Obs e x :: tr' /\ exec (k x) tr' a
  end.

(** Running a program against a world given as a state-passing function. *)
Fixpoint run {A W} (h : forall X, E X -> W -> X * W) (p : prog A) (w : W)
    : A * list obs * W :=
  match p with
  | Ret _ a => (a, [], w)
  | Vis _ e k =>
      let '(x, w1) := h _ e w in
      let '(a, tr, w2) := run h (k x) w1 in
      (a, Obs e x :: tr, w2)
  end.

(** Loops over a list. *)
Fixpoint foldP {A B} (f : B -> A -> prog B) (l : list A) (b : B) : prog B :=
  match l with
  | [] => Ret _ b
  | x :: l' => prog_bind_def (fun b' => foldP f l' b') (f b x)
  end.
End prog.
Arguments prog E A : clear implicits.
Arguments obs E : clear implicits.
Arguments Ret {E A} a.
Arguments Vis {E A X} e k.
Arguments Obs {E X} e x.

#[global] Instance prog_ret {E} : MRet (prog E) := fun A a => Ret a.
#[global] Instance prog_bind {E} : MBind (prog E) := fun A B f p => prog_bind_def f p.

Definition trigger {E X} (e : E X) : prog E X := Vis e Ret.

Section exec_lemmas.
Context {E : Type -> Type}.
Implicit Types tr : list (obs E).

Lemma exec_bind {A B} (f : A -> prog E B) (p : prog E A) : forall tr b,
  exec (p ≫= f) tr b <->
  exists tr1 tr2 a, tr = tr1 ++ tr2 /\ exec p tr1 a /\ exec (f a) tr2 b.
Proof.
  unfold mbind, prog_bind.
  induction p as [a|X e k IH]; intros tr b; cbn; split.
  - intros H. exists [], tr, a. done.
  - intros (tr1 & tr2 & a' & -> & [-> ->] & H). done.
  - intros (x & tr' & -> & H). apply IH in H.
    destruct H as (tr1 & tr2 & a & -> & H1 & H2).
    exists (Obs e x :: tr1), tr2, a. split; [done|]. eauto.
  - intros (tr1 & tr2 & a & -> & (x & tr' & -> & H1) & H2).
    exists x, (tr' ++ tr2). split; [done|]. apply IH. eauto 6.
Qed.

Lemma exec_trigger {X} (e : E X) tr x :
  exec (trigger e) tr x <-> tr = [Obs e x].
Proof.
  cbn; split; [by intros (? & ? & -> & -> & ->) | intros ->; eauto].
Qed.

(** Every program returns, whatever the world answers. *)
Lemma run_exec {A W} (h : forall X, E X -> W -> X * W) (p : prog E A) : forall w a tr w',
  run h p w = (a, tr, w') -> exec p tr a.
Proof.
  induction p as [a|X e k IH]; intros w b tr w' H; cbn in *.
  - by injection H as <- <- <-.
  - destruct (h X e w) as [x w1] eqn:Hh.
    destruct (run h (k x) w1) as [[a tr1] w2] eqn:Hr.
    injection H as <- <- <-. eauto.
Qed.

Lemma run_is_exec {A W} (h : forall X, E X -> W -> X * W) (p : prog E A) w :
  exec p (run h p w).1.2 (run h p w).1.1.
Proof. destruct (run h p w) as [[a tr] w'] eqn:Hr. by eapply run_exec. Qed.

(** What holds of every answer of a world holds of every trace of its runs. *)
Lemma run_forall {A W} (h : forall X, E X -> W -> X * W) (Q : obs E -> Prop) (p : prog E A) :
  (forall X (e : E X) w, Q (Obs e (h X e w).1)) -> forall w, Forall Q (run h p w).1.2.
Proof.
  intros HQ. induction p as [a|X e k IH]; intros w; cbn; [constructor|].
  pose proof (HQ X e w) as Hq. destruct (h X e w) as [x w1]. specialize (IH x w1).
  destruct (run h (k x) w1) as [[a tr] w2]. by constructor.
Qed.

Lemma foldP_inv {A B} (P : B -> list (obs E) -> Prop) (f : B -> A -> prog E B) l :
  forall b0 tr0 tr b,
  P b0 tr0 ->
  (forall b x t tr' b', x ∈ l -> P b t -> exec (f b x) tr' b' -> P b' (t ++ tr')) ->
  exec (foldP f l b0) tr b -> P b (tr0 ++ tr).
Proof.
  induction l as [|x l IH]; intros b0 tr0 tr b HP Hf H; cbn in H.
  - destruct H as [-> ->]. by rewrite app_nil_r.
  - apply (exec_bind (foldP f l)) in H as (t1 & t2 & b1 & -> & H1 & H2).
    rewrite (assoc_L (++)). eapply IH; [| |exact H2].
    + eapply Hf; [constructor | done | done].
    + intros; eapply Hf; [by right | done | done].
Qed.

(** Each turn of a loop is a part of its trace. *)
Lemma foldP_each {A} (p : A -> prog E unit) x l : x ∈ l -> forall u t v,
  exec (foldP (fun _ => p) l u) t v -> exists t1 t2 t3 w, t = t1 ++ t2 ++ t3 /\ exec (p x) t2 w.
Proof.
  induction 1 as [x l|x y l _ IH]; intros u t v Hx; apply (exec_bind (foldP (fun _ => p) l)) in Hx as (t1 & t2 & a & -> & H1 & H2).
  - by exists [], t1, t2, a.
  - destruct (IH _ _ _ H2) as (s1 & s2 & s3 & w & -> & Hw). exists (t1 ++ s1), s2, s3, w.
    by rewrite <- !app_assoc.
Qed.
End exec_lemmas.

(** * Calls made and result returned

    [safe K Q p R]: when the world's answers satisfy [K], every call of [p]
    satisfies [Q] and its result satisfies [R].  With [K o := o ∈ tr] for the
    trace [tr] of the whole run, [Q] can speak of what the run has observed. *)
Section safe.
Context {E : Type -> Type} (K Q : obs E -> Prop).

Definition safe {A} (p : prog E A) (R : A -> Prop) : Prop :=
  forall tr a, exec p tr a -> Forall K tr -> Forall Q tr /\ R a.

Lemma safe_ret {A} (a : A) (R : A -> Prop) : R a -> safe (mret a) R.
Proof. intros HR tr b [-> ->] _. split; [constructor | done]. Qed.

Lemma safe_trigger {X} (e : E X) (R : X -> Prop) :
  (forall x, K (Obs e x) -> Q (Obs e x) /\ R x) -> safe (trigger e) R.
Proof.
  intros H tr x Hx%exec_trigger HK. subst tr. apply list.Forall_cons in HK as [HK _].
  destruct (H x HK). split; [by repeat constructor | done].
Qed.

Lemma safe_bind {A B} (p : prog E A) (f : A -> prog E B) (R1 : A -> Prop) (R : B -> Prop) :
  safe p R1 -> (forall a, R1 a -> safe (f a) R) -> safe (p ≫= f) R.
Proof.
  intros Hp Hf tr b (t1 & t2 & a & -> & H1 & H2)%exec_bind HK.
  apply list.Forall_app in HK as [HK1 HK2]. destruct (Hp _ _ H1 HK1) as [HQ1 HR1].
  destruct (Hf a HR1 _ _ H2 HK2) as [HQ2 HR]. split; [by apply list.Forall_app | done].
Qed.

Lemma safe_weaken {A} (p : prog E A) (R R' : A -> Prop) :
  safe p R' -> (forall a, R' a -> R a) -> safe p R.
Proof. intros Hp HR tr a H HK. destruct (Hp _ _ H HK). split; [done | by apply HR]. Qed.

Lemma safe_any {A} (p : prog E A) (R : A -> Prop) : safe p R -> safe p (fun _ => True).
Proof. intros Hp. by eapply safe_weaken. Qed.

Lemma safe_foldP {A B} (f : B -> A -> prog E B) (I : B -> Prop) l : forall b,
  I b -> (forall b x, x ∈ l -> I b -> safe (f b x) I) -> safe (foldP f l b) I.
Proof.
  induction l as [|x l IH]; intros b Hb Hf; [by apply safe_ret|].
  apply (safe_bind (f b x) (fun b' => foldP f l b') I I).
  - apply Hf; [by left | done].
  - intros b' Hb'. apply IH; [done|]. intros b1 y Hy. apply Hf. by right.
Qed.
End safe.

(** Goes through a program each of whose calls satisfies [Q] by computation. *)
Ltac calls :=
  repeat (cbv zeta; match goal with
  | |- safe _ _ (mret _) _ => by apply safe_ret
  | |- safe _ _ (trigger _) _ => by apply safe_trigger
  | |- safe _ _ (_ ≫= _) _ => apply (safe_bind _ _ _ _ (fun _ => True)); [|intros ? _]
  | |- safe _ _ (match ?x with _ => _ end) _ => destruct x
  end).

(** A program none of whose calls [f] reads. *)
Lemma safe_omap_nil {E A X} (f : obs E -> option X) (p : prog E A) tr a :
  safe (fun _ => True) (fun o => f o = None) p (fun _ => True) -> exec p tr a -> omap f tr = [].
Proof.
  intros Hs H. destruct (Hs _ _ H) as [HQ _]; [by apply list.Forall_forall|]. clear H.
  induction HQ as [|o tr Ho _ IH]; [done|]. cbn. by rewrite Ho.
Qed.

(** What is read off the trace of a [safe] program. *)
Lemma safe_omap {E A X} K Q (p : prog E A) R (f : obs E -> option X) (P : X -> Prop) tr a :
  safe K Q p R -> exec p tr a -> Forall K tr ->
  (forall o x, Q o -> f o = Some x -> P x) -> forall x, x ∈ omap f tr -> P x.
Proof.
  intros Hs H HK HP x (o & Ho & Hf)%list_elem_of_omap. destruct (Hs _ _ H HK) as [HQ _].
  rewrite list.Forall_forall in HQ. by eapply HP; [apply HQ|].
Qed.

(** [walk H] goes through an execution [H : exec p tr a], one case per path;
    it stops at the calls of other definitions. *)
Ltac walk H :=
  repeat (cbn [exec prog_bind_def mbind prog_bind mret prog_ret trigger] in H;
    match type of H with
    | ex _ =>
        let x := fresh "ans" in let tr := fresh "tr" in let E := fresh "Etr" in
        destruct H as (x & tr & E & H); try subst
    | _ /\ _ => let E := fresh "E" in destruct H as [E H]; try subst
    | exec (match ?x with _ => _ end) _ _ => let Hc := fresh "Hc" in destruct x eqn:Hc
    | exec (prog_bind_def _ (match ?x with _ => _ end)) _ _ =>
        let Hc := fresh "Hc" in destruct x eqn:Hc
    | exec (mbind _ (match ?x with _ => _ end)) _ _ =>
        let Hc := fresh "Hc" in destruct x eqn:Hc
    end).

(** * Programs stopped on the way

    [partial p tr p']: with the calls and answers of [tr], [p] has come to [p'].
    [upholds Q R past p]: whatever the world answers, each call of [p] satisfies
    [Q] with respect to the calls made before it, and the result satisfies [R]
    with respect to all of them. *)
Section partial.
Context {E : Type -> Type}.

Fixpoint partial {A} (p : prog E A) (tr : list (obs E)) (p' : prog E A) : Prop :=
  (tr = [] /\ p' = p) \/
  match p with
  | Ret _ => False
  | Vis e k => exists x tr', tr = Obs e x :: tr' /\ partial (k x) tr' p'
  end.

Lemma partial_nil {A} (p : prog E A) : partial p [] p.
Proof. destruct p; by left. Qed.

Lemma partial_snoc {A X} (p : prog E A) (e : E X) k x : forall tr,
  partial p tr (Vis e k) -> partial p (tr ++ [Obs e x]) (k x).
Proof.
  induction p as [a|Y e0 k0 IH]; intros tr Hp; cbn [partial] in Hp.
  - by destruct Hp as [[_ ?]|?].
  - destruct Hp as [[-> Heq]|(y & tr' & -> & Hp)].
    + rewrite <- Heq. right. exists x, []. split; [done | apply partial_nil].
    + right. exists y, (tr' ++ [Obs e x]). split; [done | by apply IH].
Qed.

Lemma partial_exec {A} (p : prog E A) a : forall tr, partial p tr (Ret a) -> exec p tr a.
Proof.
  induction p as [b|X e k IH]; intros tr Hp; cbn [partial] in Hp.
  - by destruct Hp as [[-> [= ->]]|?].
  - destruct Hp as [[_ ?]|(x & tr' & -> & Hp)]; [done|]. exists x, tr'. split; [done | by apply IH].
Qed.

Lemma exec_partial {A} (p : prog E A) a : forall tr, exec p tr a -> partial p tr (Ret a).
Proof.
  induction p as [b|X e k IH]; intros tr H; cbn in H.
  - destruct H as [-> ->]. by left.
  - destruct H as (x & tr' & -> & H). right. exists x, tr'. split; [done | by apply IH].
Qed.

Fixpoint upholds {A} (Q : list (obs E) -> obs E -> Prop) (R : list (obs E) -> A -> Prop)
    (past : list (obs E)) (p : prog E A) : Prop :=
  match p with
  | Ret a => R past a
  | Vis e k => forall x, Q past (Obs e x) /\ upholds Q R (past ++ [Obs e x]) (k x)
  end.

Lemma upholds_bind {A B} Q (R1 : list (obs E) -> A -> Prop) (R : list (obs E) -> B -> Prop)
    (f : A -> prog E B) (p : prog E A) : forall past,
  upholds Q R1 past p -> (forall past' a, R1 past' a -> upholds Q R past' (f a)) ->
  upholds Q R past (p ≫= f).
Proof.
  induction p as [a|X e k IH]; intros past Hp Hf; cbn; [by apply Hf|].
  intros x. split; [apply Hp | apply IH; [apply Hp | done]].
Qed.

Lemma upholds_partial {A} Q R (p p' : prog E A) : forall past tr,
  upholds Q R past p -> partial p tr p' ->
  upholds Q R (past ++ tr) p' /\ forall tr1 o tr2, tr = tr1 ++ o :: tr2 -> Q (past ++ tr1) o.
Proof.
  induction p as [a|X e k IH]; intros past tr Hu Hp; cbn [partial] in Hp.
  - destruct Hp as [[-> ->]|?]; [|done]. rewrite app_nil_r. split; [done | intros [] ? ? ?; done].
  - destruct Hp as [[-> ->]|(x & tr' & -> & Hp)].
    + rewrite app_nil_r. split; [done | intros [] ? ? ?; done].
    + destruct (Hu x) as [HQ Hk]. destruct (IH x _ _ Hk Hp) as [Hu' HQ'].
      rewrite <- (assoc_L (++)) in Hu'. split; [done|].
      intros [|o1 tr1] o tr2 Heq; injection Heq as <- ->.
      * by rewrite app_nil_r.
      * specialize (HQ' tr1 o tr2 eq_refl). by rewrite <- (assoc_L (++)) in HQ'.
Qed.

(** What [Q] says of a call that was made. *)
Lemma upholds_call {A} Q R (p p' : prog E A) tr o :
  upholds Q R [] p -> partial p tr p' -> o ∈ tr -> exists tr1 tr2, tr = tr1 ++ o :: tr2 /\ Q tr1 o.
Proof.
  intros Hu Hp (tr1 & tr2 & ->)%list_elem_of_split. exists tr1, tr2. split; [done|].
  by apply (proj2 (upholds_partial Q R p p' [] _ Hu Hp) tr1 o tr2).
Qed.

Lemma upholds_next {A X} Q R (p : prog E A) (e : E X) k tr x :
  upholds Q R [] p -> partial p tr (Vis e k) -> Q tr (Obs e x).
Proof. intros Hu Hp. exact (proj1 (proj1 (upholds_partial Q R p _ [] tr Hu Hp) x)). Qed.

Lemma upholds_end {A} Q R (p : prog E A) tr a :
  upholds Q R [] p -> partial p tr (Ret a) -> R tr a.
Proof. intros Hu Hp. exact (proj1 (upholds_partial Q R p _ [] tr Hu Hp)). Qed.

Lemma upholds_mono {A} Q (R1 R2 : list (obs E) -> A -> Prop) (p : prog E A) :
  (forall past a, R1 past a -> R2 past a) -> forall past, upholds Q R1 past p -> upholds Q R2 past p.
Proof.
  intros HR. induction p as [a|X e k IH]; intros past Hu; cbn in *; [by apply HR|].
  intros x. destruct (Hu x). split; [done | by apply IH].
Qed.

(** What every call of an execution satisfies with respect to the past. *)
Lemma upholds_exec {A} Q R (p : prog E A) tr a t1 o t2 :
  upholds Q R [] p -> exec p tr a -> tr = t1 ++ o :: t2 -> Q t1 o.
Proof. intros Hu Hx%exec_partial. by apply (upholds_partial Q R p (Ret a) [] tr Hu Hx). Qed.

(** The number of calls to the end is at most [n], whatever the answers. *)
Fixpoint within {A} (n : nat) (p : prog E A) {struct p} : Prop :=
  match p with
  | Ret _ => True
  | Vis e k => match n with O => False | S n' => forall x, within n' (k x) end
  end.

Lemma within_le {A} (p : prog E A) : forall n m, (n <= m)%nat -> within n p -> within m p.
Proof.
  induction p as [a|X e k IH]; intros n m Hle Hw; [done|].
  destruct n as [|n]; [done|]. destruct m as [|m]; [by apply Nat.nle_succ_0 in Hle|].
  intros x. apply (IH x n); [by apply le_S_n | apply Hw].
Qed.

Lemma within_bind {A B} (f : A -> prog E B) (p : prog E A) m : forall n,
  within n p -> (forall a, within m (f a)) -> within (n + m) (p ≫= f).
Proof.
  induction p as [a|X e k IH]; intros n Hp Hf; cbn.
  - apply (within_le _ m); [lia | apply Hf].
  - destruct n as [|n]; [done|]. intros x. by apply IH.
Qed.
End partial.

(** * Generic lemmas and tactics *)

(** Case analysis on the scrutinee of some [match] of the goal. *)
Ltac case_match_goal :=
  match goal with
  | |- context [match ?x with _ => _ end] =>
      lazymatch x with
      | context [match _ with _ => _ end] => fail
      | _ => let H := fresh "Hm" in destruct x eqn:H
      end
  end.

Create HintDb wsp discriminated.
Create Rewrite HintDb wsp.

Lemma bool_decide_false_iff (P : Prop) `{Decision P} : bool_decide P = false <-> ~ P.
Proof. apply bool_decide_eq_false. Qed.

Lemma omap_app {A B} (f : A -> option B) l1 l2 : omap f (l1 ++ l2) = omap f l1 ++ omap f l2.
Proof. induction l1 as [|x l1 IH]; cbn; [done|]. destruct (f x); cbn; by rewrite IH. Qed.

Lemma existsb_elem_of {A} (f : A -> bool) l :
  existsb f l = true <-> exists x, x ∈ l /\ f x = true.
Proof.
  rewrite existsb_exists. split; intros (x & Hx & Hf); exists x; split; auto;
    by apply list_elem_of_In.
Qed.

Lemma forallb_elem_of {A} (f : A -> bool) l :
  forallb f l = true <-> forall x, x ∈ l -> f x = true.
Proof.
  rewrite forallb_forall. split; intros H x Hx; apply H; by apply list_elem_of_In.
Qed.

(** A query that each step of a fold extends by [Q] of the element. *)
Lemma fold_left_query {S A} (f : S -> A -> S) (P : S -> Prop) (Q : A -> Prop) l :
  (forall s x, P (f s x) <-> P s \/ Q x) ->
  forall s, P (fold_left f l s) <-> P s \/ exists x, x ∈ l /\ Q x.
Proof.
  intros Hf. induction l as [|x l IH]; intros s; cbn.
  - split; [by left | intros [?|(? & ?%not_elem_of_nil & _)]; done].
  - rewrite IH, Hf. setoid_rewrite elem_of_cons. split.
    + intros [[?|?]|(y & ? & ?)]; [by left | right; eauto | right; eauto].
    + intros [?|(y & [->|?] & ?)]; [by left; left | by left; right | right; eauto].
Qed.

#[export] Hint Resolve list_elem_of_here list_elem_of_further : wsp.
#[export] Hint Rewrite @omap_app @app_nil_r : wsp.
