(* ===== verification/GoStrings.v ===== *)
(** Go's [strings] package, as far as the program uses it.

    A Go string is a sequence of bytes: [string] (Stdlib), one [ascii] per
    byte; the functions work on its [list ascii].  White space is Go's
    [unicode.IsSpace], multi-byte UTF-8 encodings included.  [ToLower] maps the
    ASCII letters and the only two other code points whose lower case is an
    ASCII letter (U+0130 and U+212A); it leaves the remaining non-ASCII letters
    as they are, so it is exact on valid UTF-8 without further upper-case
    non-ASCII letters. *)
From Stdlib Require Ascii String.
From S2P Require Export Prelude.
From stdpp Require Import options.

Notation ascii := Ascii.ascii.
Notation s2l := String.list_ascii_of_string.
Notation l2s := String.string_of_list_ascii.

Definition byte (n : nat) : ascii := Ascii.ascii_of_nat n.

Lemma s2l_l2s l : s2l (l2s l) = l.
Proof. apply String.list_ascii_of_string_of_list_ascii. Qed.
Lemma l2s_s2l s : l2s (s2l s) = s.
Proof. apply String.string_of_list_ascii_of_string. Qed.
Lemma s2l_inj s t : s2l s = s2l t -> s = t.
Proof. intros H. by rewrite <- (l2s_s2l s), <- (l2s_s2l t), H. Qed.
Lemma s2l_app s t : s2l (s +:+ t) = s2l s ++ s2l t.
Proof. induction s as [|c s IH]; simpl; [done | by rewrite <- IH]. Qed.
Lemma s2l_length s : length (s2l s) = String.length s.
Proof. induction s; cbn; auto. Qed.
Lemma s2l_nil s : s2l s = [] <-> s = "".
Proof. split; [destruct s; cbn; [done|discriminate] | by intros ->]. Qed.
#[export] Hint Rewrite s2l_l2s l2s_s2l s2l_app : wsp.

(** * White space and trimming *)

Definition code (c : ascii) : nat := Ascii.nat_of_ascii c.

(** One-, two- and three-byte encodings of white space. *)
Definition space1 (a : ascii) : bool :=
  ((9 <=? code a) && (code a <=? 13)) || (code a =? 32).
Definition space2 (a b : ascii) : bool :=
  (code a =? 0xC2) && ((code b =? 0x85) || (code b =? 0xA0)).
Definition space3 (a b c : ascii) : bool :=
  ((code a =? 0xE1) && (code b =? 0x9A) && (code c =? 0x80))
  || ((code a =? 0xE2) && (code b =? 0x80)
      && (((0x80 <=? code c) && (code c <=? 0x8A)) || (code c =? 0xA8)
          || (code c =? 0xA9) || (code c =? 0xAF)))
  || ((code a =? 0xE2) && (code b =? 0x81) && (code c =? 0x9F))
  || ((code a =? 0xE3) && (code b =? 0x80) && (code c =? 0x80)).

Section trim.
Context (s1 : ascii -> bool) (s2 : ascii -> ascii -> bool)
  (s3 : ascii -> ascii -> ascii -> bool).

Fixpoint trimL (l : list ascii) : list ascii :=
  match l with
  | [] => []
  | a :: l1 =>
      if s1 a then trimL l1 else
      match l1 with
      | [] => l
      | b :: l2 =>
          if s2 a b then trimL l2 else
          match l2 with
          | [] => l
          | c :: l3 => if s3 a b c then trimL l3 else l
          end
      end
  end.

(** The list starts with a white-space rune. *)
Definition leads (l : list ascii) : bool :=
  match l with
  | a :: b :: c :: _ => s1 a || s2 a b || s3 a b c
  | [a; b] => s1 a || s2 a b
  | [a] => s1 a
  | [] => false
  end.

Lemma trimL_cons a l1 :
  trimL (a :: l1) =
  if s1 a then trimL l1 else
  match l1 with
  | [] => a :: l1
  | b :: l2 =>
      if s2 a b then trimL l2 else
      match l2 with
      | [] => a :: l1
      | c :: l3 => if s3 a b c then trimL l3 else a :: l1
      end
  end.
Proof. done. Qed.

Lemma trimL_spec_lt n : forall l, length l < n ->
  leads (trimL l) = false /\ exists r, l = r ++ trimL l.
Proof.
  induction n as [|n IH]; [lia|]. intros l Hn.
  assert (Hrec : forall r0 l0, l = r0 ++ l0 -> r0 <> [] ->
    leads (trimL l0) = false /\ exists r, l = r ++ trimL l0).
  { intros r0 l0 -> Hr. destruct (IH l0) as [H1 [r Hl]].
    { rewrite length_app in Hn. destruct r0; [done|cbn in Hn; lia]. }
    split; [done|]. exists (r0 ++ r). by rewrite <- app_assoc, <- Hl. }
  destruct l as [|a l1]; [by split; [|exists []]|].
  rewrite trimL_cons. destruct (s1 a) eqn:Ha; [by apply (Hrec [a])|].
  destruct l1 as [|b l2]; [split; [done | by exists []]|].
  destruct (s2 a b) eqn:Hb; [by apply (Hrec [a; b])|].
  destruct l2 as [|c l3]; [split; [cbn; by rewrite Ha, Hb | by exists []]|].
  destruct (s3 a b c) eqn:Hc; [by apply (Hrec [a; b; c])|].
  split; [cbn; by rewrite Ha, Hb, Hc | by exists []].
Qed.

Lemma trimL_leads l : leads (trimL l) = false.
Proof. exact (proj1 (trimL_spec_lt (S (length l)) l (Nat.lt_succ_diag_r _))). Qed.

Lemma trimL_suffix l : exists r, l = r ++ trimL l.
Proof. exact (proj2 (trimL_spec_lt (S (length l)) l (Nat.lt_succ_diag_r _))). Qed.

Lemma trimL_id l : leads l = false -> trimL l = l.
Proof.
  destruct l as [|a [|b [|c l]]]; cbn; intros H; [done| | |];
    repeat (apply orb_false_iff in H as [H ?]);
    repeat match goal with H : _ = false |- _ => rewrite H; clear H end; done.
Qed.

Lemma leads_app l r : leads (l ++ r) = false -> leads l = false.
Proof.
  destruct l as [|a [|b [|c l]]]; cbn; [done| | |]; destruct r as [|d [|e r]]; cbn;
    rewrite ?orb_false_iff; tauto.
Qed.
End trim.

Definition trim_left (l : list ascii) : list ascii := trimL space1 space2 space3 l.
Definition trim_right (l : list ascii) : list ascii :=
  reverse (trimL space1 (flip space2) (fun a b c => space3 c b a) (reverse l)).
Definition TrimSpaceL (l : list ascii) : list ascii := trim_right (trim_left l).
Definition TrimSpace (s : string) : string := l2s (TrimSpaceL (s2l s)).

Lemma trim_right_prefix l : exists r, l = trim_right l ++ r.
Proof.
  unfold trim_right.
  destruct (trimL_suffix space1 (flip space2) (fun a b c => space3 c b a) (reverse l))
    as [r Hr].
  exists (reverse r). apply (inj reverse). rewrite reverse_app, !reverse_involutive. done.
Qed.

Lemma TrimSpaceL_idemp l : TrimSpaceL (TrimSpaceL l) = TrimSpaceL l.
Proof.
  unfold TrimSpaceL at 1. set (m := trim_left l).
  assert (Hm : leads space1 space2 space3 m = false) by apply trimL_leads.
  replace (trim_left (TrimSpaceL l)) with (TrimSpaceL l).
  - unfold TrimSpaceL. fold m. unfold trim_right. rewrite reverse_involutive.
    f_equal. apply trimL_id, trimL_leads.
  - symmetry. apply trimL_id. unfold TrimSpaceL. fold m.
    destruct (trim_right_prefix m) as [r Hr]. rewrite Hr in Hm. by apply leads_app in Hm.
Qed.

(** Nothing is trimmed from a list that neither starts nor ends with white space. *)
Definition leads_fwd (l : list ascii) : bool := leads space1 space2 space3 l.
Definition leads_bwd (l : list ascii) : bool :=
  leads space1 (flip space2) (fun a b c => space3 c b a) (reverse l).

Lemma TrimSpaceL_id l : leads_fwd l = false -> leads_bwd l = false -> TrimSpaceL l = l.
Proof.
  intros Hf Hb. unfold TrimSpaceL, trim_left, trim_right.
  rewrite (trimL_id _ _ _ l) by done. rewrite trimL_id by done. apply reverse_involutive.
Qed.

(** An ASCII byte that is not white space. *)
Definition solid (c : ascii) : Prop := (code c < 128)%nat /\ space1 c = false.

Lemma eqb_ge_false n m : (n < m)%nat -> (n =? m)%nat = false.
Proof. intros H. apply Nat.eqb_neq. lia. Qed.

Lemma leads_fwd_solid c l : solid c -> leads_fwd (c :: l) = false.
Proof.
  intros [Hc Hs]. unfold leads_fwd, leads, space2, space3.
  destruct l as [|b [|d l]]; rewrite Hs; rewrite ?(eqb_ge_false (code c)) by lia; done.
Qed.

Lemma leads_bwd_solid c l : solid c -> leads_bwd (l ++ [c]) = false.
Proof.
  intros [Hc Hs]. unfold leads_bwd. rewrite reverse_app.
  change (reverse [c] ++ reverse l) with (c :: reverse l).
  assert (Hle : (0x80 <=? code c) = false) by (apply Nat.leb_gt; lia).
  unfold leads, flip, space2, space3.
  destruct (reverse l) as [|b [|d l']]; rewrite Hs; [done| |];
    rewrite ?Hle, ?(eqb_ge_false (code c)) by lia;
    by rewrite ?andb_false_l, ?orb_false_r, ?andb_false_r.
Qed.

Lemma TrimSpaceL_solid l : Forall solid l -> TrimSpaceL l = l.
Proof.
  intros Hl. apply TrimSpaceL_id.
  - destruct l as [|c l]; [done|]. apply leads_fwd_solid. by inv Hl.
  - destruct l as [|c l _] using rev_ind; [done|]. apply leads_bwd_solid.
    apply Forall_app in Hl as [_ Hl]. by inv Hl.
Qed.

Lemma TrimSpace_idemp s : TrimSpace (TrimSpace s) = TrimSpace s.
Proof. unfold TrimSpace. rewrite s2l_l2s. f_equal. apply TrimSpaceL_idemp. Qed.
#[export] Hint Rewrite TrimSpace_idemp : wsp.

(** * Case *)

Definition lower_byte (c : ascii) : ascii :=
  if (65 <=? code c) && (code c <=? 90) then byte (code c + 32) else c.

Fixpoint ToLowerL (l : list ascii) : list ascii :=
  match l with
  | [] => []
  | a :: l1 =>
      match l1 with
      | b :: l2 =>
          (* U+0130 lowers to i *)
          if (code a =? 0xC4) && (code b =? 0xB0) then byte 105 :: ToLowerL l2 else
          match l2 with
          | c :: l3 =>
              (* U+212A (the Kelvin sign) lowers to k *)
              if (code a =? 0xE2) && (code b =? 0x84) && (code c =? 0xAA)
              then byte 107 :: ToLowerL l3
              else lower_byte a :: ToLowerL l1
          | [] => lower_byte a :: ToLowerL l1
          end
      | [] => [lower_byte a]
      end
  end.
Definition ToLower (s : string) : string := l2s (ToLowerL (s2l s)).

(** [strings.EqualFold(s, t)] for a lower-case ASCII [t] without [k] or [s]
    (no other rune folds to its letters). *)
Definition EqualFold (s t : string) : bool :=
  bool_decide (lower_byte <$> s2l s = s2l t).

(** * Prefixes, suffixes, substrings *)

Definition HasPrefix (s p : string) : bool := bool_decide (s2l p `prefix_of` s2l s).
Definition HasSuffix (s p : string) : bool := bool_decide (s2l p `suffix_of` s2l s).
Definition TrimPrefix (s p : string) : string :=
  if HasPrefix s p then l2s (drop (String.length p) (s2l s)) else s.
Definition TrimSuffix (s p : string) : string :=
  if HasSuffix s p then l2s (take (String.length s - String.length p) (s2l s)) else s.

(** The slices [s[:n]], [s[n:]]. *)
Definition str_take (n : nat) (s : string) : string := l2s (take n (s2l s)).
Definition str_drop (n : nat) (s : string) : string := l2s (drop n (s2l s)).

Fixpoint ContainsL (l sub : list ascii) : bool :=
  bool_decide (sub `prefix_of` l) ||
  match l with
  | [] => false
  | _ :: l' => ContainsL l' sub
  end.
Definition Contains (s sub : string) : bool := ContainsL (s2l s) (s2l sub).

(** [strings.ContainsAny(s, chars)] for ASCII [chars]. *)
Definition ContainsAny (s chars : string) : bool :=
  existsb (fun c => bool_decide (c ∈ s2l chars)) (s2l s).

Definition index_byte (c : ascii) (l : list ascii) : option nat :=
  fst <$> list_find (fun x => x = c) l.
Definition last_index_byte (c : ascii) (l : list ascii) : option nat :=
  i ← index_byte c (reverse l); Some (length l - 1 - i).

(** * Splitting and joining *)

(** [strings.Split(s, sep)] for a one-byte separator. *)
Fixpoint splitL (sep : ascii) (l : list ascii) : list (list ascii) :=
  match l with
  | [] => [[]]
  | c :: l' =>
      if decide (c = sep) then [] :: splitL sep l'
      else match splitL sep l' with
           | x :: xs => (c :: x) :: xs
           | [] => [[c]]
           end
  end.
Definition Split (s : string) (sep : ascii) : list string := l2s <$> splitL sep (s2l s).

Fixpoint Join (parts : list string) (sep : string) : string :=
  match parts with
  | [] => ""
  | [p] => p
  | p :: ps => p +:+ sep +:+ Join ps sep
  end.

(** [strings.Fields]: the maximal runs without white space. *)
Definition emit_field (cur : list ascii) (rest : list (list ascii)) : list (list ascii) :=
  match cur with
  | [] => rest
  | _ => reverse cur :: rest
  end.

Fixpoint fieldsL (l : list ascii) (cur : list ascii) : list (list ascii) :=
  match l with
  | [] => emit_field cur []
  | a :: l1 =>
      if space1 a then emit_field cur (fieldsL l1 []) else
      match l1 with
      | [] => emit_field (a :: cur) []
      | b :: l2 =>
          if space2 a b then emit_field cur (fieldsL l2 []) else
          match l2 with
          | [] => fieldsL l1 (a :: cur)
          | c :: l3 =>
              if space3 a b c then emit_field cur (fieldsL l3 [])
              else fieldsL l1 (a :: cur)
          end
      end
  end.
Definition Fields (s : string) : list string := l2s <$> fieldsL (s2l s) [].

(** [strings.TrimRight] and [strings.Trim] with a one-character ASCII cutset. *)
Fixpoint drop_byte (c : ascii) (l : list ascii) : list ascii :=
  match l with
  | x :: l' => if decide (x = c) then drop_byte c l' else l
  | [] => []
  end.
Definition trim_right_byte (c : ascii) (l : list ascii) : list ascii :=
  reverse (drop_byte c (reverse l)).
Definition TrimRight (s : string) (c : ascii) : string := l2s (trim_right_byte c (s2l s)).
Definition Trim (s : string) (c : ascii) : string :=
  l2s (trim_right_byte c (drop_byte c (s2l s))).

(** [strings.ReplaceAll] for a non-empty [old]: [skip] counts the bytes of an
    occurrence still to be dropped. *)
Fixpoint replaceL (old new : list ascii) (l : list ascii) (skip : nat) : list ascii :=
  match l with
  | [] => []
  | c :: l' =>
      match skip with
      | S k => replaceL old new l' k
      | 0 =>
          if bool_decide (old `prefix_of` l)
          then new ++ replaceL old new l' (length old - 1)
          else c :: replaceL old new l' 0
      end
  end.
Definition ReplaceAll (s old new : string) : string :=
  l2s (replaceL (s2l old) (s2l new) (s2l s) 0).

(** * Byte-wise order of [sort.Strings] *)

Fixpoint leL (l1 l2 : list ascii) : bool :=
  match l1, l2 with
  | [], _ => true
  | _ :: _, [] => false
  | a :: l1', b :: l2' =>
      (code a <? code b) || ((code a =? code b) && leL l1' l2')
  end.
Definition str_le (s t : string) : Prop := leL (s2l s) (s2l t) = true.
#[global] Instance str_le_dec s t : Decision (str_le s t) := decide (_ = true).

(** * Lemmas *)

Example TrimSpace_ex : TrimSpace (" a b" +:+ l2s [byte 0xC2; byte 0xA0; byte 10]) = "a b".
Proof. reflexivity. Qed.
Example ToLower_ex : ToLower (l2s [byte 0xE2; byte 0x84; byte 0xAA] +:+ "UBE-1") = "kube-1".
Proof. reflexivity. Qed.
Example Fields_ex : Fields " /netgrant  approve a/b" = ["/netgrant"; "approve"; "a/b"].
Proof. reflexivity. Qed.
Example ReplaceAll_ex : ReplaceAll "xaaay" "aa" "." = "x.ay".
Proof. reflexivity. Qed.

Lemma code_inj a b : code a = code b -> a = b.
Proof.
  unfold code. intros H. by rewrite <- (Ascii.ascii_nat_embedding a), H,
    Ascii.ascii_nat_embedding.
Qed.

Lemma leL_refl l : leL l l = true.
Proof. induction l as [|a l IH]; cbn; [done|]. by rewrite Nat.eqb_refl, IH, orb_true_r. Qed.

Lemma leL_total l1 : forall l2, leL l1 l2 = true \/ leL l2 l1 = true.
Proof.
  induction l1 as [|a l1 IH]; intros [|b l2]; cbn [leL]; auto.
  destruct (Nat.ltb_spec (code a) (code b)); [left; done|].
  destruct (Nat.ltb_spec (code b) (code a)); [right; done|].
  assert (Hab : code a = code b) by lia. rewrite Hab, Nat.eqb_refl. apply IH.
Qed.

Lemma leL_trans l1 : forall l2 l3, leL l1 l2 = true -> leL l2 l3 = true -> leL l1 l3 = true.
Proof.
  induction l1 as [|a l1 IH]; intros [|b l2] [|c l3]; cbn [leL]; try done.
  rewrite !orb_true_iff, !andb_true_iff, !Nat.ltb_lt, !Nat.eqb_eq.
  intros [?|[? ?]] [?|[? ?]]; [left; lia | left; lia | left; lia | right].
  split; [congruence | eauto].
Qed.

Lemma leL_antisym l1 : forall l2, leL l1 l2 = true -> leL l2 l1 = true -> l1 = l2.
Proof.
  induction l1 as [|a l1 IH]; intros [|b l2]; cbn [leL]; try done.
  rewrite !orb_true_iff, !andb_true_iff, !Nat.ltb_lt, !Nat.eqb_eq.
  intros [?|[H ?]] [?|[? ?]]; try lia. apply code_inj in H as ->. f_equal. eauto.
Qed.

#[global] Instance str_le_total : Total str_le.
Proof. intros s t. apply leL_total. Qed.
#[global] Instance str_le_trans : Transitive str_le.
Proof. intros s t u. apply leL_trans. Qed.
#[global] Instance str_le_antisymm : AntiSymm (=) str_le.
Proof. intros s t H1 H2. apply s2l_inj. by apply leL_antisym. Qed.

Lemma ToLowerL_length_le n : forall l, (length l < n)%nat -> (length (ToLowerL l) <= length l)%nat.
Proof.
  induction n as [|n IH]; [lia|].
  intros [|a [|b [|c l]]] Hn; cbn [length] in *; [done | done | |].
  - cbn. destruct (_ && _)%nat; cbn; lia.
  - pose proof (IH l ltac:(lia)). pose proof (IH (c :: l) ltac:(cbn; lia)).
    pose proof (IH (b :: c :: l) ltac:(cbn; lia)). cbn [length] in *.
    change (ToLowerL (a :: b :: c :: l)) with
      (if ((code a =? 0xC4) && (code b =? 0xB0))%nat then byte 105 :: ToLowerL (c :: l)
       else if ((code a =? 0xE2) && (code b =? 0x84) && (code c =? 0xAA))%nat
       then byte 107 :: ToLowerL l
       else lower_byte a :: ToLowerL (b :: c :: l)).
    repeat case_match; cbn [length]; lia.
Qed.

Lemma ToLower_length s : (String.length (ToLower s) <= String.length s)%nat.
Proof.
  unfold ToLower. rewrite <- !s2l_length, s2l_l2s. eapply ToLowerL_length_le, Nat.lt_succ_diag_r.
Qed.

Lemma splitL_nonempty sep l : splitL sep l <> [].
Proof. destruct l as [|c l]; cbn; [done|]. repeat case_match; done. Qed.

(** The pieces of a split contain no separator, and joining them again gives
    the string. *)
Lemma splitL_no_sep sep l x : x ∈ splitL sep l -> sep ∉ x.
Proof.
  revert x. induction l as [|c l IH]; intros x; cbn.
  - intros ->%list_elem_of_singleton. apply not_elem_of_nil.
  - case_decide as Hc.
    + intros [->|H]%elem_of_cons; [apply not_elem_of_nil | auto].
    + destruct (splitL sep l) as [|y ys] eqn:Hs; [by apply splitL_nonempty in Hs|].
      intros [->|H]%elem_of_cons.
      * intros [H|H]%elem_of_cons; [done|]. by eapply IH; [constructor|].
      * apply IH. by constructor.
Qed.

Fixpoint joinL (sep : ascii) (ls : list (list ascii)) : list ascii :=
  match ls with
  | [] => []
  | [x] => x
  | x :: xs => x ++ sep :: joinL sep xs
  end.

Lemma joinL_splitL sep l : joinL sep (splitL sep l) = l.
Proof.
  induction l as [|c l IH]; cbn [splitL]; [done|].
  destruct (splitL sep l) as [|y ys] eqn:Hs; [by apply splitL_nonempty in Hs|].
  case_decide as Hc; [subst c; cbn in *; by rewrite IH|].
  destruct ys; cbn in *; by rewrite <- IH.
Qed.

Lemma splitL_none sep l : sep ∉ l -> splitL sep l = [l].
Proof.
  induction l as [|c l IH]; cbn; [done|]. intros [Hc Hl]%not_elem_of_cons.
  rewrite decide_False by congruence. by rewrite IH.
Qed.

Lemma splitL_app sep l1 l2 : sep ∉ l1 -> splitL sep (l1 ++ sep :: l2) = l1 :: splitL sep l2.
Proof.
  induction l1 as [|c l1 IH]; intros Hl; cbn; [by rewrite decide_True|].
  apply not_elem_of_cons in Hl as [Hc Hl].
  rewrite decide_False by congruence. by rewrite IH.
Qed.

Lemma splitL_sep sep l1 l2 : splitL sep (l1 ++ sep :: l2) = splitL sep l1 ++ splitL sep l2.
Proof.
  induction l1 as [|c l1 IH]; cbn; [by rewrite decide_True|].
  case_decide; [by rewrite IH|]. rewrite IH.
  destruct (splitL sep l1) eqn:Hs; [by apply splitL_nonempty in Hs | done].
Qed.

Lemma splitL_joinL sep ls : ls <> [] -> Forall (fun x => sep ∉ x) ls ->
  splitL sep (joinL sep ls) = ls.
Proof.
  intros Hne H. induction H as [|x ls Hx H IH]; [done|].
  destruct ls as [|y ls]; [by apply splitL_none|].
  change (joinL sep (x :: y :: ls)) with (x ++ sep :: joinL sep (y :: ls)).
  rewrite splitL_app by done. by rewrite IH.
Qed.

Lemma ContainsL_spec l sub : ContainsL l sub = true <-> exists l1 l2, l = l1 ++ sub ++ l2.
Proof.
  induction l as [|c l IH]; cbn [ContainsL]; rewrite orb_true_iff, bool_decide_eq_true.
  - split; [intros [[k ->]|]; [by exists [], k | done]|].
    intros (l1 & l2 & H). symmetry in H. apply app_nil in H as [-> H].
    apply app_nil in H as [-> ->]. by left.
  - rewrite IH. split.
    + intros [[k ->]|(l1 & l2 & ->)]; [by exists [], k | by exists (c :: l1), l2].
    + intros ([|a l1] & l2 & H); cbn in H; [left; by exists l2|].
      injection H as -> ->. right. eauto.
Qed.

Lemma Contains_byte s c : Contains s (String c "") = true <-> c ∈ s2l s.
Proof.
  unfold Contains. rewrite ContainsL_spec. cbn. split.
  - intros (l1 & l2 & ->). set_solver.
  - intros (l1 & l2 & ->)%list_elem_of_split. eauto.
Qed.

Lemma ContainsAny_spec s cs :
  ContainsAny s cs = true <-> exists c, c ∈ s2l s /\ c ∈ s2l cs.
Proof.
  unfold ContainsAny. rewrite existsb_elem_of.
  split; intros (c & ? & H); exists c; (split; [done|]); by apply bool_decide_eq_true in H
    || by apply bool_decide_eq_true.
Qed.

Lemma HasPrefix_spec s p : HasPrefix s p = true <-> exists t, s = p +:+ t.
Proof.
  unfold HasPrefix. rewrite bool_decide_eq_true. split.
  - intros [k Hk]. exists (l2s k). apply s2l_inj. by rewrite s2l_app, s2l_l2s.
  - intros [t ->]. rewrite s2l_app. by apply prefix_app_r.
Qed.

Lemma HasSuffix_spec s p : HasSuffix s p = true <-> exists t, s = t +:+ p.
Proof.
  unfold HasSuffix. rewrite bool_decide_eq_true. split.
  - intros [k Hk]. exists (l2s k). apply s2l_inj. by rewrite s2l_app, s2l_l2s.
  - intros [t ->]. rewrite s2l_app. by exists (s2l t).
Qed.

Lemma str_length_l2s l : String.length (l2s l) = length l.
Proof. by rewrite <- s2l_length, s2l_l2s. Qed.
Lemma str_length_app s t : String.length (s +:+ t) = String.length s + String.length t.
Proof. by rewrite <- !s2l_length, s2l_app, length_app. Qed.

Lemma TrimPrefix_app p t : TrimPrefix (p +:+ t) p = t.
Proof using Type.
  unfold TrimPrefix. rewrite (proj2 (HasPrefix_spec _ _)) by by exists t.
  by rewrite s2l_app, <- s2l_length, drop_app_length, l2s_s2l.
Qed.

Lemma drop_byte_none c l : c ∉ l -> drop_byte c l = l.
Proof. destruct l as [|x l]; [done|]. intros [Hc _]%not_elem_of_cons. cbn. by rewrite decide_False. Qed.
Lemma Trim_none s c : c ∉ s2l s -> Trim s c = s.
Proof.
  intros Hc. unfold Trim, trim_right_byte. rewrite (drop_byte_none c (s2l s)) by done.
  rewrite drop_byte_none by by rewrite elem_of_reverse. by rewrite reverse_involutive, l2s_s2l.
Qed.
Lemma Split_none s c : c ∉ s2l s -> Split s c = [s].
Proof. intros Hc. unfold Split. rewrite splitL_none by done. cbn. by rewrite l2s_s2l. Qed.
Lemma Split_app s t c : c ∉ s2l s -> Split (s +:+ String c t) c = s :: Split t c.
Proof.
  intros Hc. unfold Split. rewrite s2l_app. cbn [s2l String.list_ascii_of_string]. rewrite splitL_app by done.
  cbn. by rewrite l2s_s2l.
Qed.
Lemma TrimSpace_solid s : Forall solid (s2l s) -> TrimSpace s = s.
Proof. intros Hs. unfold TrimSpace. by rewrite TrimSpaceL_solid, l2s_s2l. Qed.

#[global] Arguments TrimSpace : simpl never.
#[global] Arguments ToLower : simpl never.
#[global] Arguments EqualFold : simpl never.
#[global] Arguments HasPrefix : simpl never.
#[global] Arguments HasSuffix : simpl never.
#[global] Arguments TrimPrefix : simpl never.
#[global] Arguments TrimSuffix : simpl never.
#[global] Arguments Contains : simpl never.
#[global] Arguments ContainsAny : simpl never.
#[global] Arguments Split : simpl never.
