(* ===== verification/GoNum.v ===== *)
(** Go's machine integers, [strconv], [encoding/hex] and [time], as far as the
    program uses them.

    A time is a count of nanoseconds since January 1, year 1 UTC, so Go's zero
    time is 0; a [time.Duration] is a signed 64-bit count of nanoseconds. *)
From S2P Require Export GoStrings.
From stdpp Require Import options.

Open Scope Z_scope.

(** * Fixed-width integers *)

Definition wrap32 (z : Z) : Z := (z + 2 ^ 31) mod 2 ^ 32 - 2 ^ 31.
Definition wrap64 (z : Z) : Z := (z + 2 ^ 63) mod 2 ^ 64 - 2 ^ 63.

Definition int32_range (z : Z) : Prop := - 2 ^ 31 <= z < 2 ^ 31.
Definition int64_range (z : Z) : Prop := - 2 ^ 63 <= z < 2 ^ 63.

Lemma wrap32_id z : int32_range z -> wrap32 z = z.
Proof. unfold int32_range, wrap32. intros H. rewrite Z.mod_small; lia. Qed.
Lemma wrap64_id z : int64_range z -> wrap64 z = z.
Proof. unfold int64_range, wrap64. intros H. rewrite Z.mod_small; lia. Qed.
Lemma wrap32_range z : int32_range (wrap32 z).
Proof.
  unfold int32_range, wrap32. pose proof (Z.mod_pos_bound (z + 2 ^ 31) (2 ^ 32)). lia.
Qed.

(** * strconv *)

(** [fmt.Sprintf("%d", z)], [strconv.Itoa]. *)
Definition Itoa (z : Z) : string := pretty z.

Definition digit_val (c : ascii) : option Z :=
  if ((48 <=? code c) && (code c <=? 57))%nat
  then Some (Z.of_nat (code c) - 48) else None.

Fixpoint parse_digits (acc : Z) (l : list ascii) : option Z :=
  match l with
  | [] => Some acc
  | c :: l' =>
      match digit_val c with
      | Some d => parse_digits (10 * acc + d) l'
      | None => None
      end
  end.

(** An optional sign and at least one decimal digit. *)
Definition parse_decimal (s : string) : option Z :=
  match s2l s with
  | [] => None
  | c :: l =>
      if decide (code c = 43%nat) then
        match l with [] => None | _ => parse_digits 0 l end
      else if decide (code c = 45%nat) then
        match l with [] => None | _ => Z.opp <$> parse_digits 0 l end
      else parse_digits 0 (c :: l)
  end.

(** [strconv.ParseInt(s, 10, bits)]. *)
Definition ParseInt (s : string) (bits : Z) : option Z :=
  n ← parse_decimal s;
  if decide (- 2 ^ (bits - 1) <= n < 2 ^ (bits - 1)) then Some n else None.

(** [strconv.Atoi] ([int] has 64 bits). *)
Definition Atoi (s : string) : option Z := ParseInt s 64.

Lemma ParseInt_range s bits n :
  ParseInt s bits = Some n -> - 2 ^ (bits - 1) <= n < 2 ^ (bits - 1).
Proof.
  unfold ParseInt. intros H. apply bind_Some in H as (m & _ & H). by case_decide; simplify_eq.
Qed.

Example Atoi_ex : (Atoi "443", Atoi "-1", Atoi "", Atoi "4x", Atoi "9223372036854775808")
  = (Some 443, Some (-1), None, None, None).
Proof. vm_compute. done. Qed.

(** * encoding/hex *)

Definition hex_digit (n : nat) : ascii := if (n <? 10)%nat then byte (48 + n) else byte (87 + n).
Definition hex_val (c : ascii) : option nat :=
  if ((48 <=? code c) && (code c <=? 57))%nat then Some (code c - 48)%nat
  else if ((97 <=? code c) && (code c <=? 102))%nat then Some (code c - 87)%nat
  else if ((65 <=? code c) && (code c <=? 70))%nat then Some (code c - 55)%nat
  else None.

Fixpoint hex_encodeL (l : list ascii) : list ascii :=
  match l with
  | [] => []
  | c :: l' => hex_digit (code c / 16) :: hex_digit (code c mod 16) :: hex_encodeL l'
  end.
Definition hex_encode (l : list ascii) : string := l2s (hex_encodeL l).

Fixpoint hex_decodeL (l : list ascii) : option (list ascii) :=
  match l with
  | [] => Some []
  | [_] => None
  | a :: b :: l' =>
      x ← hex_val a; y ← hex_val b; r ← hex_decodeL l';
      Some (byte (16 * x + y) :: r)
  end.
Definition hex_decode (s : string) : option (list ascii) := hex_decodeL (s2l s).

Lemma code_lt c : (code c < 256)%nat.
Proof. apply Ascii.nat_ascii_bounded. Qed.
Lemma byte_code c : byte (code c) = c.
Proof. apply Ascii.ascii_nat_embedding. Qed.
Lemma code_byte n : (n < 256)%nat -> code (byte n) = n.
Proof. apply Ascii.nat_ascii_embedding. Qed.

Lemma hex_val_digit n : (n < 16)%nat -> hex_val (hex_digit n) = Some n.
Proof.
  intros H. do 16 (destruct n as [|n]; [reflexivity|]). lia.
Qed.

Lemma hex_decode_encode l : hex_decode (hex_encode l) = Some l.
Proof.
  unfold hex_decode, hex_encode. rewrite s2l_l2s.
  induction l as [|c l IH]; [done|]. cbn [hex_encodeL hex_decodeL].
  pose proof (code_lt c). rewrite !hex_val_digit.
  - cbn [mbind option_bind]. rewrite IH. cbn [mbind option_bind].
    by rewrite <- Nat.div_mod_eq, byte_code.
  - apply Nat.Div0.div_lt_upper_bound. lia.
  - apply Nat.mod_upper_bound. lia.
Qed.

#[global] Instance hex_encode_inj : Inj (=) (=) hex_encode.
Proof.
  intros l1 l2 H. apply (f_equal hex_decode) in H.
  rewrite !hex_decode_encode in H. by injection H.
Qed.

(** Hexadecimal digits are not white space. *)
Lemma hex_digit_plain n : (n < 16)%nat ->
  (48 <= code (hex_digit n) <= 57)%nat \/ (97 <= code (hex_digit n) <= 102)%nat.
Proof. intros H. do 16 (destruct n as [|n]; [vm_compute; lia|]). lia. Qed.

(** * time *)

Definition second : Z := 10 ^ 9.
Definition minute : Z := 60 * second.
Definition hour : Z := 60 * minute.
Definition day : Z := 24 * hour.

Definition IsZero (t : Z) : bool := t =? 0.
Definition Before (t u : Z) : bool := t <? u.
Definition After (t u : Z) : bool := u <? t.

(** [t.Sub(u)] saturates at the range of [time.Duration]. *)
Definition time_sub (t u : Z) : Z := Z.max (- 2 ^ 63) (Z.min (2 ^ 63 - 1) (t - u)).

(** [time.Duration(n) * time.Second] *)
Definition seconds (n : Z) : Z := wrap64 (n * second).

Lemma seconds_int32 n : int32_range n -> seconds n = n * second.
Proof. unfold int32_range, seconds, second. intros H. apply wrap64_id. unfold int64_range. lia. Qed.

(** [t.Unix()] *)
Definition Unix (t : Z) : Z := t / second - 719162 * 86400.

(** The civil date of a day count since January 1, year 1 (proleptic Gregorian
    calendar): (year, month, day). *)
Definition civil (days : Z) : Z * Z * Z :=
  let z := days + 306 in
  let era := z / 146097 in
  let doe := z mod 146097 in
  let yoe := (doe - doe / 1460 + doe / 36524 - doe / 146096) / 365 in
  let doy := doe - (365 * yoe + yoe / 4 - yoe / 100) in
  let mp := (5 * doy + 2) / 153 in
  let d := doy - (153 * mp + 2) / 5 + 1 in
  let m := if mp <? 10 then mp + 3 else mp - 9 in
  let y := yoe + era * 400 + (if m <=? 2 then 1 else 0) in
  (y, m, d).

Fixpoint pad (n : nat) (z : Z) : string :=
  match n with
  | O => ""
  | S n' => pad n' (z / 10) +:+ String (byte (48 + Z.to_nat (z mod 10))) ""
  end.

(** [t.Format("2006-01-02")], [t.Format("20060102-150405")] and
    [t.Format(time.RFC3339)] of a UTC time. *)
Definition format_date (t : Z) : string :=
  let '(y, m, d) := civil (t / day) in
  pad 4 y +:+ "-" +:+ pad 2 m +:+ "-" +:+ pad 2 d.
Definition format_slug (t : Z) : string :=
  let '(y, m, d) := civil (t / day) in
  pad 4 y +:+ pad 2 m +:+ pad 2 d +:+ "-" +:+ pad 2 (t mod day / hour)
  +:+ pad 2 (t mod hour / minute) +:+ pad 2 (t mod minute / second).
Definition format_rfc3339 (t : Z) : string :=
  format_date t +:+ "T" +:+ pad 2 (t mod day / hour) +:+ ":"
  +:+ pad 2 (t mod hour / minute) +:+ ":" +:+ pad 2 (t mod minute / second) +:+ "Z".

(** [t.Format(time.RFC3339Nano)]: the fraction without trailing zeros. *)
Definition format_rfc3339nano (t : Z) : string :=
  let frac := t mod second in
  let digits := trim_right_byte (byte 48) (s2l (pad 9 frac)) in
  format_date t +:+ "T" +:+ pad 2 (t mod day / hour) +:+ ":"
  +:+ pad 2 (t mod hour / minute) +:+ ":" +:+ pad 2 (t mod minute / second)
  +:+ (if decide (frac = 0) then "" else "." +:+ l2s digits) +:+ "Z".

(** 2024-02-29T12:34:56.5Z *)
Example format_ex :
  let t := (738944 * 86400 + 12 * 3600 + 34 * 60 + 56) * second + 500000000 in
  (format_date t, format_slug t, format_rfc3339nano t)
  = ("2024-02-29", "20240229-123456", "2024-02-29T12:34:56.5Z").
Proof. vm_compute. done. Qed.

(** * Decimal round trip *)

Definition is_digit (c : ascii) : Prop := (48 <= code c <= 57)%nat.

Lemma pretty_char_digit n : (n < 10)%N ->
  is_digit (pretty_N_char n) /\ digit_val (pretty_N_char n) = Some (Z.of_N n).
Proof.
  intros H. assert (Hall : Forall (fun k => (48 <= code (pretty_N_char (N.of_nat k)) <= 57)%nat
    /\ digit_val (pretty_N_char (N.of_nat k)) = Some (Z.of_nat k)) (seq 0 10)).
  { repeat (constructor; [vm_compute; split; [lia | done]|]). constructor. }
  rewrite list.Forall_forall in Hall. destruct (Hall (N.to_nat n)) as [Hc Hv]; [apply elem_of_seq; lia|].
  rewrite N2Nat.id in Hc, Hv. split; [done|]. by rewrite Hv, N_nat_Z.
Qed.

Lemma parse_digits_app l1 l2 : forall acc,
  parse_digits acc (l1 ++ l2) = acc' ← parse_digits acc l1; parse_digits acc' l2.
Proof.
  induction l1 as [|c l1 IH]; intros acc; [done|]. cbn. destruct (digit_val c); [apply IH | done].
Qed.

Lemma pretty_go_digits : forall (x : N) s, exists ds,
  s2l (pretty_N_go x s) = ds ++ s2l s /\ Forall is_digit ds /\ ((0 < x)%N -> ds <> [])
  /\ forall acc, parse_digits acc ds = Some (acc * 10 ^ Z.of_nat (length ds) + Z.of_N x).
Proof.
  induction x as [x IH] using (well_founded_induction N.lt_wf_0); intros s.
  destruct (decide (x = 0)%N) as [->|Hx].
  - exists []. rewrite pretty_N_go_0. split; [done|]. split; [constructor|]. split; [lia|].
    intros acc. cbn. f_equal. lia.
  - rewrite pretty_N_go_step by lia.
    destruct (IH (x `div` 10)%N ltac:(apply N.div_lt; lia) (String (pretty_N_char (x `mod` 10)) s))
      as (ds & Heq & Hd & _ & Hp).
    destruct (pretty_char_digit (x `mod` 10)%N ltac:(apply N.mod_lt; lia)) as [Hc Hv].
    exists (ds ++ [pretty_N_char (x `mod` 10)]). split; [|split; [|split]].
    + rewrite Heq. change (s2l (String ?c s)) with (c :: s2l s). by rewrite <- app_assoc.
    + apply list.Forall_app. split; [done|]. by apply list.Forall_singleton.
    + intros _ ?%app_eq_nil. naive_solver.
    + intros acc. rewrite parse_digits_app, Hp. cbn. rewrite Hv. f_equal.
      rewrite length_app, Nat2Z.inj_add, Z.pow_add_r by lia. cbn.
      pose proof (N.div_mod x 10 ltac:(lia)). lia.
Qed.

(** A decimal numeral: an optional minus sign and digits. *)
Lemma Itoa_shape z : exists sign ds, s2l (Itoa z) = sign ++ ds /\ (sign = [] \/ sign = [byte 45])
  /\ Forall is_digit ds /\ ds <> [] /\ (0 <= z -> sign = [])
  /\ parse_digits 0 ds = Some (Z.abs z) /\ (z < 0 -> sign = [byte 45]).
Proof.
  assert (Hpos : forall p, exists ds, s2l (pretty (Npos p)) = ds /\ Forall is_digit ds /\ ds <> []
    /\ parse_digits 0 ds = Some (Zpos p)).
  { intros p. destruct (pretty_go_digits (Npos p) "") as (ds & Heq & Hd & Hne & Hp).
    exists ds. rewrite app_nil_r in Heq. split; [done|]. split; [done|]. split; [by apply Hne|].
    rewrite Hp. f_equal. }
  unfold Itoa. destruct z as [|p|p].
  - exists [], [byte 48]. split; [done|]. split; [by left|]. split; [repeat constructor; vm_compute; lia|].
    split; [done|]. split; [done|]. split; [done | lia].
  - destruct (Hpos p) as (ds & Heq & Hd & Hne & Hp). exists [], ds. split; [exact Heq|].
    split; [by left|]. split; [done|]. split; [done|]. split; [done|]. split; [done | lia].
  - destruct (Hpos p) as (ds & Heq & Hd & Hne & Hp). exists [byte 45], ds.
    split; [by rewrite <- Heq|]. split; [by right|]. split; [done|]. split; [done|]. split; [lia|]. done.
Qed.

Lemma Itoa_parse z : parse_decimal (Itoa z) = Some z.
Proof.
  destruct (Itoa_shape z) as (sign & ds & Heq & Hs & Hd & Hne & Hpos & Hp & Hneg).
  unfold parse_decimal. rewrite Heq. destruct (decide (0 <= z)).
  - rewrite (Hpos l). cbn [app]. destruct ds as [|c ds]; [done|].
    inversion Hd as [|? ? Hc]; subst. unfold is_digit in Hc. rewrite !decide_False by lia.
    rewrite Hp. f_equal. lia.
  - rewrite Hneg by lia. cbn [app]. rewrite decide_False by (vm_compute; lia).
    rewrite decide_True by done. destruct ds; [done|]. rewrite Hp. cbn. f_equal. lia.
Qed.

Lemma Atoi_Itoa z : int64_range z -> Atoi (Itoa z) = Some z.
Proof.
  intros H. unfold Atoi, ParseInt. rewrite Itoa_parse. cbn. by rewrite decide_True.
Qed.

Lemma Itoa_not_in c z : (code c < 45 \/ 57 < code c)%nat -> c ∉ s2l (Itoa z).
Proof.
  intros Hc Hin. destruct (Itoa_shape z) as (sign & ds & Heq & Hs & Hd & _).
  rewrite Heq, elem_of_app in Hin. destruct Hin as [Hin|Hin].
  - destruct Hs as [->| ->]; [by apply not_elem_of_nil in Hin|].
    apply list_elem_of_singleton in Hin as ->. vm_compute in Hc. lia.
  - rewrite list.Forall_forall in Hd. specialize (Hd c Hin). unfold is_digit in Hd. lia.
Qed.

Lemma Itoa_solid z : Forall solid (s2l (Itoa z)).
Proof.
  apply list.Forall_forall. intros c Hc. assert (Hr : (45 <= code c <= 57)%nat).
  { destruct (decide (45 <= code c <= 57)%nat); [done|]. exfalso. apply (Itoa_not_in c z); [lia | done]. }
  split; [lia|]. unfold space1. rewrite (proj2 (Nat.leb_gt (code c) 13)) by lia.
  rewrite andb_false_r. apply Nat.eqb_neq. lia.
Qed.

Lemma pretty_go_length k : forall (x : N) s, Z.of_N x < 10 ^ Z.of_nat k ->
  (String.length (pretty_N_go x s) <= k + String.length s)%nat.
Proof.
  induction k as [|k IH]; intros x s Hx.
  - assert (x = 0%N) as -> by (cbn in Hx; lia). rewrite pretty_N_go_0. lia.
  - destruct (decide (x = 0)%N) as [->|Hnz]; [rewrite pretty_N_go_0; lia|].
    rewrite pretty_N_go_step by lia.
    rewrite Nat2Z.inj_succ, Z.pow_succ_r in Hx by lia.
    etransitivity; [apply IH | cbn; lia].
    rewrite N2Z.inj_div. apply Z.div_lt_upper_bound; lia.
Qed.

Lemma Itoa_length k z : (1 <= k)%nat -> 0 <= z < 10 ^ Z.of_nat k ->
  (String.length (Itoa z) <= k)%nat.
Proof.
  intros Hk Hz. unfold Itoa. destruct z as [|p|p]; [cbn; lia | | lia].
  change (pretty (Zpos p)) with (pretty_N_go (Npos p) "").
  pose proof (pretty_go_length k (Npos p) "" ltac:(cbn; lia)). cbn [String.length] in *. lia.
Qed.
