(* ===== verification/GoTime.v ===== *)
(** [time.Parse] for the layouts [time.RFC3339] and [time.RFC3339Nano], which
    accept the same inputs, and its round trip with [Format]. *)
From S2P Require Export GoNum.
From stdpp Require Import options.
Open Scope Z_scope.

(** Of Go's parser: [getnum] (one or two digits, or exactly two), [skip] of a
    one-byte prefix, the four digits of a year. *)
Definition getnum (fixed : bool) (l : list ascii) : option (Z * list ascii) :=
  match l with
  | a :: l1 =>
      x ← digit_val a;
      match l1 with
      | b :: l2 =>
          match digit_val b with
          | Some y => Some (x * 10 + y, l2)
          | None => if fixed then None else Some (x, l1)
          end
      | [] => if fixed then None else Some (x, l1)
      end
  | [] => None
  end.

Definition skip (c : ascii) (l : list ascii) : option (list ascii) :=
  match l with
  | a :: l' => if decide (a = c) then Some l' else None
  | [] => None
  end.

Definition getyear (l : list ascii) : option (Z * list ascii) :=
  if (length l <? 4)%nat then None else y ← parse_digits 0 (take 4 l); Some (y, drop 4 l).

(** A fraction of a second, in nanoseconds: a comma or a period and digits, of
    which the first nine count. *)
Fixpoint digits_of (l : list ascii) : list ascii :=
  match l with
  | c :: l' => match digit_val c with Some _ => c :: digits_of l' | None => [] end
  | [] => []
  end.
Definition getfrac (l : list ascii) : option (Z * list ascii) :=
  match l with
  | c :: l' =>
      let ds := digits_of l' in
      if negb (bool_decide (c = byte 46 \/ c = byte 44)) || bool_decide (ds = []) then Some (0, l) else
      let used := take 9 ds in
      ns ← parse_digits 0 used;
      Some (ns * 10 ^ Z.of_nat (9 - length used), drop (length ds) l')
  | [] => Some (0, l)
  end.

(** The zone: [Z], or a sign, hours, a colon and minutes; in seconds. *)
Definition getzone (l : list ascii) : option (Z * list ascii) :=
  match l with
  | c :: l' =>
      if decide (c = byte 90) then Some (0, l') else
      '(h, l1) ← getnum true l';
      l2 ← skip (byte 58) l1;
      '(m, l3) ← getnum true l2;
      if (24 <? h) || (60 <? m) then None else
      let off := (h * 60 + m) * 60 in
      if decide (c = byte 43) then Some (off, l3)
      else if decide (c = byte 45) then Some (- off, l3) else None
  | [] => None
  end.

Definition isLeap (y : Z) : bool :=
  (y mod 4 =? 0) && (negb (y mod 100 =? 0) || (y mod 400 =? 0)).
Definition daysIn (m y : Z) : Z :=
  if m =? 2 then (if isLeap y then 29 else 28)
  else if (m =? 4) || (m =? 6) || (m =? 9) || (m =? 11) then 30 else 31.

(** The days from January 1, year 1 to a civil date. *)
Definition days_of (y m d : Z) : Z :=
  let y := if m <=? 2 then y - 1 else y in
  let era := y / 400 in
  let yoe := y mod 400 in
  let mp := if 2 <? m then m - 3 else m + 9 in
  let doy := (153 * mp + 2) / 5 + d - 1 in
  era * 146097 + (yoe * 365 + yoe / 4 - yoe / 100 + doy) - 306.

Definition parse_rfc3339L (l : list ascii) : option Z :=
  '(y, l) ← getyear l; l ← skip (byte 45) l;
  '(mo, l) ← getnum true l; l ← skip (byte 45) l;
  '(d, l) ← getnum true l; l ← skip (byte 84) l;
  '(h, l) ← getnum false l; l ← skip (byte 58) l;
  '(mi, l) ← getnum true l; l ← skip (byte 58) l;
  '(s, l) ← getnum true l;
  '(ns, l) ← getfrac l;
  '(z, l) ← getzone l;
  if bool_decide (l = []) && (1 <=? mo) && (mo <=? 12) && (1 <=? d) && (d <=? daysIn mo y)
     && (h <? 24) && (mi <? 60) && (s <? 60)
  then Some ((((days_of y mo d * 24 + h) * 60 + mi) * 60 + s - z) * second + ns) else None.
Definition parse_rfc3339 (s : string) : option Z := parse_rfc3339L (s2l s).

Example parse_rfc3339_ex :
  (parse_rfc3339 "2024-02-29T12:34:56.5Z", parse_rfc3339 "2024-02-29T14:04:56,50+01:30",
   parse_rfc3339 "2023-02-29T12:34:56Z", parse_rfc3339 "1970-01-01T0:00:00Z", parse_rfc3339 "")
  = (Some ((738944 * 86400 + 12 * 3600 + 34 * 60 + 56) * second + 500000000),
     Some ((738944 * 86400 + 12 * 3600 + 34 * 60 + 56) * second + 500000000),
     None, Some (719162 * 86400 * second), None).
Proof. vm_compute. done. Qed.

(** * Civil dates *)

(** The computation of [civil] within an era of 400 years, and its inverse. *)
Definition doe_ok (doe : Z) : bool :=
  let yoe := (doe - doe / 1460 + doe / 36524 - doe / 146096) / 365 in
  let doy := doe - (365 * yoe + yoe / 4 - yoe / 100) in
  let mp := (5 * doy + 2) / 153 in
  let d := doy - (153 * mp + 2) / 5 + 1 in
  let m := if mp <? 10 then mp + 3 else mp - 9 in
  (0 <=? yoe) && (yoe <? 400) && (0 <=? mp) && (mp <=? 11) && (1 <=? d)
  && (d <=? daysIn m (yoe + (if m <=? 2 then 1 else 0)))
  && (yoe * 365 + yoe / 4 - yoe / 100 + ((153 * mp + 2) / 5 + d - 1) =? doe).

Fixpoint all_from (n : nat) (z : Z) (f : Z -> bool) : bool :=
  match n with
  | O => true
  | S n' => f z && all_from n' (z + 1) f
  end.

Lemma all_from_spec n : forall z f x, all_from n z f = true -> z <= x < z + Z.of_nat n -> f x = true.
Proof.
  induction n as [|n IH]; intros z f x H Hx; [lia|]. cbn in H. apply andb_prop in H as [H1 H2].
  destruct (decide (x = z)) as [->|]; [done|]. apply (IH (z + 1)); [done | lia].
Qed.

(** The days before the year [y] of an era (from March), and the year of a day. *)
Definition year_start (y : Z) : Z := 365 * y + y / 4 - y / 100 + y / 400.
Definition year_of (doe : Z) : Z := (doe - doe / 1460 + doe / 36524 - doe / 146096) / 365.

Lemma year_of_mono a b : 0 <= a -> a <= b -> year_of a <= year_of b.
Proof.
  intros Ha Hab. unfold year_of. apply Z.div_le_mono; [lia|].
  assert (H1 : b / 1460 - a / 1460 <= b - a).
  { pose proof (Z.div_mod a 1460 ltac:(lia)). pose proof (Z.div_mod b 1460 ltac:(lia)).
    pose proof (Z.mod_pos_bound a 1460 ltac:(lia)). pose proof (Z.mod_pos_bound b 1460 ltac:(lia)).
    pose proof (Z.div_le_mono a b 1460 ltac:(lia) Hab). lia. }
  assert (H2 : a / 36524 - a / 146096 <= b / 36524 - b / 146096).
  { change 146096 with (36524 * 4). rewrite <- !Z.div_div by lia.
    pose proof (Z.div_le_mono a b 36524 ltac:(lia) Hab) as Hq. revert Hq.
    generalize (a / 36524) (b / 36524). intros p q Hq.
    pose proof (Z.div_mod p 4 ltac:(lia)). pose proof (Z.div_mod q 4 ltac:(lia)).
    pose proof (Z.mod_pos_bound p 4 ltac:(lia)). pose proof (Z.mod_pos_bound q 4 ltac:(lia)).
    pose proof (Z.div_le_mono p q 4 ltac:(lia) Hq). lia. }
  lia.
Qed.

(** The 400 years of an era, by their first and last days. *)
Definition year_ok (y : Z) : bool :=
  (year_of (year_start y) =? y) && (year_of (year_start (y + 1) - 1) =? y)
  && (year_start (y + 1) - year_start y <=? if isLeap (y + 1) then 366 else 365)
  && (year_start y =? y * 365 + y / 4 - y / 100) && (0 <=? year_start y).
Lemma years_ok : all_from 400 0 year_ok = true.
Proof. vm_compute. reflexivity. Qed.

(** The 366 days of a year: the last one exists in leap years only. *)
Definition day_ok (doy : Z) : bool :=
  let mp := (5 * doy + 2) / 153 in
  let d := doy - (153 * mp + 2) / 5 + 1 in
  let m := if mp <? 10 then mp + 3 else mp - 9 in
  (0 <=? mp) && (mp <=? 11) && (1 <=? d) && (d <=? daysIn m (if doy =? 365 then 4 else 1))
  && (negb (doy =? 365) || (m =? 2)).
Lemma days_ok : all_from 366 0 day_ok = true.
Proof. vm_compute. reflexivity. Qed.

Lemma year_exists doe n : 0 <= doe < year_start (Z.of_nat n) ->
  exists y, 0 <= y < Z.of_nat n /\ year_start y <= doe < year_start (y + 1).
Proof.
  induction n as [|n IH]; intros Hd; [change (year_start (Z.of_nat 0)) with 0 in Hd; lia|].
  destruct (decide (doe < year_start (Z.of_nat n))) as [Hlt|Hge].
  - destruct IH as (y & Hy & ?); [lia|]. exists y. split; [lia | done].
  - exists (Z.of_nat n). replace (Z.of_nat n + 1) with (Z.of_nat (S n)) by lia. lia.
Qed.

Lemma daysIn_nonleap m y : daysIn m 1 <= daysIn m y.
Proof. unfold daysIn. destruct (m =? 2); [by destruct (isLeap y) | done]. Qed.

Lemma doe_all doe : 0 <= doe < 146097 -> doe_ok doe = true.
Proof.
  intros Hd. destruct (year_exists doe 400 Hd) as (y & Hy & Hlo & Hhi).
  pose proof (all_from_spec 400 0 year_ok y years_ok ltac:(lia)) as Hok. unfold year_ok in Hok.
  rewrite !andb_true_iff, !Z.leb_le, !Z.eqb_eq in Hok. destruct Hok as ((((H1 & H2) & H3) & H4) & H0).
  assert (Hyear : year_of doe = y).
  { pose proof (year_of_mono (year_start y) doe). pose proof (year_of_mono doe (year_start (y + 1) - 1)).
    lia. }
  unfold doe_ok. fold (year_of doe). rewrite Hyear. cbv zeta.
  replace (doe - (365 * y + y / 4 - y / 100)) with (doe - year_start y) by lia.
  set (doy := doe - year_start y).
  assert (Hdoy : 0 <= doy < 366) by (subst doy; destruct (isLeap (y + 1)); lia).
  pose proof (all_from_spec 366 0 day_ok doy days_ok ltac:(lia)) as Hday. unfold day_ok in Hday.
  cbv zeta in Hday. revert Hday.
  set (mp := (5 * doy + 2) / 153). set (d := doy - (153 * mp + 2) / 5 + 1).
  set (m := if mp <? 10 then mp + 3 else mp - 9).
  rewrite !andb_true_iff, !Z.leb_le, Z.ltb_lt, orb_true_iff, negb_true_iff, !Z.eqb_eq, Z.eqb_neq.
  intros ((((Hm0 & Hm) & Hd1) & Hd2) & Hfeb).
  assert (Hdim : d <= daysIn m (y + (if m <=? 2 then 1 else 0))).
  { destruct (Z.eqb_spec doy 365) as [He|]; [|etransitivity; [exact Hd2 | apply daysIn_nonleap]].
    destruct Hfeb as [?|Hm2]; [lia|]. rewrite Hm2 in *.
    destruct (isLeap (y + 1)) eqn:Hleap; [|subst doy; lia].
    change (daysIn 2 4) with 29 in Hd2. change (2 <=? 2) with true. cbv iota.
    unfold daysIn. rewrite Hleap. exact Hd2. }
  fold mp. fold d. fold m. split_and!; (done || lia).
Qed.

Lemma daysIn_era m y e : daysIn m (y + e * 400) = daysIn m y.
Proof.
  unfold daysIn, isLeap.
  replace (y + e * 400) with (y + (e * 100) * 4) at 1 by lia. rewrite Z_mod_plus_full.
  replace (y + e * 400) with (y + (e * 4) * 100) at 1 by lia. rewrite Z_mod_plus_full.
  by rewrite Z_mod_plus_full.
Qed.

Lemma civil_inverse z : let '(y, m, d) := civil z in
  days_of y m d = z /\ 1 <= m <= 12 /\ 1 <= d <= daysIn m y.
Proof.
  unfold civil. cbv zeta.
  set (era := (z + 306) / 146097). set (doe := (z + 306) mod 146097).
  assert (Hz : z = era * 146097 + doe - 306).
  { subst era doe. pose proof (Z.div_mod (z + 306) 146097). lia. }
  assert (Hd : doe_ok doe = true).
  { apply doe_all. subst doe. apply Z.mod_pos_bound. lia. }
  clearbody era doe. revert Hd. unfold doe_ok. cbv zeta.
  set (yoe := (doe - doe / 1460 + doe / 36524 - doe / 146096) / 365).
  set (mp := (5 * (doe - (365 * yoe + yoe / 4 - yoe / 100)) + 2) / 153).
  set (d := doe - (365 * yoe + yoe / 4 - yoe / 100) - (153 * mp + 2) / 5 + 1).
  rewrite !andb_true_iff, !Z.leb_le, Z.ltb_lt, Z.eqb_eq. intros ((((((Hy0 & Hy) & Hm0) & Hm) & Hd1) & Hd2) & Heq).
  clearbody yoe mp d. subst z.
  assert (Hday : forall k, (yoe + era * 400 + k - k) / 400 = era /\ (yoe + era * 400 + k - k) mod 400 = yoe).
  { intros k. replace (yoe + era * 400 + k - k) with (yoe + era * 400) by lia.
    rewrite Z.div_add, Z_mod_plus_full, Z.div_small, Z.mod_small by lia. lia. }
  unfold days_of. destruct (Z.ltb_spec mp 10).
  - destruct (Z.leb_spec (mp + 3) 2); [lia|]. destruct (Z.ltb_spec 2 (mp + 3)); [|lia].
    destruct (Hday 0) as [Ha Hb]. rewrite Z.sub_0_r in Ha, Hb. rewrite Ha, Hb.
    replace (mp + 3 - 3) with mp by lia. split; [lia|]. split; [lia|]. split; [done|].
    revert Hd2. rewrite Z.add_0_r. replace (yoe + era * 400 + 0) with (yoe + era * 400) by lia.
    by rewrite daysIn_era.
  - destruct (Z.leb_spec (mp - 9) 2); [|lia]. destruct (Z.ltb_spec 2 (mp - 9)); [lia|].
    destruct (Hday 1) as [Ha Hb]. rewrite Ha, Hb.
    replace (mp - 9 + 9) with mp by lia. split; [lia|]. split; [lia|]. split; [done|].
    revert Hd2. replace (yoe + era * 400 + 1) with (yoe + 1 + era * 400) by lia. by rewrite daysIn_era.
Qed.

(** * Parsing what [Format] writes *)

Lemma digit_val_byte x : 0 <= x < 10 -> digit_val (byte (48 + Z.to_nat x)) = Some x.
Proof.
  intros Hx. unfold digit_val. rewrite code_byte by lia.
  destruct (Nat.leb_spec 48 (48 + Z.to_nat x)); [|lia].
  destruct (Nat.leb_spec (48 + Z.to_nat x) 57); [|lia]. cbn [andb]. f_equal. lia.
Qed.

Lemma pad_spec n : forall z, 0 <= z < 10 ^ Z.of_nat n -> length (s2l (pad n z)) = n
  /\ (forall acc, parse_digits acc (s2l (pad n z)) = Some (acc * 10 ^ Z.of_nat n + z))
  /\ Forall (fun c => is_Some (digit_val c)) (s2l (pad n z)).
Proof.
  induction n as [|n IH]; intros z Hz.
  - cbn in Hz. assert (z = 0) as -> by lia. split; [done|]. split; [|constructor].
    intros acc. cbn. f_equal. lia.
  - rewrite Nat2Z.inj_succ, Z.pow_succ_r in Hz |- * by lia.
    pose proof (Z.div_mod z 10 ltac:(lia)) as Hdm. pose proof (Z.mod_pos_bound z 10 ltac:(lia)).
    destruct (IH (z / 10)) as (Hl & Hp & Hf); [split; [apply Z.div_pos; lia | apply Z.div_lt_upper_bound; lia]|].
    cbn [pad]. rewrite s2l_app. change (s2l (String ?c "")) with [c].
    pose proof (digit_val_byte (z mod 10) ltac:(lia)) as Hd.
    split; [rewrite length_app, Hl; cbn; lia|]. split.
    + intros acc. rewrite parse_digits_app, Hp. cbn [mbind option_bind parse_digits]. rewrite Hd. f_equal. lia.
    + apply list.Forall_app. split; [done|]. constructor; [by eexists | constructor].
Qed.

Lemma getnum_pad fixed z l : 0 <= z < 100 -> getnum fixed (s2l (pad 2 z) ++ l) = Some (z, l).
Proof.
  intros Hz. destruct (pad_spec 2 z) as (Hl & Hp & _); [cbn; lia|].
  destruct (s2l (pad 2 z)) as [|a [|b [|? ?]]]; try done. specialize (Hp 0). cbn in Hp |- *.
  destruct (digit_val a) as [x|]; [|done]. destruct (digit_val b) as [y|]; [|done].
  injection Hp as Hp. cbn. do 2 f_equal; lia.
Qed.

Lemma getyear_pad y l : 0 <= y < 10000 -> getyear (s2l (pad 4 y) ++ l) = Some (y, l).
Proof.
  intros Hy. destruct (pad_spec 4 y) as (Hl & Hp & _); [cbn; lia|]. unfold getyear.
  destruct (Nat.ltb_spec (length (s2l (pad 4 y) ++ l)) 4) as [Hlt|_].
  - rewrite length_app in Hlt. lia.
  - rewrite take_app_length' by done. rewrite drop_app_length' by done. rewrite Hp. cbn [mbind option_bind].
    do 2 f_equal; lia.
Qed.

Lemma skip_cons c l : skip c (c :: l) = Some l.
Proof. unfold skip. by rewrite decide_True. Qed.

Lemma trim_right_byte_spec c l : exists k, l = trim_right_byte c l ++ replicate k c.
Proof.
  unfold trim_right_byte.
  assert (Hd : forall l, exists k, l = replicate k c ++ drop_byte c l).
  { induction l0 as [|x l0 [k IH]]; [by exists 0%nat|]. cbn. case_decide; [subst|by exists 0%nat].
    exists (S k). cbn. by rewrite <- IH. }
  destruct (Hd (reverse l)) as [k Hk]. exists k. apply (f_equal reverse) in Hk.
  rewrite reverse_involutive, reverse_app in Hk. by rewrite reverse_replicate in Hk.
Qed.

Lemma parse_zeros k : forall acc, parse_digits acc (replicate k (byte 48)) = Some (acc * 10 ^ Z.of_nat k).
Proof.
  induction k as [|k IH]; intros acc; [cbn; f_equal; lia|].
  rewrite Nat2Z.inj_succ, Z.pow_succ_r by lia. cbn [replicate parse_digits].
  change (digit_val (byte 48)) with (Some 0). cbv iota beta. rewrite IH. f_equal. lia.
Qed.

Lemma digits_of_app ds c l : Forall (fun c => is_Some (digit_val c)) ds -> digit_val c = None ->
  digits_of (ds ++ c :: l) = ds.
Proof.
  intros Hd Hc. induction Hd as [|x ds [v Hx] _ IH]; cbn; [by rewrite Hc | by rewrite Hx, IH].
Qed.

Lemma getfrac_pad frac l : 0 < frac < 10 ^ 9 ->
  getfrac (byte 46 :: trim_right_byte (byte 48) (s2l (pad 9 frac)) ++ byte 90 :: l)
  = Some (frac, byte 90 :: l).
Proof.
  intros Hf. destruct (pad_spec 9 frac) as (Hl & Hp & Hd); [lia|].
  destruct (trim_right_byte_spec (byte 48) (s2l (pad 9 frac))) as [k Hk].
  set (ds := trim_right_byte _ _) in *. clearbody ds.
  rewrite Hk in Hd. apply list.Forall_app in Hd as [Hd _].
  rewrite Hk, length_app, length_replicate in Hl.
  specialize (Hp 0). rewrite Hk, parse_digits_app in Hp.
  destruct (parse_digits 0 ds) as [v|] eqn:Hv; [|done]. cbn [mbind option_bind] in Hp. rewrite parse_zeros in Hp.
  injection Hp as Hp. unfold getfrac. rewrite digits_of_app by done.
  rewrite bool_decide_true by by left.
  rewrite bool_decide_false by (intros ->; injection Hv as <-; lia). cbn [negb orb].
  rewrite take_ge by lia. rewrite Hv. cbn [mbind option_bind]. rewrite drop_app_length' by done.
  do 2 f_equal. replace (9 - length ds)%nat with k by lia. done.
Qed.

Lemma format_fields t : s2l (format_rfc3339nano t) =
  let '(y, m, d) := civil (t / day) in
  s2l (pad 4 y) ++ byte 45 :: s2l (pad 2 m) ++ byte 45 :: s2l (pad 2 d) ++ byte 84
  :: s2l (pad 2 (t mod day / hour)) ++ byte 58 :: s2l (pad 2 (t mod hour / minute))
  ++ byte 58 :: s2l (pad 2 (t mod minute / second))
  ++ (if decide (t mod second = 0) then []
      else byte 46 :: trim_right_byte (byte 48) (s2l (pad 9 (t mod second)))) ++ [byte 90].
Proof.
  unfold format_rfc3339nano, format_date. destruct (civil (t / day)) as [[y m] d].
  rewrite !s2l_app. rewrite <- !(assoc_L (++)). repeat case_decide; [done|].
  rewrite s2l_app, s2l_l2s. done.
Qed.

(** The years that [Format] writes with four digits: 1 to 9999. *)
Definition four_digit_years : Z := 3652059 * day.

Lemma civil_year z : 0 <= z < 3652059 -> let '(y, _, _) := civil z in 0 <= y < 10000.
Proof.
  intros Hz. pose proof (civil_inverse z) as H. destruct (civil z) as [[y m] d].
  destruct H as (Hd & Hm & Hdd). unfold days_of in Hd.
  set (y' := if m <=? 2 then y - 1 else y) in *.
  assert (Hy : y' <= y <= y' + 1) by (subst y'; destruct (m <=? 2); lia).
  assert (Hdim : daysIn m y <= 31).
  { unfold daysIn. destruct (m =? 2); [by destruct (isLeap y)|]. by destruct (_ || _). }
  set (mp := if 2 <? m then m - 3 else m + 9) in *.
  assert (Hmp : 0 <= mp <= 11) by (subst mp; destruct (Z.ltb_spec 2 m); lia).
  assert (Hdoy : 0 <= (153 * mp + 2) / 5 <= 337).
  { split; [apply Z.div_pos; lia | apply Z.div_le_upper_bound; lia]. }
  pose proof (Z.mod_pos_bound y' 400 ltac:(lia)). pose proof (Z.div_mod y' 400 ltac:(lia)).
  assert (Hq : 0 <= y' mod 400 / 4 - y' mod 400 / 100 <= 99).
  { pose proof (Z.div_lt_upper_bound (y' mod 400) 4 100 ltac:(lia) ltac:(lia)).
    pose proof (Z.div_pos (y' mod 400) 100 ltac:(lia) ltac:(lia)).
    pose proof (Z.div_le_compat_l (y' mod 400) 4 100 ltac:(lia) ltac:(lia)). lia. }
  split; [lia|]. destruct (decide (y' = 9999)) as [Hy9|]; [|lia].
  rewrite Hy9 in Hd. change (9999 / 400) with 24 in Hd. change (9999 mod 400) with 399 in Hd.
  change (399 / 4) with 99 in Hd. change (399 / 100) with 3 in Hd.
  subst y' mp. destruct (Z.leb_spec m 2); [|lia]. destruct (Z.ltb_spec 2 m); [lia|].
  pose proof (Z.div_le_mono (153 * 10 + 2) (153 * (m + 9) + 2) 5 ltac:(lia) ltac:(lia)) as Hmo.
  change ((153 * 10 + 2) / 5) with 306 in Hmo. lia.
Qed.

Lemma time_fields t : 0 <= t ->
  0 <= t mod day / hour < 24 /\ 0 <= t mod hour / minute < 60 /\ 0 <= t mod minute / second < 60
  /\ 0 <= t mod second < second
  /\ t = ((((t / day) * 24 + t mod day / hour) * 60 + t mod hour / minute) * 60
          + t mod minute / second) * second + t mod second.
Proof.
  intros Ht. assert (Hgen : forall a b, 0 < b -> 0 < a -> 0 <= t mod (a * b) / b < a
    /\ t mod (a * b) = (t mod (a * b) / b) * b + t mod b).
  { intros a b Hb Ha. pose proof (Z.mod_pos_bound t (a * b) ltac:(lia)).
    split; [split; [apply Z.div_pos; lia | apply Z.div_lt_upper_bound; lia]|].
    pose proof (Z.div_mod (t mod (a * b)) b ltac:(lia)) as Hd.
    assert (t mod (a * b) mod b = t mod b) as Hm.
    { rewrite (Z.mul_comm a b), Z.rem_mul_r by lia.
      by rewrite (Z.mul_comm b), Z_mod_plus_full, Z.mod_mod by lia. }
    rewrite Hm in Hd. lia. }
  destruct (Hgen 24 hour ltac:(done) ltac:(done)) as [Hh Eh].
  destruct (Hgen 60 minute ltac:(done) ltac:(done)) as [Hm Em].
  destruct (Hgen 60 second ltac:(done) ltac:(done)) as [Hs Es].
  change (24 * hour) with day in *. change (60 * minute) with hour in *. change (60 * second) with minute in *.
  pose proof (Z.mod_pos_bound t second ltac:(done)). pose proof (Z.div_mod t day ltac:(done)) as Ed.
  split; [done|]. split; [done|]. split; [done|]. split; [done|].
  revert Ed Eh Em Es. generalize (t / day) (t mod day / hour) (t mod hour / minute)
    (t mod minute / second) (t mod day) (t mod hour) (t mod minute) (t mod second).
  unfold day, hour, minute, second. lia.
Qed.

(** What [Format] writes with the layout [time.RFC3339Nano] is parsed back to the
    same time, for the times of the years 1 to 9999. *)
Lemma parse_format t : 0 <= t < four_digit_years ->
  parse_rfc3339 (format_rfc3339nano t) = Some t.
Proof.
  intros [Ht0 Ht]. unfold parse_rfc3339. rewrite format_fields.
  assert (Hz : 0 <= t / day < 3652059).
  { split; [apply Z.div_pos; done | apply Z.div_lt_upper_bound; [done | by rewrite Z.mul_comm]]. }
  pose proof (civil_inverse (t / day)) as Hc. pose proof (civil_year (t / day) Hz) as Hy.
  destruct (civil (t / day)) as [[y m] d]. destruct Hc as (Hday & Hm & Hd).
  assert (Hd31 : d <= 31).
  { revert Hd. unfold daysIn. destruct (m =? 2); [destruct (isLeap y)|destruct (_ || _)]; lia. }
  destruct (time_fields t Ht0) as (Hh & Hmi & Hs & Hns & Heq).
  unfold parse_rfc3339L. rewrite getyear_pad by done. cbn [mbind option_bind]. rewrite skip_cons.
  cbn [mbind option_bind]. rewrite getnum_pad by lia. cbn [mbind option_bind]. rewrite skip_cons.
  cbn [mbind option_bind]. rewrite getnum_pad by lia. cbn [mbind option_bind]. rewrite skip_cons.
  cbn [mbind option_bind]. rewrite getnum_pad by lia. cbn [mbind option_bind]. rewrite skip_cons.
  cbn [mbind option_bind]. rewrite getnum_pad by lia. cbn [mbind option_bind]. rewrite skip_cons.
  cbn [mbind option_bind]. rewrite getnum_pad by lia. cbn [mbind option_bind].
  assert (Hf : getfrac ((if decide (t mod second = 0) then []
      else byte 46 :: trim_right_byte (byte 48) (s2l (pad 9 (t mod second)))) ++ [byte 90])
    = Some (t mod second, [byte 90])).
  { case_decide as H0; [by rewrite H0|]. apply getfrac_pad. unfold second in *. lia. }
  rewrite Hf. cbn [mbind option_bind].
  change (getzone [byte 90]) with (Some (0, @nil ascii)). cbn [mbind option_bind].
  rewrite Hday, Z.sub_0_r, <- Heq.
  destruct (Z.leb_spec 1 m), (Z.leb_spec m 12), (Z.leb_spec 1 d), (Z.leb_spec d (daysIn m y)),
    (Z.ltb_spec (t mod day / hour) 24), (Z.ltb_spec (t mod hour / minute) 60),
    (Z.ltb_spec (t mod minute / second) 60); try lia. done.
Qed.

(** [Format] writes no blanks. *)
Lemma pad_digits n : forall z, Forall (fun c => is_Some (digit_val c)) (s2l (pad n z)).
Proof.
  induction n as [|n IH]; intros z; [constructor|]. cbn [pad]. rewrite s2l_app.
  apply list.Forall_app. split; [apply IH|]. constructor; [|constructor].
  rewrite digit_val_byte; [done | apply Z.mod_pos_bound; lia].
Qed.

Lemma digit_solid c : is_Some (digit_val c) -> solid c.
Proof.
  unfold digit_val, solid, space1. intros [v Hv].
  destruct (Nat.leb_spec 48 (code c)), (Nat.leb_spec (code c) 57); cbn in Hv; try done.
  split; [lia|]. rewrite orb_false_iff, andb_false_iff, !Nat.leb_gt, Nat.eqb_neq. lia.
Qed.

Lemma format_trimmed t : TrimSpace (format_rfc3339nano t) = format_rfc3339nano t.
Proof.
  unfold TrimSpace. rewrite TrimSpaceL_solid; [apply l2s_s2l|]. rewrite format_fields.
  destruct (civil (t / day)) as [[y m] d].
  assert (Hp : forall n z, Forall solid (s2l (pad n z))).
  { intros n z. eapply list.Forall_impl; [apply pad_digits | apply digit_solid]. }
  assert (Hc : forall n, n ∈ [45; 58; 84; 90; 46]%nat -> solid (byte n)).
  { intros n Hn. assert (Hall : Forall (fun n => solid (byte n)) [45; 58; 84; 90; 46]%nat).
    { repeat (constructor; [split; [vm_compute; lia | done]|]). constructor. }
    rewrite list.Forall_forall in Hall. by apply Hall. }
  repeat rewrite ?list.Forall_app, ?list.Forall_cons. rewrite list.Forall_nil.
  split_and!; try (apply Hp || (apply Hc; set_solver)); [|done].
  case_decide; [constructor|]. constructor; [apply Hc; set_solver|].
  destruct (trim_right_byte_spec (byte 48) (s2l (pad 9 (t mod second)))) as [k Hk].
  pose proof (Hp 9%nat (t mod second)) as H9. rewrite Hk in H9. by apply list.Forall_app in H9 as [? _].
Qed.
