(* ===== verification/GoCrypto.v ===== *)
(** SHA-256 and HMAC-SHA256 (Go's [crypto/sha256], [crypto/hmac]) on byte
    lists: FIPS 180-4 and RFC 2104, with 32-bit words as [Z]. *)
From S2P Require Export GoNum.
From stdpp Require Import options.
Open Scope Z_scope.

Definition w32 (z : Z) : Z := z mod 2 ^ 32.
Definition rotr (x n : Z) : Z := Z.lor (Z.shiftr x n) (w32 (Z.shiftl x (32 - n))).
Definition bnot (x : Z) : Z := 2 ^ 32 - 1 - x.

Definition big_sigma0 (x : Z) : Z := Z.lxor (rotr x 2) (Z.lxor (rotr x 13) (rotr x 22)).
Definition big_sigma1 (x : Z) : Z := Z.lxor (rotr x 6) (Z.lxor (rotr x 11) (rotr x 25)).
Definition small_sigma0 (x : Z) : Z := Z.lxor (rotr x 7) (Z.lxor (rotr x 18) (Z.shiftr x 3)).
Definition small_sigma1 (x : Z) : Z := Z.lxor (rotr x 17) (Z.lxor (rotr x 19) (Z.shiftr x 10)).
Definition choose (x y z : Z) : Z := Z.lxor (Z.land x y) (Z.land (bnot x) z).
Definition majority (x y z : Z) : Z := Z.lxor (Z.land x y) (Z.lxor (Z.land x z) (Z.land y z)).

(** The constants, as FIPS 180-4 defines them: 32 bits of the fractional parts of
    the cube roots of the first 64 primes, and of the square roots of the first 8. *)
Definition sha_primes : list Z :=
  [2; 3; 5; 7; 11; 13; 17; 19; 23; 29; 31; 37; 41; 43; 47; 53; 59; 61; 67; 71; 73; 79; 83; 89;
   97; 101; 103; 107; 109; 113; 127; 131; 137; 139; 149; 151; 157; 163; 167; 173; 179; 181; 191;
   193; 197; 199; 211; 223; 227; 229; 233; 239; 241; 251; 257; 263; 269; 271; 277; 281; 283; 293;
   307; 311].
(** The integer cube root, bit by bit from bit [n]. *)
Fixpoint cbrt_from (n : nat) (root x : Z) : Z :=
  let try := root + 2 ^ Z.of_nat n in
  let root := if try * try * try <=? x then try else root in
  match n with O => root | S n' => cbrt_from n' root x end.
Definition sha_k : list Z :=
  Eval vm_compute in (fun p => w32 (cbrt_from 40 0 (p * 2 ^ 96))) <$> sha_primes.
Definition sha_h0 : list Z := Eval vm_compute in (fun p => w32 (Z.sqrt (p * 2 ^ 64))) <$> take 8 sha_primes.

(** A chaining value. *)
Record sha_state := { sa : Z; sb : Z; sc : Z; sd : Z; se : Z; sf : Z; sg : Z; sh : Z }.

Definition sha_init : sha_state :=
  let h i := nth i sha_h0 0 in
  {| sa := h 0%nat; sb := h 1%nat; sc := h 2%nat; sd := h 3%nat;
     se := h 4%nat; sf := h 5%nat; sg := h 6%nat; sh := h 7%nat |}.

(** The 64 rounds, with the message schedule as a window of 16 words. *)
Fixpoint sha_rounds (ks : list Z) (w : list Z) (s : sha_state) : sha_state :=
  match ks with
  | [] => s
  | k :: ks' =>
      let t1 := sh s + big_sigma1 (se s) + choose (se s) (sf s) (sg s) + k + nth 0 w 0 in
      let t2 := big_sigma0 (sa s) + majority (sa s) (sb s) (sc s) in
      let next := w32 (small_sigma1 (nth 14 w 0) + nth 9 w 0 + small_sigma0 (nth 1 w 0) + nth 0 w 0) in
      sha_rounds ks' (drop 1 w ++ [next])
        {| sa := w32 (t1 + t2); sb := sa s; sc := sb s; sd := sc s;
           se := w32 (sd s + t1); sf := se s; sg := sf s; sh := sg s |}
  end.

Definition sha_block (s : sha_state) (w : list Z) : sha_state :=
  let r := sha_rounds sha_k w s in
  {| sa := w32 (sa s + sa r); sb := w32 (sb s + sb r); sc := w32 (sc s + sc r);
     sd := w32 (sd s + sd r); se := w32 (se s + se r); sf := w32 (sf s + sf r);
     sg := w32 (sg s + sg r); sh := w32 (sh s + sh r) |}.

Definition zcode (c : ascii) : Z := Z.of_nat (code c).

(** Big-endian words of a byte list. *)
Fixpoint be_words (l : list ascii) : list Z :=
  match l with
  | a :: b :: c :: d :: l' =>
      (zcode a * 2 ^ 24 + zcode b * 2 ^ 16 + zcode c * 2 ^ 8 + zcode d) :: be_words l'
  | _ => []
  end.

Definition byte_at (z : Z) (shift : Z) : ascii := byte (Z.to_nat (Z.shiftr z shift mod 256)).
Definition be_bytes (z : Z) : list ascii := [byte_at z 24; byte_at z 16; byte_at z 8; byte_at z 0].

Fixpoint sha_blocks (fuel : nat) (w : list Z) (s : sha_state) : sha_state :=
  match fuel, w with
  | S fuel', _ :: _ => sha_blocks fuel' (drop 16 w) (sha_block s (take 16 w))
  | _, _ => s
  end.

(** The message, the bit 1, zeros, and the length in bits on 64 bits. *)
Definition sha_pad (l : list ascii) : list ascii :=
  let n := length l in
  let z := Z.to_nat ((- (Z.of_nat n + 9)) mod 64) in
  let bits := 8 * Z.of_nat n in
  l ++ [byte 128] ++ replicate z (byte 0) ++ be_bytes (Z.shiftr bits 32) ++ be_bytes bits.

Definition sha256 (l : list ascii) : list ascii :=
  let w := be_words (sha_pad l) in
  let s := sha_blocks (length w) w sha_init in
  be_bytes (sa s) ++ be_bytes (sb s) ++ be_bytes (sc s) ++ be_bytes (sd s)
  ++ be_bytes (se s) ++ be_bytes (sf s) ++ be_bytes (sg s) ++ be_bytes (sh s).

Lemma sha256_length l : length (sha256 l) = 32%nat.
Proof. reflexivity. Qed.

Definition xor_byte (n : Z) (c : ascii) : ascii := byte (Z.to_nat (Z.lxor n (zcode c))).

(** [hmac.New(sha256.New, key)], [Write(msg)], [Sum(nil)] *)
Definition hmac_sha256 (key msg : list ascii) : list ascii :=
  let k := if (64 <? length key)%nat then sha256 key else key in
  let k := k ++ replicate (64 - length k) (byte 0) in
  sha256 ((xor_byte 0x5c <$> k) ++ sha256 ((xor_byte 0x36 <$> k) ++ msg)).

Example sha256_ex :
  (hex_encode (sha256 []), hex_encode (sha256 (s2l "abc")),
   hex_encode (sha256 (s2l "abcdbcdecdefdefgefghfghighijhijkijkljklmklmnlmnomnopnopq")))
  = ("e3b0c44298fc1c149afbf4c8996fb92427ae41e4649b934ca495991b7852b855",
     "ba7816bf8f01cfea414140de5dae2223b00361a396177a9cb410ff61f20015ad",
     "248d6a61d20638b8e5c026930c3e6039a33ce45964ff2167f6ecedd419db06c1").
Proof. vm_compute. done. Qed.

Example hmac_ex :
  hex_encode (hmac_sha256 (s2l "key") (s2l "The quick brown fox jumps over the lazy dog"))
  = "f7bc83f430538424b13298e6aa6fb143ef4d59a14946175997479dbc2d1a3cd8".
Proof. vm_compute. done. Qed.

Arguments sha256 : simpl never.
Arguments hmac_sha256 : simpl never.
