(* ===== verification/GoNet.v ===== *)
(** Go's [net] package, as far as the program uses it: [ParseIP], [IP.String],
    the address classes of [net.IP] and [SplitHostPort].

    A [net.IP] is its list of bytes (4 or 16 of them, or none for nil). *)
From S2P Require Export GoNum.
From stdpp Require Import options.

Notation ip_addr := (list Z).

Definition c_dot : ascii := byte 46.
Definition c_colon : ascii := byte 58.
Definition c_percent : ascii := byte 37.
Definition c_lbrack : ascii := byte 91.
Definition c_rbrack : ascii := byte 93.

(** * ParseIP *)

(** One field of a dotted address: digits, no leading zero, at most 255. *)
Definition parse_octet (l : list ascii) : option Z :=
  match l with
  | [] => None
  | c :: l' =>
      if decide (code c = 48%nat /\ l' <> []) then None else
      v ← parse_digits 0 l;
      if v <=? 255 then Some v else None
  end.

Definition parse_v4 (l : list ascii) : option ip_addr :=
  let fields := splitL c_dot l in
  if decide (length fields = 4%nat) then mapM parse_octet fields else None.

(** At most four hexadecimal digits: their value, their number, the rest. *)
Fixpoint hex_group (off : nat) (acc : Z) (s : list ascii) : option (Z * nat * list ascii) :=
  match s with
  | [] => Some (acc, off, [])
  | c :: s' =>
      match hex_val c with
      | Some d =>
          if (3 <? off)%nat then None
          else hex_group (S off) (16 * acc + Z.of_nat d) s'
      | None => Some (acc, off, s)
      end
  end.

(** The fields of an IPv6 address: [ip] holds the bytes read so far, [ell] the
    position of the ellipsis, [fuel] the number of fields that still fit. *)
Fixpoint v6_loop (fuel : nat) (s : list ascii) (ip : ip_addr) (ell : option nat)
    : option (list ascii * ip_addr * option nat) :=
  match fuel with
  | O => Some (s, ip, ell)
  | S fuel' =>
      '(acc, off, rest) ← hex_group 0 0 s;
      if decide (off = 0%nat) then None else
      match rest with
      | [] => Some ([], ip ++ [acc / 256; acc mod 256], ell)
      | c :: rest1 =>
          if decide (c = c_dot) then
            if decide (ell = None /\ length ip <> 12%nat) then None
            else if (16 <? length ip + 4)%nat then None
            else v4 ← parse_v4 s; Some ([], ip ++ v4, ell)
          else if decide (c <> c_colon) then None
          else
            let ip' := ip ++ [acc / 256; acc mod 256] in
            match rest1 with
            | [] => None
            | c2 :: rest2 =>
                if decide (c2 = c_colon) then
                  match ell with
                  | Some _ => None
                  | None =>
                      match rest2 with
                      | [] => Some ([], ip', Some (length ip'))
                      | _ => v6_loop fuel' rest2 ip' (Some (length ip'))
                      end
                  end
                else v6_loop fuel' rest1 ip' ell
            end
      end
  end.

Definition v6_finish (r : list ascii * ip_addr * option nat) : option ip_addr :=
  let '(s, ip, ell) := r in
  match s with
  | _ :: _ => None
  | [] =>
      if (length ip <? 16)%nat then
        e ← ell; Some (take e ip ++ replicate (16 - length ip) 0 ++ drop e ip)
      else match ell with Some _ => None | None => Some ip end
  end.

Definition parse_v6 (l : list ascii) : option ip_addr :=
  match l with
  | a :: b :: l2 =>
      if decide (a = c_colon /\ b = c_colon) then
        match l2 with
        | [] => Some (replicate 16 0)
        | _ => r ← v6_loop 8 l2 [] (Some 0%nat); v6_finish r
        end
      else r ← v6_loop 8 l [] None; v6_finish r
  | _ => r ← v6_loop 8 l [] None; v6_finish r
  end.

Definition v4_in_v6 (v4 : ip_addr) : ip_addr := replicate 10 0 ++ [255; 255] ++ v4.

(** [net.ParseIP]: always 16 bytes; an address with a zone is refused. *)
Definition ParseIP (s : string) : option ip_addr :=
  let l := s2l s in
  match list_find (fun c => c = c_dot \/ c = c_colon \/ c = c_percent) l with
  | Some (_, c) =>
      if decide (c = c_dot) then v4_in_v6 <$> parse_v4 l
      else if decide (c = c_colon) then
        (if decide (c_percent ∈ l) then None else parse_v6 l)
      else None
  | None => None
  end.

(** * Classes *)

Definition To4 (ip : ip_addr) : option ip_addr :=
  if decide (length ip = 4%nat) then Some ip
  else if decide (length ip = 16%nat /\ take 12 ip = replicate 10 0 ++ [255; 255])
  then Some (drop 12 ip) else None.

Definition b_at (ip : ip_addr) (i : nat) : Z := nth i ip 0.

(** [ip.Equal]: an IPv4 address equals its 16-byte form. *)
Definition ip_equal (a b : ip_addr) : bool :=
  match To4 a, To4 b with
  | Some x, Some y => bool_decide (x = y)
  | None, None => bool_decide (a = b)
  | _, _ => false
  end.

Definition IPv4zero : ip_addr := [0; 0; 0; 0].
Definition IPv4bcast : ip_addr := [255; 255; 255; 255].
Definition IPv6unspecified : ip_addr := replicate 16 0.
Definition IPv6loopback : ip_addr := replicate 15 0 ++ [1].

Definition IsUnspecified (ip : ip_addr) : bool :=
  ip_equal ip IPv4zero || ip_equal ip IPv6unspecified.
Definition IsLoopback (ip : ip_addr) : bool :=
  match To4 ip with
  | Some v4 => b_at v4 0 =? 127
  | None => ip_equal ip IPv6loopback
  end.
Definition IsPrivate (ip : ip_addr) : bool :=
  match To4 ip with
  | Some v4 =>
      (b_at v4 0 =? 10)
      || ((b_at v4 0 =? 172) && (Z.land (b_at v4 1) 240 =? 16))
      || ((b_at v4 0 =? 192) && (b_at v4 1 =? 168))
  | None => bool_decide (length ip = 16%nat) && (Z.land (b_at ip 0) 254 =? 252)
  end.
Definition IsMulticast (ip : ip_addr) : bool :=
  match To4 ip with
  | Some v4 => Z.land (b_at v4 0) 240 =? 224
  | None => bool_decide (length ip = 16%nat) && (b_at ip 0 =? 255)
  end.
Definition IsLinkLocalMulticast (ip : ip_addr) : bool :=
  match To4 ip with
  | Some v4 => (b_at v4 0 =? 224) && (b_at v4 1 =? 0) && (b_at v4 2 =? 0)
  | None => bool_decide (length ip = 16%nat) && (b_at ip 0 =? 255)
            && (Z.land (b_at ip 1) 15 =? 2)
  end.
Definition IsLinkLocalUnicast (ip : ip_addr) : bool :=
  match To4 ip with
  | Some v4 => (b_at v4 0 =? 169) && (b_at v4 1 =? 254)
  | None => bool_decide (length ip = 16%nat) && (b_at ip 0 =? 254)
            && (Z.land (b_at ip 1) 192 =? 128)
  end.
Definition IsGlobalUnicast (ip : ip_addr) : bool :=
  bool_decide (length ip = 4%nat \/ length ip = 16%nat)
  && negb (ip_equal ip IPv4bcast)
  && negb (IsUnspecified ip)
  && negb (IsLoopback ip)
  && negb (IsMulticast ip)
  && negb (IsLinkLocalUnicast ip).

(** * IP.String *)

Definition v4_string (v4 : ip_addr) : string :=
  Join (Itoa <$> v4) ".".

Fixpoint groups_of (ip : ip_addr) : list Z :=
  match ip with
  | a :: b :: ip' => 256 * a + b :: groups_of ip'
  | _ => []
  end.

(** Hexadecimal without leading zeros of a 16-bit group. *)
Definition hex16 (g : Z) : string :=
  let n := Z.to_nat g in
  let ds := [n / 4096 mod 16; n / 256 mod 16; n / 16 mod 16; n mod 16]%nat in
  match drop_byte (byte 48) (hex_digit <$> ds) with
  | [] => "0"
  | l => l2s l
  end.

Fixpoint zero_run (gs : list Z) : nat :=
  match gs with
  | g :: gs' => if g =? 0 then S (zero_run gs') else O
  | [] => O
  end.

(** The first longest run of at least two zero groups: (start, end). *)
Definition best_run (gs : list Z) : nat * nat :=
  fold_left (fun best i =>
    let l := zero_run (drop i gs) in
    if (2 <=? l)%nat && (best.2 - best.1 <? l)%nat then (i, i + l)%nat else best)
    (seq 0 8) (255, 255)%nat.

Fixpoint groups_string (gs : list Z) (i : nat) (zs ze : nat) : string :=
  match gs with
  | [] => ""
  | g :: gs' =>
      if (i =? zs)%nat then "::" +:+ groups_string gs' (S i) zs ze
      else if (zs <? i)%nat && (i <? ze)%nat then groups_string gs' (S i) zs ze
      else (if (i =? 0)%nat || (i =? ze)%nat then "" else ":") +:+ hex16 g
           +:+ groups_string gs' (S i) zs ze
  end.

Definition ip_string (ip : ip_addr) : string :=
  match To4 ip with
  | Some v4 => v4_string v4
  | None =>
      let gs := groups_of ip in
      let '(zs, ze) := best_run gs in groups_string gs 0 zs ze
  end.

(** * SplitHostPort *)

Definition SplitHostPort (hostport : string) : result error (string * string) :=
  let addr_err m := Err (Errorf m [VStr hostport]) in
  let l := s2l hostport in
  match last_index_byte c_colon l with
  | None => addr_err "missing port in address"
  | Some i =>
      let finish (host : list ascii) (j k : nat) : result error (string * string) :=
        if decide (c_lbrack ∈ drop j l) then addr_err "unexpected '[' in address"
        else if decide (c_rbrack ∈ drop k l) then addr_err "unexpected ']' in address"
        else Ok (l2s host, l2s (drop (S i) l)) in
      if decide (head l = Some c_lbrack) then
        match index_byte c_rbrack l with
        | None => addr_err "missing ']' in address"
        | Some e =>
            if decide (S e = length l) then addr_err "missing port in address"
            else if decide (S e = i) then finish (take (e - 1) (drop 1 l)) 1%nat (S e)
            else if decide (l !! S e = Some c_colon)
            then addr_err "too many colons in address"
            else addr_err "missing port in address"
        end
      else
        let host := take i l in
        if decide (c_colon ∈ host) then addr_err "too many colons in address"
        else finish host 0%nat 0%nat
  end.

Definition JoinHostPort (host port : string) : string :=
  if decide (c_colon ∈ s2l host) then "[" +:+ host +:+ "]:" +:+ port
  else host +:+ ":" +:+ port.

Example ParseIP_ex :
  (ip_string <$> ParseIP "192.168.1.1", ip_string <$> ParseIP "2001:db8::1:0:0:1",
   ip_string <$> ParseIP "::ffff:10.0.0.1", ip_string <$> ParseIP "::",
   ParseIP "1.2.3", ParseIP "1.2.3.04", ParseIP "fe80::1%eth0", ParseIP "1::2::3")
  = (Some "192.168.1.1", Some "2001:db8::1:0:0:1", Some "10.0.0.1", Some "::",
     None, None, None, None).
Proof. vm_compute. done. Qed.

Example ParseIP_ex2 :
  (ip_string <$> ParseIP "2001:DB8:0:0:1:0:0:1", ip_string <$> ParseIP "fe80::",
   ip_string <$> ParseIP "1:2:3:4:5:6:7:8", ParseIP "1:2:3:4:5:6:7::8", ParseIP "12345::")
  = (Some "2001:db8::1:0:0:1", Some "fe80::", Some "1:2:3:4:5:6:7:8", None, None).
Proof. vm_compute. done. Qed.

Example SplitHostPort_ex :
  (ok_opt (SplitHostPort "github.com:443"), ok_opt (SplitHostPort "[::1]:80"),
   ok_opt (SplitHostPort "::1:80"), ok_opt (SplitHostPort "github.com"))
  = (Some ("github.com", "443"), Some ("::1", "80"), None, None).
Proof. vm_compute. done. Qed.
