(* ===== verification/GoFlag.v ===== *)
(** Go's [flag] package with [flag.ExitOnError], as far as the programs use it:
    string, int, bool, duration and repeated flags; with [strconv.ParseInt] in
    base 0, [strconv.ParseBool] and [time.ParseDuration].

    The fraction of a duration is computed in floating point by Go and exactly
    here: the two differ at most in the nanosecond. *)
From S2P Require Export GoNum.
From stdpp Require Import options.
Open Scope Z_scope.

(** * strconv *)

Definition lower_code (c : ascii) : nat :=
  if ((65 <=? code c) && (code c <=? 90))%nat then (code c + 32)%nat else code c.
Definition digit_of (c : ascii) : option Z :=
  let l := lower_code c in
  if ((48 <=? l) && (l <=? 57))%nat then Some (Z.of_nat (l - 48))
  else if ((97 <=? l) && (l <=? 122))%nat then Some (Z.of_nat (l - 97) + 10)
  else None.

(** The loop of [strconv.ParseUint] with underscores skipped, up to 64 bits;
    with whether there were any. *)
Fixpoint uint_digits (base acc : Z) (und : bool) (l : list ascii) : option (Z * bool) :=
  match l with
  | [] => Some (acc, und)
  | c :: l' =>
      if (code c =? 95)%nat then uint_digits base acc true l' else
      match digit_of c with
      | None => None
      | Some d =>
          if base <=? d then None else
          let acc := acc * base + d in
          if 2 ^ 64 <=? acc then None else uint_digits base acc und l'
      end
  end.

(** The state of [underscoreOK]: what was seen last. *)
Inductive seen := SStart | SDigit | SUnderscore | SOther.
Fixpoint underscores_ok (hex : bool) (i : seen) (l : list ascii) : bool :=
  match l with
  | [] => match i with SUnderscore => false | _ => true end
  | c :: l' =>
      let l := lower_code c in
      if ((48 <=? l) && (l <=? 57) || hex && ((97 <=? l) && (l <=? 102)))%nat
      then underscores_ok hex SDigit l'
      else if (code c =? 95)%nat
      then match i with SDigit => underscores_ok hex SUnderscore l' | _ => false end
      else match i with SUnderscore => false | _ => underscores_ok hex SOther l' end
  end.
Definition underscoreOK (l : list ascii) : bool :=
  match l with
  | z :: p :: l' =>
      if ((code z =? 48) && ((lower_code p =? 98) || (lower_code p =? 111) || (lower_code p =? 120)))%nat
      then underscores_ok (lower_code p =? 120)%nat SDigit l'
      else underscores_ok false SStart l
  | _ => underscores_ok false SStart l
  end.

(** [strconv.ParseUint(s, 0, 64)] *)
Definition parse_uint0 (l : list ascii) : option Z :=
  let '(base, ds) :=
    match l with
    | z :: p :: (_ :: _) as l' =>
        if (code z =? 48)%nat then
          if (lower_code p =? 98)%nat then (2, drop 2 l)
          else if (lower_code p =? 111)%nat then (8, drop 2 l)
          else if (lower_code p =? 120)%nat then (16, drop 2 l)
          else (8, drop 1 l)
        else (10, l)
    | z :: l' => if (code z =? 48)%nat then (8, l') else (10, l)
    | [] => (10, [])
    end in
  if decide (l = []) then None else
  match uint_digits base 0 false ds with
  | None => None
  | Some (n, und) => if und && negb (underscoreOK l) then None else Some n
  end.

(** [strconv.ParseInt(s, 0, 64)] *)
Definition parse_int0 (s : string) : option Z :=
  let l := s2l s in
  match l with
  | [] => None
  | c :: l' =>
      let neg := (code c =? 45)%nat in
      let l := if (neg || (code c =? 43)%nat) then l' else l in
      n ← parse_uint0 l;
      if negb neg && (2 ^ 63 <=? n) then None
      else if neg && (2 ^ 63 <? n) then None
      else Some (if neg : bool then - n else n)
  end.

Definition ParseBool (s : string) : option bool :=
  if decide (s ∈ ["1"; "t"; "T"; "TRUE"; "true"; "True"]) then Some true
  else if decide (s ∈ ["0"; "f"; "F"; "FALSE"; "false"; "False"]) then Some false
  else None.

Example parse_int0_ex :
  (parse_int0 "0x1F", parse_int0 "-0b101", parse_int0 "017", parse_int0 "1_000", parse_int0 "+7", parse_int0 "0")
    = (Some 31, Some (-5), Some 15, Some 1000, Some 7, Some 0)
  /\ (parse_int0 "", parse_int0 "-", parse_int0 "0x", parse_int0 "1__0", parse_int0 "_1", parse_int0 "08",
      parse_int0 "9223372036854775808", parse_int0 "-9223372036854775808")
    = (None, None, None, None, None, None, None, Some (- 2 ^ 63)).
Proof. vm_compute. done. Qed.

(** * time.ParseDuration *)

(** [leadingInt]: the number and the rest; [None] on overflow. *)
Fixpoint leading_int (x : Z) (l : list ascii) : option (Z * list ascii) :=
  match l with
  | [] => Some (x, [])
  | c :: l' =>
      if ((48 <=? code c) && (code c <=? 57))%nat then
        if 2 ^ 63 / 10 <? x then None else
        let x := x * 10 + Z.of_nat (code c - 48) in
        if 2 ^ 63 <? x then None else leading_int x l'
      else Some (x, l)
  end.
(** [leadingFraction]: the digits' value and scale, those beyond an overflow
    ignored, and the rest. *)
Fixpoint leading_fraction (x scale : Z) (overflow : bool) (l : list ascii) : Z * Z * list ascii :=
  match l with
  | [] => (x, scale, [])
  | c :: l' =>
      if ((48 <=? code c) && (code c <=? 57))%nat then
        if overflow then leading_fraction x scale true l' else
        if (2 ^ 63 - 1) / 10 <? x then leading_fraction x scale true l' else
        let y := x * 10 + Z.of_nat (code c - 48) in
        if 2 ^ 63 <? y then leading_fraction x scale true l' else leading_fraction y (scale * 10) false l'
      else (x, scale, l)
  end.
Fixpoint unit_name (l : list ascii) : list ascii * list ascii :=
  match l with
  | [] => ([], [])
  | c :: l' =>
      if ((code c =? 46) || (48 <=? code c) && (code c <=? 57))%nat then ([], l)
      else let '(u, r) := unit_name l' in (c :: u, r)
  end.
Definition duration_unit (u : string) : option Z :=
  if decide (u = "ns") then Some 1 else
  if decide (u = "us" \/ u = l2s [byte 194; byte 181] +:+ "s" \/ u = l2s [byte 206; byte 188] +:+ "s")
  then Some 1000 else
  if decide (u = "ms") then Some 1000000 else
  if decide (u = "s") then Some second else
  if decide (u = "m") then Some minute else
  if decide (u = "h") then Some hour else None.

Definition starts_digit (l : list ascii) : bool :=
  match l with c :: _ => ((48 <=? code c) && (code c <=? 57))%nat | [] => false end.

(** One number with its unit, in nanoseconds. *)
Definition duration_part (l : list ascii) : option (Z * list ascii) :=
  '(v, l1) ← leading_int 0 l;
  let pre := starts_digit l in
  let '(f, scale, l2, post) :=
    match l1 with
    | c :: l1' =>
        if (code c =? 46)%nat
        then let '(f, scale, l2) := leading_fraction 0 1 false l1' in (f, scale, l2, starts_digit l1')
        else (0, 1, l1, false)
    | [] => (0, 1, [], false)
    end in
  if negb pre && negb post then None else
  let '(u, rest) := unit_name l2 in
  unit ← duration_unit (l2s u);
  if 2 ^ 63 / unit <? v then None else
  let v := v * unit + f * unit / scale in
  if 2 ^ 63 <? v then None else Some (v, rest).

(** Each part takes a byte at least: as much fuel as there are bytes. *)
Fixpoint duration_parts (fuel : nat) (d : Z) (l : list ascii) : option Z :=
  match l, fuel with
  | [], _ => Some d
  | _, O => None
  | _, S fuel =>
      '(v, rest) ← duration_part l;
      if 2 ^ 63 <? d + v then None else duration_parts fuel (d + v) rest
  end.

Definition ParseDuration (s : string) : option Z :=
  let l := s2l s in
  let '(neg, l) :=
    match l with
    | c :: l' => if (code c =? 45)%nat then (true, l') else if (code c =? 43)%nat then (false, l') else (false, l)
    | [] => (false, [])
    end in
  if decide (l = [byte 48]) then Some 0 else
  if decide (l = []) then None else
  d ← duration_parts (length l) 0 l;
  if neg : bool then Some (- d) else
  if 2 ^ 63 - 1 <? d then None else Some d.

Example ParseDuration_ex :
  (ParseDuration "20s", ParseDuration "1h30m", ParseDuration "-1.5h", ParseDuration ".5s", ParseDuration "0")
    = (Some (20 * second), Some (90 * minute), Some (- (90 * minute)), Some (second / 2), Some 0)
  /\ (ParseDuration "", ParseDuration "5", ParseDuration "1d", ParseDuration ".s", ParseDuration "2562048h")
    = (None, None, None, None, None).
Proof. vm_compute. done. Qed.

(** * Flags *)

(** The value of a flag, which carries its type. *)
Inductive flag_value :=
| FString (s : string)
| FInt (z : Z)
| FBool (b : bool)
| FDuration (d : Z)
| FMulti (l : list string).

(** [f.Value.Set(s)]; [None] for an error. *)
Definition flag_set (v : flag_value) (s : string) : option flag_value :=
  match v with
  | FString _ => Some (FString s)
  | FInt _ => FInt <$> parse_int0 s
  | FBool _ => FBool <$> ParseBool s
  | FDuration _ => FDuration <$> ParseDuration s
  | FMulti l => Some (FMulti (l ++ [s]))
  end.

Notation flagset := (gmap string flag_value).

Inductive parsed :=
| Parsed (fl : flagset) (args : list string)
| FlagHelp                       (* -h or -help: exit status 0 *)
| FlagError.                     (* exit status 2 *)

(** An argument as a flag: its name, and its value after an equal sign. *)
Inductive flag_arg :=
| NotFlag
| Terminator
| BadFlag
| Flag (name : string) (value : option string).

Definition read_flag (s : string) : flag_arg :=
  if HasPrefix s "-" && (1 <? String.length s)%nat then
    if decide (s = "--") then Terminator else
    let name := if HasPrefix s "--" then str_drop 2 s else str_drop 1 s in
    if decide (name = "") then BadFlag else
    if HasPrefix name "-" || HasPrefix name "=" then BadFlag else
    match index_byte (byte 61) (s2l name) with
    | Some i => Flag (str_take i name) (Some (str_drop (S i) name))
    | None => Flag name None
    end
  else NotFlag.

(** [fs.Parse(args)] *)
Fixpoint flag_parse (fl : flagset) (args : list string) : parsed :=
  match args with
  | [] => Parsed fl []
  | s :: args' =>
      match read_flag s with
      | NotFlag => Parsed fl args
      | Terminator => Parsed fl args'
      | BadFlag => FlagError
      | Flag name value =>
          match fl !! name with
          | None => if decide (name = "help" \/ name = "h") then FlagHelp else FlagError
          | Some (FBool b) =>
              match ParseBool (default "true" value) with
              | Some b => flag_parse (<[name := FBool b]> fl) args'
              | None => FlagError
              end
          | Some old =>
              match value, args' with
              | Some v, _ =>
                  match flag_set old v with
                  | Some new => flag_parse (<[name := new]> fl) args'
                  | None => FlagError
                  end
              | None, v :: args'' =>
                  match flag_set old v with
                  | Some new => flag_parse (<[name := new]> fl) args''
                  | None => FlagError
                  end
              | None, [] => FlagError
              end
          end
      end
  end.

(** The values; a flag of another type does not occur. *)
Definition flag_string (fl : flagset) (name : string) : string :=
  match fl !! name with Some (FString s) => s | _ => "" end.
Definition flag_int (fl : flagset) (name : string) : Z :=
  match fl !! name with Some (FInt z) => z | _ => 0 end.
Definition flag_bool (fl : flagset) (name : string) : bool :=
  match fl !! name with Some (FBool b) => b | _ => false end.
Definition flag_duration (fl : flagset) (name : string) : Z :=
  match fl !! name with Some (FDuration d) => d | _ => 0 end.
Definition flag_multi (fl : flagset) (name : string) : list string :=
  match fl !! name with Some (FMulti l) => l | _ => [] end.

(** ** Parsing, step by step *)

Lemma flag_parse_string fl s name old v args : read_flag s = Flag name None -> fl !! name = Some (FString old) ->
  flag_parse fl (s :: v :: args) = flag_parse (<[name := FString v]> fl) args.
Proof. intros Hr Hl. cbn [flag_parse]. by rewrite Hr, Hl. Qed.
Lemma flag_parse_rest fl s args : read_flag s = NotFlag -> flag_parse fl (s :: args) = Parsed fl (s :: args).
Proof. intros Hr. cbn [flag_parse]. by rewrite Hr. Qed.

Definition demo_flagset : flagset :=
  {["name" := FString "x"; "ttl" := FInt 5; "force" := FBool false; "egress" := FMulti []]}.
Example flag_parse_ex :
  flag_parse demo_flagset ["--name=a=b"; "-ttl"; "-0x10"; "-force"; "--egress"; "h1"; "-egress"; "-h2"; "rest"; "-force"]
    = Parsed {["name" := FString "a=b"; "ttl" := FInt (-16); "force" := FBool true; "egress" := FMulti ["h1"; "-h2"]]}
        ["rest"; "-force"]
  /\ flag_parse demo_flagset ["-ttl"] = FlagError /\ flag_parse demo_flagset ["--nope"] = FlagError
  /\ flag_parse demo_flagset ["-h"] = FlagHelp /\ flag_parse demo_flagset ["-"; "-ttl"] = Parsed demo_flagset ["-"; "-ttl"]
  /\ flag_parse demo_flagset ["--"; "-ttl"] = Parsed demo_flagset ["-ttl"]
  /\ flag_parse demo_flagset ["-force=maybe"] = FlagError /\ flag_parse demo_flagset ["---name"] = FlagError.
Proof. vm_compute. split_and!; reflexivity. Qed.
