(* ===== verification/ApiTypes.v ===== *)
(** The data of the system: the custom resources of [src/api/v1alpha1] and the
    fields the program sets or reads of the Kubernetes objects it manages.

    Enumerations of the API are Go string types and stay strings, since an
    object may carry any string there.  A Go pointer is an [option]; a nil map
    is the empty map.  Times are those of [GoNum] (0 is the zero time). *)
From S2P Require Export GoNum.
From stdpp Require Import options.

(** * metav1 and corev1 *)

Record ObjectMeta := {
  m_Namespace : string;
  m_Name : string;
  m_GenerateName : string;
  m_Labels : gmap string string;
  m_Annotations : gmap string string;
  m_CreationTimestamp : Z;
  m_Generation : Z;
  m_UID : string;
}.

(** [metav1.ObjectMeta{Name: name, Namespace: ns}] *)
Definition new_meta (ns name : string) : ObjectMeta := {|
  m_Namespace := ns; m_Name := name; m_GenerateName := ""; m_Labels := ∅;
  m_Annotations := ∅; m_CreationTimestamp := 0; m_Generation := 0; m_UID := "" |}.

Definition with_labels (m : ObjectMeta) (l : gmap string string) : ObjectMeta := {|
  m_Namespace := m_Namespace m; m_Name := m_Name m; m_GenerateName := m_GenerateName m;
  m_Labels := l; m_Annotations := m_Annotations m;
  m_CreationTimestamp := m_CreationTimestamp m; m_Generation := m_Generation m;
  m_UID := m_UID m |}.

Definition with_annotations (m : ObjectMeta) (a : gmap string string) : ObjectMeta := {|
  m_Namespace := m_Namespace m; m_Name := m_Name m; m_GenerateName := m_GenerateName m;
  m_Labels := m_Labels m; m_Annotations := a;
  m_CreationTimestamp := m_CreationTimestamp m; m_Generation := m_Generation m;
  m_UID := m_UID m |}.

Record Condition := {
  c_Type : string;
  c_Status : string;
  c_Reason : string;
  c_Message : value;
  c_ObservedGeneration : Z;
  c_LastTransitionTime : Z;
}.

#[global] Instance Condition_eq_dec : EqDecision Condition.
Proof. solve_decision. Defined.

Record LabelSelector := {
  ls_MatchLabels : gmap string string;
  ls_MatchExpressions : list value;
}.

Record Toleration := {
  tol_Key : string; tol_Operator : string; tol_Value : string; tol_Effect : string;
}.

(** An environment variable: a literal value, or a key of a secret. *)
Record SecretKeyRef := { skr_Name : string; skr_Key : string; skr_Optional : option bool }.
Record EnvVar := { ev_Name : string; ev_Value : string; ev_ValueFrom : option SecretKeyRef }.

Definition env_val (n v : string) : EnvVar :=
  {| ev_Name := n; ev_Value := v; ev_ValueFrom := None |}.

(** * networkgrant_types.go *)

Definition NetworkGrantPolicyModeStrictFQDN : string := "STRICT_FQDN".
Definition NetworkGrantPolicyModeProxyConnect : string := "PROXY_CONNECT".
Definition NetworkGrantProtocolTCP : string := "TCP".

Record NetworkGrantEgressRule := { er_Host : string; er_Ports : list Z }.

Record NetworkGrantAgentJobRef := { ajr_Name : string }.

Record NetworkGrantSpec := {
  ngs_AgentJobRef : option NetworkGrantAgentJobRef;
  ngs_PodSelector : option LabelSelector;
  ngs_PolicyMode : string;
  ngs_Protocol : string;
  ngs_Purpose : string;
  ngs_Egress : list NetworkGrantEgressRule;
  ngs_DNSAllow : list string;
  ngs_AllowNon443 : bool;
  ngs_TTLSeconds : Z;
  ngs_Approved : bool;
  ngs_ApprovedBy : string;
  ngs_Reason : string;
}.

Record NetworkGrantStatus := {
  ngt_Active : bool;
  ngt_ApprovedAt : Z;
  ngt_ExpiresAt : Z;
  ngt_Conditions : list Condition;
}.

Record NetworkGrant := {
  ng_Meta : ObjectMeta;
  ng_Spec : NetworkGrantSpec;
  ng_Status : NetworkGrantStatus;
}.

Definition zero_ngstatus : NetworkGrantStatus :=
  {| ngt_Active := false; ngt_ApprovedAt := 0; ngt_ExpiresAt := 0; ngt_Conditions := [] |}.

Definition ng_with_status (g : NetworkGrant) (s : NetworkGrantStatus) : NetworkGrant :=
  {| ng_Meta := ng_Meta g; ng_Spec := ng_Spec g; ng_Status := s |}.

(** Assignments to single status fields. *)
Definition ng_set_Active (b : bool) (g : NetworkGrant) : NetworkGrant :=
  let s := ng_Status g in
  ng_with_status g {| ngt_Active := b; ngt_ApprovedAt := ngt_ApprovedAt s;
    ngt_ExpiresAt := ngt_ExpiresAt s; ngt_Conditions := ngt_Conditions s |}.
Definition ng_set_ApprovedAt (t : Z) (g : NetworkGrant) : NetworkGrant :=
  let s := ng_Status g in
  ng_with_status g {| ngt_Active := ngt_Active s; ngt_ApprovedAt := t;
    ngt_ExpiresAt := ngt_ExpiresAt s; ngt_Conditions := ngt_Conditions s |}.
Definition ng_set_ExpiresAt (t : Z) (g : NetworkGrant) : NetworkGrant :=
  let s := ng_Status g in
  ng_with_status g {| ngt_Active := ngt_Active s; ngt_ApprovedAt := ngt_ApprovedAt s;
    ngt_ExpiresAt := t; ngt_Conditions := ngt_Conditions s |}.
Definition ng_set_Conditions (cs : list Condition) (g : NetworkGrant) : NetworkGrant :=
  let s := ng_Status g in
  ng_with_status g {| ngt_Active := ngt_Active s; ngt_ApprovedAt := ngt_ApprovedAt s;
    ngt_ExpiresAt := ngt_ExpiresAt s; ngt_Conditions := cs |}.

(** * agentjob_types.go *)

Record AgentJobGitHubSpec := {
  ajg_Repo : string;
  ajg_PullNumber : Z;
  ajg_HeadSHA : string;
}.

Record AgentJobSpec := {
  ajs_Image : string;
  ajs_Command : list string;
  ajs_Args : list string;
  ajs_Script : string;
  ajs_Workdir : string;
  ajs_GitHub : option AgentJobGitHubSpec;
  ajs_Env : list EnvVar;
  ajs_Resources : value;
  ajs_NodeSelector : gmap string string;
  ajs_Tolerations : list Toleration;
  ajs_RuntimeClassName : option string;
  ajs_TTLSecondsAfterFinished : option Z;
  ajs_PolicyProfile : string;
}.

Record AgentJobStatus := {
  ajt_Phase : string;
  ajt_JobName : string;
  ajt_PodName : string;
  ajt_StartedAt : option Z;
  ajt_CompletedAt : option Z;
  ajt_ExitCode : option Z;
  ajt_ExitReason : string;
  ajt_Conditions : list Condition;
}.

Record AgentJob := {
  aj_Meta : ObjectMeta;
  aj_Spec : AgentJobSpec;
  aj_Status : AgentJobStatus;
}.

Definition zero_ajstatus : AgentJobStatus :=
  {| ajt_Phase := ""; ajt_JobName := ""; ajt_PodName := ""; ajt_StartedAt := None;
     ajt_CompletedAt := None; ajt_ExitCode := None; ajt_ExitReason := "";
     ajt_Conditions := [] |}.

(** * desktop_types.go *)

Definition DesktopConnectivityModePortForward : string := "portforward".
Definition DesktopConnectivityModeRelay : string := "relay".

Record DesktopHomeSeedSpec := {
  dhs_TemplateRef : option string;
  dhs_SnapshotName : option string;
}.

Record DesktopHomeResetSpec := {
  dhr_RequestedAt : option Z;
  dhr_TemplateRef : option string;
  dhr_SnapshotName : option string;
  dhr_RetainOldClaims : Z;
}.

Record DesktopHomeSpec := {
  dh_StorageClassName : option string;
  dh_Size : string;
  dh_Seed : option DesktopHomeSeedSpec;
  dh_Reset : option DesktopHomeResetSpec;
}.

(** [DesktopSSHSpec] and [DesktopConnectivitySpec] have one field each:
    [ds_AuthorizedKeys] is [spec.ssh.authorizedKeys], [ds_ConnectivityMode] is
    [spec.connectivity.mode]. *)
Record DesktopSpec := {
  ds_User : string;
  ds_Image : string;
  ds_AuthorizedKeys : list string;
  ds_ConnectivityMode : string;
  ds_Home : DesktopHomeSpec;
  ds_Resources : value;
  ds_NodeSelector : gmap string string;
  ds_Tolerations : list Toleration;
  ds_SecurityProfile : string;
  ds_Suspended : bool;
  ds_IdleTimeoutSeconds : Z;
}.

Record DesktopStatus := {
  dt_Phase : string;
  dt_Suspended : bool;
  dt_ServiceName : string;
  dt_LastActiveAt : option Z;
  dt_HomeClaimName : string;
  dt_HomeRevision : Z;
  dt_LastResetAt : option Z;
  dt_Conditions : list Condition;
}.

Record Desktop := {
  d_Meta : ObjectMeta;
  d_Spec : DesktopSpec;
  d_Status : DesktopStatus;
}.

(** * hometemplate_types.go *)

Record HomeTemplateSpec := {
  hts_StorageClassName : option string;
  hts_Size : string;
  hts_AccessModes : list string;
  hts_SnapshotClassName : option string;
  hts_IntervalSeconds : Z;
  hts_Retention : Z;
}.

Record HomeTemplateStatus := {
  htt_TemplatePVC : string;
  htt_LatestSnapshot : string;
  htt_LastSnapshotTime : option Z;
  htt_Conditions : list Condition;
}.

Record HomeTemplate := {
  ht_Meta : ObjectMeta;
  ht_Spec : HomeTemplateSpec;
  ht_Status : HomeTemplateStatus;
}.

(** * portshare_types.go *)

Record PortShareDesktopRef := { psr_Name : string }.

Record PortShareSpec := {
  pss_DesktopRef : PortShareDesktopRef;
  pss_RequestedAt : option Z;
  pss_Port : Z;
  pss_ShareLevel : string;
  pss_Protocol : string;
  pss_TTLSeconds : Z;
}.

Record PortShareStatus := {
  pst_Active : bool;
  pst_ServiceName : string;
  pst_ExpiresAt : Z;
  pst_Conditions : list Condition;
}.

Record PortShare := {
  ps_Meta : ObjectMeta;
  ps_Spec : PortShareSpec;
  ps_Status : PortShareStatus;
}.

(** * Labels (internal/controller/common.go) *)

Definition labelApp : string := "workspaces.platform.dev/app".
Definition labelDesktop : string := "workspaces.platform.dev/desktop".
Definition labelAgentJob : string := "workspaces.platform.dev/agentjob".
Definition labelPolicy : string := "workspaces.platform.dev/policy-profile".
Definition labelPortShare : string := "workspaces.platform.dev/portshare".

(** * Objects of other API groups, with the fields the program uses *)

Record Secret := {
  sec_Meta : ObjectMeta; sec_Type : string; sec_Data : gmap string string;
}.

Record ServicePort := {
  sp_Name : string; sp_Port : Z; sp_TargetPort : Z; sp_Protocol : string;
}.
Record Service := {
  svc_Meta : ObjectMeta; svc_Selector : gmap string string; svc_Ports : list ServicePort;
}.

(** A claim; [pvc_DataSource] is (API group, kind, name). *)
Record PVC := {
  pvc_Meta : ObjectMeta;
  pvc_AccessModes : list string;
  pvc_Storage : string;
  pvc_StorageClassName : option string;
  pvc_DataSource : option (string * string * string);
}.

Record Volume := { vol_Name : string; vol_Source : value }.
Record VolumeMount := { vm_Name : string; vm_MountPath : string; vm_ReadOnly : bool }.

Record SecurityContext := {
  sc_AllowPrivilegeEscalation : option bool;
  sc_DropCapabilities : list string;
  sc_ReadOnlyRootFilesystem : option bool;
  sc_RunAsNonRoot : option bool;
  sc_RunAsUser : option Z;
  sc_Seccomp : string;
}.

Record Container := {
  ct_Name : string;
  ct_Image : string;
  ct_Command : list string;
  ct_Args : list string;
  ct_WorkingDir : string;
  ct_Ports : list (string * Z);
  ct_Env : list EnvVar;
  ct_Resources : value;
  ct_VolumeMounts : list VolumeMount;
  ct_SecurityContext : option SecurityContext;
}.

Record PodSpec := {
  pod_RestartPolicy : string;
  pod_RuntimeClassName : option string;
  pod_AutomountServiceAccountToken : option bool;
  pod_EnableServiceLinks : option bool;
  pod_NodeSelector : gmap string string;
  pod_Tolerations : list Toleration;
  pod_Volumes : list Volume;
  pod_InitContainers : list Container;
  pod_Containers : list Container;
}.

Record Deployment := {
  dep_Meta : ObjectMeta;
  dep_Replicas : option Z;
  dep_Strategy : string;
  dep_Selector : option (gmap string string);
  dep_TemplateLabels : gmap string string;
  dep_TemplateAnnotations : gmap string string;
  dep_Pod : PodSpec;
  dep_AvailableReplicas : Z;
}.

(** A batch Job; [job_Conditions] lists (type, status). *)
Record Job := {
  job_Meta : ObjectMeta;
  job_BackoffLimit : option Z;
  job_TTLSecondsAfterFinished : option Z;
  job_TemplateLabels : gmap string string;
  job_Pod : PodSpec;
  job_Conditions : list (string * string);
  job_StartTime : option Z;
  job_CompletionTime : option Z;
}.

Record Terminated := { tm_ExitCode : Z; tm_Reason : string; tm_Message : string }.
Record ContainerStatus := { cs_Name : string; cs_Terminated : option Terminated }.
Record Pod := {
  p_Meta : ObjectMeta;
  p_Phase : string;
  p_PodIP : string;
  p_ContainerStatuses : list ContainerStatus;
}.

(** Unstructured objects: a CiliumNetworkPolicy, a VolumeSnapshot with its
    [status.readyToUse]. *)
Record CNP := { cnp_Meta : ObjectMeta; cnp_Spec : value }.
Record VolumeSnapshot := {
  vs_Meta : ObjectMeta; vs_Spec : value; vs_ReadyToUse : result error (option bool);
}.
