(* ===== verification/Effects.v ===== *)
(** The calls the program makes to the outside world, with the type of the
    answer of each: the Kubernetes API through controller-runtime's [client],
    the clock, randomness, the network, the audit sink.

    Kubernetes is not part of the program: an answer is whatever the API server
    (or the cache) returns, and theorems quantify over all answers. *)
From S2P Require Export ApiTypes.
From stdpp Require Import options.

(** What the program distinguishes of an API error ([apierrors.IsNotFound],
    [apierrors.IsAlreadyExists]). *)
Inductive kerr :=
| NotFound
| AlreadyExists
| OtherErr (e : error).

Definition kerr_error (e : kerr) : error :=
  match e with
  | NotFound => Errorf "not found" []
  | AlreadyExists => Errorf "already exists" []
  | OtherErr e => e
  end.

(** The kinds of objects the program reads or writes. *)
Inductive kind :=
| KNetworkGrant | KAgentJob | KDesktop | KHomeTemplate | KPortShare
| KSecret | KService | KPVC | KDeployment | KJob | KPod | KCNP | KVolumeSnapshot.

Definition obj (k : kind) : Type :=
  match k with
  | KNetworkGrant => NetworkGrant
  | KAgentJob => AgentJob
  | KDesktop => Desktop
  | KHomeTemplate => HomeTemplate
  | KPortShare => PortShare
  | KSecret => Secret
  | KService => Service
  | KPVC => PVC
  | KDeployment => Deployment
  | KJob => Job
  | KPod => Pod
  | KCNP => CNP
  | KVolumeSnapshot => VolumeSnapshot
  end.

(** An HTTP request the program sends, and the answer it gets. *)
Record HttpRequest := {
  hr_Method : string;
  hr_URL : string;
  hr_Headers : list (string * string);
  hr_Body : option value;
}.
Record HttpResponse := { hp_Status : Z; hp_Body : string }.

Inductive eff : Type -> Type :=
(* controller-runtime client *)
| Get (k : kind) (ns name : string) : eff (result kerr (obj k))
| ListNS (k : kind) (ns : string) (matching : gmap string string)
    : eff (result kerr (list (obj k)))
| Create (k : kind) (o : obj k) : eff (result kerr (obj k))
| Patch (k : kind) (o before : obj k) : eff (result kerr (obj k))
| StatusPatch (k : kind) (o before : obj k) : eff (result kerr (obj k))
| DeleteObj (k : kind) (ns name : string) : eff (result kerr unit)
(* controllerutil: the object CreateOrUpdate hands to its callback (None when
   the object does not exist yet), and the write that follows the callback *)
| Fetch (k : kind) (ns name : string) : eff (result kerr (option (obj k)))
| Write (k : kind) (o : obj k) : eff (result kerr (obj k))
| SetControllerReference (k : kind) (owner : ObjectMeta) (o : obj k)
    : eff (result kerr (obj k))
(* unstructured.SetNestedField(obj.Object, spec, "spec") *)
| SetSpec (k : kind) (o : obj k) (spec : value) : eff (result kerr (obj k))
(* time.Now(), crypto/rand *)
| Now : eff Z
| RandBytes (n : nat) : eff (list ascii)
(* audit.Emitter.Emit *)
| Emit (event : string) (fields : list (string * value)) : eff unit
(* http.Client.Do *)
| HttpDo (r : HttpRequest) : eff (result error HttpResponse).

Notation kprog := (prog eff).
Notation kobs := (obs eff).

(** [controllerutil.CreateOrUpdate(ctx, c, obj, mutate)]: fetch, run the
    callback, write.  The callback sees the stored object, or the one the
    caller built when there is none. *)
Definition CreateOrUpdate (k : kind) (ns name : string) (fresh : obj k)
    (mutate : obj k -> kprog (result kerr (obj k))) : kprog (result kerr (obj k)) :=
  r ← trigger (Fetch k ns name);
  match r with
  | Err e => mret (Err e)
  | Ok cur =>
      m ← mutate (default fresh cur);
      match m with
      | Err e => mret (Err e)
      | Ok o => trigger (Write k o)
      end
  end.

(** The same, for a callback that fails with errors of its own and sets a
    variable of its caller. *)
Definition CreateOrUpdateWith {E A} (inj : kerr -> E) (k : kind) (ns name : string) (fresh : obj k)
    (mutate : obj k -> kprog (result E (obj k * A))) : kprog (result E A) :=
  r ← trigger (Fetch k ns name);
  match r with
  | Err e => mret (Err (inj e))
  | Ok cur =>
      m ← mutate (default fresh cur);
      match m with
      | Err e => mret (Err e)
      | Ok (o, a) =>
          w ← trigger (Write k o);
          mret (match w with Ok _ => Ok a | Err e => Err (inj e) end)
      end
  end.

(** * Reading off a trace *)

Definition obs_created (k : kind) (o : kobs) : option (obj k) :=
  match o with
  | Obs e _ =>
      match e with
      | Create k' x =>
          match k as k1, k' as k2 return obj k2 -> option (obj k1) with
          | KNetworkGrant, KNetworkGrant => Some
          | KAgentJob, KAgentJob => Some
          | KSecret, KSecret => Some
          | KVolumeSnapshot, KVolumeSnapshot => Some
          | _, _ => fun _ => None
          end x
      | _ => None
      end
  end.

(** The same for any kind: the objects of kind [k] read, listed, written (after
    the callback of [CreateOrUpdate]), deleted, and the times read. *)
Definition same_kind (k k' : kind) : option (k' = k) :=
  match k, k' with
  | KNetworkGrant, KNetworkGrant => Some eq_refl
  | KAgentJob, KAgentJob => Some eq_refl
  | KDesktop, KDesktop => Some eq_refl
  | KHomeTemplate, KHomeTemplate => Some eq_refl
  | KPortShare, KPortShare => Some eq_refl
  | KSecret, KSecret => Some eq_refl
  | KService, KService => Some eq_refl
  | KPVC, KPVC => Some eq_refl
  | KDeployment, KDeployment => Some eq_refl
  | KJob, KJob => Some eq_refl
  | KPod, KPod => Some eq_refl
  | KCNP, KCNP => Some eq_refl
  | KVolumeSnapshot, KVolumeSnapshot => Some eq_refl
  | _, _ => None
  end.
Definition as_kind (F : kind -> Type) (k k' : kind) (x : F k') : option (F k) :=
  match same_kind k k' with
  | Some H => Some (eq_rect k' F x k H)
  | None => None
  end.

Definition got (k : kind) (o : kobs) : option (result kerr (obj k)) :=
  match o with
  | Obs e x =>
      match e in eff X return X -> option (result kerr (obj k)) with
      | Get k' _ _ => as_kind (fun k => result kerr (obj k)) k k'
      | _ => fun _ => None
      end x
  end.
Definition listed (k : kind) (o : kobs) : option (result kerr (list (obj k))) :=
  match o with
  | Obs e x =>
      match e in eff X return X -> option (result kerr (list (obj k))) with
      | ListNS k' _ _ => as_kind (fun k => result kerr (list (obj k))) k k'
      | _ => fun _ => None
      end x
  end.
Definition written (k : kind) (o : kobs) : option (obj k) :=
  match o with
  | Obs e _ => match e with Write k' s => as_kind obj k k' s | _ => None end
  end.
Definition deleted (k : kind) (o : kobs) : option (string * string) :=
  match o with
  | Obs e _ => match e with
               | DeleteObj k' ns n => match same_kind k k' with Some _ => Some (ns, n) | None => None end
               | _ => None
               end
  end.
Definition status_patched (k : kind) (o : kobs) : option (obj k) :=
  match o with
  | Obs e _ => match e with StatusPatch k' s _ => as_kind obj k k' s | _ => None end
  end.
Definition time_read (o : kobs) : option Z :=
  match o with
  | Obs e x => match e in eff X return X -> option Z with Now => Some | _ => fun _ => None end x
  end.

(** A world for concrete runs: the API server answers reads by [get] and [list]
    and stores whatever it is told. *)
Definition echo_world (now : Z) (get : forall k, string -> string -> result kerr (obj k))
    (lst : forall k, list (obj k)) (http : HttpRequest -> result error HttpResponse)
    (X : Type) (e : eff X) : unit -> X * unit :=
  match e in eff T return unit -> T * unit with
  | Get k ns n => fun u => (get k ns n, u)
  | ListNS k _ _ => fun u => (Ok (lst k), u)
  | Create _ o | Patch _ o _ | StatusPatch _ o _ | Write _ o
  | SetControllerReference _ _ o => fun u => (Ok o, u)
  | DeleteObj _ _ _ => fun u => (Ok tt, u)
  | Fetch _ _ _ => fun u => (Ok None, u)
  | SetSpec k o v => fun u =>
      (match k as k return obj k -> result kerr (obj k) with
       | KCNP => fun o => Ok {| cnp_Meta := cnp_Meta o; cnp_Spec := v |}
       | KVolumeSnapshot => fun o =>
           Ok {| vs_Meta := vs_Meta o; vs_Spec := v; vs_ReadyToUse := vs_ReadyToUse o |}
       | _ => Ok
       end o, u)
  | Now => fun u => (now, u)
  | RandBytes n => fun u => (replicate n Ascii.zero, u)
  | Emit _ _ => fun u => (tt, u)
  | HttpDo r => fun u => (http r, u)
  end.

(** * Worlds that store what they are told *)

(** The object a call hands over and the one it gets back are related by [R]:
    what a theorem assumes of an API server nobody else writes to, and of the
    library functions that edit an object. *)
Definition kept_obs (R : forall k, obj k -> obj k -> Prop) (o : kobs) : Prop :=
  match o with
  | Obs e x =>
      match e in eff X return X -> Prop with
      | Patch k p _ | StatusPatch k p _ | SetControllerReference k _ p =>
          fun r => forall p', r = Ok p' -> R k p p'
      | _ => fun _ => True
      end x
  end.
Notation kept R := (Forall (kept_obs R)).

Lemma echo_kept (R : forall k, obj k -> obj k -> Prop) {A} now get lst http (p : kprog A) :
  (forall k x, R k x x) -> kept R (run (echo_world now get lst http) p tt).1.2.
Proof.
  intros HR. apply run_forall. intros X e w. by destruct e; try exact I; intros ? [= <-].
Qed.
