(* ===== verification/AgentRunner.v ===== *)
(** The agent runner: the script of an agent job with its output redacted and
    capped (src/cmd/agent-runner/main.go).

    [copyRedacted] is a fold over what the successive reads of the pipe return;
    a read returns bytes, an error, or both.  The shell, the pipes and the exit
    status are the operating system's. *)
From S2P Require Export Effects Redact.
From stdpp Require Import options.
Open Scope Z_scope.

(** * The copy *)

(** How a read ends the loop: [io.EOF] or another error. *)
Inductive rerr := EOF | RErr (e : error).
Record read_result := { rd_bytes : list ascii; rd_err : option rerr }.

Record copy_state := {
  cs_out : list (list ascii);   (* what was written to dst, in order *)
  cs_written : Z;
  cs_truncated : bool;
  cs_announced : bool;
}.

Definition notice : list ascii := s2l "
[output truncated]
".
Arguments notice : simpl never.

(** Writes: [werr k] is the error of the [k]-th write to dst, if it fails. *)
Section copy.
Context (red : list ascii -> list ascii) (werr : nat -> option error) (capBytes : Z).

Definition write (b : list ascii) (s : copy_state) : copy_state * option error :=
  ({| cs_out := cs_out s ++ [b]; cs_written := cs_written s; cs_truncated := cs_truncated s;
      cs_announced := cs_announced s |}, werr (length (cs_out s))).

(** The bytes of a redacted chunk within the cap. *)
Definition write_chunk (chunk : list ascii) (s : copy_state) : copy_state * option error :=
  let remain := capBytes - cs_written s in
  if 0 <? remain then
    let toWrite := Z.of_nat (length chunk) in
    let over := remain <? toWrite in
    let toWrite := if over then remain else toWrite in
    let s := {| cs_out := cs_out s; cs_written := cs_written s;
                cs_truncated := cs_truncated s || over; cs_announced := cs_announced s |} in
    if 0 <? toWrite then
      let '(s', e) := write (take (Z.to_nat toWrite) chunk) s in
      match e with
      | Some e => (s', Some e)
      | None => ({| cs_out := cs_out s'; cs_written := cs_written s' + toWrite;
                    cs_truncated := cs_truncated s'; cs_announced := cs_announced s' |}, None)
      end
    else (s, None)
  else ({| cs_out := cs_out s; cs_written := cs_written s; cs_truncated := true;
           cs_announced := cs_announced s |}, None).

(** The notice is printed once; its own error is ignored. *)
Definition announce (s : copy_state) : copy_state :=
  if cs_truncated s && negb (cs_announced s) then
    (write notice {| cs_out := cs_out s; cs_written := cs_written s; cs_truncated := cs_truncated s;
                     cs_announced := true |}).1
  else s.

Definition copy_read (b : list ascii) (s : copy_state) : copy_state * option error :=
  match b with
  | [] => (s, None)
  | _ =>
      let '(s', e) := write_chunk (red b) s in
      match e with Some e => (s', Some e) | None => (announce s', None) end
  end.

(** [None]: the pipe still waits for the next read. *)
Fixpoint copy_loop (reads : list read_result) (s : copy_state)
    : copy_state * option (result error unit) :=
  match reads with
  | [] => (s, None)
  | r :: reads' =>
      let '(s', e) := copy_read (rd_bytes r) s in
      match e with
      | Some e => (s', Some (Err e))
      | None =>
          match rd_err r with
          | Some EOF => (s', Some (Ok tt))
          | Some (RErr e) => (s', Some (Err e))
          | None => copy_loop reads' s'
          end
      end
  end.

Definition copy_start : copy_state :=
  {| cs_out := []; cs_written := 0; cs_truncated := false; cs_announced := false |}.
Definition copyRedacted (reads : list read_result) := copy_loop reads copy_start.
End copy.

Definition chunk_read (s : string) : read_result := {| rd_bytes := s2l s; rd_err := None |}.
Definition eof_read : read_result := {| rd_bytes := []; rd_err := Some EOF |}.
Definition shown (out : list (list ascii)) : string := l2s (concat out).

Example copy_ex :
  let '(s, res) := copyRedacted (RedactBytes NewDefault) (fun _ => None) 12
                     [chunk_read "hello "; chunk_read "AKIA0123456789ABCDEF"; chunk_read "more"; eof_read] in
  shown (cs_out s) = "hello [REDAC
[output truncated]
" /\ cs_written s = 12 /\ res = Some (Ok tt).
Proof. vm_compute. done. Qed.

(** * What is written *)

Section copy_facts.
Context (red : list ascii -> list ascii) (cap : Z).
Context (Hcap : 0 < cap) (Hred : forall b, b <> [] -> red b <> []).

Definition redacted_chunk (b : list ascii) : list ascii := match b with [] => [] | _ => red b end.
(** All the output of the child, each read redacted by itself. *)
Definition all_output (reads : list read_result) : list ascii :=
  concat (redacted_chunk <$> (rd_bytes <$> reads)).
Lemma all_output_cons r reads : all_output (r :: reads) = redacted_chunk (rd_bytes r) ++ all_output reads.
Proof using Type. done. Qed.
Definition capped (d : list ascii) : list ascii :=
  if Z.of_nat (length d) <=? cap then d else take (Z.to_nat cap) d ++ notice.

(** The state after the output [d], when no write fails. *)
Definition copied (d : list ascii) (s : copy_state) : Prop :=
  concat (cs_out s) = capped d /\ cs_written s = Z.min cap (Z.of_nat (length d))
  /\ cs_truncated s = (cap <? Z.of_nat (length d)) /\ cs_announced s = cs_truncated s.

Notation fine := (fun _ : nat => @None error).

Lemma copy_read_copied b d s : copied d s ->
  exists s', copy_read red fine cap b s = (s', None) /\ copied (d ++ redacted_chunk b) s'.
Proof using Hcap Hred.
  intros Hc. destruct b as [|x b]; [exists s; split; [done|]; by rewrite app_nil_r|].
  unfold copy_read. cbn [redacted_chunk]. pose proof (Hred (x :: b) ltac:(done)) as Hne. set (c := red (x :: b)) in *.
  assert (Hlen : (0 < length c)%nat) by (destruct c; [done | cbn; lia]).
  destruct Hc as (Hout & Hw & Ht & Ha). unfold write_chunk, write. rewrite Hw.
  destruct s as [out w t a]; cbn [cs_out cs_written cs_truncated cs_announced] in *. subst w a t.
  unfold copied, capped, announce, write in *. cbn [cs_out cs_written cs_truncated cs_announced].
  rewrite length_app, Nat2Z.inj_add.
  destruct (Z.ltb_spec 0 (cap - Z.min cap (Z.of_nat (length d)))) as [Hr|Hr].
  - rewrite Z.min_r in * by lia. rewrite (proj2 (Z.leb_le (Z.of_nat (length d)) cap)) in Hout by lia.
    replace (cap <? Z.of_nat (length d)) with false by lia. cbn [orb negb andb].
    destruct (Z.ltb_spec (cap - Z.of_nat (length d)) (Z.of_nat (length c))) as [Ho|Ho]; cbn [orb].
    + rewrite (proj2 (Z.ltb_lt 0 _)) by lia. cbn. eexists. split; [reflexivity|]. cbn.
      rewrite !concat_app, Hout. cbn. rewrite !app_nil_r. split_and!; [|lia|lia|done].
      rewrite (proj2 (Z.leb_gt (Z.of_nat (length d) + Z.of_nat (length c)) cap)) by lia.
      f_equal. rewrite take_app_ge by lia. f_equal. f_equal. lia.
    + rewrite (proj2 (Z.ltb_lt 0 _)) by lia. cbn. eexists. split; [reflexivity|]. cbn.
      rewrite !concat_app, Hout. cbn. rewrite !app_nil_r. split_and!; [|lia|lia|done].
      rewrite (proj2 (Z.leb_le (Z.of_nat (length d) + Z.of_nat (length c)) cap)) by lia.
      f_equal. apply take_ge. lia.
  - assert (Hfull : cap <= Z.of_nat (length d)) by lia. rewrite Z.min_l in * by lia. cbn.
    destruct (Z.ltb_spec cap (Z.of_nat (length d))) as [Hd|Hd]; cbn [negb].
    + eexists. split; [reflexivity|]. cbn. rewrite Hout. split_and!; [|lia|lia|done].
      rewrite !(proj2 (Z.leb_gt _ cap)) by lia. f_equal. rewrite take_app_le by lia. done.
    + eexists. split; [reflexivity|]. cbn. rewrite concat_app, Hout. cbn. rewrite app_nil_r.
      split_and!; [|lia|lia|done].
      rewrite (proj2 (Z.leb_le (Z.of_nat (length d)) cap)), (proj2 (Z.leb_gt _ cap)) by lia.
      f_equal. rewrite take_app_le, take_ge by lia. done.
Qed.

Definition ended (r : rerr) : result error unit := match r with EOF => Ok tt | RErr e => Err e end.

Lemma copy_loop_copied reads r e rest d s :
  Forall (fun r => rd_err r = None) reads -> rd_err r = Some e -> copied d s ->
  exists s', copy_loop red fine cap (reads ++ r :: rest) s = (s', Some (ended e))
    /\ copied (d ++ all_output (reads ++ [r])) s'.
Proof using Hcap Hred.
  intros Hr He. revert d s. induction Hr as [|x reads Hx _ IH]; intros d s Hc; cbn [app copy_loop]; rewrite all_output_cons.
  - destruct (copy_read_copied (rd_bytes r) d s Hc) as (s' & Heq & Hs'). rewrite Heq, He. exists s'.
    change (all_output []) with (@nil ascii). rewrite app_nil_r. split; [by destruct e | done].
  - destruct (copy_read_copied (rd_bytes x) d s Hc) as (s' & Heq & Hs'). rewrite Heq, Hx, app_assoc. by apply IH.
Qed.

(** ** When writes fail *)

(** Between two reads: nothing else is counted, and the cap is kept. *)
Definition in_bounds (s : copy_state) : Prop :=
  0 <= cs_written s <= cap /\
  Z.of_nat (length (concat (cs_out s))) = cs_written s + if cs_announced s then Z.of_nat (length notice) else 0.

Lemma copy_read_bounds werr b s s' e : in_bounds s -> copy_read red werr cap b s = (s', e) ->
  cs_written s' <= cap /\ Z.of_nat (length (concat (cs_out s'))) <= cap + Z.of_nat (length notice)
  /\ (e = None -> in_bounds s').
Proof using Hcap.
  intros [Hw Hl] H. assert (Hn : 0 <= Z.of_nat (length notice)) by lia. destruct b as [|x b].
  { injection H as <- <-. split; [lia|]. split; [destruct (cs_announced s); lia | done]. }
  unfold copy_read, write_chunk, announce, write in H. destruct s as [out w t a].
  cbn [fst cs_out cs_written cs_truncated cs_announced] in *. set (c := red (x :: b)) in *. unfold in_bounds.
  destruct a; repeat (case_match; cbn [fst cs_out cs_written cs_truncated cs_announced] in *; simplify_eq);
    cbn [fst cs_out cs_written cs_truncated cs_announced] in *;
    split_and!; try done; try (intros _; split); try lia;
    repeat (rewrite ?concat_app, ?length_app, ?app_nil_r, ?length_take; cbn [concat length]); lia.
Qed.

Lemma copy_loop_bounds werr reads s s' res : in_bounds s -> copy_loop red werr cap reads s = (s', res) ->
  cs_written s' <= cap /\ Z.of_nat (length (concat (cs_out s'))) <= cap + Z.of_nat (length notice).
Proof using Hcap.
  revert s. induction reads as [|r reads IH]; intros s Hs H; cbn in H.
  - injection H as <- _. destruct Hs as [Hw Hl]. split; [lia|]. destruct (cs_announced s); lia.
  - destruct (copy_read red werr cap (rd_bytes r) s) as [s1 e] eqn:Hc.
    destruct (copy_read_bounds _ _ _ _ _ Hs Hc) as (Hw & Hl & Hn).
    destruct e as [e|]; [by injection H as <- _|].
    destruct (rd_err r) as [[|e]|]; [by injection H as <- _..|]. by eapply IH; [apply Hn|].
Qed.

(** ** What the pieces are made of *)

Definition piece_of (reads : list read_result) (p : list ascii) : Prop :=
  p = notice \/ exists r, r ∈ reads /\ p `prefix_of` red (rd_bytes r).

Lemma copy_read_pieces werr b s s' e : copy_read red werr cap b s = (s', e) ->
  forall p, p ∈ cs_out s' -> p ∈ cs_out s \/ p = notice \/ p `prefix_of` red b.
Proof using Type.
  destruct b as [|x b]; [intros [= <- <-]; by left|]. unfold copy_read, write_chunk, announce, write.
  intros H p Hp. repeat (case_match; cbn [fst cs_out cs_written cs_truncated cs_announced] in *; simplify_eq);
    cbn [fst cs_out] in *; rewrite ?elem_of_app, ?list_elem_of_singleton in Hp;
    repeat match goal with H : _ \/ _ |- _ => destruct H end; subst; auto; right; right; apply prefix_take.
Qed.

Lemma copy_loop_pieces werr all reads s s' res : copy_loop red werr cap reads s = (s', res) ->
  (forall r, r ∈ reads -> r ∈ all) -> Forall (piece_of all) (cs_out s) -> Forall (piece_of all) (cs_out s').
Proof using Type.
  revert s. induction reads as [|r reads IH]; intros s H Hall Hs; cbn in H; [by injection H as <- _|].
  destruct (copy_read red werr cap (rd_bytes r) s) as [s1 e] eqn:Hc.
  assert (Hs1 : Forall (piece_of all) (cs_out s1)).
  { apply list.Forall_forall. intros p Hp. destruct (copy_read_pieces _ _ _ _ _ Hc p Hp) as [Hin|[->|Hpre]].
    - by eapply list.Forall_forall in Hs.
    - by left.
    - right. exists r. split; [apply Hall; by left | done]. }
  destruct e as [e|]; [by injection H as <- _|].
  destruct (rd_err r) as [[|e]|]; [by injection H as <- _..|].
  eapply IH; [done | intros r' Hr'; apply Hall; by right | done].
Qed.
End copy_facts.

Lemma RedactBytes_nonempty r b : b <> [] -> RedactBytes r b <> [].
Proof.
  intros Hb. unfold RedactBytes. destruct b as [|c b]; [done|]. destruct (plain_text _ _); [done|].
  intros H%s2l_nil. revert H. apply RedactString_nonempty. intros H. by apply (f_equal s2l) in H.
Qed.

(** C34: What the runner lets through of the output of a script.  While its writes
    succeed, the copy ends with the pipe's first end or error, and has then
    written the redacted reads in order, cut at the cap, with one notice after the
    cut if anything was cut; it counts the bytes before the notice and says
    whether it cut.  Whatever writes fail, at most the cap and the notice go out,
    and each piece is the notice or the beginning of a redacted read. *)
Theorem runner_output rd cap reads r e rest werr :
  0 < cap -> Forall (fun r => rd_err r = None) reads -> rd_err r = Some e ->
  let all := all_output (RedactBytes rd) (reads ++ [r]) in
  (exists s, copyRedacted (RedactBytes rd) (fun _ => None) cap (reads ++ r :: rest) = (s, Some (ended e))
     /\ concat (cs_out s) = capped cap all
     /\ cs_written s = Z.min cap (Z.of_nat (length all))
     /\ cs_truncated s = (cap <? Z.of_nat (length all)))
  /\ let s := (copyRedacted (RedactBytes rd) werr cap (reads ++ r :: rest)).1 in
     cs_written s <= cap /\ Z.of_nat (length (concat (cs_out s))) <= cap + Z.of_nat (length notice)
     /\ Forall (piece_of (RedactBytes rd) (reads ++ r :: rest)) (cs_out s).
Proof.
  intros Hcap Hr He all. split.
  - destruct (copy_loop_copied (RedactBytes rd) cap Hcap (RedactBytes_nonempty rd) reads r e rest [] copy_start Hr He)
      as (s & Hs & Hout & Hw & Ht & _); [|by exists s].
    unfold copied. change (Z.of_nat (length (@nil ascii))) with 0. rewrite Z.min_r, (proj2 (Z.ltb_ge cap 0)) by lia.
    split_and!; [|done..]. unfold capped. cbn. by destruct cap.
  - unfold copyRedacted. destruct (copy_loop _ werr cap _ copy_start) as [s res] eqn:Hc.
    assert (Hs : in_bounds cap copy_start) by (split; [change (cs_written copy_start) with 0; lia | reflexivity]).
    destruct (copy_loop_bounds _ _ Hcap _ _ _ _ _ Hs Hc). split_and!; [done..|].
    eapply copy_loop_pieces; [done..|]. constructor.
Qed.

Lemma runner_output_witness :
  let reads := [chunk_read "hello "; chunk_read "AKIA0123456789ABCDEF"] in
  let s := (copyRedacted (RedactBytes NewDefault) (fun _ => None) 12 (reads ++ [eof_read])).1 in
  l2s (concat (cs_out s)) = "hello [REDAC" +:+ l2s notice /\ cs_truncated s = true.
Proof.
  cbv zeta. destruct (runner_output NewDefault 12 [chunk_read "hello "; chunk_read "AKIA0123456789ABCDEF"]
    eof_read EOF [] (fun _ => None)) as [(s & -> & Hout & _ & Ht) _]; [lia | by repeat constructor | done|].
  cbn [fst]. rewrite Hout, Ht. split; reflexivity.
Defined.

(** A secret that is split between two reads goes out. *)
Lemma split_secret_leaks :
  let rd := (AddPotentialSecretsFromEnviron (fun l => l) ["DB_PASSWORD=correct-horse"] NewDefault).1 in
  let s := (copyRedacted (RedactBytes rd) (fun _ => None) 65536
              [chunk_read "correct-"; chunk_read "horse"; eof_read]).1 in
  shown (cs_out s) = "correct-horse".
Proof. vm_compute. done. Qed.

(** * main *)

(** Where the script runs. *)
Definition runner_workdir (env : string -> string) : string :=
  let workdir := TrimSpace (env "WORKSPACES_WORKDIR") in
  let workdir := if decide (workdir = "") then TrimSpace (env "WORKSPACES_REPO_DIR") else workdir in
  if decide (workdir = "") then "/workspace" else workdir.

Definition runner_cap (env : string -> string) : result error Z :=
  let raw := TrimSpace (env "WORKSPACES_LOG_CAP_BYTES") in
  if decide (raw = "") then Ok 65536 else
  match ParseInt raw 64 with
  | Some n => if n <=? 0 then Err (Errorf "invalid WORKSPACES_LOG_CAP_BYTES %q" [VStr raw]) else Ok n
  | None => Err (Errorf "invalid WORKSPACES_LOG_CAP_BYTES %q" [VStr raw])
  end.

(** What [cmd.Wait] returns: nil, an [*exec.ExitError] or another error. *)
Inductive wait_result := WExited | WExitError (code : Z) | WOther (e : error).

Definition exit_code (w : wait_result) : Z :=
  match w with WExited => 0 | WExitError c => c | WOther _ => 1 end.

(** The calls of [main]: the audit sink, the child, and the two copies (the
    successive reads of a pipe and the errors of the writes). *)
Inductive reff : Type -> Type :=
| RBase {X} (e : eff X) : reff X
| NewEmitter (component : string) : reff (result error unit)
| StartShell (dir : string) (script : string) : reff (result error unit)
| Pipe (stderr : bool) : reff (list read_result * (nat -> option error))
| WriteStd (stderr : bool) (out : list (list ascii)) : reff unit
| WaitShell : reff wait_result.
Notation rprog := (prog reff).

Section runner.
Context (sort_longest : list string -> list string) (env : string -> string) (environ : list string).

Definition run_fields (workdir : string) : list (string * value) :=
  [("workdir", VStr workdir); ("repo", VStr (TrimSpace (env "WORKSPACES_GITHUB_REPO")));
   ("pr", VStr (TrimSpace (env "WORKSPACES_GITHUB_PR_NUMBER")));
   ("sha", VStr (TrimSpace (env "WORKSPACES_GITHUB_HEAD_SHA")))].

Definition finish_fields (workdir : string) (dur : Z) (code : Z) (out err : copy_state) : list (string * value) :=
  run_fields workdir ++
  [("duration_ms", VInt (Z.quot dur (10 ^ 6))); ("exit_code", VInt code);
   ("conclusion", VStr (if decide (code <> 0) then "failure" else "success"));
   ("stdout_bytes", VInt (cs_written out)); ("stderr_bytes", VInt (cs_written err));
   ("stdout_truncated", VBool (cs_truncated out)); ("stderr_truncated", VBool (cs_truncated err))].

(** The copy of one stream. *)
Definition copy_stream (rd : Redactor) (cap : Z) (stderr : bool) : rprog copy_state :=
  '(reads, werr) ← trigger (Pipe stderr);
  let s := (copyRedacted (RedactBytes rd) werr cap reads).1 in
  _ ← trigger (WriteStd stderr (cs_out s));
  mret s.

(** [main], with its exit code; [log.Fatalf] exits with 1. *)
Definition runner_main : rprog Z :=
  let script := env "WORKSPACES_TASK_SCRIPT" in
  if decide (TrimSpace script = "") then mret 1 else
  let workdir := runner_workdir env in
  match runner_cap env with
  | Err _ => mret 1
  | Ok cap =>
      em ← trigger (NewEmitter "agent-runner");
      match em with
      | Err _ => mret 1
      | Ok _ =>
          let rd := (AddPotentialSecretsFromEnviron sort_longest environ NewDefault).1 in
          start ← trigger (RBase Now);
          _ ← trigger (RBase (Emit "agent.exec.start" (run_fields workdir)));
          st ← trigger (StartShell workdir script);
          match st with
          | Err _ => mret 1
          | Ok _ =>
              out ← copy_stream rd cap false;
              err ← copy_stream rd cap true;
              w ← trigger WaitShell;
              now ← trigger (RBase Now);
              _ ← trigger (RBase (Emit "agent.exec.finish"
                    (finish_fields workdir (time_sub now start) (exit_code w) out err)));
              mret (exit_code w)
          end
      end
  end.
End runner.
