(* ===== verification/NetUtil.v ===== *)
(** Hostname normalization and validation (src/internal/netutil/hostname.go). *)
From S2P Require Export GoNet.
From stdpp Require Import options.

Definition NormalizeHostname (host : string) : string :=
  let h := ToLower (TrimSpace host) in
  TrimSuffix h ".".

Definition reservedHostDenylist : gset string :=
  {["kubernetes.default.svc"; "kubernetes.default.svc.cluster.local"]}.

Definition isReservedHost (host : string) : bool :=
  bool_decide (host ∈ reservedHostDenylist).

(** One byte of a label: [a-z0-9-]. *)
Definition label_byte (c : ascii) : bool :=
  let isAZ := ((97 <=? code c) && (code c <=? 122))%nat in
  let is09 := ((48 <=? code c) && (code c <=? 57))%nat in
  isAZ || is09 || (code c =? 45)%nat.

Definition isValidDNSLabel (label : string) : bool :=
  let l := s2l label in
  if decide (label = "") then false
  else if (63 <? length l)%nat then false
  else if negb (forallb label_byte l) then false
  else if decide (head l = Some (byte 45) \/ list.last l = Some (byte 45)) then false
  else true.

Definition ValidateExactHostname (host : string) : result error unit :=
  let raw := TrimSpace host in
  if decide (raw = "") then Err (Errorf "empty" [])
  else if ContainsAny raw (l2s [byte 32; byte 9; byte 13; byte 10])
  then Err (Errorf "contains whitespace" [])
  else if Contains raw "*"
  then Err (Errorf "must be an exact hostname (no wildcards)" [])
  else if ContainsAny raw "/:"
  then Err (Errorf "must be a hostname only (no scheme/path/port)" [])
  else if HasPrefix raw "." || HasSuffix raw "."
  then Err (Errorf "must not start or end with '.'" [])
  else if Contains raw ".." then Err (Errorf "must not contain '..'" [])
  else if (253 <? String.length raw)%nat then Err (Errorf "too long" [])
  else
    let h := ToLower raw in
    match ParseIP h with
    | Some _ => Err (Errorf "ip literals are not allowed" [])
    | None =>
        if isReservedHost h then Err (Errorf "reserved hostname is not allowed" [])
        else
          let parts := Split h c_dot in
          forE (fun _ p _ =>
            guard_err (negb (isValidDNSLabel p)) (Errorf "invalid dns label %q" [VStr p]))
            parts tt
    end.

(** * ASCII boundaries of [ToLower] *)

Definition is_ascii (c : ascii) : Prop := (code c < 128)%nat.

Lemma ToLowerL_ascii_cons c l : is_ascii c -> ToLowerL (c :: l) = lower_byte c :: ToLowerL l.
Proof.
  unfold is_ascii. intros Hc. destruct l as [|b [|d l]]; [done| |];
    cbn [ToLowerL]; (destruct (Nat.eqb_spec (code c) 0xC4); [lia|]);
    (destruct (Nat.eqb_spec (code c) 0xE2); [lia|]); cbn [andb]; done.
Qed.

Lemma ToLowerL_cons2 a b l :
  ToLowerL (a :: b :: l) =
  if ((code a =? 0xC4) && (code b =? 0xB0))%nat then byte 105 :: ToLowerL l else
  match l with
  | c :: l3 =>
      if ((code a =? 0xE2) && (code b =? 0x84) && (code c =? 0xAA))%nat
      then byte 107 :: ToLowerL l3
      else lower_byte a :: ToLowerL (b :: l)
  | [] => lower_byte a :: ToLowerL (b :: l)
  end.
Proof. done. Qed.

Lemma ToLowerL_app_ascii c l2 : is_ascii c -> forall n l1, (length l1 < n)%nat ->
  ToLowerL (l1 ++ c :: l2) = ToLowerL l1 ++ ToLowerL (c :: l2).
Proof.
  intros Hc. induction n as [|n IH]; intros l1 Hn; [lia|].
  assert (Hb : forall m, (128 <= m)%nat -> (code c =? m)%nat = false).
  { unfold is_ascii in Hc. intros m Hm. apply Nat.eqb_neq. lia. }
  destruct l1 as [|a [|b [|d l1]]]; cbn [length] in Hn; [done| | |].
  - cbn [app]. rewrite ToLowerL_cons2.
    destruct l2 as [|e l2]; rewrite !Hb, !andb_false_r by lia; done.
  - cbn [app]. rewrite !ToLowerL_cons2.
    rewrite (Hb 0xAA%nat), andb_false_r by lia.
    destruct (_ && _)%nat; [done|]. cbn [app]. f_equal.
    apply (IH [b]). cbn. lia.
  - cbn [app]. rewrite (ToLowerL_cons2 a), (ToLowerL_cons2 a b (d :: l1)).
    destruct ((code a =? 0xC4) && (code b =? 0xB0))%nat;
      [cbn [app]; f_equal; apply (IH (d :: l1)); cbn; lia|].
    destruct (_ && (code d =? 0xAA)%nat);
      [cbn [app]; f_equal; apply (IH l1); lia|].
    cbn [app]. f_equal. apply (IH (b :: d :: l1)). cbn. lia.
Qed.

Lemma ToLowerL_mid c l1 l2 : is_ascii c ->
  ToLowerL (l1 ++ c :: l2) = ToLowerL l1 ++ lower_byte c :: ToLowerL l2.
Proof.
  intros Hc. rewrite (ToLowerL_app_ascii c l2 Hc (S (length l1))) by lia.
  by rewrite ToLowerL_ascii_cons.
Qed.

(** A byte that is neither a letter nor outside ASCII survives lowering. *)
Definition caseless (c : ascii) : Prop := is_ascii c /\ lower_byte c = c.

Lemma ToLowerL_caseless_elem c l : caseless c -> c ∈ l -> c ∈ ToLowerL l.
Proof.
  intros [Hc Hl] (l1 & l2 & ->)%list_elem_of_split.
  rewrite ToLowerL_mid, Hl by done. set_solver.
Qed.

(** * The accepted names *)

(** A label in the sense of RFC 1123, lower case. *)
Definition dns_label (l : list ascii) : Prop :=
  (1 <= length l <= 63)%nat /\ Forall (fun c => label_byte c = true) l
  /\ head l <> Some (byte 45) /\ list.last l <> Some (byte 45).

Lemma isValidDNSLabel_spec s : isValidDNSLabel s = true <-> dns_label (s2l s).
Proof.
  unfold isValidDNSLabel, dns_label.
  case_decide as He; [subst; cbn; split; [done|lia]|].
  assert (Hlen : (1 <= length (s2l s))%nat) by (destruct s; cbn; [done|lia]).
  destruct (Nat.ltb_spec 63 (length (s2l s))); [split; [done|lia]|].
  destruct (forallb label_byte (s2l s)) eqn:Hf; cbn [negb].
  - rewrite forallb_elem_of in Hf. apply list.Forall_forall in Hf.
    case_decide; split; intuition (done || lia).
  - split; [done|]. intros (_ & HF & _). rewrite list.Forall_forall, <- forallb_elem_of in HF.
    congruence.
Qed.

(** A hostname as its list of labels. *)
Definition hostname_labels (h : string) (ls : list (list ascii)) : Prop :=
  ls <> [] /\ s2l h = joinL c_dot ls /\ Forall dns_label ls.

Lemma joinL_elem sep ls c : c ∈ joinL sep ls -> c = sep \/ exists x, x ∈ ls /\ c ∈ x.
Proof.
  induction ls as [|x [|y ls] IH]; cbn.
  - by intros ?%elem_of_nil.
  - right. exists x. split; [constructor | done].
  - rewrite elem_of_app, elem_of_cons. intros [H|[->|H]].
    + right. exists x. split; [constructor | done].
    + by left.
    + destruct (IH H) as [?|(z & ? & ?)]; [by left|]. right. exists z. split; [by right|done].
Qed.

(** Every byte of a valid name is [a-z0-9.-]. *)
Definition name_byte (c : ascii) : bool := label_byte c || bool_decide (c = c_dot).

Lemma hostname_bytes h ls : hostname_labels h ls -> Forall (fun c => name_byte c = true) (s2l h).
Proof.
  intros (_ & -> & Hls). apply list.Forall_forall. intros c Hc.
  unfold name_byte. rewrite orb_true_iff, bool_decide_eq_true.
  destruct (joinL_elem _ _ _ Hc) as [?|(x & Hx & Hcx)]; [by right|left].
  rewrite list.Forall_forall in Hls. destruct (Hls _ Hx) as (_ & HF & _).
  by rewrite list.Forall_forall in HF; apply HF.
Qed.

Lemma name_byte_contra h ls c :
  hostname_labels h ls -> name_byte c = false -> c ∉ s2l h.
Proof.
  intros Hh Hc Hin. apply hostname_bytes in Hh. rewrite list.Forall_forall in Hh.
  rewrite Hh in Hc; done.
Qed.

Lemma hostname_labels_split h ls : hostname_labels h ls -> splitL c_dot (s2l h) = ls.
Proof.
  intros (Hne & -> & Hls). apply splitL_joinL; [done|].
  eapply Forall_impl; [|exact Hls]. intros x (_ & HF & _) Hin.
  rewrite list.Forall_forall in HF. by specialize (HF _ Hin).
Qed.

Lemma hostname_no_empty_label h ls : hostname_labels h ls -> [] ∉ splitL c_dot (s2l h).
Proof.
  intros Hh Hin. rewrite (hostname_labels_split _ _ Hh) in Hin.
  destruct Hh as (_ & _ & Hls). rewrite list.Forall_forall in Hls.
  destruct (Hls _ Hin) as [Hl _]. cbn in Hl. lia.
Qed.

Ltac bad_bytes :=
  repeat (apply list.Forall_cons; split); try apply list.Forall_nil; try done;
  (split; [split; [vm_compute; lia | reflexivity] | reflexivity]).

(** The character and dot checks of [ValidateExactHostname] all pass on a
    string whose lower case is a list of labels. *)
Lemma no_bad_byte raw ls cs :
  hostname_labels (ToLower raw) ls ->
  Forall (fun c => caseless c /\ name_byte c = false) (s2l cs) ->
  ContainsAny raw cs = false.
Proof.
  intros Hh Hcs. destruct (ContainsAny raw cs) eqn:E; [|done].
  apply ContainsAny_spec in E as (c & Hc & Hin).
  rewrite list.Forall_forall in Hcs. destruct (Hcs _ Hin) as [Hcl Hnb].
  exfalso. apply (name_byte_contra _ _ _ Hh Hnb).
  unfold ToLower. rewrite s2l_l2s. by apply ToLowerL_caseless_elem.
Qed.

Lemma no_double_dot raw ls l1 l2 :
  hostname_labels (ToLower raw) ls -> s2l raw = l1 ++ c_dot :: l2 ->
  l1 <> [] /\ l2 <> [] /\ head l2 <> Some c_dot.
Proof.
  intros Hh Hr. apply hostname_no_empty_label in Hh.
  unfold ToLower in Hh. rewrite s2l_l2s, Hr, ToLowerL_mid in Hh by (vm_compute; lia).
  change (lower_byte c_dot) with c_dot in Hh.
  rewrite splitL_sep in Hh. apply not_elem_of_app in Hh as [H1 H2].
  split; [|split].
  - intros ->. apply H1. constructor.
  - intros ->. apply H2. constructor.
  - destruct l2 as [|c l2]; [done|]. cbn. intros [= ->]. apply H2.
    rewrite ToLowerL_ascii_cons by (vm_compute; lia). cbn. constructor.
Qed.

Lemma dot_checks raw ls : hostname_labels (ToLower raw) ls ->
  HasPrefix raw "." || HasSuffix raw "." = false /\ Contains raw ".." = false.
Proof.
  intros Hh. split.
  - apply orb_false_iff. split; apply not_true_iff_false; intros H.
    + apply HasPrefix_spec in H as [t ->].
      destruct (no_double_dot _ _ [] (s2l t) Hh) as [? _]; [by rewrite s2l_app | done].
    + apply HasSuffix_spec in H as [t ->].
      destruct (no_double_dot _ _ (s2l t) [] Hh) as (_ & ? & _); [by rewrite s2l_app | done].
  - apply not_true_iff_false. unfold Contains. rewrite ContainsL_spec.
    intros (l1 & l2 & Hr). destruct (no_double_dot _ _ _ _ Hh Hr) as (_ & _ & H).
    by apply H.
Qed.

Lemma valid_parts_iff h :
  forE (fun _ p _ =>
    guard_err (negb (isValidDNSLabel p)) (Errorf "invalid dns label %q" [VStr p]))
    (Split h c_dot) tt = Ok tt
  <-> Forall dns_label (splitL c_dot (s2l h)).
Proof.
  unfold Split, forE. generalize 0%nat as i. induction (splitL c_dot (s2l h)) as [|x ls IH];
    intros i; cbn; [done|].
  rewrite list.Forall_cons. pose proof (isValidDNSLabel_spec (l2s x)) as Hx.
  rewrite s2l_l2s in Hx. destruct (isValidDNSLabel (l2s x)); cbn.
  - rewrite IH. tauto.
  - split; [done|]. intros [Hd _]. by apply Hx in Hd.
Qed.

(** * The theorems *)

Lemma exact_hostname_spec host :
  ValidateExactHostname host = Ok tt <->
  exists ls, hostname_labels (ToLower (TrimSpace host)) ls
    /\ (String.length (TrimSpace host) <= 253)%nat
    /\ ParseIP (ToLower (TrimSpace host)) = None
    /\ ToLower (TrimSpace host) ∉ reservedHostDenylist.
Proof.
  unfold ValidateExactHostname. set (raw := TrimSpace host). split.
  - intros H. repeat (case_decide || case_match; try discriminate).
    apply valid_parts_iff in H. exists (splitL c_dot (s2l (ToLower raw))).
    split; [split; [apply splitL_nonempty | by rewrite joinL_splitL]|].
    rewrite Nat.ltb_ge in *. unfold isReservedHost in *.
    rewrite bool_decide_eq_false in *. done.
  - intros (ls & Hh & Hlen & Hip & Hres).
    destruct (dot_checks _ _ Hh) as [Hd1 Hd2].
    rewrite decide_False; cycle 1.
    { intros He. rewrite He in Hh. apply hostname_no_empty_label in Hh. apply Hh. constructor. }
    rewrite (no_bad_byte raw ls) by first [exact Hh | bad_bytes].
    replace (Contains raw "*") with false; cycle 1.
    { symmetry. apply not_true_iff_false. rewrite Contains_byte. intros Hin.
      apply (name_byte_contra _ _ (byte 42) Hh); [done|].
      unfold ToLower. rewrite s2l_l2s. apply ToLowerL_caseless_elem; [|done].
      split; [vm_compute; lia | done]. }
    rewrite (no_bad_byte raw ls) by first [exact Hh | bad_bytes].
    rewrite Hd1, Hd2, (proj2 (Nat.ltb_ge _ _) Hlen), Hip.
    unfold isReservedHost. rewrite bool_decide_eq_false_2 by done.
    apply valid_parts_iff. rewrite (hostname_labels_split _ _ Hh). apply Hh.
Qed.

(** C1: [ValidateExactHostname] accepts exactly the names that, trimmed and
    lower-cased, are a non-empty dot-separated list of DNS labels of at most
    253 bytes that is neither an IP literal nor a reserved Kubernetes API
    name: its whitespace, wildcard, scheme/port and dot checks are all implied
    by this grammar, and every such name is accepted. *)
Theorem ValidateExactHostname_iff host :
  ValidateExactHostname host = Ok tt <->
  exists ls, hostname_labels (ToLower (TrimSpace host)) ls
    /\ (String.length (TrimSpace host) <= 253)%nat
    /\ ParseIP (ToLower (TrimSpace host)) = None
    /\ ToLower (TrimSpace host) ∉ reservedHostDenylist.
Proof. apply exact_hostname_spec. Qed.

(** An accepted name is not empty. *)
Lemma exact_hostname_nonempty host :
  ValidateExactHostname host = Ok tt -> ToLower (TrimSpace host) <> "".
Proof.
  intros (ls & Hh & _)%exact_hostname_spec He. rewrite He in Hh.
  apply hostname_no_empty_label in Hh. apply Hh. constructor.
Qed.

(** * Canonical keys *)

Lemma name_byte_facts c : name_byte c = true -> solid c /\ lower_byte c = c.
Proof.
  unfold name_byte, label_byte, solid, lower_byte, space1.
  rewrite !orb_true_iff, !andb_true_iff, !Nat.leb_le, Nat.eqb_eq, bool_decide_eq_true.
  intros Hc. assert (Hr : (45 <= code c <= 57)%nat \/ (97 <= code c <= 122)%nat).
  { destruct Hc as [Hc| ->]; [lia | vm_compute; lia]. }
  rewrite orb_false_iff, andb_false_iff, !Nat.leb_gt, Nat.eqb_neq.
  destruct (Nat.leb_spec 65 (code c)), (Nat.leb_spec (code c) 90); cbn;
    (split; [lia | try done; lia]).
Qed.

Lemma ToLowerL_names l : Forall (fun c => name_byte c = true) l -> ToLowerL l = l.
Proof.
  induction 1 as [|c l Hc Hl IH]; [done|].
  apply name_byte_facts in Hc as [[Ha _] Hc]. by rewrite ToLowerL_ascii_cons, Hc, IH.
Qed.

Lemma TrimSpaceL_names l : Forall (fun c => name_byte c = true) l -> TrimSpaceL l = l.
Proof.
  intros Hl. apply TrimSpaceL_solid. eapply Forall_impl; [|exact Hl].
  intros c Hc. by apply name_byte_facts in Hc as [? _].
Qed.

(** A valid name is unchanged by trimming, lowering and normalization. *)
Lemma hostname_fixed h ls : hostname_labels h ls ->
  TrimSpace h = h /\ ToLower h = h /\ NormalizeHostname h = h.
Proof.
  intros Hh. pose proof (hostname_bytes _ _ Hh) as Hb.
  assert (Ht : TrimSpace h = h) by (unfold TrimSpace; by rewrite TrimSpaceL_names, l2s_s2l).
  assert (Hl : ToLower h = h) by (unfold ToLower; by rewrite ToLowerL_names, l2s_s2l).
  split; [done|]. split; [done|]. unfold NormalizeHostname. rewrite Ht, Hl.
  unfold TrimSuffix. destruct (HasSuffix h ".") eqn:Hs; [|done].
  rewrite <- Hl in Hh. destruct (dot_checks _ _ Hh) as [Hd _].
  rewrite Hs, orb_true_r in Hd. done.
Qed.

Lemma lower_hostname_normal host ls : hostname_labels (ToLower (TrimSpace host)) ls ->
  NormalizeHostname host = ToLower (TrimSpace host).
Proof.
  intros Hh. unfold NormalizeHostname, TrimSuffix.
  destruct (HasSuffix _ ".") eqn:Hs; [|done]. pose proof Hh as Hh2.
  destruct (hostname_fixed _ _ Hh) as (_ & Hl & _). rewrite <- Hl in Hh2.
  destruct (dot_checks _ _ Hh2) as [Hd _]. rewrite Hs, orb_true_r in Hd. done.
Qed.

(** C2: the two canonical forms in use agree on every accepted name: the key
    the egress proxy indexes by ([NormalizeHostname]) is the name the grant
    controller and the broker write and compare (trim, then lower case); that
    key is itself accepted, and normalizing it again changes nothing. *)
Theorem accepted_hostname_canonical host :
  ValidateExactHostname host = Ok tt ->
  NormalizeHostname host = ToLower (TrimSpace host)
  /\ ValidateExactHostname (NormalizeHostname host) = Ok tt
  /\ NormalizeHostname (NormalizeHostname host) = NormalizeHostname host.
Proof.
  intros H. apply exact_hostname_spec in H as (ls & Hh & Hlen & Hip & Hres).
  assert (Hn : NormalizeHostname host = ToLower (TrimSpace host))
    by (by eapply lower_hostname_normal).
  destruct (hostname_fixed _ _ Hh) as (Ht & Hl & Hf). rewrite Hn.
  split; [done|]. split; [|done].
  apply exact_hostname_spec. rewrite Ht, Hl. exists ls.
  split; [done|]. split; [|done]. pose proof (ToLower_length (TrimSpace host)). lia.
Qed.

Lemma accepted_hostname_canonical_witness :
  ValidateExactHostname " API.GitHub.com " = Ok tt
  /\ NormalizeHostname " API.GitHub.com " = ToLower (TrimSpace " API.GitHub.com ").
Proof.
  split; [vm_compute; reflexivity|].
  apply (accepted_hostname_canonical " API.GitHub.com "). vm_compute; reflexivity.
Defined.

(** * The Kelvin sign *)

(** U+212A, KELVIN SIGN, in UTF-8. *)
Definition kelvin : string := l2s [byte 0xE2; byte 0x84; byte 0xAA].

Lemma ToLowerL_kelvin l1 l2 : Forall (fun c => name_byte c = true) l1 ->
  ToLowerL (l1 ++ s2l kelvin ++ l2) = l1 ++ byte 107 :: ToLowerL l2.
Proof.
  induction 1 as [|c l Hc Hl IH]; [done|].
  apply name_byte_facts in Hc as [[Ha _] Hc]. cbn [app].
  by rewrite ToLowerL_ascii_cons, Hc, IH.
Qed.

Lemma TrimSpaceL_kelvin l1 l2 :
  Forall (fun c => name_byte c = true) l1 -> Forall (fun c => name_byte c = true) l2 ->
  TrimSpaceL (l1 ++ s2l kelvin ++ l2) = l1 ++ s2l kelvin ++ l2.
Proof.
  intros H1 H2. apply TrimSpaceL_id.
  - destruct H1 as [|c l1 Hc _]; [by destruct l2|].
    apply leads_fwd_solid. by apply name_byte_facts in Hc as [? _].
  - destruct l2 as [|c l2 _] using rev_ind.
    + unfold leads_bwd. rewrite app_nil_r, reverse_app. done.
    + apply list.Forall_app in H2 as [_ H2]. inv H2.
      rewrite !app_assoc. apply leads_bwd_solid. by apply name_byte_facts.
Qed.

(** The documented ASCII-only strictness has a hole: in an accepted
    lower-case name any letter k may be replaced by the non-ASCII Kelvin sign
    (within the length limit); the result is accepted too and denotes the same
    key. *)
Lemma kelvin_hostname_accepted s1 s2 :
  let nm := s1 +:+ "k" +:+ s2 in
  let odd := s1 +:+ kelvin +:+ s2 in
  TrimSpace nm = nm -> ToLower nm = nm ->
  ValidateExactHostname nm = Ok tt ->
  (String.length odd <= 253)%nat ->
  ValidateExactHostname odd = Ok tt
  /\ NormalizeHostname odd = NormalizeHostname nm
  /\ ~ Forall is_ascii (s2l odd).
Proof.
  intros nm odd Ht Hl Hv Hlen.
  pose proof Hv as (ls & Hh & _ & Hip & Hres)%exact_hostname_spec.
  rewrite Ht, Hl in Hh, Hip, Hres. pose proof (hostname_bytes _ _ Hh) as Hb.
  unfold nm in Hb. rewrite !s2l_app in Hb.
  apply list.Forall_app in Hb as [Hb1 Hb2]. apply list.Forall_cons in Hb2 as [Hk Hb2].
  assert (Hto : TrimSpace odd = odd).
  { unfold odd, TrimSpace. rewrite !s2l_app, TrimSpaceL_kelvin by done.
    by rewrite <- !s2l_app, l2s_s2l. }
  assert (Hlo : ToLower odd = nm).
  { apply s2l_inj. unfold odd, ToLower, nm. rewrite s2l_l2s, !s2l_app.
    rewrite ToLowerL_kelvin, ToLowerL_names by done. done. }
  assert (Ho : hostname_labels (ToLower (TrimSpace odd)) ls) by (by rewrite Hto, Hlo).
  split; [|split].
  - apply exact_hostname_spec. rewrite Hto, Hlo. eauto.
  - rewrite (lower_hostname_normal _ _ Ho), Hto, Hlo. by destruct (hostname_fixed _ _ Hh) as (_ & _ & ->).
  - unfold odd. rewrite !s2l_app, !list.Forall_app. intros (_ & Hk0 & _).
    inversion Hk0 as [|? ? Hk1 _]. unfold is_ascii in Hk1. vm_compute in Hk1. lia.
Qed.

Lemma kelvin_hostname_accepted_witness :
  ValidateExactHostname ("" +:+ kelvin +:+ "ube.example") = Ok tt.
Proof.
  apply (kelvin_hostname_accepted "" "ube.example"); vm_compute; (reflexivity || lia).
Defined.

(** The inputs of src/internal/netutil/hostname_test.go. *)
Example hostname_test_valid :
  forallb (fun h => is_ok (ValidateExactHostname h))
    ["github.com"; "api.github.com"; "crates.io"; "registry.npmjs.org";
     "minio.workspaces-system.svc.cluster.local"] = true.
Proof. vm_compute. reflexivity. Qed.

Example hostname_test_invalid :
  existsb (fun h => is_ok (ValidateExactHostname h))
    [""; "   "; "*.github.com"; "github.com:443"; "https://github.com"; "github.com/";
     "example.com."; ".example.com"; "ex..ample.com"; "192.168.1.1";
     "kubernetes.default.svc"; "kubernetes.default.svc.cluster.local";
     "bad_label_.example.com"; "-bad.example.com"; "bad-.example.com"] = false.
Proof. vm_compute. reflexivity. Qed.
