(* ===== verification/NetPolicy.v ===== *)
(** The broker's network policy for non-admin callers
    (src/cmd/capability-broker/netpolicy.go, and the CSV helpers of github.go).

    Go maps are references: a [networkGrantPolicy] value holds map references,
    copying the struct shares the maps, and [forProfile] writes to them.  The
    model keeps the maps in a store ([pheap]) and threads it through. *)
From S2P Require Export ApiTypes NetUtil.
From stdpp Require Import options.

(** * Environment and CSV lists *)

(** [os.Getenv] is a function; an unset variable reads as the empty string. *)
Definition getenv (env : string -> string) (k def : string) : string :=
  if decide (env k = "") then def else env k.

Definition parseCSVSet (csv : string) : gset string :=
  fold_left (fun out part =>
    let s := ToLower (TrimSpace part) in
    if decide (s = "") then out else {[s]} ∪ out)
    (Split csv (byte 44)) ∅.

Definition parseCSVList (csv : string) : list string :=
  fold_left (fun out part =>
    let s := TrimSpace part in
    if decide (s = "") then out else out ++ [s])
    (Split csv (byte 44)) [].

Definition normalizeToken (s : string) : string :=
  let s := ToLower (TrimSpace s) in
  TrimPrefix s ".".

Definition normalizeUniqueList (inp : list string) : list string :=
  (fold_left (fun '(out, seen) s =>
    let s := normalizeToken s in
    if decide (s = "") then (out, seen)
    else if decide (s ∈ (seen : gset string)) then (out, seen)
    else (out ++ [s], {[s]} ∪ seen))
    inp ([], ∅)).1.

Definition normalizeSet (inp : gset string) : gset string :=
  set_fold (fun k out =>
    let k := normalizeToken k in
    if decide (k = "") then out else {[k]} ∪ out) ∅ inp.

(** * The store of maps *)

(** The two map types of the policy: [map[string]struct{}] and
    [map[int32]struct{}].  A reference is a location, nil is [None]. *)
Record pheap := {
  ph_str : gmap nat (gset string);
  ph_int : gmap nat (gset Z);
  ph_next : nat;
}.
Definition mapref := option nat.

Definition empty_heap : pheap := {| ph_str := ∅; ph_int := ∅; ph_next := 0 |}.

Definition read_str (h : pheap) (r : mapref) : gset string :=
  match r with Some l => default ∅ (ph_str h !! l) | None => ∅ end.
Definition read_int (h : pheap) (r : mapref) : gset Z :=
  match r with Some l => default ∅ (ph_int h !! l) | None => ∅ end.

Definition alloc_str (s : gset string) (h : pheap) : mapref * pheap :=
  (Some (ph_next h),
   {| ph_str := <[ph_next h := s]> (ph_str h); ph_int := ph_int h;
      ph_next := S (ph_next h) |}).
Definition alloc_int (s : gset Z) (h : pheap) : mapref * pheap :=
  (Some (ph_next h),
   {| ph_str := ph_str h; ph_int := <[ph_next h := s]> (ph_int h);
      ph_next := S (ph_next h) |}).

(** [m[k] = struct{}{}] (the program never writes to a nil map). *)
Definition add_str (k : string) (r : mapref) (h : pheap) : pheap :=
  match r with
  | Some l => {| ph_str := <[l := {[k]} ∪ read_str h r]> (ph_str h);
                 ph_int := ph_int h; ph_next := ph_next h |}
  | None => h
  end.
Definition add_int (k : Z) (r : mapref) (h : pheap) : pheap :=
  match r with
  | Some l => {| ph_str := ph_str h; ph_int := <[l := {[k]} ∪ read_int h r]> (ph_int h);
                 ph_next := ph_next h |}
  | None => h
  end.

(** * Policies *)

Record networkGrantProfileOverride := {
  ov_PublicEgressMode : string;
  ov_InternalSuffixAllowlist : list string;
  ov_PublicEgressAllowlist : list string;
  ov_PublicDNSAllowlist : list string;
  ov_AllowNon443 : option bool;
  ov_AllowedNon443Ports : list Z;
}.

Record networkGrantPolicy := {
  pol_publicEgressMode : string;
  pol_internalSuffixAllowlist : list string;
  pol_publicEgressAllowlist : mapref;
  pol_publicDNSAllowlist : mapref;
  pol_maxGrantsPerJob : Z;
  pol_nonAdminAllowNon443 : bool;
  pol_nonAdminAllowedNon443Ports : mapref;
  pol_profileOverrides : gmap string networkGrantProfileOverride;
}.

Definition invalid_port (p : Z) : bool := (p <=? 0) || (65535 <? p).

(** One entry of the JSON object: validation and the [publicEgressMode] as
    stored. *)
Definition check_override (k : string) (v : networkGrantProfileOverride)
    : result error networkGrantProfileOverride :=
  v ← (if decide (ov_PublicEgressMode v = "") then Ok v else
       let m := ToLower (TrimSpace (ov_PublicEgressMode v)) in
       if decide (m <> "deny" /\ m <> "allow") then
         Err (Errorf "BROKER_NETWORK_PROFILE_OVERRIDES[%q].publicEgressMode=%q is invalid (want deny|allow)"
           [VStr k; VStr (ov_PublicEgressMode v)])
       else Ok {| ov_PublicEgressMode := m;
                  ov_InternalSuffixAllowlist := ov_InternalSuffixAllowlist v;
                  ov_PublicEgressAllowlist := ov_PublicEgressAllowlist v;
                  ov_PublicDNSAllowlist := ov_PublicDNSAllowlist v;
                  ov_AllowNon443 := ov_AllowNon443 v;
                  ov_AllowedNon443Ports := ov_AllowedNon443Ports v |});
  _ ← forE (fun _ h _ =>
        match ValidateExactHostname (TrimSpace h) with
        | Err e => Err (Errorf "BROKER_NETWORK_PROFILE_OVERRIDES[%q].publicEgressAllowlist contains invalid hostname %q: %w"
            [VStr k; VStr (TrimSpace h); err_value e])
        | Ok _ => Ok tt
        end) (ov_PublicEgressAllowlist v) tt;
  _ ← forE (fun _ h _ =>
        match ValidateExactHostname (TrimSpace h) with
        | Err e => Err (Errorf "BROKER_NETWORK_PROFILE_OVERRIDES[%q].publicDNSAllowlist contains invalid hostname %q: %w"
            [VStr k; VStr (TrimSpace h); err_value e])
        | Ok _ => Ok tt
        end) (ov_PublicDNSAllowlist v) tt;
  _ ← (if decide (ov_AllowNon443 v = Some true) then
         forE (fun _ p _ =>
           if invalid_port p then
             Err (Errorf "BROKER_NETWORK_PROFILE_OVERRIDES[%q].allowedNon443Ports contains invalid port %d"
               [VStr k; VInt p])
           else if decide (p = 443) then
             Err (Errorf "BROKER_NETWORK_PROFILE_OVERRIDES[%q].allowedNon443Ports must not include 443"
               [VStr k])
           else Ok tt) (ov_AllowedNon443Ports v) tt
       else Ok tt);
  Ok v.

(** [decode] is [json.Unmarshal] into the map of overrides: its entries in the
    (unspecified) order the range loop visits them. *)
Definition parseNetworkGrantProfileOverrides
    (decode : string -> result error (list (string * networkGrantProfileOverride)))
    (raw : string) : result error (gmap string networkGrantProfileOverride) :=
  let raw := TrimSpace raw in
  if decide (raw = "") then Ok ∅ else
  match decode raw with
  | Err e => Err (Errorf "BROKER_NETWORK_PROFILE_OVERRIDES is invalid JSON: %w" [err_value e])
  | Ok inp =>
      forE (fun _ '(k, v) out =>
        let prof := normalizeToken k in
        if decide (prof = "") then Ok out else
        v' ← check_override k v; Ok (<[prof := v']> out)) inp ∅
  end.

Definition newNetworkGrantPolicyFromEnv
    (decode : string -> result error (list (string * networkGrantProfileOverride)))
    (env : string -> string) (h : pheap) : result error (networkGrantPolicy * pheap) :=
  let mode := ToLower (TrimSpace (getenv env "BROKER_NETWORK_PUBLIC_EGRESS_MODE" "deny")) in
  _ ← guard_err (bool_decide (mode <> "deny" /\ mode <> "allow"))
        (Errorf "BROKER_NETWORK_PUBLIC_EGRESS_MODE=%q is invalid (want deny|allow)" [VStr mode]);
  let internalSuffixes :=
    normalizeUniqueList (parseCSVList (getenv env "BROKER_NETWORK_INTERNAL_SUFFIX_ALLOWLIST"
      "svc.cluster.local,cluster.local")) in
  let internalSuffixes :=
    if decide (internalSuffixes = []) then ["svc.cluster.local"; "cluster.local"]
    else internalSuffixes in
  let raw := TrimSpace (getenv env "BROKER_NETWORK_MAX_GRANTS_PER_JOB" "20") in
  maxGrantsPerJob ←
    (if decide (raw = "") then Ok 20 else
     let bad := Errorf "BROKER_NETWORK_MAX_GRANTS_PER_JOB=%q is invalid (want non-negative int)" [VStr raw] in
     match Atoi raw with
     | Some n => if n <? 0 then Err bad else Ok n
     | None => Err bad
     end);
  overrides ← parseNetworkGrantProfileOverrides decode
                (getenv env "BROKER_NETWORK_PROFILE_OVERRIDES" "");
  let '(egress, h) := alloc_str (normalizeSet (parseCSVSet
    (getenv env "BROKER_NETWORK_PUBLIC_EGRESS_ALLOWLIST" ""))) h in
  let '(dns, h) := alloc_str (normalizeSet (parseCSVSet
    (getenv env "BROKER_NETWORK_PUBLIC_DNS_ALLOWLIST" ""))) h in
  let '(ports, h) := alloc_int ∅ h in
  Ok ({| pol_publicEgressMode := mode;
         pol_internalSuffixAllowlist := internalSuffixes;
         pol_publicEgressAllowlist := egress;
         pol_publicDNSAllowlist := dns;
         pol_maxGrantsPerJob := maxGrantsPerJob;
         pol_nonAdminAllowNon443 := false;
         pol_nonAdminAllowedNon443Ports := ports;
         pol_profileOverrides := overrides |}, h).

Definition hostIsInternal (p : networkGrantPolicy) (host : string) : bool :=
  let h := ToLower (TrimSpace host) in
  if decide (h = "") then false else
  existsb (fun suf =>
    let suf := normalizeToken suf in
    if decide (suf = "") then false
    else bool_decide (h = suf) || HasSuffix h ("." +:+ suf))
    (pol_internalSuffixAllowlist p).

Definition publicHostAllowed (p : networkGrantPolicy) (m : pheap) (host : string) : bool :=
  let h := ToLower (TrimSpace host) in
  if decide (h = "") then false
  else if decide (pol_publicEgressMode p = "allow") then true
  else bool_decide (h ∈ read_str m (pol_publicEgressAllowlist p)).

Definition publicDNSAllowed (p : networkGrantPolicy) (m : pheap) (host : string) : bool :=
  let h := ToLower (TrimSpace host) in
  if decide (h = "") then false
  else if decide (pol_publicEgressMode p = "allow") then true
  else bool_decide (h ∈ read_str m (pol_publicDNSAllowlist p)).

(** The loops [for _, h := range ov.X { n := normalizeToken(h); ... m[n] = {} }]. *)
Definition add_hosts (hosts : list string) (r : mapref) (m : pheap) : pheap :=
  fold_left (fun m host =>
    let n := normalizeToken host in
    if decide (n = "") then m else add_str n r m) hosts m.

Definition add_ports (ports : list Z) (r : mapref) (m : pheap) : pheap :=
  fold_left (fun m port =>
    if invalid_port port || (port =? 443) then m else add_int port r m) ports m.

(** A nil map is replaced by a new one before it is written. *)
Definition ensure_str (r : mapref) (m : pheap) : mapref * pheap :=
  match r with Some _ => (r, m) | None => alloc_str ∅ m end.
Definition ensure_int (r : mapref) (m : pheap) : mapref * pheap :=
  match r with Some _ => (r, m) | None => alloc_int ∅ m end.

(** The override's hosts are added to the set [r] refers to. *)
Definition merge_hosts (hosts : list string) (r : mapref) (m : pheap) : mapref * pheap :=
  if decide (hosts = []) then (r, m)
  else let '(r, m) := ensure_str r m in (r, add_hosts hosts r m).

(** The non-443 switch, and the ports it allows. *)
Definition override_allow (ov : networkGrantProfileOverride) (allow : bool) (r : mapref)
    (m : pheap) : bool * mapref * pheap :=
  match ov_AllowNon443 ov with
  | None => (allow, r, m)
  | Some true => (true, r, m)
  | Some false => let '(r, m) := alloc_int ∅ m in (false, r, m)
  end.

Definition merge_ports (ports : list Z) (allow : bool) (r : mapref) (m : pheap)
    : mapref * pheap :=
  if allow then
    let '(r, m) := ensure_int r m in
    let m := if decide (ports = []) then m else add_ports ports r m in
    let m := if decide (read_int m r = ∅) then add_int 80 r m else m in
    (r, m)
  else (r, m).

Definition forProfile (p : networkGrantPolicy) (profile : string) (m : pheap)
    : networkGrantPolicy * pheap :=
  let prof := normalizeToken profile in
  if decide (prof = "") then (p, m) else
  match pol_profileOverrides p !! prof with
  | None => (p, m)
  | Some ov =>
      let mode :=
        if decide (ov_PublicEgressMode ov = "") then pol_publicEgressMode p
        else ToLower (TrimSpace (ov_PublicEgressMode ov)) in
      let suffixes :=
        if decide (ov_InternalSuffixAllowlist ov = []) then pol_internalSuffixAllowlist p
        else normalizeUniqueList
               (pol_internalSuffixAllowlist p ++ ov_InternalSuffixAllowlist ov) in
      let '(egress, m) :=
        merge_hosts (ov_PublicEgressAllowlist ov) (pol_publicEgressAllowlist p) m in
      let '(dns, m) :=
        merge_hosts (ov_PublicDNSAllowlist ov) (pol_publicDNSAllowlist p) m in
      let '(allow, ports, m) :=
        override_allow ov (pol_nonAdminAllowNon443 p) (pol_nonAdminAllowedNon443Ports p) m in
      let '(ports, m) := merge_ports (ov_AllowedNon443Ports ov) allow ports m in
      ({| pol_publicEgressMode := mode;
          pol_internalSuffixAllowlist := suffixes;
          pol_publicEgressAllowlist := egress;
          pol_publicDNSAllowlist := dns;
          pol_maxGrantsPerJob := pol_maxGrantsPerJob p;
          pol_nonAdminAllowNon443 := allow;
          pol_nonAdminAllowedNon443Ports := ports;
          pol_profileOverrides := pol_profileOverrides p |}, m)
  end.

(** [ports := r.Ports; if len(ports) == 0 { ports = []int32{443} }] *)
Definition rule_ports (r : NetworkGrantEgressRule) : list Z :=
  if decide (er_Ports r = []) then [443] else er_Ports r.

(** The port checks of one egress rule. *)
Definition check_ports (p : networkGrantPolicy) (m : pheap) (policyProfile : string)
    (allowNon443 : bool) (i : nat) (ports : list Z) : result error unit :=
  forE (fun _ pnum _ =>
    if decide (pnum = 443) then Ok tt
    else if negb allowNon443 then
      Err (Errorf "egress[%d] requests non-443 port %d but allowNon443 is false"
        [VInt (Z.of_nat i); VInt pnum])
    else
      let denied := Errorf "egress[%d] non-443 port %d not allowed for non-admin (policyProfile=%q)"
        [VInt (Z.of_nat i); VInt pnum; VStr (TrimSpace policyProfile)] in
      if negb (pol_nonAdminAllowNon443 p) then Err denied
      else
        let allowed := read_int m (pol_nonAdminAllowedNon443Ports p) in
        if decide (allowed <> ∅ /\ pnum ∉ allowed) then Err denied else Ok tt)
    ports tt.

(** One iteration of the egress loop: the state is ([publicRequested],
    [egressHosts]). *)
Definition check_egress (p : networkGrantPolicy) (m : pheap) (policyProfile : string)
    (allowNon443 : bool) (i : nat) (r : NetworkGrantEgressRule)
    (st : bool * gset string) : result error (bool * gset string) :=
  let '(publicRequested, egressHosts) := st in
  let raw := TrimSpace (er_Host r) in
  match ValidateExactHostname raw with
  | Err e => Err (Errorf "egress[%d].host %q is invalid: %w"
               [VInt (Z.of_nat i); VStr raw; err_value e])
  | Ok _ =>
      let h := ToLower raw in
      if decide (h = "") then Err (Errorf "egress[%d].host is empty" [VInt (Z.of_nat i)])
      else
        let egressHosts := {[h]} ∪ egressHosts in
        _ ← check_ports p m policyProfile allowNon443 i (rule_ports r);
        if hostIsInternal p h then Ok (publicRequested, egressHosts)
        else if publicHostAllowed p m h then Ok (true, egressHosts)
        else Err (Errorf "public egress host %q is not allowed (proxy-first; use internal mirrors or admin override)" [VStr h])
  end.

(** One iteration of the dnsAllow loop. *)
Definition check_dns (p : networkGrantPolicy) (m : pheap) (egressHosts : gset string)
    (i : nat) (host : string) : result error unit :=
  let raw := TrimSpace host in
  if decide (raw = "") then Err (Errorf "dnsAllow[%d] is empty" [VInt (Z.of_nat i)]) else
  match ValidateExactHostname raw with
  | Err e => Err (Errorf "dnsAllow[%d] %q is invalid: %w"
               [VInt (Z.of_nat i); VStr raw; err_value e])
  | Ok _ =>
      let h := ToLower raw in
      if decide (h = "") then Err (Errorf "dnsAllow[%d] is empty" [VInt (Z.of_nat i)])
      else if decide (h ∈ egressHosts) then Ok tt
      else if hostIsInternal p h then Ok tt
      else if publicDNSAllowed p m h then Ok tt
      else Err (Errorf "public dnsAllow host %q is not allowed (proxy-first; admin can override)" [VStr h])
  end.

(** The checks of [validateNonAdminNetworkGrant] after its first line: [p] is
    the policy of the profile. *)
Definition validate_with (p : networkGrantPolicy) (m : pheap) (policyProfile : string)
    (spec : NetworkGrantSpec) : result error unit :=
  let mode := ngs_PolicyMode spec in
  let proto := if decide (ngs_Protocol spec = "") then NetworkGrantProtocolTCP
               else ngs_Protocol spec in
  if decide (proto <> NetworkGrantProtocolTCP) then
    Err (Errorf "protocol %q not allowed for non-admin" [VStr proto])
  else if ngs_AllowNon443 spec && negb (pol_nonAdminAllowNon443 p) then
    Err (Errorf "allowNon443 not allowed for non-admin (policyProfile=%q)"
      [VStr (TrimSpace policyProfile)])
  else
    '(publicRequested, egressHosts) ←
      forE (check_egress p m policyProfile (ngs_AllowNon443 spec)) (ngs_Egress spec) (false, ∅);
    _ ← (if publicRequested : bool then
           let mode := if decide (mode = "") then NetworkGrantPolicyModeProxyConnect else mode in
           guard_err (bool_decide (mode <> NetworkGrantPolicyModeProxyConnect))
             (Errorf "policyMode %q not allowed for public egress (non-admin requires PROXY_CONNECT)" [VStr mode])
         else
           let mode := if decide (mode = "") then NetworkGrantPolicyModeStrictFQDN else mode in
           guard_err (bool_decide (mode <> NetworkGrantPolicyModeStrictFQDN))
             (Errorf "policyMode %q not allowed for internal egress (non-admin requires STRICT_FQDN)" [VStr mode]));
    forE (fun i host _ => check_dns p m egressHosts i host) (ngs_DNSAllow spec) tt.

Definition validateNonAdminNetworkGrant (p : networkGrantPolicy) (policyProfile : string)
    (spec : NetworkGrantSpec) (m : pheap) : result error unit * pheap :=
  let '(p, m) := forProfile p policyProfile m in
  (validate_with p m policyProfile spec, m).

(** * Internal destinations *)

Definition labels_of (h : string) : list (list ascii) := splitL c_dot (s2l h).

Lemma splitL_inj sep l1 l2 : splitL sep l1 = splitL sep l2 -> l1 = l2.
Proof. intros H. by rewrite <- (joinL_splitL sep l1), H, joinL_splitL. Qed.

(** Equality or a [.]-suffix is a suffix of labels. *)
Lemma label_suffix_iff h suf :
  h = suf \/ HasSuffix h ("." +:+ suf) = true
  <-> labels_of suf `suffix_of` labels_of h.
Proof.
  unfold labels_of. split.
  - intros [->|[t ->]%HasSuffix_spec]; [done|].
    rewrite s2l_app. change (s2l ("." +:+ suf)) with (c_dot :: s2l suf).
    rewrite splitL_sep. by apply suffix_app_r.
  - intros [pre Hpre]. destruct pre as [|x pre].
    + left. apply s2l_inj, (splitL_inj c_dot). done.
    + right. apply HasSuffix_spec. exists (l2s (joinL c_dot (x :: pre))).
      apply s2l_inj. rewrite s2l_app, s2l_l2s.
      change (s2l ("." +:+ suf)) with (c_dot :: s2l suf).
      rewrite <- (joinL_splitL c_dot (s2l h)), Hpre.
      rewrite <- (joinL_splitL c_dot (s2l suf)) at 2.
      pose proof (splitL_nonempty c_dot (s2l suf)) as Hne.
      generalize dependent (splitL c_dot (s2l suf)). clear. intros l _ Hne.
      revert x. induction pre as [|y pre IH]; intros x.
      * destruct l; [done|]. done.
      * cbn [app]. change (joinL c_dot (x :: y :: pre ++ l)) with
          (x ++ c_dot :: joinL c_dot (y :: pre ++ l)).
        change (joinL c_dot (x :: y :: pre)) with (x ++ c_dot :: joinL c_dot (y :: pre)).
        specialize (IH y). cbn [app] in IH. rewrite IH, <- app_assoc. done.
Qed.

Lemma hostIsInternal_spec p host :
  hostIsInternal p host = true <->
  ToLower (TrimSpace host) <> "" /\
  exists suf, suf ∈ normalizeToken <$> pol_internalSuffixAllowlist p /\ suf <> ""
    /\ labels_of suf `suffix_of` labels_of (ToLower (TrimSpace host)).
Proof.
  unfold hostIsInternal. set (h := ToLower (TrimSpace host)).
  case_decide as He; [split; [done | by intros []]|].
  rewrite existsb_elem_of. setoid_rewrite <- label_suffix_iff.
  setoid_rewrite list_elem_of_fmap. split.
  - intros (s & Hs & Hb). split; [done|]. case_decide; [done|].
    exists (normalizeToken s). split; [eauto|]. split; [done|].
    by rewrite orb_true_iff, bool_decide_eq_true in Hb.
  - intros (_ & suf & (s & -> & Hs) & Hne & H). exists s. split; [done|].
    rewrite decide_False by done. by rewrite orb_true_iff, bool_decide_eq_true.
Qed.

(** A destination counts as internal exactly when its labels end with all
    the labels of a (non-empty, normalized) entry of the suffix list: a suffix
    is only matched at a label boundary, so [evilcluster.local] is not internal
    to [cluster.local]. *)
Lemma hostIsInternal_iff p host :
  hostIsInternal p host = true <->
  ToLower (TrimSpace host) <> "" /\
  exists suf, suf ∈ normalizeToken <$> pol_internalSuffixAllowlist p /\ suf <> ""
    /\ labels_of suf `suffix_of` labels_of (ToLower (TrimSpace host)).
Proof. apply hostIsInternal_spec. Qed.

(** * What an accepted request satisfies *)

Section accepted.
Context (p : networkGrantPolicy) (m : pheap) (spec : NetworkGrantSpec).

Definition host_key (h : string) : string := ToLower (TrimSpace h).

(** A port the policy permits in this request. *)
Definition port_permitted (port : Z) : Prop :=
  port = 443 \/
  (ngs_AllowNon443 spec = true /\ pol_nonAdminAllowNon443 p = true
   /\ (read_int m (pol_nonAdminAllowedNon443Ports p) = ∅
       \/ port ∈ read_int m (pol_nonAdminAllowedNon443Ports p))).

Definition rule_permitted (r : NetworkGrantEgressRule) : Prop :=
  ValidateExactHostname (TrimSpace (er_Host r)) = Ok tt
  /\ Forall port_permitted (rule_ports r)
  /\ (hostIsInternal p (host_key (er_Host r)) = true
      \/ publicHostAllowed p m (host_key (er_Host r)) = true).

Definition public_rule (r : NetworkGrantEgressRule) : bool :=
  negb (hostIsInternal p (host_key (er_Host r))).

Definition dns_permitted (egressHosts : gset string) (host : string) : Prop :=
  ValidateExactHostname (TrimSpace host) = Ok tt
  /\ (host_key host ∈ egressHosts
      \/ hostIsInternal p (host_key host) = true
      \/ publicDNSAllowed p m (host_key host) = true).

(** The mode public egress forces, and the mode of a purely internal request. *)
Definition required_mode : string :=
  if existsb public_rule (ngs_Egress spec)
  then NetworkGrantPolicyModeProxyConnect else NetworkGrantPolicyModeStrictFQDN.

Definition egress_hosts : gset string :=
  list_to_set ((fun r => host_key (er_Host r)) <$> ngs_Egress spec).

Definition grant_permitted : Prop :=
  (ngs_Protocol spec = "" \/ ngs_Protocol spec = NetworkGrantProtocolTCP)
  /\ (ngs_AllowNon443 spec = true -> pol_nonAdminAllowNon443 p = true)
  /\ Forall rule_permitted (ngs_Egress spec)
  /\ (ngs_PolicyMode spec = "" \/ ngs_PolicyMode spec = required_mode)
  /\ Forall (dns_permitted egress_hosts) (ngs_DNSAllow spec).

Lemma check_ports_iff prof i ports :
  check_ports p m prof (ngs_AllowNon443 spec) i ports = Ok tt <->
  Forall port_permitted ports.
Proof.
  apply forE_iff. intros _ port _. unfold port_permitted.
  case_decide; [tauto|].
  destruct (ngs_AllowNon443 spec); cbn; [|intuition discriminate].
  destruct (pol_nonAdminAllowNon443 p); cbn; [|intuition discriminate].
  case_decide as Hd; [split; [done|]; intuition|].
  split; [|done]. intros _. right. split; [done|]. split; [done|].
  destruct (decide (read_int m (pol_nonAdminAllowedNon443Ports p) = ∅)); [by left|].
  right. destruct (decide (port ∈ read_int m (pol_nonAdminAllowedNon443Ports p))); [done|].
  by destruct Hd.
Qed.

Lemma check_egress_iff prof i r st st' :
  check_egress p m prof (ngs_AllowNon443 spec) i r st = Ok st' <->
  rule_permitted r
  /\ st' = (st.1 || public_rule r, {[host_key (er_Host r)]} ∪ st.2).
Proof.
  destruct st as [pb hs]. unfold check_egress, rule_permitted, public_rule.
  destruct (ValidateExactHostname (TrimSpace (er_Host r))) as [[]|e] eqn:Hv;
    [|intuition discriminate].
  assert (Hne : host_key (er_Host r) <> "").
  { apply exact_hostname_nonempty in Hv. by rewrite TrimSpace_idemp in Hv. }
  fold (host_key (er_Host r)). rewrite decide_False by done.
  pose proof (check_ports_iff prof i (rule_ports r)) as Hp.
  destruct (check_ports _ _ _ _ _ _) as [[]|e]; cbn [mbind result_bind].
  - destruct (hostIsInternal p (host_key (er_Host r))) eqn:Hi; cbn.
    + rewrite orb_false_r. intuition congruence.
    + destruct (publicHostAllowed p m (host_key (er_Host r))); cbn;
        rewrite ?orb_true_r; intuition congruence.
  - split; [done|]. intros [(_ & H & _) _]. by apply Hp in H.
Qed.

Lemma egress_state l : forall b hs,
  fold_left (fun st r => (st.1 || public_rule r, {[host_key (er_Host r)]} ∪ st.2)) l (b, hs)
  = (b || existsb public_rule l,
     list_to_set ((fun r => host_key (er_Host r)) <$> l) ∪ (hs : gset string)).
Proof.
  induction l as [|r l IH]; intros b hs; cbn.
  - by rewrite orb_false_r, union_empty_l_L.
  - rewrite IH, orb_assoc. f_equal. set_solver.
Qed.

Lemma check_dns_iff hs i host :
  check_dns p m hs i host = Ok tt <-> dns_permitted hs host.
Proof.
  unfold check_dns, dns_permitted, host_key.
  destruct (ValidateExactHostname (TrimSpace host)) as [[]|e] eqn:Hv.
  - pose proof Hv as Hne%exact_hostname_nonempty. rewrite TrimSpace_idemp in Hne.
    rewrite (decide_False (P := TrimSpace host = "")) by (intros Ht; by rewrite Ht in Hne).
    rewrite decide_False by done.
    case_decide; [tauto|]. repeat case_match; intuition congruence.
  - case_decide; intuition discriminate.
Qed.

Lemma mode_check_iff mode want (e : error) :
  guard_err (bool_decide ((if decide (mode = "") then want else mode) <> want)) e = Ok tt
  <-> mode = "" \/ mode = want.
Proof.
  unfold guard_err. case_bool_decide as Hm; case_decide; intuition congruence.
Qed.

Lemma validate_with_spec prof : validate_with p m prof spec = Ok tt <-> grant_permitted.
Proof.
  unfold validate_with, grant_permitted.
  destruct (decide (ngs_Protocol spec = "" \/ ngs_Protocol spec = NetworkGrantProtocolTCP)) as [Hp|Hp];
    cycle 1.
  { rewrite (decide_False (P := ngs_Protocol spec = "")) by tauto.
    rewrite decide_True by tauto. split; [done | tauto]. }
  rewrite decide_False by (case_decide; intros ?; intuition congruence).
  destruct (ngs_AllowNon443 spec && negb (pol_nonAdminAllowNon443 p)) eqn:Ha.
  { apply andb_true_iff in Ha as [Ha Hn]. apply negb_true_iff in Hn.
    rewrite Hn. split; [done|]. intros (_ & H & _). by specialize (H Ha). }
  assert (Hallow : ngs_AllowNon443 spec = true -> pol_nonAdminAllowNon443 p = true).
  { intros H. rewrite H in Ha. cbn in Ha. by apply negb_false_iff in Ha. }
  assert (Hloop : forall st,
    forE (check_egress p m prof (ngs_AllowNon443 spec)) (ngs_Egress spec) (false, ∅) = Ok st
    <-> Forall rule_permitted (ngs_Egress spec)
        /\ st = (existsb public_rule (ngs_Egress spec), egress_hosts)).
  { intros st. unfold forE.
    rewrite (forE_from_iff _ _ _ _ _ _ _ (fun i r b b' => check_egress_iff prof i r b b')).
    rewrite egress_state. by rewrite union_empty_r_L. }
  destruct (forE (check_egress _ _ _ _) _ _) as [st|e].
  - destruct (proj1 (Hloop st) eq_refl) as [HF ->]. cbn [mbind result_bind].
    rewrite <- (forE_iff _ _ _ (fun i h _ => check_dns_iff egress_hosts i h)).
    unfold required_mode. destruct (existsb public_rule (ngs_Egress spec));
      (match goal with |- context [guard_err ?b ?e] =>
        pose proof (mode_check_iff (ngs_PolicyMode spec) _ e : guard_err b e = Ok tt <-> _) as Hm;
        destruct (guard_err b e) as [[]|]; cbn [mbind result_bind]; intuition congruence end).
  - split; [done|]. intros (_ & _ & HF & _).
    by pose proof (proj2 (Hloop _) (conj HF eq_refl)).
Qed.
End accepted.

Lemma validateNonAdmin_spec p prof spec m :
  (validateNonAdminNetworkGrant p prof spec m).1 = Ok tt <->
  grant_permitted (forProfile p prof m).1 (forProfile p prof m).2 spec.
Proof.
  unfold validateNonAdminNetworkGrant. destruct (forProfile p prof m) as [q m'].
  apply validate_with_spec.
Qed.

(** C3: [validateNonAdminNetworkGrant] accepts exactly the requests that the
    policy of the profile permits: TCP only, every egress host an exact name
    that is internal or allowlisted, every port 443 or an opted-in and allowed
    one, the proxy mode exactly when some host is public, and DNS names that
    are requested egress hosts, internal, or on the DNS allowlist. *)
Theorem validateNonAdminNetworkGrant_iff p prof spec m :
  (validateNonAdminNetworkGrant p prof spec m).1 = Ok tt <->
  grant_permitted (forProfile p prof m).1 (forProfile p prof m).2 spec.
Proof. apply validateNonAdmin_spec. Qed.

(** * The allowlists are shared *)

(** Every set of the old store is still there, possibly larger. *)
Definition heap_le (m m' : pheap) : Prop :=
  (ph_next m <= ph_next m')%nat /\
  forall l, (l < ph_next m)%nat -> read_str m (Some l) ⊆ read_str m' (Some l).

#[global] Instance heap_le_preorder : PreOrder heap_le.
Proof.
  split.
  - intros m. split; [lia | set_solver].
  - intros m1 m2 m3 [Hn1 H1] [Hn2 H2]. split; [lia|]. intros l Hl.
    etrans; [by apply H1 | apply H2; lia].
Qed.

Lemma read_str_insert l l' s m n :
  read_str {| ph_str := <[l := s]> (ph_str m); ph_int := ph_int m; ph_next := n |} (Some l')
  = if decide (l = l') then s else read_str m (Some l').
Proof.
  cbn. case_decide; [subst; by rewrite lookup_insert_eq | by rewrite lookup_insert_ne].
Qed.

Lemma add_str_le k r m : heap_le m (add_str k r m).
Proof.
  destruct r as [l|]; [|done]. split; [done|]. intros l' _. unfold add_str.
  rewrite read_str_insert. case_decide; [subst; set_solver | done].
Qed.
Lemma add_int_le k r m : heap_le m (add_int k r m).
Proof. destruct r as [l|]; [|done]. by split. Qed.
Lemma alloc_str_le s m : heap_le m (alloc_str s m).2.
Proof.
  split; [cbn; lia|]. intros l Hl. unfold alloc_str, snd. rewrite read_str_insert.
  case_decide; [lia | done].
Qed.
Lemma alloc_int_le s m : heap_le m (alloc_int s m).2.
Proof. split; [cbn; lia | done]. Qed.

Lemma fold_heap_le {A} (f : pheap -> A -> pheap) l : (forall m x, heap_le m (f m x)) ->
  forall m, heap_le m (fold_left f l m).
Proof. intros Hf. induction l as [|x l IH]; intros m; cbn; [done|]. etrans; [apply Hf | apply IH]. Qed.

Lemma add_hosts_le hosts r m : heap_le m (add_hosts hosts r m).
Proof. apply fold_heap_le. intros; cbv beta zeta. case_decide; [done | apply add_str_le]. Qed.
Lemma add_ports_le ports r m : heap_le m (add_ports ports r m).
Proof. apply fold_heap_le. intros; cbv beta zeta. case_match; [done | apply add_int_le]. Qed.
Lemma ensure_str_le r m : heap_le m (ensure_str r m).2.
Proof. destruct r; [done | apply alloc_str_le]. Qed.
Lemma ensure_int_le r m : heap_le m (ensure_int r m).2.
Proof. destruct r; [done | apply alloc_int_le]. Qed.

Lemma add_hosts_elem hosts host l : host ∈ hosts -> normalizeToken host <> "" ->
  forall m, (l < ph_next m)%nat ->
  normalizeToken host ∈ read_str (add_hosts hosts (Some l) m) (Some l).
Proof.
  intros Hin Hne. induction hosts as [|host' hosts IH]; [by apply not_elem_of_nil in Hin|].
  intros m Hl. change (add_hosts (host' :: hosts) (Some l) m) with
    (add_hosts hosts (Some l)
      (if decide (normalizeToken host' = "") then m else add_str (normalizeToken host') (Some l) m)).
  apply elem_of_cons in Hin as [->|Hin].
  - rewrite decide_False by done. apply add_hosts_le; [done|].
    unfold add_str. rewrite read_str_insert. rewrite decide_True by done. set_solver.
  - apply IH; [done|]. case_decide; [done|].
    destruct (add_str_le (normalizeToken host') (Some l) m). lia.
Qed.

Lemma merge_hosts_le hosts r m : heap_le m (merge_hosts hosts r m).2.
Proof.
  unfold merge_hosts. case_decide; [done|]. pose proof (ensure_str_le r m).
  destruct (ensure_str r m) as [r' m']. etrans; [done | apply add_hosts_le].
Qed.
Lemma override_allow_le ov b r m : heap_le m (override_allow ov b r m).2.
Proof. unfold override_allow. destruct (ov_AllowNon443 ov) as [[]|]; [done| |done]. apply alloc_int_le. Qed.
Lemma merge_ports_le ports b r m : heap_le m (merge_ports ports b r m).2.
Proof.
  unfold merge_ports. destruct b; [|done]. pose proof (ensure_int_le r m) as H.
  destruct (ensure_int r m) as [r' m']. cbn [snd] in *. etrans; [exact H|].
  repeat case_decide; rewrite <- ?add_int_le, <- ?add_ports_le; done.
Qed.

Lemma forProfile_hosts p prof m ov host l :
  normalizeToken prof <> "" -> pol_profileOverrides p !! normalizeToken prof = Some ov ->
  pol_publicEgressAllowlist p = Some l -> (l < ph_next m)%nat ->
  host ∈ ov_PublicEgressAllowlist ov -> normalizeToken host <> "" ->
  normalizeToken host ∈ read_str (forProfile p prof m).2 (Some l).
Proof.
  intros Hne Hov Hl Hlt Hin Hh. unfold forProfile. rewrite decide_False, Hov, Hl by done.
  pose proof (merge_hosts_le (ov_PublicEgressAllowlist ov) (Some l) m) as L0.
  assert (E : normalizeToken host ∈
    read_str (merge_hosts (ov_PublicEgressAllowlist ov) (Some l) m).2 (Some l)).
  { unfold merge_hosts. rewrite decide_False by (intros He; rewrite He in Hin; by apply not_elem_of_nil in Hin).
    cbn [ensure_str snd]. by apply add_hosts_elem. }
  destruct (merge_hosts (ov_PublicEgressAllowlist ov) _ m) as [e m1]. cbn [snd] in *.
  pose proof (merge_hosts_le (ov_PublicDNSAllowlist ov) (pol_publicDNSAllowlist p) m1) as L1.
  destruct (merge_hosts _ _ m1) as [d m2]. cbn [snd] in *.
  pose proof (override_allow_le ov (pol_nonAdminAllowNon443 p) (pol_nonAdminAllowedNon443Ports p) m2) as L2.
  destruct (override_allow _ _ _ m2) as [[b q] m3]. cbn [snd] in *.
  pose proof (merge_ports_le (ov_AllowedNon443Ports ov) b q m3) as L3.
  destruct (merge_ports _ _ _ m3) as [q' m4]. cbn [snd] in *.
  assert (L : heap_le m1 m4) by (etrans; [exact L1 | by etrans]).
  apply L; [|exact E]. destruct L0. lia.
Qed.

(** For an exact hostname [normalizeToken] is the key the checks use. *)
Lemma normalizeToken_hostname host :
  ValidateExactHostname host = Ok tt -> normalizeToken host = host_key host.
Proof.
  intros (ls & Hh & _)%exact_hostname_spec. unfold normalizeToken, TrimPrefix, host_key.
  pose proof Hh as Hh2. destruct (hostname_fixed _ _ Hh) as (_ & Hl & _). rewrite <- Hl in Hh2.
  destruct (dot_checks _ _ Hh2) as [Hd _]. apply orb_false_iff in Hd as [-> _]. done.
Qed.

(** C4: the per-profile allowlist is not per profile: [forProfile] adds the
    hosts of a profile's override to the map the base policy also refers to.
    Once any request of profile [prof] has been validated (whatever its
    outcome), every other profile without an override may reach those hosts. *)
Theorem profile_allowlist_leaks p prof prof' ov host l spec m :
  normalizeToken prof <> "" -> pol_profileOverrides p !! normalizeToken prof = Some ov ->
  host ∈ ov_PublicEgressAllowlist ov -> ValidateExactHostname host = Ok tt ->
  pol_publicEgressAllowlist p = Some l -> (l < ph_next m)%nat ->
  pol_profileOverrides p !! normalizeToken prof' = None ->
  let m' := (validateNonAdminNetworkGrant p prof spec m).2 in
  let '(q, m'') := forProfile p prof' m' in
  publicHostAllowed q m'' host = true.
Proof.
  intros Hne Hov Hin Hv Hl Hlt Hno. cbv zeta.
  assert (Hp : forall m', forProfile p prof' m' = (p, m')).
  { intros m'. unfold forProfile. case_decide; [done|]. by rewrite Hno. }
  rewrite Hp. unfold publicHostAllowed. fold (host_key host).
  pose proof (exact_hostname_nonempty _ Hv) as Hk. rewrite decide_False by done.
  case_decide; [done|]. rewrite bool_decide_eq_true, Hl, <- normalizeToken_hostname by done.
  unfold validateNonAdminNetworkGrant.
  pose proof (forProfile_hosts p prof m ov host l) as HF.
  destruct (forProfile p prof m) as [q m1]. apply HF; try done.
  by rewrite normalizeToken_hostname.
Qed.

(** A policy in deny mode with one override, for the profile "ci". *)
Definition demo_override : networkGrantProfileOverride := {|
  ov_PublicEgressMode := ""; ov_InternalSuffixAllowlist := [];
  ov_PublicEgressAllowlist := ["crates.io"]; ov_PublicDNSAllowlist := [];
  ov_AllowNon443 := None; ov_AllowedNon443Ports := [] |}.
Definition demo_policy : networkGrantPolicy := {|
  pol_publicEgressMode := "deny"; pol_internalSuffixAllowlist := ["cluster.local"];
  pol_publicEgressAllowlist := Some 0%nat; pol_publicDNSAllowlist := Some 1%nat;
  pol_maxGrantsPerJob := 20; pol_nonAdminAllowNon443 := false;
  pol_nonAdminAllowedNon443Ports := Some 2%nat;
  pol_profileOverrides := {["ci" := demo_override]} |}.
Definition demo_heap : pheap :=
  {| ph_str := {[0%nat := ∅; 1%nat := ∅]}; ph_int := {[2%nat := ∅]}; ph_next := 3 |}.
Definition demo_spec : NetworkGrantSpec := {|
  ngs_AgentJobRef := None; ngs_PodSelector := None; ngs_PolicyMode := ""; ngs_Protocol := "";
  ngs_Purpose := ""; ngs_Egress := [{| er_Host := "crates.io"; er_Ports := [] |}];
  ngs_DNSAllow := []; ngs_AllowNon443 := false; ngs_TTLSeconds := 0; ngs_Approved := false;
  ngs_ApprovedBy := ""; ngs_Reason := "" |}.

(** Before the "ci" request, the default profile is refused "crates.io";
    afterwards it is accepted. *)
Lemma profile_allowlist_leaks_witness :
  (validateNonAdminNetworkGrant demo_policy "default" demo_spec demo_heap).1 <> Ok tt
  /\ let m' := (validateNonAdminNetworkGrant demo_policy "ci" demo_spec demo_heap).2 in
     let '(q, m'') := forProfile demo_policy "default" m' in
     publicHostAllowed q m'' "crates.io" = true.
Proof.
  split; [vm_compute; discriminate|].
  apply (profile_allowlist_leaks demo_policy "ci" "default" demo_override "crates.io" 0);
    try (vm_compute; reflexivity); [by vm_compute | vm_compute; constructor | vm_compute; lia].
Defined.
