(* ===== verification/EgressProxy.v ===== *)
(** The CONNECT proxy (src/cmd/egress-proxy/main.go).

    Two indexes, refreshed by background loops and by the handler itself, are
    shared under a lock: pods by IP, and what each job may reach.  Reading or
    replacing an index is a call of its own ([LoadPods], [StoreGrants], ...), so
    an execution may see any index that some other goroutine stored meanwhile. *)
From S2P Require Export Effects NetUtil.
From stdpp Require Import options.

(** * Data *)

Record podInfo := {
  pi_Namespace : string;
  pi_Name : string;
  pi_Labels : gmap string string;
  pi_PodIP : string;
}.

(** host -> ports *)
Notation allowSet := (gmap string (gset Z)).

Record selectorGrant := { sg_matchLabels : gmap string string; sg_allow : allowSet }.

Record grantIndex := {
  gi_byJob : gmap string allowSet;
  gi_selectors : list selectorGrant;
}.

Record pserver := { psv_allowPrivateIPs : bool }.

Definition bad_port (p : Z) : bool := (p <=? 0) || (65535 <? p).

Definition allowSet_add (a : allowSet) (host : string) (port : Z) : allowSet :=
  let host := NormalizeHostname host in
  if decide (host = "") then a else if bad_port port then a
  else <[host := {[port]} ∪ default ∅ (a !! host)]> a.

Definition allowSet_allows (a : allowSet) (host : string) (port : Z) : bool :=
  let host := NormalizeHostname host in
  if decide (host = "") then false else if bad_port port then false
  else match a !! host with
       | None => false
       | Some ps => bool_decide (port ∈ ps)
       end.

(** [m[k]] of a Go map of strings. *)
Definition label (m : gmap string string) (k : string) : string := default "" (m !! k).

Definition labelsMatchAll (podLabels required : gmap string string) : bool :=
  if decide (required = ∅) then false
  else bool_decide (map_Forall (fun k v => TrimSpace (label podLabels k) = v) required).

Definition grantIndex_allows (g : grantIndex) (jobName : string)
    (podLabels : gmap string string) (host : string) (port : Z) : bool :=
  match gi_byJob g !! jobName with
  | Some a => allowSet_allows a host port
  | None => false
  end
  || existsb (fun sg => labelsMatchAll podLabels (sg_matchLabels sg)
                        && allowSet_allows (sg_allow sg) host port) (gi_selectors g).

(** * Building the indexes *)

Definition pods_index (pods : list Pod) : gmap string podInfo :=
  fold_left (fun m p =>
    let ip := TrimSpace (p_PodIP p) in
    if decide (ip = "") then m else
    <[ip := {| pi_Namespace := m_Namespace (p_Meta p); pi_Name := m_Name (p_Meta p);
               pi_Labels := m_Labels (p_Meta p); pi_PodIP := ip |}]> m) pods ∅.

Definition grantActive (ng : NetworkGrant) (now : Z) : bool :=
  if negb (ngs_Approved (ng_Spec ng)) then false
  else if negb (IsZero (ngt_ExpiresAt (ng_Status ng)))
  then Before now (ngt_ExpiresAt (ng_Status ng))
  else
    let ttl := ngs_TTLSeconds (ng_Spec ng) in
    let ttl := if ttl <=? 0 then 1800 else ttl in
    let approvedAt := ngt_ApprovedAt (ng_Status ng) in
    let approvedAt := if IsZero approvedAt then now else approvedAt in
    Before now (approvedAt + seconds ttl).

Definition egress_ports (r : NetworkGrantEgressRule) : list Z :=
  if decide (er_Ports r = []) then [443] else er_Ports r.

(** The allow set of one grant. *)
Definition grant_allow (ng : NetworkGrant) : allowSet :=
  fold_left (fun a r =>
    let host := NormalizeHostname (er_Host r) in
    if decide (host = "") then a
    else fold_left (fun a p => allowSet_add a host p) (egress_ports r) a)
    (ngs_Egress (ng_Spec ng)) ∅.

(** [for host, ports := range allow { for p := range ports { as.add(host, p) } }] *)
Definition merge_allow (allow : allowSet) (a : allowSet) : allowSet :=
  fold_left (fun a '(host, ps) =>
    fold_left (fun a p => allowSet_add a host p) (elements (ps : gset Z)) a)
    (map_to_list allow) a.

(** The non-blank entries of a pod selector. *)
Definition selector_labels (m : gmap string string) : gmap string string :=
  filter (fun kv : string * string => TrimSpace kv.1 <> "" /\ TrimSpace kv.2 <> "") m.

(** One iteration of the loop over the grants. *)
Definition index_step (now : Z) (g : grantIndex) (ng : NetworkGrant) : grantIndex :=
  let spec := ng_Spec ng in
  if negb (grantActive ng now) then g else
  let mode := if decide (ngs_PolicyMode spec = "") then NetworkGrantPolicyModeStrictFQDN
              else ngs_PolicyMode spec in
  if decide (mode <> NetworkGrantPolicyModeProxyConnect) then g else
  let allow := grant_allow ng in
  let job := match ngs_AgentJobRef spec with Some r => TrimSpace (ajr_Name r) | None => "" end in
  if decide (job = "") then
    match ngs_PodSelector spec with
    | None => g
    | Some sel =>
        if decide (ls_MatchExpressions sel <> []) then g
        else if decide (ls_MatchLabels sel = ∅) then g
        else
          let sel := selector_labels (ls_MatchLabels sel) in
          if decide (sel = ∅) then g else
          {| gi_byJob := gi_byJob g;
             gi_selectors := gi_selectors g ++ [{| sg_matchLabels := sel; sg_allow := allow |}] |}
    end
  else
    let a := default ∅ (gi_byJob g !! job) in
    {| gi_byJob := <[job := merge_allow allow a]> (gi_byJob g);
       gi_selectors := gi_selectors g |}.

Definition empty_index : grantIndex := {| gi_byJob := ∅; gi_selectors := [] |}.

Definition build_index (grants : list NetworkGrant) (now : Z) : grantIndex :=
  fold_left (index_step now) grants empty_index.

(** * The calls of the proxy *)

Inductive peff : Type -> Type :=
| Base {X} (e : eff X) : peff X
| LoadPods : peff (gmap string podInfo)
| StorePods (m : gmap string podInfo) : peff unit
| LoadGrants : peff grantIndex
| StoreGrants (g : grantIndex) : peff unit
| LookupIPAddr (host : string) : peff (result error (list ip_addr))
| DialContext (addr : string) : peff (result error unit)
(* w.(http.Hijacker) and Hijack: None when the writer is no hijacker *)
| Hijack : peff (option (result error unit))
(* the two copying goroutines: milliseconds, bytes up, bytes down *)
| Tunnel : peff (Z * Z * Z).

Notation pprog := (prog peff).

Definition log_emit (event : string) (fields : list (string * value)) : pprog unit :=
  trigger (Base (Emit event fields)).

Definition refreshPodsOnce : pprog unit :=
  r ← trigger (Base (ListNS KPod "agents" {[labelApp := "agent"]}));
  match r with
  | Err _ => mret tt
  | Ok pods => trigger (StorePods (pods_index pods))
  end.

Definition refreshGrantsOnce : pprog unit :=
  r ← trigger (Base (ListNS KNetworkGrant "agents" ∅));
  match r with
  | Err _ => mret tt
  | Ok grants =>
      now ← trigger (Base Now);
      trigger (StoreGrants (build_index grants now))
  end.

(** * Addresses *)

Definition validateConnectHost (host : string) : result error unit :=
  ValidateExactHostname (NormalizeHostname host).

Definition isCGNAT (ip : ip_addr) : bool :=
  match To4 ip with
  | None => false
  | Some ip4 => (b_at ip4 0 =? 100) && (64 <=? b_at ip4 1) && (b_at ip4 1 <=? 127)
  end.

(** A nil [net.IP] is the empty list. *)
Definition isAllowedDialIP (ip : ip_addr) : bool :=
  if decide (ip = []) then false
  else if negb (IsGlobalUnicast ip) then false
  else if IsPrivate ip then false
  else if IsLoopback ip || IsUnspecified ip || IsMulticast ip then false
  else if IsLinkLocalUnicast ip || IsLinkLocalMulticast ip then false
  else if isCGNAT ip then false
  else true.

(** The choice among the resolved addresses: the first allowed IPv4 address,
    else the first allowed IPv6 address. *)
Fixpoint pick_public (addrs : list ip_addr) (firstV6 : option ip_addr) : option ip_addr :=
  match addrs with
  | [] => firstV6
  | ip :: rest =>
      if negb (isAllowedDialIP ip) then pick_public rest firstV6
      else if decide (To4 ip <> None) then Some ip
      else pick_public rest (match firstV6 with None => Some ip | Some _ => firstV6 end)
  end.

Definition resolvePublicIP (host : string) : pprog (result error ip_addr) :=
  r ← trigger (LookupIPAddr host);
  mret match r with
       | Err e => Err e
       | Ok addrs =>
           match pick_public addrs None with
           | Some ip => Ok ip
           | None => Err (Errorf "no public A/AAAA records" [])
           end
       end.

Definition parseHostPort (dest : string) : result error (string * Z) :=
  let dest := TrimSpace dest in
  if decide (dest = "") then Err (Errorf "empty destination" []) else
  '(host, portStr) ← SplitHostPort dest;
  let host := TrimSpace host in
  if decide (host = "") then Err (Errorf "empty host" []) else
  match Atoi (TrimSpace portStr) with
  | None => Err (Errorf "invalid port" [])
  | Some pn => if bad_port pn then Err (Errorf "invalid port" []) else Ok (host, wrap32 pn)
  end.

Definition remoteIPFromAddr (remoteAddr : string) : result error string :=
  let remoteAddr := TrimSpace remoteAddr in
  if decide (remoteAddr = "") then Err (Errorf "empty" []) else
  '(host, _) ← SplitHostPort remoteAddr;
  match ParseIP (TrimSpace host) with
  | None => Err (Errorf "invalid ip" [])
  | Some ip => Ok (ip_string ip)
  end.

(** * The handler *)

Record ProxyRequest := { pr_Method : string; pr_RemoteAddr : string; pr_Host : string }.

(** What the client gets: an HTTP reply, or the established tunnel. *)
Inductive proxy_out :=
| Reply (status : Z) (msg : string)
| Connected.

Definition denied (fields : list (string * value)) (status : Z) (msg : string)
    : pprog proxy_out :=
  _ ← log_emit "egressproxy.connect_denied" fields; mret (Reply status msg).

Definition podName (pod : podInfo) : string := pi_Namespace pod +:+ "/" +:+ pi_Name pod.

(** From the dial to the end of the handler. *)
Definition dial_and_tunnel (remoteIP : string) (pod : podInfo) (job host : string) (port : Z)
    (dialHost : string) : pprog proxy_out :=
  let who := [("remote_ip", VStr remoteIP); ("pod", VStr (podName pod));
              ("agentjob", VStr job); ("dest_host", VStr host); ("dest_port", VInt port)] in
  c ← trigger (DialContext (JoinHostPort dialHost (Itoa port)));
  match c with
  | Err e =>
      _ ← log_emit "egressproxy.connect_failed" (who ++ [("error", err_value e)]);
      mret (Reply 502 "dial failed")
  | Ok _ =>
      h ← trigger Hijack;
      match h with
      | None => mret (Reply 500 "hijack not supported")
      | Some (Err _) => mret (Reply 500 "hijack failed")
      | Some (Ok _) =>
          '(ms, up, down) ← trigger Tunnel;
          _ ← log_emit "egressproxy.connect"
                (who ++ [("duration_ms", VInt ms); ("up_bytes", VInt up); ("down_bytes", VInt down)]);
          mret Connected
      end
  end.

(** [s.pods.get], with one refresh when the IP is unknown. *)
Definition lookupPod (remoteIP : string) : pprog (option podInfo) :=
  pods ← trigger LoadPods;
  match pods !! remoteIP with
  | Some pod => mret (Some pod)
  | None => _ ← refreshPodsOnce; pods ← trigger LoadPods; mret (pods !! remoteIP)
  end.

(** [s.grants.allows], with one refresh when the answer is no. *)
Definition grants_allow (job : string) (labels : gmap string string) (host : string)
    (port : Z) : pprog bool :=
  g ← trigger LoadGrants;
  _ ← (if grantIndex_allows g job labels host port then mret tt else refreshGrantsOnce);
  g ← trigger LoadGrants;
  mret (grantIndex_allows g job labels host port).

(** The handler once the calling pod and its job are known. *)
Definition connect_job (s : pserver) (r : ProxyRequest) (remoteIP : string) (pod : podInfo)
    (job : string) : pprog proxy_out :=
  let who := [("remote_ip", VStr remoteIP); ("pod", VStr (podName pod))] in
  match parseHostPort (pr_Host r) with
  | Err _ =>
      denied (who ++ [("agentjob", VStr job); ("dest", VStr (pr_Host r));
                      ("error", VStr "bad_dest")]) 400 "bad destination"
  | Ok (host, port) =>
      let host := NormalizeHostname host in
      let who := who ++ [("agentjob", VStr job); ("dest_host", VStr host);
                         ("dest_port", VInt port)] in
      match validateConnectHost host with
      | Err e =>
          denied (who ++ [("error", VStr "invalid_host"); ("detail", err_value e)])
            400 "bad destination"
      | Ok _ =>
          allowed ← grants_allow job (pi_Labels pod) host port;
          if negb allowed then
            denied (who ++ [("error", VStr "not_allowed")]) 403 "destination not allowed"
          else if psv_allowPrivateIPs s then
            dial_and_tunnel remoteIP pod job host port host
          else
            ip ← resolvePublicIP host;
            match ip with
            | Err e =>
                denied (who ++ [("error", VStr "dest_not_public"); ("detail", err_value e)])
                  403 "destination not allowed"
            | Ok ip => dial_and_tunnel remoteIP pod job host port (ip_string ip)
            end
      end
  end.

Definition handleProxy (s : pserver) (r : ProxyRequest) : pprog proxy_out :=
  if decide (pr_Method r <> "CONNECT") then mret (Reply 405 "CONNECT only") else
  match remoteIPFromAddr (pr_RemoteAddr r) with
  | Err _ => denied [("remote_addr", VStr (pr_RemoteAddr r)); ("error", VStr "bad_remote_addr")]
               403 "forbidden"
  | Ok remoteIP =>
      found ← lookupPod remoteIP;
      match found with
      | None => denied [("remote_ip", VStr remoteIP); ("error", VStr "unknown_pod")] 403 "forbidden"
      | Some pod =>
          let who := [("remote_ip", VStr remoteIP); ("pod", VStr (podName pod))] in
          if decide (TrimSpace (pi_Namespace pod) <> "agents") then
            denied [("remote_ip", VStr remoteIP); ("error", VStr "unknown_pod")] 403 "forbidden"
          else if decide (TrimSpace (label (pi_Labels pod) labelApp) <> "agent") then
            denied (who ++ [("error", VStr "not_agent")]) 403 "forbidden"
          else
            let job := TrimSpace (label (pi_Labels pod) labelAgentJob) in
            if decide (job = "") then
              denied (who ++ [("error", VStr "missing_agentjob_label")]) 403 "forbidden"
            else connect_job s r remoteIP pod job
      end
  end.

(** * The grant index *)

(** A raw entry of an allow set. *)
Definition has (a : allowSet) (h : string) (p : Z) : Prop := p ∈ default ∅ (a !! h).

Lemma allowSet_add_has a host port h p :
  has (allowSet_add a host port) h p <->
  has a h p \/ (bad_port port = false /\ h = NormalizeHostname host /\ h <> "" /\ p = port).
Proof.
  unfold allowSet_add, has. case_decide as Hh; [naive_solver|].
  destruct (bad_port port); [naive_solver|].
  destruct (decide (h = NormalizeHostname host)) as [->|Hne].
  - rewrite lookup_insert_eq. cbn. set_solver.
  - rewrite lookup_insert_ne by done. naive_solver.
Qed.

Lemma allowSet_allows_iff a host port :
  allowSet_allows a host port = true <->
  NormalizeHostname host <> "" /\ bad_port port = false /\ has a (NormalizeHostname host) port.
Proof.
  unfold allowSet_allows, has. case_decide; [naive_solver|].
  destruct (bad_port port); [naive_solver|].
  destruct (a !! NormalizeHostname host); cbn; [|set_solver].
  rewrite bool_decide_eq_true. naive_solver.
Qed.

Lemma NormalizeHostname_empty : NormalizeHostname "" = "".
Proof. reflexivity. Qed.

Lemma add_ports_has host ports h p : forall a,
  has (fold_left (fun a p => allowSet_add a host p) ports a) h p <->
  has a h p \/ (p ∈ ports /\ bad_port p = false /\ h = NormalizeHostname host /\ h <> "").
Proof.
  intros a. rewrite (fold_left_query _ (fun a => has a h p)
    (fun q => bad_port q = false /\ h = NormalizeHostname host /\ h <> "" /\ p = q))
    by (intros; apply allowSet_add_has).
  naive_solver.
Qed.

Lemma grant_allow_has ng h p :
  has (grant_allow ng) h p <->
  exists r, r ∈ ngs_Egress (ng_Spec ng) /\ p ∈ egress_ports r /\ bad_port p = false
    /\ h = NormalizeHostname (NormalizeHostname (er_Host r)) /\ h <> "".
Proof.
  unfold grant_allow. rewrite (fold_left_query _ (fun a => has a h p)
    (fun r => p ∈ egress_ports r /\ bad_port p = false
      /\ h = NormalizeHostname (NormalizeHostname (er_Host r)) /\ h <> "")).
  - unfold has at 1. rewrite lookup_empty. set_solver.
  - intros a r. cbv zeta. case_decide as He; [|apply add_ports_has].
    rewrite He, NormalizeHostname_empty. naive_solver.
Qed.

Lemma merge_allow_has al a h p :
  has (merge_allow al a) h p <->
  has a h p \/ exists h', has al h' p /\ bad_port p = false /\ h = NormalizeHostname h' /\ h <> "".
Proof.
  unfold merge_allow. rewrite (fold_left_query _ (fun a => has a h p)
    (fun '(h', ps) => p ∈ (ps : gset Z) /\ bad_port p = false /\ h = NormalizeHostname h' /\ h <> "")).
  - apply or_iff_compat_l. unfold has. split.
    + intros ([h' ps] & Hin%elem_of_map_to_list & Hp). exists h'. rewrite Hin. done.
    + intros (h' & Hp & Hr). destruct (al !! h') as [ps|] eqn:E; cbn in Hp; [|set_solver].
      exists (h', ps). rewrite elem_of_map_to_list. done.
  - intros a' [h' ps]. rewrite add_ports_has, elem_of_elements. done.
Qed.

(** What a grant gives, stated without the index. *)
Definition proxy_grant (ng : NetworkGrant) (now : Z) : Prop :=
  grantActive ng now = true
  /\ ngs_PolicyMode (ng_Spec ng) = NetworkGrantPolicyModeProxyConnect.

Definition grant_job (ng : NetworkGrant) : string :=
  match ngs_AgentJobRef (ng_Spec ng) with Some r => TrimSpace (ajr_Name r) | None => "" end.

(** Some rule of the grant names this host and port; [n] counts how often the
    index normalizes a host before it is a key. *)
Definition rule_covers (n : nat) (ng : NetworkGrant) (host : string) (port : Z) : Prop :=
  exists r, r ∈ ngs_Egress (ng_Spec ng) /\ port ∈ egress_ports r
    /\ NormalizeHostname host = Nat.iter n NormalizeHostname (er_Host r).

(** The grant's selector, when the proxy supports it. *)
Definition grant_selector (ng : NetworkGrant) (sel : gmap string string) : Prop :=
  exists ps, ngs_PodSelector (ng_Spec ng) = Some ps /\ ls_MatchExpressions ps = []
    /\ sel = selector_labels (ls_MatchLabels ps) /\ sel <> ∅.

Lemma index_step_job now job h p g ng :
  has (default ∅ (gi_byJob (index_step now g ng) !! job)) h p <->
  has (default ∅ (gi_byJob g !! job)) h p
  \/ (proxy_grant ng now /\ grant_job ng = job /\ job <> "" /\ bad_port p = false /\ h <> ""
      /\ exists r, r ∈ ngs_Egress (ng_Spec ng) /\ p ∈ egress_ports r
           /\ h = Nat.iter 3 NormalizeHostname (er_Host r)).
Proof.
  unfold index_step, proxy_grant. fold (grant_job ng).
  destruct (grantActive ng now); cbn [negb]; [|naive_solver].
  destruct (decide (ngs_PolicyMode (ng_Spec ng) = NetworkGrantPolicyModeProxyConnect)) as [Hm|Hm];
    cycle 1.
  { rewrite decide_True by (case_decide; [done|done]). naive_solver. }
  rewrite (decide_False (P := ngs_PolicyMode (ng_Spec ng) = "")), decide_False by (rewrite Hm; naive_solver).
  destruct (decide (grant_job ng = "")) as [Hj|Hj].
  { assert (forall g' : grantIndex, gi_byJob g' = gi_byJob g ->
      has (default ∅ (gi_byJob g' !! job)) h p <-> has (default ∅ (gi_byJob g !! job)) h p) as Hg
      by (by intros ? ->).
    destruct (ngs_PodSelector (ng_Spec ng)); repeat case_decide;
      (etrans; [by apply Hg | naive_solver]). }
  cbn [gi_byJob]. destruct (decide (grant_job ng = job)) as [<-|Hne].
  - rewrite lookup_insert_eq. cbn [from_option id]. rewrite merge_allow_has. setoid_rewrite grant_allow_has.
    apply or_iff_compat_l. cbn [Nat.iter nat_rect]. split.
    + intros (h' & (r & Hr & Hp & _ & -> & _) & Hb & -> & Hne).
      do 5 (split; [done|]). by exists r.
    + intros (_ & _ & _ & Hb & Hne & r & Hr & Hp & ->).
      exists (Nat.iter 2 NormalizeHostname (er_Host r)). split; [|done].
      exists r. do 4 (split; [done|]). intros He. apply Hne.
      change (NormalizeHostname (Nat.iter 2 NormalizeHostname (er_Host r)) = "").
      by rewrite He.
  - rewrite lookup_insert_ne by done. naive_solver.
Qed.

Lemma index_step_selectors now sg g ng :
  sg ∈ gi_selectors (index_step now g ng) <->
  sg ∈ gi_selectors g
  \/ (proxy_grant ng now /\ grant_job ng = "" /\ grant_selector ng (sg_matchLabels sg)
      /\ sg_allow sg = grant_allow ng).
Proof.
  unfold index_step, proxy_grant, grant_selector. fold (grant_job ng).
  destruct (grantActive ng now); cbn [negb]; [|naive_solver].
  destruct (decide (ngs_PolicyMode (ng_Spec ng) = NetworkGrantPolicyModeProxyConnect)) as [Hm|Hm];
    cycle 1.
  { rewrite decide_True by (case_decide; [done|done]). naive_solver. }
  rewrite (decide_False (P := ngs_PolicyMode (ng_Spec ng) = "")), decide_False by (rewrite Hm; naive_solver).
  destruct (decide (grant_job ng = "")) as [Hj|Hj]; [|cbn; naive_solver].
  destruct (ngs_PodSelector (ng_Spec ng)) as [ps|]; [|naive_solver].
  case_decide as He; [naive_solver|].
  case_decide as Hl; [|case_decide as Hs].
  - split; [by left|]. intros [?|(_ & _ & (ps' & [= <-] & _ & Hs & Hne) & _)]; [done|].
    destruct Hne. rewrite Hs, Hl. done.
  - split; [by left|]. intros [?|(_ & _ & (ps' & [= <-] & _ & Hs' & Hne) & _)]; [done|].
    destruct Hne. by rewrite Hs'.
  - cbn [gi_selectors]. rewrite elem_of_app, list_elem_of_singleton.
    destruct sg as [ml al]; cbn. naive_solver.
Qed.

(** What an active proxy grant gives to a pod of job [job] with [labels]. *)
Definition grant_gives (ng : NetworkGrant) (now : Z) (job : string)
    (labels : gmap string string) (host : string) (port : Z) : Prop :=
  proxy_grant ng now /\
  ((grant_job ng = job /\ job <> "" /\ rule_covers 3 ng host port)
   \/ (grant_job ng = "" /\ rule_covers 2 ng host port
       /\ exists sel, grant_selector ng sel /\ labelsMatchAll labels sel = true)).

Lemma build_index_spec grants now job labels host port :
  grantIndex_allows (build_index grants now) job labels host port = true <->
  NormalizeHostname host <> "" /\ bad_port port = false
  /\ exists ng, ng ∈ grants /\ grant_gives ng now job labels host port.
Proof.
  unfold grantIndex_allows. rewrite orb_true_iff, existsb_elem_of.
  assert (Hj : match gi_byJob (build_index grants now) !! job with
    | Some a => allowSet_allows a host port | None => false end = true <->
    NormalizeHostname host <> "" /\ bad_port port = false
    /\ has (default ∅ (gi_byJob (build_index grants now) !! job)) (NormalizeHostname host) port).
  { destruct (gi_byJob (build_index grants now) !! job) as [a|]; [apply allowSet_allows_iff|].
    unfold has. cbn [from_option id]. rewrite lookup_empty. set_solver. }
  rewrite Hj. clear Hj. unfold build_index.
  rewrite (fold_left_query _ (fun g => has (default ∅ (gi_byJob g !! job)) (NormalizeHostname host) port)
    _ _ (index_step_job now job _ port)).
  setoid_rewrite (fun sg => fold_left_query _ (fun g => sg ∈ gi_selectors g) _ grants
    (index_step_selectors now sg)).
  cbn [empty_index gi_byJob gi_selectors]. rewrite lookup_empty. cbn [from_option id].
  unfold has at 1. rewrite lookup_empty. cbn [from_option id].
  unfold grant_gives, rule_covers. split.
  - intros [(Hh & Hb & [?%not_elem_of_empty|(ng & Hin & Hp & Hjob & Hne & _ & _ & r & Hr & Hport & He)])
           |(sg & [?%not_elem_of_nil|(ng & Hin & Hp & Hjob & Hsel & Hal)] & [Hl Ha]%andb_true_iff)];
      [done| |done|].
    + do 2 (split; [done|]). exists ng. split; [done|]. split; [done|]. left.
      do 2 (split; [done|]). by exists r.
    + apply allowSet_allows_iff in Ha as (Hh & Hb & Ha). rewrite Hal in Ha.
      apply grant_allow_has in Ha as (r & Hr & Hport & _ & He & _).
      do 2 (split; [done|]). exists ng. split; [done|]. split; [done|]. right.
      split; [done|]. split; [by exists r|]. by exists (sg_matchLabels sg).
  - intros (Hh & Hb & ng & Hin & Hp & [(Hjob & Hne & r & Hr & Hport & He)
                                       |(Hjob & (r & Hr & Hport & He) & sel & Hsel & Hl)]).
    + left. do 2 (split; [done|]). right. exists ng. do 6 (split; [done|]). by exists r.
    + right. exists {| sg_matchLabels := sel; sg_allow := grant_allow ng |}. cbn.
      split; [right; by exists ng|]. rewrite Hl. cbn. apply allowSet_allows_iff.
      do 2 (split; [done|]). apply grant_allow_has. by exists r.
Qed.

(** C10: the index the proxy builds admits a destination for a pod exactly when
    some listed grant gives it: approved and not expired at the time of the
    refresh, in PROXY_CONNECT mode, naming the pod's job or (with no job)
    selecting its labels, with a rule for this host and port (443 when the rule
    lists none).  STRICT_FQDN grants never become proxy grants. *)
Theorem build_index_allows_iff grants now job labels host port :
  grantIndex_allows (build_index grants now) job labels host port = true <->
  NormalizeHostname host <> "" /\ bad_port port = false
  /\ exists ng, ng ∈ grants /\ grant_gives ng now job labels host port.
Proof. apply build_index_spec. Qed.

(** * The addresses it dials *)

(** The first [n] bits of two addresses agree. *)
Fixpoint in_prefix (ip base : list Z) (n : Z) : bool :=
  match ip, base with
  | a :: ip', b :: base' =>
      if n <=? 0 then true
      else if 8 <=? n then (a =? b) && in_prefix ip' base' (n - 8)
      else a / 2 ^ (8 - n) =? b / 2 ^ (8 - n)
  | _, _ => true
  end.

Definition blocked_v4 : list (ip_addr * Z) :=
  [([0; 0; 0; 0], 32); ([255; 255; 255; 255], 32); ([10; 0; 0; 0], 8);
   ([100; 64; 0; 0], 10); ([127; 0; 0; 0], 8); ([169; 254; 0; 0], 16);
   ([172; 16; 0; 0], 12); ([192; 168; 0; 0], 16); ([224; 0; 0; 0], 4)].

(** ::/128, ::1/128, fc00::/7, fe80::/10, ff00::/8 *)
Definition blocked_v6 : list (ip_addr * Z) :=
  [(replicate 16 0, 128); (replicate 15 0 ++ [1], 128); (252 :: replicate 15 0, 7);
   (254 :: 128 :: replicate 14 0, 10); (255 :: replicate 15 0, 8)].

Definition blocked (ip : ip_addr) : bool :=
  match To4 ip with
  | Some v4 => existsb (fun '(base, n) => in_prefix v4 base n) blocked_v4
  | None => existsb (fun '(base, n) => in_prefix ip base n) blocked_v6
  end.

Definition is_byte (b : Z) : Prop := 0 <= b < 256.

Lemma byte_all (f : Z -> bool) : forallb f (seqZ 0 256) = true -> forall b, is_byte b -> f b = true.
Proof. intros Hf b Hb. rewrite forallb_elem_of in Hf. apply Hf, elem_of_seqZ. unfold is_byte in Hb. lia. Qed.

Lemma byte_eqb (f g : Z -> bool) : forallb (fun b => eqb (f b) (g b)) (seqZ 0 256) = true ->
  forall b, is_byte b -> f b = g b.
Proof. intros Hf b Hb. apply eqb_prop, (byte_all (fun b => eqb (f b) (g b)) Hf b Hb). Qed.

Lemma in_prefix_full ip : forall base n, length ip = length base -> n = 8 * Z.of_nat (length ip) ->
  in_prefix ip base n = bool_decide (ip = base).
Proof.
  induction ip as [|a ip IH]; intros [|b base] n Hl Hn; cbn [length] in *; try lia.
  - by rewrite bool_decide_true.
  - cbn [in_prefix]. destruct (Z.leb_spec n 0); [lia|]. destruct (Z.leb_spec 8 n); [|lia].
    rewrite (IH base) by lia. destruct (Z.eqb_spec a b) as [->|]; cbn.
    + apply bool_decide_ext. split; [by intros -> | by intros [= ->]].
    + rewrite bool_decide_false; [done | congruence].
Qed.

Lemma To4_some ip v : To4 ip = Some v -> length v = 4%nat /\ (Forall is_byte ip -> Forall is_byte v).
Proof.
  unfold To4. case_decide; [by intros [= <-]|]. case_decide as H2; [|done].
  intros [= <-]. rewrite length_drop. split; [lia | apply Forall_drop].
Qed.

Lemma To4_none ip : To4 ip = None -> length ip = 4%nat \/ length ip = 16%nat ->
  length ip = 16%nat.
Proof. unfold To4. case_decide; [done|]. tauto. Qed.

Lemma ip_equal_v4 ip v w : To4 ip = Some v -> length w = 4%nat ->
  ip_equal ip w = bool_decide (v = w).
Proof. intros Hv Hw. unfold ip_equal. rewrite Hv. unfold To4. by rewrite decide_True. Qed.

Lemma ip_equal_v6 ip w : To4 ip = None -> To4 w = None -> ip_equal ip w = bool_decide (ip = w).
Proof. intros Hv Hw. unfold ip_equal. by rewrite Hv, Hw. Qed.

Lemma if_false b c : (if b : bool then false else c) = negb b && c.
Proof. by destruct b. Qed.

(** Both sides say that a list of blocks does not match. *)
Ltac blocks := rewrite !if_false; apply eq_iff_eq_true;
  repeat rewrite ?andb_true_iff, ?negb_involutive, ?negb_true_iff, ?orb_false_iff; tauto.

Lemma allowed_v4 ip a b c d : To4 ip = Some [a; b; c; d] -> ip <> [] ->
  length ip = 4%nat \/ length ip = 16%nat -> is_byte a -> is_byte b ->
  isAllowedDialIP ip = negb (existsb (fun '(base, n) => in_prefix [a; b; c; d] base n) blocked_v4).
Proof.
  intros Hv Hne Hlen Ha Hb. unfold isAllowedDialIP. rewrite decide_False by done.
  unfold IsGlobalUnicast, IsPrivate, IsLoopback, IsUnspecified, IsMulticast, IsLinkLocalUnicast,
    IsLinkLocalMulticast, isCGNAT.
  rewrite !(ip_equal_v4 _ _ _ Hv) by done.
  replace (ip_equal ip IPv6unspecified) with false by (unfold ip_equal; by rewrite Hv).
  rewrite Hv. rewrite (bool_decide_true _ Hlen). unfold blocked_v4. cbn [existsb].
  rewrite (in_prefix_full _ [0; 0; 0; 0]), (in_prefix_full _ [255; 255; 255; 255]) by done.
  cbn [in_prefix b_at nth]. cbn [Z.leb Z.compare Z.sub Z.add Z.opp Z.pos_sub Pos.compare
    Pos.compare_cont Pos.pred_double Z.double Z.succ_double Z.pred_double].
  unfold IPv4zero, IPv4bcast.
  rewrite (byte_eqb (fun a => Z.land a 240 =? 224) (fun a => a / 2 ^ 4 =? 224 / 2 ^ 4) eq_refl a Ha).
  rewrite (byte_eqb (fun b => Z.land b 240 =? 16) (fun b => b / 2 ^ 4 =? 16 / 2 ^ 4) eq_refl b Hb).
  pose proof (byte_eqb (fun b => (64 <=? b) && (b <=? 127)) (fun b => b / 2 ^ 6 =? 64 / 2 ^ 6) eq_refl b Hb) as Hc.
  cbv beta in Hc. rewrite <- !andb_assoc, Hc.
  assert (Hm : forall r, (a / 2 ^ 4 =? 224 / 2 ^ 4) = false -> (a =? 224) && r = false).
  { intros r Hm. destruct (Z.eqb_spec a 224) as [->|]; [discriminate Hm | done]. }
  specialize (Hm ((b =? 0) && (c =? 0))). rewrite !andb_true_r. blocks.
Qed.

Lemma allowed_v6 ip : To4 ip = None -> length ip = 16%nat -> Forall is_byte ip ->
  isAllowedDialIP ip = negb (existsb (fun '(base, n) => in_prefix ip base n) blocked_v6).
Proof.
  intros Hv Hlen Hb. unfold isAllowedDialIP. rewrite decide_False by (by destruct ip).
  unfold IsGlobalUnicast, IsPrivate, IsLoopback, IsUnspecified, IsMulticast, IsLinkLocalUnicast,
    IsLinkLocalMulticast, isCGNAT.
  replace (ip_equal ip IPv4zero) with false by (unfold ip_equal; by rewrite Hv).
  replace (ip_equal ip IPv4bcast) with false by (unfold ip_equal; by rewrite Hv).
  rewrite !(ip_equal_v6 ip) by done. rewrite Hv, Hlen.
  rewrite !bool_decide_true by lia. unfold blocked_v6. cbn [existsb].
  rewrite (in_prefix_full _ (replicate 16 0)), (in_prefix_full _ (replicate 15 0 ++ [1]))
    by (rewrite Hlen; done).
  destruct ip as [|a [|b ip]]; [done|done|].
  apply list.Forall_cons in Hb as [Ha Hb]. apply list.Forall_cons in Hb as [Hb _].
  cbn [in_prefix b_at nth]. cbn [Z.leb Z.compare Z.sub Z.add Z.opp Z.pos_sub Pos.compare
    Pos.compare_cont Pos.pred_double Z.double Z.succ_double Z.pred_double].
  unfold IPv6unspecified, IPv6loopback.
  rewrite (byte_eqb (fun a => Z.land a 254 =? 252) (fun a => a / 2 ^ 1 =? 252 / 2 ^ 1) eq_refl a Ha).
  rewrite (byte_eqb (fun b => Z.land b 192 =? 128) (fun b => b / 2 ^ 6 =? 128 / 2 ^ 6) eq_refl b Hb).
  rewrite !andb_true_r. cbn [andb].
  assert (Hm : forall r, (a =? 255) = false -> (a =? 255) && r = false) by (by intros r ->).
  specialize (Hm (Z.land b 15 =? 2)). blocks.
Qed.

Lemma isAllowedDialIP_spec ip :
  length ip = 4%nat \/ length ip = 16%nat -> Forall is_byte ip ->
  isAllowedDialIP ip = negb (blocked ip).
Proof.
  intros Hlen Hb. unfold blocked. destruct (To4 ip) as [v|] eqn:Hv.
  - destruct (To4_some _ _ Hv) as [Hl4 Hbv]. specialize (Hbv Hb).
    destruct v as [|a [|b [|c [|d [|]]]]]; try discriminate Hl4.
    inversion Hbv as [|? ? Ha Hbv']; subst. inversion Hbv' as [|? ? Hb' _]; subst.
    apply allowed_v4; try done. intros ->. cbn in Hlen. lia.
  - apply allowed_v6; [done | by apply To4_none | done].
Qed.

(** C15: the classification through [net.IP]'s methods is exactly a block list
    of CIDR prefixes: an address of 4 or 16 bytes may be dialled iff it lies in
    none of 0.0.0.0/32, 255.255.255.255/32, 10/8, 100.64/10, 127/8, 169.254/16,
    172.16/12, 192.168/16, 224/4 (also in IPv4-mapped form), ::/128, ::1/128,
    fc00::/7, fe80::/10 and ff00::/8. *)
Theorem isAllowedDialIP_blocks ip :
  length ip = 4%nat \/ length ip = 16%nat -> Forall is_byte ip ->
  isAllowedDialIP ip = negb (blocked ip).
Proof. apply isAllowedDialIP_spec. Qed.

Lemma isAllowedDialIP_blocks_witness :
  isAllowedDialIP [100; 100; 1; 1] = negb (blocked [100; 100; 1; 1])
  /\ isAllowedDialIP [140; 82; 112; 3] = true.
Proof.
  split; [|reflexivity]. apply (isAllowedDialIP_blocks [100; 100; 1; 1]).
  - left. reflexivity.
  - repeat constructor; discriminate.
Defined.

(** Addresses that stand for internal ones elsewhere are no concern of the table:
    10.0.0.1 behind a NAT64 gateway (64:ff9b::/96), 0.0.0.1, a benchmarking and a
    reserved address all pass for public. *)
Example special_addresses_admitted :
  isAllowedDialIP [0; 100; 255; 155; 0; 0; 0; 0; 0; 0; 0; 0; 10; 0; 0; 1] = true
  /\ isAllowedDialIP [0; 0; 0; 1] = true /\ isAllowedDialIP [198; 18; 0; 1] = true
  /\ isAllowedDialIP [240; 0; 0; 1] = true.
Proof. vm_compute. done. Qed.

(** * The choice of an address *)

Lemma pick_public_some addrs : forall f ip, pick_public addrs f = Some ip ->
  f = Some ip \/ (ip ∈ addrs /\ isAllowedDialIP ip = true).
Proof.
  induction addrs as [|x addrs IH]; intros f ip H; cbn in H; [by left|].
  destruct (isAllowedDialIP x) eqn:Hx; cbn [negb] in H.
  - case_decide; [injection H as <-; right; split; [by left | done]|].
    apply IH in H as [H|[? ?]]; [|right; split; [by right | done]].
    destruct f; [by left|]. injection H as <-. right. split; [by left | done].
  - apply IH in H as [?|[? ?]]; [by left | right; split; [by right | done]].
Qed.

(** * What the handler dials *)

Notation pobs := (obs peff).

Definition obs_dial (o : pobs) : option string :=
  match o with Obs (DialContext a) _ => Some a | _ => None end.

Definition obs_lookup (o : pobs) : option (string * result error (list ip_addr)) :=
  match o with
  | Obs e x =>
      match e in peff T return T -> option (string * result error (list ip_addr)) with
      | LookupIPAddr h => fun x => Some (h, x)
      | _ => fun _ => None
      end x
  end.

Definition obs_pods (o : pobs) : option (gmap string podInfo) :=
  match o with
  | Obs e x =>
      match e in peff T return T -> option (gmap string podInfo) with
      | LoadPods => Some
      | _ => fun _ => None
      end x
  end.

Definition obs_grants (o : pobs) : option grantIndex :=
  match o with
  | Obs e x =>
      match e in peff T return T -> option grantIndex with
      | LoadGrants => Some
      | _ => fun _ => None
      end x
  end.

Definition obs_stored (o : pobs) : option grantIndex :=
  match o with Obs (StoreGrants g) _ => Some g | _ => None end.

(** The caller is a labelled agent pod of some index that was read. *)
Definition caller_is (r : ProxyRequest) (tr : list pobs) (pod : podInfo) (job : string) : Prop :=
  exists remoteIP pods, remoteIPFromAddr (pr_RemoteAddr r) = Ok remoteIP
    /\ pods ∈ omap obs_pods tr /\ pods !! remoteIP = Some pod
    /\ TrimSpace (pi_Namespace pod) = "agents"
    /\ TrimSpace (label (pi_Labels pod) labelApp) = "agent"
    /\ job = TrimSpace (label (pi_Labels pod) labelAgentJob) /\ job <> "".

(** The address that [host] stands for, by the setting of the proxy. *)
Definition dials (s : pserver) (tr : list pobs) (host : string) (port : Z) (addr : string) : Prop :=
  if psv_allowPrivateIPs s then addr = JoinHostPort host (Itoa port)
  else exists addrs ip, (host, Ok addrs) ∈ omap obs_lookup tr /\ ip ∈ addrs
         /\ isAllowedDialIP ip = true /\ addr = JoinHostPort (ip_string ip) (Itoa port).

Lemma dial_and_tunnel_dials remoteIP pod job host port dialHost tr out addr :
  exec (dial_and_tunnel remoteIP pod job host port dialHost) tr out ->
  addr ∈ omap obs_dial tr -> addr = JoinHostPort dialHost (Itoa port).
Proof.
  intros H Hin. unfold dial_and_tunnel, log_emit in H. walk H; cbn in Hin; set_solver.
Qed.

(** Nothing is dialled along the remaining paths. *)
Ltac no_dial := let Hin := fresh in intros Hin; cbn in Hin; set_solver.

Lemma denied_no_dial fields st msg tr out addr :
  exec (denied fields st msg) tr out -> addr ∉ omap obs_dial tr.
Proof. unfold denied, log_emit. intros H. walk H. no_dial. Qed.

Lemma lookupPod_reads remoteIP tr found :
  exec (lookupPod remoteIP) tr found ->
  omap obs_dial tr = [] /\ exists pods, pods ∈ omap obs_pods tr /\ found = pods !! remoteIP.
Proof.
  unfold lookupPod, refreshPodsOnce. intros H. walk H;
    (split; [reflexivity|]); eexists; (split; [cbn; rewrite ?elem_of_cons; by eauto | try done]).
Qed.

Lemma grants_allow_reads job labels host port tr b :
  exec (grants_allow job labels host port) tr b ->
  omap obs_dial tr = [] /\ exists g, g ∈ omap obs_grants tr
    /\ b = grantIndex_allows g job labels host port.
Proof.
  unfold grants_allow, refreshGrantsOnce. intros H. walk H;
    (split; [reflexivity|]); eexists; (split; [cbn; rewrite ?elem_of_cons; by eauto | done]).
Qed.

Lemma resolvePublicIP_reads host tr ip :
  exec (resolvePublicIP host) tr ip ->
  omap obs_dial tr = [] /\ forall i, ip = Ok i ->
    exists addrs, (host, Ok addrs) ∈ omap obs_lookup tr /\ i ∈ addrs /\ isAllowedDialIP i = true.
Proof.
  unfold resolvePublicIP. intros H. walk H. split; [done|]. intros i Hi.
  destruct ans as [addrs|]; [|done]. destruct (pick_public addrs None) as [j|] eqn:Hp; [|done].
  injection Hi as ->. apply pick_public_some in Hp as [|[? ?]]; [done|].
  exists addrs. cbn. rewrite elem_of_cons. eauto.
Qed.

(** What a dialled address goes back to. *)
Definition justified (s : pserver) (r : ProxyRequest) (tr : list pobs) (pod : podInfo)
    (job : string) (addr : string) : Prop :=
  exists host0 host port g,
    parseHostPort (pr_Host r) = Ok (host0, port) /\ host = NormalizeHostname host0
    /\ ValidateExactHostname (NormalizeHostname host) = Ok tt
    /\ g ∈ omap obs_grants tr /\ grantIndex_allows g job (pi_Labels pod) host port = true
    /\ dials s tr host port addr.

Lemma connect_job_dials s r remoteIP pod job tr out addr :
  exec (connect_job s r remoteIP pod job) tr out -> addr ∈ omap obs_dial tr ->
  justified s r tr pod job addr.
Proof.
  intros H Hin. unfold connect_job in H.
  destruct (parseHostPort (pr_Host r)) as [[host0 port]|] eqn:Hp;
    [|by apply denied_no_dial with (addr := addr) in H].
  destruct (validateConnectHost (NormalizeHostname host0)) as [[]|] eqn:Hv;
    [|by apply denied_no_dial with (addr := addr) in H].
  apply exec_bind in H as (t1 & t2 & b & -> & H1 & H).
  apply grants_allow_reads in H1 as (Hd & g & Hg & ->). rewrite omap_app, Hd in Hin. cbn [app] in Hin.
  destruct (grantIndex_allows g job _ _ _) eqn:Ha; cbn [negb] in H;
    [|by apply denied_no_dial with (addr := addr) in H].
  exists host0, (NormalizeHostname host0), port, g. rewrite !omap_app.
  do 3 (split; [done|]). split; [set_solver|]. split; [done|]. unfold dials.
  destruct (psv_allowPrivateIPs s); [by eapply dial_and_tunnel_dials|].
  apply exec_bind in H as (t3 & t4 & ip & -> & Hr & H).
  apply resolvePublicIP_reads in Hr as (Hd2 & Hr). rewrite omap_app, Hd2 in Hin. cbn [app] in Hin.
  destruct ip as [ip|]; [|by apply denied_no_dial with (addr := addr) in H].
  destruct (Hr ip eq_refl) as (addrs & Ha' & ? & ?). exists addrs, ip.
  split; [|split; [done|split; [done|by eapply dial_and_tunnel_dials]]].
  rewrite !omap_app. set_solver.
Qed.

Lemma handleProxy_dials s r tr out addr :
  exec (handleProxy s r) tr out -> addr ∈ omap obs_dial tr ->
  pr_Method r = "CONNECT" /\ exists pod job, caller_is r tr pod job /\ justified s r tr pod job addr.
Proof.
  intros H Hin. unfold handleProxy in H.
  destruct (decide (pr_Method r <> "CONNECT")) as [|Hm%dec_stable]; [destruct H as [-> _]; by apply not_elem_of_nil in Hin|].
  split; [exact Hm|].
  destruct (remoteIPFromAddr (pr_RemoteAddr r)) as [remoteIP|] eqn:Hip;
    [|by apply denied_no_dial with (addr := addr) in H].
  apply exec_bind in H as (t1 & t2 & found & -> & H1 & H).
  apply lookupPod_reads in H1 as (Hd & pods & Hpods & ->).
  rewrite omap_app, Hd in Hin. cbn [app] in Hin.
  destruct (pods !! remoteIP) as [pod|] eqn:Hpod; [|by apply denied_no_dial with (addr := addr) in H].
  cbv zeta in H. repeat case_decide; try by apply denied_no_dial with (addr := addr) in H.
  exists pod, (TrimSpace (label (pi_Labels pod) labelAgentJob)). split.
  - exists remoteIP, pods. rewrite omap_app.
    split; [done|]. split; [set_solver|]. split; [done|].
    do 3 (split; [done|]). done.
  - destruct (connect_job_dials _ _ _ _ _ _ _ _ H Hin) as (h0 & h & p & g & ? & ? & ? & ? & ? & Hdl).
    exists h0, h, p, g. rewrite omap_app. do 3 (split; [done|]). split; [set_solver|].
    split; [done|]. unfold dials in *. destruct (psv_allowPrivateIPs s); [done|].
    destruct Hdl as (addrs & ip & ? & ? & ? & ?). exists addrs, ip. rewrite omap_app. set_solver.
Qed.

(** One request dials once at most, and a tunnel is only reported after a dial
    that succeeded. *)
Definition obs_dialled (o : pobs) : option (string * result error unit) :=
  match o with
  | Obs e x =>
      match e in peff T return T -> option (string * result error unit) with
      | DialContext a => fun x => Some (a, x)
      | _ => fun _ => None
      end x
  end.
Definition one_dial (tr : list pobs) (out : proxy_out) : Prop :=
  match omap obs_dialled tr with
  | [] => out <> Connected
  | [(_, r)] => out = Connected -> r = Ok tt
  | _ => False
  end.

Lemma one_dial_app t1 t2 out : omap obs_dialled t1 = [] -> one_dial t2 out -> one_dial (t1 ++ t2) out.
Proof. unfold one_dial. intros H. by rewrite omap_app, H. Qed.

Lemma dialled_none (tr : list pobs) : omap obs_dial tr = [] -> omap obs_dialled tr = [].
Proof.
  induction tr as [|[X e x] tr IH]; [done|]. cbn. destruct e; cbn; try exact IH. done.
Qed.

Lemma denied_one_dial fields st msg tr out : exec (denied fields st msg) tr out -> one_dial tr out.
Proof. unfold denied, log_emit. intros H. by walk H. Qed.

Lemma dial_and_tunnel_one_dial remoteIP pod job host port dialHost tr out :
  exec (dial_and_tunnel remoteIP pod job host port dialHost) tr out -> one_dial tr out.
Proof.
  unfold dial_and_tunnel, log_emit. intros H. walk H; unfold one_dial; cbn; try done.
  intros _. by destruct a.
Qed.

Lemma handleProxy_one_dial s r tr out : exec (handleProxy s r) tr out -> one_dial tr out.
Proof.
  intros H. unfold handleProxy in H. case_decide; [by destruct H as [-> ->]|].
  destruct (remoteIPFromAddr (pr_RemoteAddr r)) as [remoteIP|]; [|by eapply denied_one_dial].
  apply exec_bind in H as (t1 & t2 & found & -> & [Hd _]%lookupPod_reads & H).
  apply one_dial_app; [by apply dialled_none|].
  destruct found as [pod|]; [|by eapply denied_one_dial].
  cbv zeta in H. repeat case_decide; try by eapply denied_one_dial.
  unfold connect_job in H. destruct (parseHostPort (pr_Host r)) as [[host0 port]|]; [|by eapply denied_one_dial].
  destruct (validateConnectHost _); [|by eapply denied_one_dial].
  apply exec_bind in H as (t3 & t4 & b & -> & [Hd2 _]%grants_allow_reads & H).
  apply one_dial_app; [by apply dialled_none|].
  destruct (negb b); [by eapply denied_one_dial|].
  destruct (psv_allowPrivateIPs s); [by eapply dial_and_tunnel_one_dial|].
  apply exec_bind in H as (t5 & t6 & ip & -> & [Hd3 _]%resolvePublicIP_reads & H).
  apply one_dial_app; [by apply dialled_none|].
  destruct ip; [by eapply dial_and_tunnel_one_dial | by eapply denied_one_dial].
Qed.

(** C5: end to end, the proxy only connects where a grant allows.  In every
    execution of [handleProxy], interleaved with any refreshes, it dials once at
    most and reports a tunnel only when that dial succeeded.  If the indexes it
    reads were built by refreshes ([build_index] of a list of grants at some
    time), then each dialled address is of a CONNECT request of a known agent pod
    with a job; the host and the port are the ones of the request (the host
    normalized) and the host is a valid exact name; some listed grant that was
    active at that refresh gives this host and this port to the job or to the
    pod's labels; and the address is the requested host itself, if private
    addresses are allowed, and else one that this host resolved to and that lies
    in no blocked range, with the requested port. *)
Theorem handleProxy_only_granted s r tr out :
  exec (handleProxy s r) tr out ->
  (forall g, g ∈ omap obs_grants tr -> g = empty_index \/ exists grants now, g = build_index grants now) ->
  one_dial tr out
  /\ forall addr, addr ∈ omap obs_dial tr ->
  pr_Method r = "CONNECT"
  /\ exists pod job host0 port grants now ng,
    caller_is r tr pod job
    /\ parseHostPort (pr_Host r) = Ok (host0, port)
    /\ ValidateExactHostname (NormalizeHostname (NormalizeHostname host0)) = Ok tt
    /\ ng ∈ grants /\ build_index grants now ∈ omap obs_grants tr
    /\ grant_gives ng now job (pi_Labels pod) (NormalizeHostname host0) port
    /\ dials s tr (NormalizeHostname host0) port addr.
Proof.
  intros H Hidx. split; [by eapply handleProxy_one_dial|]. intros addr Hin.
  destruct (handleProxy_dials _ _ _ _ _ H Hin) as (Hm & pod & job & Hc & h0 & h & port & g & Hp & -> & Hv & Hg & Ha & Hd).
  split; [done|]. destruct (Hidx _ Hg) as [->|(grants & now & ->)].
  - exfalso. unfold grantIndex_allows, empty_index in Ha. cbn in Ha.
    rewrite lookup_empty in Ha. discriminate.
  - apply build_index_spec in Ha as (_ & _ & ng & Hng & Hgives).
    exists pod, job, h0, port, grants, now, ng. done.
Qed.

(** A run: the pod 10.0.0.5 of job "build-1" asks for github.com:443. *)
Definition demo_pods : gmap string podInfo :=
  {["10.0.0.5" := {| pi_Namespace := "agents"; pi_Name := "build-1-x";
      pi_Labels := {[labelApp := "agent"; labelAgentJob := "build-1"]};
      pi_PodIP := "10.0.0.5" |}]}.
Definition demo_grant : NetworkGrant := {|
  ng_Meta := new_meta "agents" "g1";
  ng_Spec := {| ngs_AgentJobRef := Some {| ajr_Name := "build-1" |}; ngs_PodSelector := None;
    ngs_PolicyMode := NetworkGrantPolicyModeProxyConnect; ngs_Protocol := ""; ngs_Purpose := "ci";
    ngs_Egress := [{| er_Host := "GitHub.com"; er_Ports := [] |}]; ngs_DNSAllow := [];
    ngs_AllowNon443 := false; ngs_TTLSeconds := 600; ngs_Approved := true;
    ngs_ApprovedBy := "alice"; ngs_Reason := "" |};
  ng_Status := {| ngt_Active := true; ngt_ApprovedAt := 100 * second;
    ngt_ExpiresAt := 700 * second; ngt_Conditions := [] |} |}.
Definition demo_index : grantIndex := build_index [demo_grant] (200 * second).
Definition demo_request : ProxyRequest := {|
  pr_Method := "CONNECT"; pr_RemoteAddr := "10.0.0.5:40000"; pr_Host := "github.com:443" |}.

Definition demo_world (X : Type) (e : peff X) : unit -> X * unit :=
  match e in peff T return unit -> T * unit with
  | Base e => echo_world 0 (fun _ _ _ => Err NotFound) (fun _ => [])
                (fun _ => Err (Errorf "" [])) _ e
  | LoadPods => fun _ => (demo_pods, tt)
  | StorePods _ | StoreGrants _ => fun _ => (tt, tt)
  | LoadGrants => fun _ => (demo_index, tt)
  | LookupIPAddr _ => fun _ => (Ok [[192; 168; 0; 1]; [140; 82; 112; 3]], tt)
  | DialContext _ => fun _ => (Ok tt, tt)
  | Hijack => fun _ => (Some (Ok tt), tt)
  | Tunnel => fun _ => ((5, 10, 20), tt)
  end.

Definition demo_trace : list pobs :=
  [Obs LoadPods demo_pods; Obs LoadGrants demo_index; Obs LoadGrants demo_index;
   Obs (LookupIPAddr "github.com") (Ok [[192; 168; 0; 1]; [140; 82; 112; 3]]);
   Obs (DialContext "140.82.112.3:443") (Ok tt); Obs Hijack (Some (Ok tt));
   Obs Tunnel (5, 10, 20);
   Obs (Base (Emit "egressproxy.connect"
     [("remote_ip", VStr "10.0.0.5"); ("pod", VStr "agents/build-1-x");
      ("agentjob", VStr "build-1"); ("dest_host", VStr "github.com"); ("dest_port", VInt 443);
      ("duration_ms", VInt 5); ("up_bytes", VInt 10); ("down_bytes", VInt 20)])) tt].

Lemma handleProxy_only_granted_witness :
  one_dial demo_trace Connected /\ omap obs_dial demo_trace = ["140.82.112.3:443"]
  /\ exists pod job grants now ng,
    caller_is demo_request demo_trace pod job
    /\ ng ∈ grants /\ build_index grants now ∈ omap obs_grants demo_trace
    /\ grant_gives ng now job (pi_Labels pod) "github.com" 443
    /\ dials {| psv_allowPrivateIPs := false |} demo_trace "github.com" 443 "140.82.112.3:443".
Proof.
  destruct (handleProxy_only_granted {| psv_allowPrivateIPs := false |} demo_request demo_trace Connected)
    as [Hone Hall].
  - apply (run_exec demo_world _ tt _ _ tt). vm_compute. reflexivity.
  - intros g Hg. right. exists [demo_grant], (200 * second).
    cbn in Hg. rewrite !elem_of_cons in Hg. destruct Hg as [->|[->|Hg]]; [reflexivity..|].
    by apply not_elem_of_nil in Hg.
  - split; [exact Hone|]. split; [vm_compute; reflexivity|].
    destruct (Hall "140.82.112.3:443") as (_ & pod & job & host0 & port & grants & now & ng & Hc & Hp & _ & Hng & Hg & Hgives & Hd).
    + vm_compute. constructor.
    + assert (He : parseHostPort (pr_Host demo_request) = Ok ("github.com", 443)) by (vm_compute; reflexivity).
      rewrite He in Hp. injection Hp as <- <-. assert (Hn : NormalizeHostname "github.com" = "github.com") by (vm_compute; reflexivity).
      rewrite Hn in Hgives, Hd. exists pod, job, grants, now, ng. split; [exact Hc|]. split; [exact Hng|].
      split; [exact Hg|]. split; [exact Hgives | exact Hd].
Defined.
