(* ===== verification/GrantController.v ===== *)
(** The NetworkGrant controller (src/internal/controller/networkgrant_controller.go). *)
From S2P Require Export Effects NetUtil.
From stdpp Require Import sorting options.
Open Scope Z_scope.

Record NetworkGrantReconciler := {
  ngr_MaxTTLSeconds : Z;    (* int32; 0 disables the cap *)
  ngr_MaxEgressRules : Z;
  ngr_MaxDNSNames : Z;
}.

Definition networkGrantCondSpecValid : string := "SpecValid".
Definition networkGrantDefaultTTLSeconds : Z := 1800.

Definition resolveNetworkGrantTTLSeconds (requested max : Z) : result error Z :=
  if 0 <? requested then
    if (0 <? max) && (max <? requested)
    then Err (Errorf "ttlSeconds %d exceeds max %d" [VInt requested; VInt max])
    else Ok requested
  else
    let ttl := networkGrantDefaultTTLSeconds in
    Ok (if (0 <? max) && (max <? ttl) then max else ttl).

Definition validateNetworkGrantHost (host : string) : result error unit :=
  ValidateExactHostname host.

(** The stable pod selector of a grant. *)
Definition resolve_selector (spec : NetworkGrantSpec) : result error (gmap string string) :=
  let job := match ngs_AgentJobRef spec with Some r => TrimSpace (ajr_Name r) | None => "" end in
  if decide (job <> "") then
    match ngs_PodSelector spec with
    | Some _ => Err (Errorf "podSelector is not allowed when agentJobRef is set" [])
    | None => Ok {[labelApp := "agent"; labelAgentJob := job]}
    end
  else
    match ngs_PodSelector spec with
    | None => Err (Errorf "agentJobRef or podSelector is required" [])
    | Some sel =>
        if decide (ls_MatchExpressions sel <> [])
        then Err (Errorf "podSelector.matchExpressions not supported; use matchLabels only" [])
        else if decide (ls_MatchLabels sel = ∅)
        then Err (Errorf "podSelector.matchLabels is required" [])
        else Ok (ls_MatchLabels sel)
    end.

Definition effective_mode (m : string) : string :=
  if decide (m = "") then NetworkGrantPolicyModeStrictFQDN else m.
Definition effective_protocol (p : string) : string :=
  if decide (p = "") then NetworkGrantProtocolTCP else p.
Definition default_ports (ps : list Z) : list Z := if decide (ps = []) then [443] else ps.

Definition check_grant_port (allowNon443 : bool) (i : nat) (p : Z) : result error unit :=
  if (p <=? 0) || (65535 <? p)
  then Err (Errorf "egress[%d] has invalid port %d" [VInt (Z.of_nat i); VInt p])
  else if negb allowNon443 && negb (p =? 443)
  then Err (Errorf "egress[%d] requests non-443 port %d but allowNon443 is false"
         [VInt (Z.of_nat i); VInt p])
  else Ok tt.

Definition check_grant_rule (allowNon443 : bool) (i : nat) (r : NetworkGrantEgressRule)
    (dnsSet : gset string) : result error (gset string) :=
  let host := TrimSpace (er_Host r) in
  match validateNetworkGrantHost host with
  | Err e => Err (Errorf "egress[%d].host %q is invalid: %w"
               [VInt (Z.of_nat i); VStr host; err_value e])
  | Ok _ =>
      let dnsSet := {[ToLower host]} ∪ dnsSet in
      _ ← forE (fun _ p _ => check_grant_port allowNon443 i p) (default_ports (er_Ports r)) tt;
      Ok dnsSet
  end.

Definition check_grant_dns (i : nat) (host : string) (dnsSet : gset string)
    : result error (gset string) :=
  let h := TrimSpace host in
  if decide (h = "") then Err (Errorf "dnsAllow[%d] is empty" [VInt (Z.of_nat i)]) else
  match validateNetworkGrantHost h with
  | Err e => Err (Errorf "dnsAllow[%d] %q is invalid: %w"
               [VInt (Z.of_nat i); VStr h; err_value e])
  | Ok _ => Ok ({[ToLower h]} ∪ dnsSet)
  end.

(** [sort.Strings] of the keys of a set. *)
Definition sorted_keys (s : gset string) : list string := merge_sort str_le (elements s).

Definition over_cap (cap : Z) (n : nat) : bool := (0 <? cap) && (cap <? Z.of_nat n).

Definition validateAndResolveNetworkGrantMatchLabels (grant : NetworkGrant)
    (maxTTLSeconds maxEgressRules maxDNSNames : Z)
    : result error (gmap string string * list string) :=
  let spec := ng_Spec grant in
  matchLabels ← resolve_selector spec;
  _ ← guard_err (bool_decide (TrimSpace (ngs_Purpose spec) = "")) (Errorf "purpose is required" []);
  _ ← guard_err (ngs_Approved spec && bool_decide (TrimSpace (ngs_ApprovedBy spec) = ""))
        (Errorf "approvedBy is required when approved is true" []);
  let mode := effective_mode (ngs_PolicyMode spec) in
  _ ← guard_err (bool_decide (mode <> NetworkGrantPolicyModeStrictFQDN
                              /\ mode <> NetworkGrantPolicyModeProxyConnect))
        (Errorf "policyMode %q is not supported" [VStr mode]);
  let proto := effective_protocol (ngs_Protocol spec) in
  _ ← guard_err (bool_decide (proto <> NetworkGrantProtocolTCP))
        (Errorf "protocol %q is not supported (MVP supports TCP only)" [VStr proto]);
  _ ← guard_err (bool_decide (ngs_Egress spec = []))
        (Errorf "egress must contain at least one destination" []);
  let n := length (ngs_Egress spec) in
  _ ← guard_err (over_cap maxEgressRules n)
        (Errorf "egress contains too many destinations (%d > %d)"
           [VInt (Z.of_nat n); VInt maxEgressRules]);
  _ ← resolveNetworkGrantTTLSeconds (ngs_TTLSeconds spec) maxTTLSeconds;
  dnsSet ← forE (check_grant_rule (ngs_AllowNon443 spec)) (ngs_Egress spec) ∅;
  dnsSet ← forE check_grant_dns (ngs_DNSAllow spec) dnsSet;
  let dnsNames := sorted_keys dnsSet in
  _ ← guard_err (over_cap maxDNSNames (length dnsNames))
        (Errorf "too many DNS names for allow rules (%d > %d)"
           [VInt (Z.of_nat (length dnsNames)); VInt maxDNSNames]);
  Ok (matchLabels, dnsNames).

(** * The Cilium policy *)

Definition port_value (port : string) (proto : string) : value :=
  VObj [("port", VStr port); ("protocol", VStr proto)].

Definition buildCiliumDNSAllowEgress (dnsNames : list string) : option value :=
  let dnsRules := omap (fun h =>
    let h := TrimSpace h in
    if decide (h = "") then None else Some (VObj [("matchName", VStr h)])) dnsNames in
  if decide (dnsRules = []) then None else
  Some (VObj
    [("toEndpoints", VList [VObj [("matchLabels", VStrMap
        {["k8s:io.kubernetes.pod.namespace" := "kube-system"; "k8s-app" := "kube-dns"]})]]);
     ("toPorts", VList [VObj
        [("ports", VList [port_value "53" "UDP"; port_value "53" "TCP"]);
         ("rules", VObj [("dns", VList dnsRules)])]])]).

Definition cilium_rule (r : NetworkGrantEgressRule) : value :=
  let host := ToLower (TrimSpace (er_Host r)) in
  VObj [("toFQDNs", VList [VObj [("matchName", VStr host)]]);
        ("toPorts", VList [VObj [("ports",
           VList ((fun p => port_value (Itoa p) "TCP") <$> default_ports (er_Ports r)))]])].

Definition buildCiliumEgress (rules : list NetworkGrantEgressRule) : list value :=
  cilium_rule <$> rules.

Definition buildCiliumNetworkGrantEgress (rules : list NetworkGrantEgressRule)
    (dnsNames : list string) : list value :=
  match buildCiliumDNSAllowEgress dnsNames with
  | Some dnsRule => dnsRule :: buildCiliumEgress rules
  | None => buildCiliumEgress rules
  end.

Definition grant_policy_spec (matchLabels : gmap string string) (egress : list value) : value :=
  VObj [("endpointSelector", VObj [("matchLabels", VStrMap matchLabels)]);
        ("egress", VList egress)].

(** * Reconcile *)

(** How a reconcile can fail: an error, or a panic about a value. *)
Inductive failure := Failed (e : kerr) | Panicked (v : value).

Section controller.
(** Of apimachinery: [meta.SetStatusCondition], which sets one condition of a
    list, and [runtime.DeepCopyJSONValue], which panics where there is no copy. *)
Context (SetStatusCondition : list Condition -> Condition -> list Condition).
Context (DeepCopyJSONValue : value -> option value).

(** [_ = r.Status().Patch(ctx, &grant, patch)]: on success the object is what
    the API server returned; an error leaves it as it is. *)
Definition patch_status (g before : NetworkGrant) : kprog NetworkGrant :=
  r ← trigger (StatusPatch KNetworkGrant g before);
  mret (match r with Ok g' => g' | Err _ => g end).

Definition setNetworkGrantSpecValidCondition (grant : NetworkGrant) (ok : bool)
    (reason : string) (message : value) : kprog NetworkGrant :=
  now ← trigger Now;
  let desired := {|
    c_Type := networkGrantCondSpecValid;
    c_Status := if ok then "True" else "False";
    c_Reason := reason; c_Message := message;
    c_ObservedGeneration := m_Generation (ng_Meta grant);
    c_LastTransitionTime := now |} in
  let grant' := ng_set_Conditions
    (SetStatusCondition (ngt_Conditions (ng_Status grant)) desired) grant in
  if decide (ngt_Conditions (ng_Status grant) = ngt_Conditions (ng_Status grant'))
  then mret grant' else patch_status grant' grant.

(** [if grant.Status.Active { ...; grant.Status.Active = false; patch }] *)
Definition deactivate (grant : NetworkGrant) : kprog NetworkGrant :=
  if ngt_Active (ng_Status grant) then patch_status (ng_set_Active false grant) grant
  else mret grant.

Definition activate (grant : NetworkGrant) : kprog NetworkGrant :=
  if negb (ngt_Active (ng_Status grant)) then patch_status (ng_set_Active true grant) grant
  else mret grant.

Definition delete_policy (meta : ObjectMeta) : kprog unit :=
  _ ← trigger (DeleteObj KCNP (m_Namespace meta) ("netgrant-" +:+ m_Name meta)); mret tt.

(** Both calls of [controllerutil.CreateOrUpdate].  [unstructured.SetNestedField]
    sets a deep copy of the spec; a panic of the callback is one of the reconcile,
    before anything is written. *)
Definition write_policy (grant : NetworkGrant) (meta : ObjectMeta) (spec : value)
    : kprog (result failure unit) :=
  let name := "netgrant-" +:+ m_Name meta in
  CreateOrUpdateWith Failed KCNP (m_Namespace meta) name
    {| cnp_Meta := new_meta (m_Namespace meta) name; cnp_Spec := VObj [] |}
    (fun cnp =>
       match DeepCopyJSONValue spec with
       | None => mret (Err (Panicked spec))
       | Some copy =>
           r ← trigger (SetSpec KCNP cnp copy);
           match r with
           | Err e => mret (Err (Failed e))
           | Ok cnp =>
               r ← trigger (SetControllerReference KCNP (ng_Meta grant) cnp);
               mret (match r with Ok cnp => Ok (cnp, tt) | Err e => Err (Failed e) end)
           end
       end).

(** The invalid-spec branches. *)
Definition reject (meta : ObjectMeta) (grant : NetworkGrant) (e : error) : kprog NetworkGrant :=
  _ ← delete_policy meta;
  grant ← deactivate grant;
  setNetworkGrantSpecValidCondition grant false "ValidationFailed" (err_value e).

(** From the decision to enforce to the end: the policy of the mode, the status,
    the requeue at the expiry. *)
Definition enforce (meta : ObjectMeta) (grant : NetworkGrant)
    (matchLabels : gmap string string) (dnsNames : list string) (expiresAt : Z)
    : kprog (result failure Z) :=
  let mode := effective_mode (ngs_PolicyMode (ng_Spec grant)) in
  let egress :=
    if decide (mode = NetworkGrantPolicyModeProxyConnect) then
      match buildCiliumDNSAllowEgress dnsNames with Some d => [d] | None => [] end
    else buildCiliumNetworkGrantEgress (ngs_Egress (ng_Spec grant)) dnsNames in
  r ← write_policy grant meta (grant_policy_spec matchLabels egress);
  match r with
  | Err e => mret (Err e)
  | Ok _ =>
      _ ← activate grant;
      now ← trigger Now;
      mret (Ok (time_sub expiresAt now))
  end.

(** An approved grant. *)
Definition reconcile_approved (r : NetworkGrantReconciler) (meta : ObjectMeta)
    (grant : NetworkGrant) (matchLabels : gmap string string) (dnsNames : list string)
    : kprog (result failure Z) :=
  now ← trigger Now;
  match resolveNetworkGrantTTLSeconds (ngs_TTLSeconds (ng_Spec grant)) (ngr_MaxTTLSeconds r) with
  | Err e => _ ← reject meta grant e; mret (Ok 0)
  | Ok ttl =>
      let approvedAt := ngt_ApprovedAt (ng_Status grant) in
      '(grant, approvedAt) ←
        (if IsZero approvedAt then
           g ← patch_status (ng_set_ApprovedAt now grant) grant; mret (g, now)
         else mret (grant, approvedAt));
      let desiredExpiresAt := approvedAt + seconds ttl in
      let expiresAt := ngt_ExpiresAt (ng_Status grant) in
      '(grant, expiresAt) ←
        (if IsZero expiresAt || After expiresAt desiredExpiresAt then
           g ← patch_status (ng_set_ExpiresAt desiredExpiresAt grant) grant;
           mret (g, desiredExpiresAt)
         else mret (grant, expiresAt));
      if After now expiresAt then
        _ ← delete_policy meta; _ ← deactivate grant; mret (Ok 0)
      else enforce meta grant matchLabels dnsNames expiresAt
  end.

(** A valid grant that is not approved. *)
Definition reconcile_unapproved (meta : ObjectMeta) (grant : NetworkGrant)
    : kprog (result failure Z) :=
  _ ← delete_policy meta;
  let s := ng_Status grant in
  _ ← (if ngt_Active s || negb (IsZero (ngt_ExpiresAt s)) || negb (IsZero (ngt_ApprovedAt s)) then
         patch_status (ng_set_ApprovedAt 0 (ng_set_ExpiresAt 0 (ng_set_Active false grant))) grant
       else mret grant);
  mret (Ok 0).

(** [Reconcile]: the requeue delay (0 for none) or the error. *)
Definition Reconcile (r : NetworkGrantReconciler) (ns name : string) : kprog (result failure Z) :=
  got ← trigger (Get KNetworkGrant ns name);
  match got with
  | Err NotFound => mret (Ok 0)
  | Err e => mret (Err (Failed e))
  | Ok grant =>
      let meta := ng_Meta grant in
      match validateAndResolveNetworkGrantMatchLabels grant (ngr_MaxTTLSeconds r)
              (ngr_MaxEgressRules r) (ngr_MaxDNSNames r) with
      | Err e => _ ← reject meta grant e; mret (Ok 0)
      | Ok (matchLabels, dnsNames) =>
          grant ← setNetworkGrantSpecValidCondition grant true "Valid" (VStr "spec is valid");
          if negb (ngs_Approved (ng_Spec grant)) then reconcile_unapproved meta grant
          else reconcile_approved r meta grant matchLabels dnsNames
      end
  end.
End controller.

(** * The checks, declaratively *)

Lemma resolveTTL_iff requested max ttl :
  resolveNetworkGrantTTLSeconds requested max = Ok ttl <->
  (0 < requested /\ (0 < max -> requested <= max) /\ ttl = requested)
  \/ (requested <= 0 /\ ttl = if (0 <? max) && (max <? 1800) then max else 1800).
Proof.
  unfold resolveNetworkGrantTTLSeconds, networkGrantDefaultTTLSeconds.
  destruct (Z.ltb_spec 0 requested).
  - destruct (Z.ltb_spec 0 max), (Z.ltb_spec max requested); cbn;
      (split; [intros [= <-] + discriminate; left; lia
              | intros [(_ & Hm & ->)|[? _]]; [first [done | lia] | lia]]).
  - split; [intros [= <-]; right; split; [lia | done] | intros [[? _]|[_ ->]]; [lia | done]].
Qed.

(** The lifetime of a grant is positive and within the cap. *)
Lemma resolveTTL_bounds requested max ttl :
  resolveNetworkGrantTTLSeconds requested max = Ok ttl ->
  0 < ttl /\ (0 < max -> ttl <= max) /\ (int32_range requested -> int32_range max -> int32_range ttl).
Proof.
  rewrite resolveTTL_iff. unfold int32_range.
  intros [(? & ? & ->)|(? & ->)]; [lia|].
  destruct (Z.ltb_spec 0 max), (Z.ltb_spec max 1800); cbn; lia.
Qed.

Definition selector_of (spec : NetworkGrantSpec) (ml : gmap string string) : Prop :=
  let job := match ngs_AgentJobRef spec with Some r => TrimSpace (ajr_Name r) | None => "" end in
  (job <> "" /\ ngs_PodSelector spec = None /\ ml = {[labelApp := "agent"; labelAgentJob := job]})
  \/ (job = "" /\ exists sel, ngs_PodSelector spec = Some sel /\ ls_MatchExpressions sel = []
      /\ ls_MatchLabels sel <> ∅ /\ ml = ls_MatchLabels sel).

Lemma resolve_selector_iff spec ml : resolve_selector spec = Ok ml <-> selector_of spec ml.
Proof.
  unfold resolve_selector, selector_of. cbv zeta.
  set (job := match ngs_AgentJobRef spec with Some r => _ | None => _ end). clearbody job.
  destruct (ngs_PodSelector spec) as [sel|]; repeat case_decide; naive_solver.
Qed.

Definition port_ok (allowNon443 : bool) (p : Z) : Prop :=
  1 <= p <= 65535 /\ (allowNon443 = true \/ p = 443).
Definition egress_rule_ok (allowNon443 : bool) (r : NetworkGrantEgressRule) : Prop :=
  ValidateExactHostname (TrimSpace (er_Host r)) = Ok tt
  /\ Forall (port_ok allowNon443) (default_ports (er_Ports r)).

(** The names of a grant: its egress hosts and its DNS names. *)
Definition dns_set (spec : NetworkGrantSpec) : gset string :=
  list_to_set ((fun h => ToLower (TrimSpace h)) <$> ngs_DNSAllow spec)
  ∪ list_to_set ((fun r => ToLower (TrimSpace (er_Host r))) <$> ngs_Egress spec).

Definition within (cap : Z) (n : nat) : Prop := 0 < cap -> Z.of_nat n <= cap.

Record grant_valid (g : NetworkGrant) (mttl megr mdns : Z) (ml : gmap string string)
    (names : list string) : Prop := {
  gv_selector : selector_of (ng_Spec g) ml;
  gv_purpose : TrimSpace (ngs_Purpose (ng_Spec g)) <> "";
  gv_approver : ngs_Approved (ng_Spec g) = true -> TrimSpace (ngs_ApprovedBy (ng_Spec g)) <> "";
  gv_mode : effective_mode (ngs_PolicyMode (ng_Spec g))
    ∈ [NetworkGrantPolicyModeStrictFQDN; NetworkGrantPolicyModeProxyConnect];
  gv_protocol : effective_protocol (ngs_Protocol (ng_Spec g)) = NetworkGrantProtocolTCP;
  gv_nonempty : ngs_Egress (ng_Spec g) <> [];
  gv_egress_cap : within megr (length (ngs_Egress (ng_Spec g)));
  gv_ttl : is_ok (resolveNetworkGrantTTLSeconds (ngs_TTLSeconds (ng_Spec g)) mttl) = true;
  gv_rules : Forall (egress_rule_ok (ngs_AllowNon443 (ng_Spec g))) (ngs_Egress (ng_Spec g));
  gv_dns : Forall (fun h => ValidateExactHostname (TrimSpace h) = Ok tt) (ngs_DNSAllow (ng_Spec g));
  gv_names : names = sorted_keys (dns_set (ng_Spec g));
  gv_dns_cap : within mdns (length names);
}.

Lemma check_grant_port_iff b i p : check_grant_port b i p = Ok tt <-> port_ok b p.
Proof.
  unfold check_grant_port, port_ok.
  destruct (Z.leb_spec p 0), (Z.ltb_spec 65535 p); cbn; [split; [done|lia]..|].
  destruct b, (Z.eqb_spec p 443); cbn; intuition (done || lia).
Qed.

Lemma check_grant_rule_iff b i r s s' :
  check_grant_rule b i r s = Ok s' <->
  egress_rule_ok b r /\ s' = {[ToLower (TrimSpace (er_Host r))]} ∪ s.
Proof.
  unfold check_grant_rule, egress_rule_ok, validateNetworkGrantHost. cbv zeta.
  destruct (ValidateExactHostname (TrimSpace (er_Host r))) as [[]|e]; [|naive_solver].
  rewrite <- (forE_iff _ _ _ (fun _ p _ => check_grant_port_iff b i p)).
  destruct (forE _ _ tt) as [[]|e]; cbn [mbind result_bind]; naive_solver.
Qed.

Lemma check_grant_dns_iff i h s s' :
  check_grant_dns i h s = Ok s' <->
  ValidateExactHostname (TrimSpace h) = Ok tt /\ s' = {[ToLower (TrimSpace h)]} ∪ s.
Proof.
  unfold check_grant_dns, validateNetworkGrantHost.
  destruct (ValidateExactHostname (TrimSpace h)) as [[]|e] eqn:Hv.
  - rewrite decide_False; [naive_solver|]. intros He. rewrite He in Hv. discriminate.
  - case_decide; naive_solver.
Qed.

Lemma fold_add_set {A} (f : A -> string) l : forall s : gset string,
  fold_left (fun s x => {[f x]} ∪ s) l s = list_to_set (f <$> l) ∪ s.
Proof. induction l as [|x l IH]; intros s; cbn; [set_solver|]. rewrite IH. set_solver. Qed.

Lemma over_cap_iff cap n : over_cap cap n = false <-> within cap n.
Proof. unfold over_cap, within. destruct (Z.ltb_spec 0 cap), (Z.ltb_spec cap (Z.of_nat n)); cbn; intuition (done || lia). Qed.

Lemma guard_err_bind {E B} (b : bool) (e : E) (f : unit -> result E B) y :
  (guard_err b e ≫= f) = Ok y <-> b = false /\ f tt = Ok y.
Proof. destruct b; cbn; naive_solver. Qed.

Lemma result_bind_ok {E A B} (m : result E A) (f : A -> result E B) y :
  (m ≫= f) = Ok y <-> exists a, m = Ok a /\ f a = Ok y.
Proof. destruct m; cbn; naive_solver. Qed.

(** The two loops over the names. *)
Lemma grant_loops_iff spec s2 :
  (exists s1, forE (check_grant_rule (ngs_AllowNon443 spec)) (ngs_Egress spec) ∅ = Ok s1
     /\ forE check_grant_dns (ngs_DNSAllow spec) s1 = Ok s2) <->
  Forall (egress_rule_ok (ngs_AllowNon443 spec)) (ngs_Egress spec)
  /\ Forall (fun h => ValidateExactHostname (TrimSpace h) = Ok tt) (ngs_DNSAllow spec)
  /\ s2 = dns_set spec.
Proof.
  unfold forE.
  setoid_rewrite (fun s1 => forE_from_iff _ _ _ (ngs_Egress spec) 0 ∅ s1
    (fun i x b b' => check_grant_rule_iff (ngs_AllowNon443 spec) i x b b')).
  setoid_rewrite (fun s1 => forE_from_iff _ _ _ (ngs_DNSAllow spec) 0 s1 s2 check_grant_dns_iff).
  rewrite fold_add_set. setoid_rewrite fold_add_set. unfold dns_set.
  rewrite union_empty_r_L. naive_solver.
Qed.

Lemma validate_grant_iff g mttl megr mdns ml names :
  validateAndResolveNetworkGrantMatchLabels g mttl megr mdns = Ok (ml, names) <->
  grant_valid g mttl megr mdns ml names.
Proof.
  unfold validateAndResolveNetworkGrantMatchLabels. cbv zeta. split.
  - intros H. apply result_bind_ok in H as (ml' & Hs & H). rewrite !guard_err_bind in H.
    destruct H as (H1 & H2 & H3 & H4 & H5 & H6 & H).
    apply result_bind_ok in H as (ttl & Ht & H).
    apply result_bind_ok in H as (s1 & Hl1 & H). apply result_bind_ok in H as (s2 & Hl2 & H).
    apply guard_err_bind in H as [H7 [= <- <-]].
    destruct (proj1 (grant_loops_iff _ s2) (ex_intro _ s1 (conj Hl1 Hl2))) as (Hr & Hd & ->).
    rewrite bool_decide_eq_false in *. constructor; try done.
    + by apply resolve_selector_iff.
    + intros Ha. rewrite Ha in H2. by apply bool_decide_eq_false in H2.
    + rewrite !elem_of_cons. destruct (decide (effective_mode (ngs_PolicyMode (ng_Spec g))
        = NetworkGrantPolicyModeStrictFQDN)); [by left|].
      destruct (decide (effective_mode (ngs_PolicyMode (ng_Spec g))
        = NetworkGrantPolicyModeProxyConnect)); [by right; left | tauto].
    + by apply dec_stable.
    + by apply over_cap_iff.
    + by rewrite Ht.
    + by apply over_cap_iff.
  - intros [Hsel H1 H2 H3 H4 H5 H6 Ht Hr Hd -> H7].
    apply result_bind_ok. exists ml. split; [by apply resolve_selector_iff|].
    rewrite !guard_err_bind.
    split; [by apply bool_decide_eq_false|].
    split; [destruct (ngs_Approved (ng_Spec g)); [by apply bool_decide_eq_false, H2 | done]|].
    split; [apply bool_decide_eq_false; set_solver|].
    split; [apply bool_decide_eq_false; tauto|].
    split; [by apply bool_decide_eq_false|]. split; [by apply over_cap_iff|].
    apply result_bind_ok. destruct (resolveNetworkGrantTTLSeconds _ _) as [ttl|]; [|done].
    exists ttl. split; [done|].
    destruct (proj2 (grant_loops_iff _ _) (conj Hr (conj Hd eq_refl))) as (s1 & Hl1 & Hl2).
    apply result_bind_ok. exists s1. split; [done|]. apply result_bind_ok. eexists. split; [done|].
    apply guard_err_bind. split; [by apply over_cap_iff | done].
Qed.

(** The DNS names of a policy: sorted, without duplicates, exactly the set. *)
Lemma sorted_keys_spec s :
  StronglySorted str_le (sorted_keys s) /\ NoDup (sorted_keys s)
  /\ forall x, x ∈ sorted_keys s <-> x ∈ s.
Proof.
  unfold sorted_keys. pose proof (merge_sort_Permutation str_le (elements s)) as Hp.
  split; [|split].
  - apply (StronglySorted_merge_sort str_le).
  - rewrite Hp. apply NoDup_elements.
  - intros x. rewrite Hp. apply elem_of_elements.
Qed.

(** C9: the controller's validation succeeds exactly on the grants that are
    well formed in the sense of [grant_valid] (a stable selector, a purpose, an
    approver when approved, a known mode, TCP, a non-empty capped egress list of
    exact hosts with ports in range and 443 only unless opted out, a lifetime
    within the cap, exact DNS names), and then returns the selector and the
    sorted, duplicate-free list of the grant's names. *)
Theorem validateNetworkGrant_iff g mttl megr mdns ml names :
  validateAndResolveNetworkGrantMatchLabels g mttl megr mdns = Ok (ml, names) <->
  grant_valid g mttl megr mdns ml names
  /\ StronglySorted str_le names /\ NoDup names
  /\ forall x, x ∈ names <-> x ∈ dns_set (ng_Spec g).
Proof.
  rewrite validate_grant_iff. split; [|tauto]. intros H. split; [done|].
  rewrite (gv_names _ _ _ _ _ _ H). apply sorted_keys_spec.
Qed.

(** * What a reconcile does *)

(** The policies handed to the API server. *)
Definition obs_policy (o : kobs) : option CNP :=
  match o with
  | Obs (Write KCNP p) _ | Obs (Create KCNP p) _ | Obs (Patch KCNP p _) _
  | Obs (StatusPatch KCNP p _) _ => Some p
  | _ => None
  end.
Definition obs_deleted (o : kobs) : option (string * string) :=
  match o with Obs (DeleteObj KCNP ns n) _ => Some (ns, n) | _ => None end.
Definition obs_grant (o : kobs) : option (result kerr NetworkGrant) :=
  match o with
  | Obs e x =>
      match e in eff T return T -> option (result kerr NetworkGrant) with
      | Get k _ _ =>
          match k as k return result kerr (obj k) -> option (result kerr NetworkGrant) with
          | KNetworkGrant => Some | _ => fun _ => None end
      | _ => fun _ => None
      end x
  end.
Definition obs_now (o : kobs) : option Z :=
  match o with
  | Obs e x => match e in eff T return T -> option Z with Now => Some | _ => fun _ => None end x
  end.
(** A status write with its answer. *)
Definition obs_status (o : kobs) : option (NetworkGrant * result kerr NetworkGrant) :=
  match o with
  | Obs e x =>
      match e in eff T return T -> option (NetworkGrant * result kerr NetworkGrant) with
      | StatusPatch k g _ =>
          match k as k return obj k -> result kerr (obj k) ->
            option (NetworkGrant * result kerr NetworkGrant) with
          | KNetworkGrant => fun g r => Some (g, r) | _ => fun _ _ => None end g
      | _ => fun _ => None
      end x
  end.

(** The API server stores what it is told, and nobody else changes the grant
    while it is being reconciled: a status write that succeeds answers the
    written spec and status. *)
Definition quiet (tr : list kobs) : Prop :=
  forall g g', (g, Ok g') ∈ omap obs_status tr ->
    ng_Spec g' = ng_Spec g /\ ng_Status g' = ng_Status g.

(** What the decision to enforce depends on. *)
Definition core (g : NetworkGrant) : NetworkGrantSpec * Z * Z :=
  (ng_Spec g, ngt_ApprovedAt (ng_Status g), ngt_ExpiresAt (ng_Status g)).

Lemma quiet_app t1 t2 : quiet (t1 ++ t2) -> quiet t1 /\ quiet t2.
Proof. unfold quiet. rewrite omap_app. set_solver. Qed.

Lemma quiet_status g b g' tr : quiet (Obs (StatusPatch KNetworkGrant g b) (Ok g') :: tr) ->
  ng_Spec g' = ng_Spec g /\ ng_Status g' = ng_Status g.
Proof. intros Hq. apply Hq. cbn. by left. Qed.

(** The policy a reconcile may write, and when. *)
Definition policy_of (spec : NetworkGrantSpec) (ml : gmap string string) (names : list string)
    : value :=
  grant_policy_spec ml
    (if decide (effective_mode (ngs_PolicyMode spec) = NetworkGrantPolicyModeProxyConnect)
     then match buildCiliumDNSAllowEgress names with Some d => [d] | None => [] end
     else buildCiliumNetworkGrantEgress (ngs_Egress spec) names).

(** The policy is not a JSON value: its label maps are [map[string]string]. *)
Lemma policy_of_not_json spec ml names : json_value (policy_of spec ml names) = false.
Proof. done. Qed.

(** The reconcile went as far as a policy: it panicked over this spec, or could
    not look up the policy in force. *)
Definition halted {A} (meta : ObjectMeta) (spec : value) (tr : list kobs) (out : result failure A)
    : Prop :=
  out = Err (Panicked spec)
  \/ exists e, Obs (Fetch KCNP (m_Namespace meta) ("netgrant-" +:+ m_Name meta)) (Err e) ∈ tr
       /\ out = Err (Failed e).

Lemma halted_app {A} meta spec t1 t2 (out : result failure A) :
  halted meta spec t2 out -> halted meta spec (t1 ++ t2) out.
Proof.
  intros [?|(e & He & ?)]; [by left|right]. exists e. by rewrite elem_of_app; split; [right|].
Qed.

(** When the grant ends, by its status, its lifetime and the time of the reconcile. *)
Definition approval_time (g : NetworkGrant) (now : Z) : Z :=
  if IsZero (ngt_ApprovedAt (ng_Status g)) then now else ngt_ApprovedAt (ng_Status g).
Definition grant_end (g : NetworkGrant) (now ttl : Z) : Z :=
  let desired := approval_time g now + seconds ttl in
  let e := ngt_ExpiresAt (ng_Status g) in
  if IsZero e || After e desired then desired else e.

Lemma grant_end_le g now ttl : grant_end g now ttl <= approval_time g now + seconds ttl.
Proof.
  unfold grant_end, IsZero, After. cbv zeta.
  destruct (Z.eqb_spec (ngt_ExpiresAt (ng_Status g)) 0), (Z.ltb_spec (approval_time g now + seconds ttl)
    (ngt_ExpiresAt (ng_Status g))); cbn; lia.
Qed.

Section reconcile.
Context (SetStatusCondition : list Condition -> Condition -> list Condition).
Context (DeepCopyJSONValue : value -> option value).
Notation Rec := (Reconcile SetStatusCondition DeepCopyJSONValue).

Lemma patch_status_exec g b tr g' : exec (patch_status g b) tr g' ->
  omap obs_policy tr = [] /\ omap obs_deleted tr = []
  /\ (quiet tr -> ng_Spec g' = ng_Spec g /\ ng_Status g' = ng_Status g).
Proof.
  unfold patch_status. intros H. walk H. split; [done|]. split; [done|].
  intros Hq. destruct ans; [by eapply quiet_status | done].
Qed.

Lemma setCond_exec g ok reason msg tr g' :
  exec (setNetworkGrantSpecValidCondition SetStatusCondition g ok reason msg) tr g' ->
  omap obs_policy tr = [] /\ omap obs_deleted tr = [] /\ (quiet tr -> core g' = core g).
Proof.
  unfold setNetworkGrantSpecValidCondition. intros H.
  apply exec_bind in H as (t1 & t2 & now & -> & H1%exec_trigger & H). subst t1.
  cbv zeta in H. case_decide.
  - destruct H as [-> ->]. split; [done|]. split; [done|]. done.
  - apply patch_status_exec in H as (Hs & Hd & Hq). rewrite !omap_app, Hs, Hd.
    split; [done|]. split; [done|]. intros [_ Hq']%quiet_app. destruct (Hq Hq') as [Hsp Hst].
    unfold core. rewrite Hsp, Hst. done.
Qed.

Lemma deactivate_exec g tr g' : exec (deactivate g) tr g' -> omap obs_policy tr = [].
Proof.
  unfold deactivate. destruct (ngt_Active _); [by intros [? _]%patch_status_exec | by intros [-> _]].
Qed.

Lemma delete_exec meta tr u : exec (delete_policy meta) tr u ->
  omap obs_policy tr = [] /\ (m_Namespace meta, "netgrant-" +:+ m_Name meta) ∈ omap obs_deleted tr.
Proof. unfold delete_policy. intros H. walk H. split; [done|]. cbn. by left. Qed.

Lemma reject_exec meta g e tr g' : exec (reject SetStatusCondition meta g e) tr g' ->
  omap obs_policy tr = [] /\ (m_Namespace meta, "netgrant-" +:+ m_Name meta) ∈ omap obs_deleted tr.
Proof.
  unfold reject. intros H.
  apply exec_bind in H as (t1 & t2 & [] & -> & H1 & H).
  apply exec_bind in H as (t3 & t4 & g1 & -> & H2 & H).
  apply delete_exec in H1 as [Hs1 Hd1]. apply deactivate_exec in H2.
  apply setCond_exec in H as (Hs3 & _). rewrite !omap_app, Hs1, H2, Hs3. set_solver.
Qed.

(** The grant may be enforced at one of the times the reconcile read. *)
Definition in_time (r : NetworkGrantReconciler) (g : NetworkGrant) (tr : list kobs) : Prop :=
  exists now ttl, now ∈ omap obs_now tr
    /\ resolveNetworkGrantTTLSeconds (ngs_TTLSeconds (ng_Spec g)) (ngr_MaxTTLSeconds r) = Ok ttl
    /\ now <= grant_end g now ttl.

(** The documented domain of the copy: JSON values. *)
Hypothesis copies_json : forall v, json_value v = false -> DeepCopyJSONValue v = None.

Lemma enforce_exec meta g ml names expires tr out :
  exec (enforce DeepCopyJSONValue meta g ml names expires) tr out ->
  omap obs_policy tr = [] /\ halted meta (policy_of (ng_Spec g) ml names) tr out.
Proof using copies_json.
  intros H. unfold enforce, write_policy, CreateOrUpdateWith in H. cbv zeta in H.
  fold (policy_of (ng_Spec g) ml names) in H.
  rewrite (copies_json _ (policy_of_not_json (ng_Spec g) ml names)) in H.
  walk H; (split; [done|]); [by left | right]. eexists. split; [by left | done].
Qed.

Lemma approvedAt_exec g now tr (p : NetworkGrant * Z) :
  exec (if IsZero (ngt_ApprovedAt (ng_Status g)) then
          g ← patch_status (ng_set_ApprovedAt now g) g; mret (g, now)
        else mret (g, ngt_ApprovedAt (ng_Status g))) tr p ->
  omap obs_policy tr = [] /\ (quiet tr -> ng_Spec p.1 = ng_Spec g
    /\ ngt_ExpiresAt (ng_Status p.1) = ngt_ExpiresAt (ng_Status g) /\ p.2 = approval_time g now).
Proof.
  unfold approval_time. destruct (IsZero _); [|by intros [-> ->]].
  intros (t1 & t2 & g1 & -> & H1 & [-> ->])%exec_bind. rewrite app_nil_r.
  apply patch_status_exec in H1 as (? & _ & Hq). split; [done|]. intros Hquiet.
  destruct (Hq Hquiet) as [? Hs].
  split; [done|]. cbn [fst snd]. split; [by rewrite Hs | done].
Qed.

Lemma expiresAt_exec g desired tr (p : NetworkGrant * Z) :
  let e := ngt_ExpiresAt (ng_Status g) in
  exec (if IsZero e || After e desired then
          g ← patch_status (ng_set_ExpiresAt desired g) g; mret (g, desired)
        else mret (g, e)) tr p ->
  omap obs_policy tr = [] /\ p.2 = (if IsZero e || After e desired then desired else e)
  /\ (quiet tr -> ng_Spec p.1 = ng_Spec g).
Proof.
  intros e. subst e. destruct (IsZero _ || _); [|by intros [-> ->]].
  intros (t1 & t2 & g1 & -> & H1 & [-> ->])%exec_bind. rewrite app_nil_r.
  apply patch_status_exec in H1 as (? & _ & Hq). split; [done|]. split; [done|]. by intros [? _]%Hq.
Qed.

Lemma reconcile_approved_exec r meta g ml names tr out :
  exec (reconcile_approved SetStatusCondition DeepCopyJSONValue r meta g ml names) tr out -> quiet tr ->
  omap obs_policy tr = [] /\
  ((m_Namespace meta, "netgrant-" +:+ m_Name meta) ∈ omap obs_deleted tr /\ out = Ok 0
   \/ in_time r g tr /\ halted meta (policy_of (ng_Spec g) ml names) tr out).
Proof using copies_json.
  intros H Hq. unfold reconcile_approved in H.
  apply exec_bind in H as (t0 & t1 & now & -> & H0%exec_trigger & H). subst t0.
  destruct (resolveNetworkGrantTTLSeconds _ _) as [ttl|e] eqn:Ht; cycle 1.
  { apply exec_bind in H as (t2 & t3 & g2 & -> & H2%reject_exec & [-> ->]).
    rewrite app_nil_r, !omap_app. destruct H2 as [-> ?]. cbn. split; [done|left; set_solver]. }
  cbv zeta in H. apply exec_bind in H as (t2 & t3 & p1 & -> & H2 & H).
  apply approvedAt_exec in H2 as [Hs2 Hq2].
  apply quiet_app in Hq as [_ [Hqa Hq]%quiet_app]. destruct (Hq2 Hqa) as (Hsp & Hex & Hap).
  destruct p1 as [g1 ap]. cbn [fst snd] in *. subst ap.
  apply exec_bind in H as (t4 & t5 & p2 & -> & H4 & H).
  apply expiresAt_exec in H4 as (Hs4 & Hexp & Hq4). apply quiet_app in Hq as [Hqb Hq].
  specialize (Hq4 Hqb). destruct p2 as [g2 expiresAt]. cbn [fst snd] in *.
  rewrite Hex in Hexp. fold (grant_end g now ttl) in Hexp. subst expiresAt.
  rewrite !omap_app, Hs2, Hs4. cbn [app].
  destruct (After now (grant_end g now ttl)) eqn:Ha; unfold After in Ha.
  - apply exec_bind in H as (t6 & t7 & u & -> & H6%delete_exec & H).
    apply exec_bind in H as (t8 & t9 & g3 & -> & H8%deactivate_exec & [-> ->]).
    rewrite !omap_app. destruct H6 as [-> ?]. rewrite H8. cbn. split; [done|left; set_solver].
  - assert (Hin : in_time r g ([Obs Now now] ++ t2 ++ t4 ++ t5)).
    { exists now, ttl. split; [cbn; by left|]. split; [done|]. apply Z.ltb_ge in Ha. lia. }
    apply enforce_exec in H as [Hp Hh]. split; [done|]. right. split; [done|].
    rewrite <- Hsp, <- Hq4. by apply (halted_app _ _ [_]), halted_app, halted_app.
Qed.

(** The decision a reconcile takes about the grant [g] it fetched. *)
Definition enforceable (r : NetworkGrantReconciler) (g : NetworkGrant) (ml : gmap string string)
    (names : list string) (tr : list kobs) : Prop :=
  grant_valid g (ngr_MaxTTLSeconds r) (ngr_MaxEgressRules r) (ngr_MaxDNSNames r) ml names
  /\ ngs_Approved (ng_Spec g) = true /\ in_time r g tr.

Lemma Reconcile_spec r ns name g tr out :
  exec (Rec r ns name) tr out -> head (omap obs_grant tr) = Some (Ok g) -> quiet tr ->
  omap obs_policy tr = [] /\
  ((m_Namespace (ng_Meta g), "netgrant-" +:+ m_Name (ng_Meta g)) ∈ omap obs_deleted tr /\ out = Ok 0
   \/ exists ml names, enforceable r g ml names tr
        /\ halted (ng_Meta g) (policy_of (ng_Spec g) ml names) tr out).
Proof using copies_json.
  intros H Hg Hq. unfold Reconcile in H.
  apply exec_bind in H as (t0 & t1 & ans & -> & H0%exec_trigger & H). subst t0.
  cbn in Hg. injection Hg as ->. apply quiet_app in Hq as [_ Hq].
  change (omap obs_policy ([Obs (Get KNetworkGrant ns name) (Ok g)] ++ t1)) with (omap obs_policy t1).
  change (omap obs_deleted ([Obs (Get KNetworkGrant ns name) (Ok g)] ++ t1))
    with (omap obs_deleted t1).
  destruct (validateAndResolveNetworkGrantMatchLabels _ _ _ _) as [[ml names]|e] eqn:Hv; cycle 1.
  { apply exec_bind in H as (t2 & t3 & g2 & -> & H2%reject_exec & [-> ->]).
    rewrite app_nil_r. destruct H2 as [-> ?]. split; [done | by left]. }
  apply validate_grant_iff in Hv.
  apply exec_bind in H as (t2 & t3 & g1 & -> & H2 & H).
  apply setCond_exec in H2 as (Hs2 & Hd2 & Hq2). apply quiet_app in Hq as [Hqa Hq].
  specialize (Hq2 Hqa). unfold core in Hq2. injection Hq2 as Hsp Hap Hex.
  rewrite !omap_app, Hs2, Hd2. cbn [app].
  destruct (ngs_Approved (ng_Spec g1)) eqn:Happ; cbn [negb] in H.
  - apply reconcile_approved_exec in H as [-> Hdel]; [|done]. split; [done|].
    destruct Hdel as [?|[(now & ttl & Hnow & Ht & Hle) Hh]]; [by left|right].
    exists ml, names. rewrite <- Hsp. split; [split; [done|split; [by rewrite <- Hsp|]]|].
    + exists now, ttl. split; [cbn; rewrite omap_app, elem_of_app; by right|].
      split; [by rewrite <- Hsp|]. revert Hle. unfold grant_end, approval_time. by rewrite Hap, Hex.
    + by apply (halted_app _ _ [_]), halted_app.
  - unfold reconcile_unapproved in H.
    apply exec_bind in H as (t4 & t5 & u & -> & H4%delete_exec & H).
    apply exec_bind in H as (t6 & t7 & g3 & -> & H6 & [-> ->]).
    assert (omap obs_policy t6 = []) as Hs6.
    { destruct (ngt_Active _ || _ || _); [by apply patch_status_exec in H6 as [? _] | by destruct H6 as [-> _]]. }
    rewrite !omap_app. destruct H4 as [-> ?]. rewrite Hs6. cbn.
    split; [done | left; set_solver].
Qed.
End reconcile.

(** C8: the controller validates before it enforces, fails closed, and enforces
    nothing.  In every reconcile that nobody interferes with ([quiet]), for the
    grant [g] it fetched: either the policy of that name is deleted and the
    reconcile ends normally; or [g] is well formed and approved, the time is not
    past its end, which lies at most its (capped) lifetime after the approval,
    and the reconcile panics over the policy of [g]'s own spec (unless it could
    not look up the policy in force): the policy holds a [map[string]string],
    of which [runtime.DeepCopyJSONValue] makes no copy.  No policy is ever
    handed to the API server. *)
Theorem Reconcile_validates_and_panics SSC copy r ns name g tr out :
  (forall v, json_value v = false -> copy v = None) ->
  exec (Reconcile SSC copy r ns name) tr out -> head (omap obs_grant tr) = Some (Ok g) -> quiet tr ->
  omap obs_policy tr = [] /\
  ((m_Namespace (ng_Meta g), "netgrant-" +:+ m_Name (ng_Meta g)) ∈ omap obs_deleted tr /\ out = Ok 0
   \/ exists ml names, enforceable r g ml names tr
        /\ halted (ng_Meta g) (policy_of (ng_Spec g) ml names) tr out).
Proof. intros Hcopy. by apply Reconcile_spec. Qed.

(** A run on an approved grant, at the time of its first reconcile. *)
Definition demo_spec (approved : bool) (ttl : Z) : NetworkGrantSpec := {|
  ngs_AgentJobRef := Some {| ajr_Name := "build-1" |}; ngs_PodSelector := None;
  ngs_PolicyMode := NetworkGrantPolicyModeProxyConnect; ngs_Protocol := ""; ngs_Purpose := "ci";
  ngs_Egress := [{| er_Host := "GitHub.com"; er_Ports := [] |}]; ngs_DNSAllow := [];
  ngs_AllowNon443 := false; ngs_TTLSeconds := ttl; ngs_Approved := approved;
  ngs_ApprovedBy := "alice"; ngs_Reason := "" |}.
Definition demo_grant (ttl : Z) : NetworkGrant := {|
  ng_Meta := new_meta "agents" "g1"; ng_Spec := demo_spec true ttl;
  ng_Status := zero_ngstatus |}.
Definition demo_reconciler : NetworkGrantReconciler :=
  {| ngr_MaxTTLSeconds := 3600; ngr_MaxEgressRules := 20; ngr_MaxDNSNames := 40 |}.

Definition grant_world (now : Z) (g : NetworkGrant) : forall X, eff X -> unit -> X * unit :=
  echo_world now
    (fun k _ _ => match k as k return result kerr (obj k) with
                  | KNetworkGrant => Ok g | _ => Err NotFound end)
    (fun _ => []) (fun _ => Err (Errorf "" [])).

(** A deep copy of JSON values. *)
Definition json_copy (v : value) : option value := if json_value v then Some v else None.

Definition demo_end : result failure Z * list kobs * unit :=
  run (grant_world (200 * second) (demo_grant 600))
    (Reconcile (fun l c => l ++ [c]) json_copy demo_reconciler "agents" "g1") tt.
Definition demo_trace : list kobs := demo_end.1.2.

Lemma Reconcile_validates_and_panics_witness :
  omap obs_deleted demo_trace = [] /\ omap obs_policy demo_trace = []
  /\ exists ml names, enforceable demo_reconciler (demo_grant 600) ml names demo_trace
     /\ halted (new_meta "agents" "g1") (policy_of (ng_Spec (demo_grant 600)) ml names) demo_trace
          demo_end.1.1.
Proof.
  assert (Hd : omap obs_deleted demo_trace = []) by (vm_compute; reflexivity).
  split; [exact Hd|].
  destruct (Reconcile_validates_and_panics (fun l c => l ++ [c]) json_copy demo_reconciler "agents" "g1"
    (demo_grant 600) demo_trace demo_end.1.1) as [Hp [[Hdel _]|He]].
  - intros v Hv. unfold json_copy. rewrite Hv. reflexivity.
  - exact (run_is_exec _ (Reconcile (fun l c => l ++ [c]) json_copy demo_reconciler "agents" "g1") tt).
  - vm_compute. reflexivity.
  - clear Hd. intros g g' Hin. revert Hin.
    let l := eval vm_compute in (omap obs_status demo_trace) in
      change (omap obs_status demo_trace) with l.
    rewrite !elem_of_cons. intros Hin. repeat destruct Hin as [[= -> ->]|Hin];
      try (split; reflexivity). by apply not_elem_of_nil in Hin.
  - rewrite Hd in Hdel. apply not_elem_of_nil in Hdel. destruct Hdel.
  - split; [exact Hp | exact He].
Defined.
