(* ===== verification/GrantSystem.v ===== *)
(** The grant controller and the proxy together: both read NetworkGrants, the
    controller validates them and writes their status, the proxy acts on them. *)
From S2P Require Import GrantController EgressProxy.
From stdpp Require Import options.
Open Scope Z_scope.

(** A grant that the controller never gave a status is active at any time. *)
Lemma unreconciled_active g now :
  ngs_Approved (ng_Spec g) = true -> int32_range (ngs_TTLSeconds (ng_Spec g)) ->
  ngt_ApprovedAt (ng_Status g) = 0 -> ngt_ExpiresAt (ng_Status g) = 0 ->
  grantActive g now = true.
Proof.
  intros Ha Hr Hap Hex. unfold grantActive. rewrite Ha, Hap, Hex. cbn [negb IsZero Z.eqb].
  unfold Before. apply Z.ltb_lt. assert (0 < seconds (if ngs_TTLSeconds (ng_Spec g) <=? 0 then 1800
    else ngs_TTLSeconds (ng_Spec g))); [|lia].
  destruct (Z.leb_spec (ngs_TTLSeconds (ng_Spec g)) 0); [reflexivity|].
  rewrite seconds_int32 by done. unfold second. lia.
Qed.

(** The status writes of a reconcile that rejects the grant. *)
Definition writes_core (c : NetworkGrantSpec * Z * Z) (tr : list kobs) : Prop :=
  forall g a, (g, a) ∈ omap obs_status tr -> core g = c.

Lemma writes_core_app c t1 t2 : writes_core c t1 -> writes_core c t2 -> writes_core c (t1 ++ t2).
Proof. unfold writes_core. rewrite omap_app. set_solver. Qed.

Section rejected.
Context (SSC : list Condition -> Condition -> list Condition).

Lemma patch_status_core g b tr g' : core b = core g ->
  exec (patch_status g b) tr g' -> quiet tr -> writes_core (core b) tr /\ core g' = core b.
Proof.
  intros Hc H Hq. pose proof (proj2 (proj2 (patch_status_exec _ _ _ _ H)) Hq) as [Hsp Hst].
  assert (Hg : core g' = core b) by (rewrite Hc; unfold core; by rewrite Hsp, Hst).
  split; [|done]. unfold patch_status in H. walk H. intros x a Hin. cbn in Hin.
  rewrite elem_of_cons in Hin. destruct Hin as [[= -> _]|?%not_elem_of_nil]; [by rewrite Hc | done].
Qed.

Lemma deactivate_core g tr g' : exec (deactivate g) tr g' -> quiet tr ->
  writes_core (core g) tr /\ core g' = core g.
Proof.
  unfold deactivate. destruct (ngt_Active _); intros H Hq.
  - by eapply patch_status_core in H.
  - destruct H as [-> ->]. split; [|done]. by intros ? ? ?%not_elem_of_nil.
Qed.

Lemma setCond_core g ok reason msg tr g' :
  exec (setNetworkGrantSpecValidCondition SSC g ok reason msg) tr g' -> quiet tr ->
  writes_core (core g) tr.
Proof.
  unfold setNetworkGrantSpecValidCondition. intros H Hq.
  apply exec_bind in H as (t1 & t2 & now & -> & H1%exec_trigger & H). subst t1.
  apply quiet_app in Hq as [_ Hq]. apply writes_core_app; [by intros ? ? ?%not_elem_of_nil|].
  cbv zeta in H. case_decide.
  - destruct H as [-> _]. by intros ? ? ?%not_elem_of_nil.
  - by eapply patch_status_core in H as [? _].
Qed.

Lemma reject_core meta g e tr g' : exec (reject SSC meta g e) tr g' -> quiet tr ->
  writes_core (core g) tr.
Proof.
  unfold reject, delete_policy. intros H Hq.
  apply exec_bind in H as (t1 & t2 & [] & -> & H1 & H).
  apply exec_bind in H as (t3 & t4 & g1 & -> & H2 & H).
  apply quiet_app in Hq as [_ Hq]. apply quiet_app in Hq as [Hq1 Hq2].
  destruct (deactivate_core _ _ _ H2 Hq1) as [Hw Hc].
  apply writes_core_app; [walk H1; by intros ? ? ?%not_elem_of_nil|].
  apply writes_core_app; [done|]. rewrite <- Hc. by eapply setCond_core.
Qed.
End rejected.

(** C16: a grant the controller rejects is honoured by the proxy without limit.
    If an approved grant without status fails the controller's validation (for
    instance because its lifetime exceeds the cap), then the reconcile leaves its
    approval and expiry times unset in everything it writes, and the proxy takes
    the grant, as fetched and as written, to be active at every time. *)
Theorem rejected_grant_always_active SSC copy r ns name g tr out :
  exec (Reconcile SSC copy r ns name) tr out -> head (omap obs_grant tr) = Some (Ok g) -> quiet tr ->
  is_ok (validateAndResolveNetworkGrantMatchLabels g (ngr_MaxTTLSeconds r)
           (ngr_MaxEgressRules r) (ngr_MaxDNSNames r)) = false ->
  ngs_Approved (ng_Spec g) = true -> int32_range (ngs_TTLSeconds (ng_Spec g)) ->
  ngt_ApprovedAt (ng_Status g) = 0 -> ngt_ExpiresAt (ng_Status g) = 0 ->
  forall now, grantActive g now = true
    /\ forall g' a, (g', a) ∈ omap obs_status tr -> grantActive g' now = true.
Proof.
  intros H Hg Hq Hbad Ha Hr Hap Hex now. split; [by apply unreconciled_active|].
  intros g' a Hin. unfold Reconcile in H.
  apply exec_bind in H as (t0 & t1 & ans & -> & H0%exec_trigger & H). subst t0.
  cbn in Hg. injection Hg as ->. apply quiet_app in Hq as [_ Hq].
  destruct (validateAndResolveNetworkGrantMatchLabels _ _ _ _) as [[]|e]; [done|].
  apply exec_bind in H as (t2 & t3 & g2 & -> & H2 & [-> _]).
  apply quiet_app in Hq as [Hq _]. pose proof (reject_core _ _ _ _ _ _ H2 Hq) as Hw.
  rewrite app_nil_r in Hin. specialize (Hw g' a Hin). unfold core in Hw.
  injection Hw as Hsp Hap' Hex'. apply unreconciled_active; congruence.
Qed.

(** A grant of a day under a cap of an hour. *)
Definition long_trace : list kobs :=
  (run (grant_world (200 * second) (GrantController.demo_grant 86400))
     (Reconcile (fun l c => l ++ [c]) json_copy demo_reconciler "agents" "g1") tt).1.2.

Lemma rejected_grant_always_active_witness :
  grantActive (GrantController.demo_grant 86400) (1000 * 86400 * second) = true.
Proof.
  apply (rejected_grant_always_active (fun l c => l ++ [c]) json_copy demo_reconciler "agents" "g1"
    (GrantController.demo_grant 86400) long_trace (Ok 0)).
  - apply (run_exec (grant_world (200 * second) (GrantController.demo_grant 86400)) _ tt _ _ tt).
    vm_compute. reflexivity.
  - vm_compute. reflexivity.
  - intros g g' Hin. revert Hin.
    let l := eval vm_compute in (omap obs_status long_trace) in
      change (omap obs_status long_trace) with l.
    rewrite !elem_of_cons. intros Hin. repeat destruct Hin as [[= -> ->]|Hin];
      try (split; reflexivity). by apply not_elem_of_nil in Hin.
  - vm_compute. reflexivity.
  - reflexivity.
  - split; [discriminate | reflexivity].
  - reflexivity.
  - reflexivity.
Defined.

(** * A change between the validation and its use *)

(** The grant after an edit that raced with the reconcile. *)
Definition changed_grant : NetworkGrant := {|
  ng_Meta := new_meta "agents" "g1";
  ng_Spec := {| ngs_AgentJobRef := Some {| ajr_Name := "build-1" |}; ngs_PodSelector := None;
    ngs_PolicyMode := NetworkGrantPolicyModeStrictFQDN; ngs_Protocol := ""; ngs_Purpose := "ci";
    ngs_Egress := [{| er_Host := "*.example.com"; er_Ports := [22] |}]; ngs_DNSAllow := [];
    ngs_AllowNon443 := false; ngs_TTLSeconds := 600; ngs_Approved := true;
    ngs_ApprovedBy := "alice"; ngs_Reason := "" |};
  ng_Status := zero_ngstatus |}.

(** An API server that answers status writes with the current object, whose spec
    was changed after the reconcile had fetched it. *)
Definition racing_world (X : Type) (e : eff X) : unit -> X * unit :=
  match e in eff T return unit -> T * unit with
  | StatusPatch k _ _ => fun u =>
      (match k as k return result kerr (obj k) with
       | KNetworkGrant => Ok changed_grant | _ => Err NotFound end, u)
  | e => grant_world (200 * second) (GrantController.demo_grant 600) _ e
  end.

Definition racing_trace : list kobs :=
  (run racing_world (Reconcile (fun l c => l ++ [c]) json_copy demo_reconciler "agents" "g1") tt).1.2.

(** The validation and the policy can be of different specs.  The first
    status write refreshes the in-memory grant from the API server, and the rest
    of the reconcile uses the refreshed spec: in this execution the fetched grant
    is valid, the grant edited meanwhile is not, and the policy the reconcile
    panics over is that of the edited spec, a wildcard host on port 22. *)
Lemma stale_validation_enforced :
  head (omap obs_grant racing_trace) = Some (Ok (GrantController.demo_grant 600))
  /\ is_ok (validateAndResolveNetworkGrantMatchLabels (GrantController.demo_grant 600) 3600 20 40) = true
  /\ is_ok (validateAndResolveNetworkGrantMatchLabels changed_grant 3600 20 40) = false
  /\ exec (Reconcile (fun l c => l ++ [c]) json_copy demo_reconciler "agents" "g1") racing_trace
       (Err (Panicked
         (grant_policy_spec {[labelApp := "agent"; labelAgentJob := "build-1"]}
            (buildCiliumNetworkGrantEgress [{| er_Host := "*.example.com"; er_Ports := [22] |}]
               ["github.com"])))).
Proof.
  split; [vm_compute; reflexivity|]. split; [vm_compute; reflexivity|].
  split; [vm_compute; reflexivity|].
  apply (run_exec racing_world _ tt _ _ tt). vm_compute. reflexivity.
Qed.
