(* ===== verification/BrokerEnv.v ===== *)
(** The capability broker's state, its calls and its authentication
    (the [server] of src/cmd/capability-broker/main.go, auth.go).

    Go's [encoding/json] and the JWT library are parameters: a handler is given
    the decoded body ([None] when decoding fails), and tokens are signed and
    verified by [jwt_sign] and [jwt_parse]. *)
From S2P Require Export Effects NetPolicy.
From stdpp Require Import options.
Open Scope Z_scope.

(** * Requests and replies *)

Record HttpReq := {
  hq_Header : string -> string;      (* r.Header.Get *)
  hq_RemoteAddr : string;
  hq_RequestID : string;
  hq_URLParam : string -> string;    (* chi.URLParam *)
}.

(** What [writeJSON] sends: an error code with details, or an object. *)
Inductive payload :=
| PError (code : string) (details : list (string * value))
| PGrant (g : NetworkGrant)
| PAgentJob (j : AgentJob)
| PValue (v : value).
Record reply := { rp_Status : Z; rp_Body : payload }.

Definition fail (status : Z) (code : string) : reply :=
  {| rp_Status := status; rp_Body := PError code [] |}.

(** * State *)

Record githubService := {
  gh_apiBase : string;
  gh_gitBase : string;
  gh_appID : Z;
  gh_installationID : Z;
  gh_repoAllowlist : gset string;
  gh_defaultBase : string;
  gh_allowedBases : gset string;
  gh_branchPrefix : string;
  gh_authorName : string;
  gh_authorEmail : string;
  gh_maxFilesChanged : Z;
  gh_maxPatchBytes : Z;
  gh_allowBinaryPatches : bool;
  gh_sensitivePathPrefixDenylist : list string;
  gh_sensitivePathAllowlistRepos : gset string;
  gh_enableCheckRuns : bool;
  gh_checkRunName : string;
}.

(** [s_audit]: an emitter is configured; [s_env] is [os.Getenv]. *)
Record server := {
  s_audit : bool;
  s_jobJWTSecret : string;
  s_adminToken : string;
  s_webhookToken : string;
  s_gh : option githubService;
  s_netPolicy : networkGrantPolicy;
  s_artifacts : bool;
  s_kube : bool;
  s_redact : option (string -> string);
  s_env : string -> string;
}.

(** * Calls *)

Inductive beff : Type -> Type :=
| BBase {X} (e : eff X) : beff X
(* the maps of the network policy, shared by all requests *)
| LoadMaps : beff pheap
| StoreMaps (m : pheap) : beff unit
(* the cached installation token and its expiry, under g.mu *)
| LoadToken : beff (string * Z)
| StoreToken (token : string) (expiry : Z) : beff unit
(* git and the file system *)
| MkdirTemp (root pattern : string) : beff (result error string)
| RemoveAll (path : string) : beff unit
| MkdirAll (path : string) : beff unit
| WriteFile (path content : string) (mode : Z) : beff (result error unit)
| Git (dir : string) (env args : list string) : beff (result error string)
(* client-go and the artifact store *)
| GetJob (ns name : string) : beff (result error Job)
| ListPods (ns selector : string) : beff (result error (list Pod))
| PodLogs (ns pod container : string) (limit : Z) : beff (result error string)
| PutArtifact (key contentType body : string) : beff (result error unit)
| PutResult (key : string) (body : value) : beff (result error unit)
| PresignGet (key : string) : beff (option string).

Notation bprog := (prog beff).
Notation bobs := (obs beff).

Definition base {X} (e : eff X) : bprog X := trigger (BBase e).

(** [if s.audit != nil { s.audit.Emit(event, fields) }] *)
Definition audit_emit (on : bool) (event : string) (fields : list (string * value))
    : bprog unit :=
  if on then base (Emit event fields) else mret tt.

(** Programs of the plain calls run inside the broker. *)
Fixpoint lift {A} (p : kprog A) : bprog A :=
  match p with
  | Ret a => Ret a
  | Vis e k => Vis (BBase e) (fun x => lift (k x))
  end.

Definition lift_obs (o : kobs) : bobs := match o with Obs e x => Obs (BBase e) x end.

Lemma exec_lift {A} (p : kprog A) : forall t a,
  exec (lift p) t a -> exists t0, t = lift_obs <$> t0 /\ exec p t0 a.
Proof.
  induction p as [v|X e k IH]; intros t a Hx; cbn in Hx.
  - destruct Hx as [-> ->]. by exists [].
  - destruct Hx as (x & tr & -> & (t0 & -> & H0)%IH). exists (Obs e x :: t0).
    split; [done|]. cbn. eauto.
Qed.

Definition randomSlug : bprog string :=
  now ← base Now;
  b ← base (RandBytes 6);
  mret (format_slug now +:+ "-" +:+ hex_encode b).

(** * auth.go *)

Record jobIdentity := { ji_Namespace : string; ji_Name : string }.

(** What [jwt.NewNumericDate] keeps of a time: [jwt.TimePrecision] is a second. *)
Definition numeric_date (t : Z) : Z := t / second * second.

(** The claims of a job token; times in nanoseconds, whole seconds. *)
Record jobTokenClaims := {
  jc_Namespace : string;
  jc_Name : string;
  jc_Subject : string;
  jc_IssuedAt : Z;
  jc_ExpiresAt : Z;
  jc_Audience : list string;
  jc_ID : string;
}.

Section auth.
(** [jwt.NewWithClaims(HS256, claims).SignedString(key)] and
    [jwt.ParseWithClaims] with the HS256 check, the audience "capability-broker"
    and a leeway of 30 seconds, at a time. *)
Context (jwt_sign : string -> jobTokenClaims -> result error string).
Context (jwt_parse : string -> string -> Z -> result error jobTokenClaims).

Definition job_claims (namespace name : string) (ttl now : Z) (id : string) : jobTokenClaims := {|
  jc_Namespace := TrimSpace namespace;
  jc_Name := TrimSpace name;
  jc_Subject := "agentjob:" +:+ TrimSpace namespace +:+ "/" +:+ TrimSpace name;
  jc_IssuedAt := numeric_date (now - 30 * second);
  jc_ExpiresAt := numeric_date (now + ttl);
  jc_Audience := ["capability-broker"];
  jc_ID := id |}.

Definition mintJobToken (s : server) (namespace name : string) (ttl : Z)
    : bprog (result error string) :=
  if decide (TrimSpace namespace = "" \/ TrimSpace name = "")
  then mret (Err (Errorf "namespace and name are required" []))
  else
    let ttl := if ttl <=? 0 then hour else ttl in
    now ← base Now;
    id ← randomSlug;
    mret (jwt_sign (s_jobJWTSecret s) (job_claims namespace name ttl now id)).

(** The bearer token, or the token header. *)
Definition raw_token (r : HttpReq) : string :=
  let raw := TrimSpace (hq_Header r "Authorization") in
  let raw := if HasPrefix (ToLower raw) "bearer " then TrimSpace (str_drop 7 raw) else "" in
  if decide (raw = "") then TrimSpace (hq_Header r "X-Workspaces-Job-Token") else raw.

Definition parseJobToken (s : server) (r : HttpReq) : bprog (result error jobIdentity) :=
  let raw := raw_token r in
  if decide (raw = "") then mret (Err (Errorf "missing token" [])) else
  now ← base Now;
  mret (match jwt_parse (s_jobJWTSecret s) raw now with
        | Err e => Err e
        | Ok claims =>
            if decide (TrimSpace (jc_Namespace claims) = "" \/ TrimSpace (jc_Name claims) = "")
            then Err (Errorf "invalid token claims" [])
            else Ok {| ji_Namespace := TrimSpace (jc_Namespace claims);
                       ji_Name := TrimSpace (jc_Name claims) |}
        end).

(** The admin shortcut at the head of the three [require] functions. *)
Definition admin_header (s : server) (r : HttpReq) : bool :=
  bool_decide (s_adminToken s <> ""
    /\ TrimSpace (hq_Header r "X-Broker-Admin-Token") = s_adminToken s).

Definition requireJobOrAdmin (s : server) (r : HttpReq) (requiredJobName : string)
    : bprog (result error unit) :=
  if admin_header s r then mret (Ok tt) else
  id ← parseJobToken s r;
  mret (match id with
        | Err e => Err e
        | Ok id =>
            if decide (TrimSpace (ji_Namespace id) <> "agents")
            then Err (Errorf "job token namespace not allowed" [])
            else if decide (TrimSpace requiredJobName <> ""
                            /\ ji_Name id <> TrimSpace requiredJobName)
            then Err (Errorf "job token does not match agent job" [])
            else Ok tt
        end).

Definition requireRepoWrite (s : server) (r : HttpReq) (repo : string)
    : bprog (result error unit) :=
  if admin_header s r then mret (Ok tt) else
  id ← parseJobToken s r;
  match id with
  | Err e => mret (Err e)
  | Ok id =>
      if decide (TrimSpace (ji_Namespace id) <> "agents")
      then mret (Err (Errorf "job token namespace not allowed" []))
      else
        aj ← base (Get KAgentJob (ji_Namespace id) (ji_Name id));
        mret (match aj with
              | Err _ => Err (Errorf "unknown agent job" [])
              | Ok aj =>
                  let expectedRepo := ToLower (TrimSpace (default ""
                    (m_Annotations (aj_Meta aj) !! "workspaces.platform.dev/github-repo"))) in
                  if decide (expectedRepo = "")
                  then Err (Errorf "agent job not authorized for repo writes" [])
                  else if decide (ToLower (TrimSpace repo) <> expectedRepo)
                  then Err (Errorf "repo mismatch for job token" [])
                  else Ok tt
              end)
  end.

(** * The token checks of main.go *)

Definition isAdmin (s : server) (r : HttpReq) : bool :=
  if decide (s_adminToken s = "") then false
  else
    let got := TrimSpace (hq_Header r "X-Broker-Admin-Token") in
    bool_decide (got <> "" /\ got = s_adminToken s).

Definition requireAdmin (s : server) (r : HttpReq) : result error unit :=
  if decide (s_adminToken s = "") then Err (Errorf "admin token not configured" [])
  else
    let got := TrimSpace (hq_Header r "X-Broker-Admin-Token") in
    if decide (got = "" \/ got <> s_adminToken s) then Err (Errorf "invalid token" [])
    else Ok tt.

Definition requireWebhook (s : server) (r : HttpReq) : result error unit :=
  if admin_header s r then Ok tt
  else if decide (s_webhookToken s = "") then Err (Errorf "webhook token not configured" [])
  else
    let got := TrimSpace (hq_Header r "X-Broker-Webhook-Token") in
    if decide (got = "" \/ got <> s_webhookToken s) then Err (Errorf "invalid token" [])
    else Ok tt.
End auth.

(** * Who may call *)

(** A reading of the clock. *)
Definition obs_now (o : bobs) : option Z :=
  match o with
  | Obs e x =>
      match e in beff T return T -> option Z with
      | BBase e =>
          match e in eff T return T -> option Z with Now => Some | _ => fun _ => None end
      | _ => fun _ => None
      end x
  end.

#[global] Instance jobTokenClaims_eq_dec : EqDecision jobTokenClaims.
Proof. solve_decision. Defined.

Section auth_facts.
Context (jwt_parse : string -> string -> Z -> result error jobTokenClaims).

(** A token of the request that the library accepts at [now] for this job. *)
Definition token_of_job (s : server) (r : HttpReq) (name : string) (now : Z) : Prop :=
  exists claims, jwt_parse (s_jobJWTSecret s) (raw_token r) now = Ok claims
    /\ TrimSpace (jc_Namespace claims) = "agents" /\ TrimSpace (jc_Name claims) = name
    /\ name <> "" /\ raw_token r <> "".

Lemma parseJobToken_exec s r t id :
  exec (parseJobToken jwt_parse s r) t (Ok id) ->
  exists now claims, t = [Obs (BBase Now) now] /\ raw_token r <> ""
    /\ jwt_parse (s_jobJWTSecret s) (raw_token r) now = Ok claims
    /\ id = {| ji_Namespace := TrimSpace (jc_Namespace claims);
               ji_Name := TrimSpace (jc_Name claims) |}
    /\ TrimSpace (jc_Name claims) <> "".
Proof using All.
  unfold parseJobToken, base. intros H. case_decide as Hr; [by destruct H|]. walk H.
  destruct (jwt_parse _ _ ans) as [claims|] eqn:Hp; [|done]. case_decide as He; [done|].
  simplify_eq. exists ans, claims. split_and!; try done. tauto.
Qed.

Lemma requireJobOrAdmin_exec s r job t u :
  exec (requireJobOrAdmin jwt_parse s r job) t (Ok u) ->
  admin_header s r = true \/
  exists now name, t = [Obs (BBase Now) now] /\ token_of_job s r name now
    /\ (TrimSpace job <> "" -> name = TrimSpace job).
Proof using All.
  unfold requireJobOrAdmin. destruct (admin_header s r); [by left|]. intros H. right.
  apply exec_bind in H as (t1 & t2 & id & -> & H1 & [-> H]). rewrite app_nil_r.
  destruct id as [id|]; [|done].
  apply parseJobToken_exec in H1 as (now & claims & -> & Hraw & Hp & -> & Hn). cbn in H.
  case_decide as Hns; [done|]. case_decide as Hj; [done|].
  exists now, (TrimSpace (jc_Name claims)). split; [done|].
  cbn [ji_Namespace ji_Name] in *. rewrite TrimSpace_idemp in Hns. split; [by exists claims|].
  intros Hjob. destruct (decide (TrimSpace (jc_Name claims) = TrimSpace job)); [done|]. tauto.
Qed.

(** The header [Authorization: Bearer <token>] of a token without white space. *)
Lemma raw_token_bearer r tok :
  hq_Header r "Authorization" = "Bearer " +:+ tok -> tok <> "" -> Forall solid (s2l tok) ->
  raw_token r = tok.
Proof.
  intros Hh Hne Hs. unfold raw_token. rewrite Hh.
  assert (Ht : TrimSpace ("Bearer " +:+ tok) = "Bearer " +:+ tok).
  { unfold TrimSpace. rewrite TrimSpaceL_id, l2s_s2l; [done| |].
    - rewrite s2l_app. apply leads_fwd_solid. split; [vm_compute; lia | done].
    - rewrite s2l_app. assert (Hn : s2l tok <> []) by (by intros ?%s2l_nil).
      destruct (s2l tok) as [|c l _] using rev_ind; [done|].
      apply list.Forall_app in Hs as [_ Hs]. inversion Hs; subst.
        rewrite app_assoc. by apply leads_bwd_solid. }
  rewrite Ht. replace (HasPrefix (ToLower ("Bearer " +:+ tok)) "bearer ") with true; cycle 1.
  { symmetry. apply HasPrefix_spec. exists (ToLower tok). apply s2l_inj. unfold ToLower.
    rewrite s2l_app, !s2l_l2s, s2l_app. change (s2l "Bearer ") with (s2l "Bearer" ++ [byte 32]).
    rewrite <- app_assoc. cbn [app]. rewrite ToLowerL_mid by (vm_compute; lia). by rewrite s2l_l2s. }
  replace (str_drop 7 ("Bearer " +:+ tok)) with tok; cycle 1.
  { unfold str_drop. apply s2l_inj. by rewrite s2l_l2s, s2l_app. }
  assert (Htt : TrimSpace tok = tok).
  { unfold TrimSpace. by rewrite TrimSpaceL_solid, l2s_s2l. }
  rewrite Htt, decide_False by done. done.
Qed.

End auth_facts.

Lemma mint_exec jwt_sign s ns name ttl t tok : exec (mintJobToken jwt_sign s ns name ttl) t (Ok tok) ->
  exists now id, Obs (BBase Now) now ∈ t /\
    jwt_sign (s_jobJWTSecret s) (job_claims ns name (if ttl <=? 0 then hour else ttl) now id) = Ok tok
    /\ TrimSpace ns <> "" /\ TrimSpace name <> "".
Proof.
  unfold mintJobToken, randomSlug, base. intros H. case_decide as Hd; [by destruct H|]. walk H.
  eexists _, _. split; [by left|]. split; [by symmetry|]. tauto.
Qed.

(** C12: job tokens are bound to their job.  A token minted for [ns]/[name], sent
    back as a bearer token while the JWT library still accepts it, is let through
    by [requireJobOrAdmin] exactly when it was minted in the namespace [agents]
    and the endpoint asks for no job or for this one.  The library is only
    assumed to accept the token at the time of the call and to return the
    namespace and the name that were signed into it. *)
Theorem job_token_binding jwt_sign jwt_parse s r ns name ttl job t1 tok t2 res :
  exec (mintJobToken jwt_sign s ns name ttl) t1 (Ok tok) ->
  (forall claims now, jwt_sign (s_jobJWTSecret s) claims = Ok tok ->
     Obs (BBase Now) now ∈ t2 -> exists got, jwt_parse (s_jobJWTSecret s) tok now = Ok got
       /\ jc_Namespace got = jc_Namespace claims /\ jc_Name got = jc_Name claims) ->
  tok <> "" -> Forall solid (s2l tok) ->
  hq_Header r "Authorization" = "Bearer " +:+ tok -> admin_header s r = false ->
  exec (requireJobOrAdmin jwt_parse s r job) t2 res ->
  res = Ok tt <->
  TrimSpace ns = "agents" /\ (TrimSpace job = "" \/ TrimSpace job = TrimSpace name).
Proof.
  intros Hm Hlaw Hne Hs Hh Ha H.
  apply mint_exec in Hm as (t0 & id & _ & Hsign & Hns & Hname).
  unfold requireJobOrAdmin, parseJobToken, base in H. rewrite Ha in H.
  rewrite (raw_token_bearer _ _ Hh Hne Hs), decide_False in H by done.
  walk H. destruct (Hlaw _ ans Hsign) as (got & Hp & Hgn & Hgj); [by left|].
  rewrite Hp, ?Hgn, ?Hgj in *. cbn [jc_Namespace jc_Name job_claims] in *.
  rewrite !TrimSpace_idemp in *. rewrite decide_False by tauto. cbn.
  rewrite TrimSpace_idemp. case_decide as Hag; [split; [done|]; tauto|].
  case_decide as Hj; [split; [done|]; intros [_ [?|?]]; destruct Hj; congruence|].
  split; [|done]. intros _. split; [done|].
  destruct (decide (TrimSpace job = "")); [by left|right].
  destruct (decide (TrimSpace job = TrimSpace name)); [done|]. exfalso. apply Hj.
  split; [done|]. congruence.
Qed.

(** A library with one token, minted half a second after a full one and accepted
    until thirty seconds after it has expired. *)
Definition demo_claims : jobTokenClaims :=
  job_claims "agents" "build-1" (2 * hour) 500000000 "00010101-000000-000000000000".
Definition demo_sign (key : string) (c : jobTokenClaims) : result error string :=
  if decide (c = demo_claims) then Ok "tok" else Err (Errorf "" []).
Definition demo_parse (key tok : string) (now : Z) : result error jobTokenClaims :=
  if decide (tok = "tok" /\ now < jc_ExpiresAt demo_claims + 30 * second)
  then Ok demo_claims else Err (Errorf "" []).
Definition demo_auth_server : server := {|
  s_audit := false; s_jobJWTSecret := "secret"; s_adminToken := ""; s_webhookToken := "";
  s_gh := None; s_netPolicy := demo_policy; s_artifacts := false; s_kube := false;
  s_redact := None; s_env := fun _ => "" |}.
Definition demo_bearer : HttpReq := {|
  hq_Header := fun h => if decide (h = "Authorization") then "Bearer tok" else "";
  hq_RemoteAddr := ""; hq_RequestID := ""; hq_URLParam := fun _ => "" |}.

Lemma job_token_binding_witness :
  Err (Errorf "job token does not match agent job" []) = Ok tt <->
  TrimSpace "agents" = "agents" /\ (TrimSpace "build-2" = "" \/ TrimSpace "build-2" = TrimSpace "build-1").
Proof.
  apply (job_token_binding demo_sign demo_parse demo_auth_server demo_bearer "agents" "build-1"
    (2 * hour) "build-2" [Obs (BBase Now) 500000000; Obs (BBase Now) 500000000;
      Obs (BBase (RandBytes 6)) (replicate 6 Ascii.zero)] "tok" [Obs (BBase Now) 0]).
  - cbn [exec]. unfold mintJobToken. rewrite decide_False by (vm_compute; intuition discriminate).
    cbn. repeat (eexists _, _; split; [reflexivity|]). split; [reflexivity | vm_compute; reflexivity].
  - intros claims now Hs Hin. revert Hs. unfold demo_sign. case_decide as Hc; [|done]. subst claims. intros _.
    apply list_elem_of_singleton in Hin. apply (f_equal obs_now) in Hin as [= ->].
    exists demo_claims. done.
  - discriminate.
  - repeat (apply list.Forall_cons; split); [vm_compute; lia..|]. apply list.Forall_nil. exact I.
  - reflexivity.
  - reflexivity.
  - unfold requireJobOrAdmin. cbn. eexists _, _; split; [reflexivity|].
    split; [reflexivity | vm_compute; reflexivity].
Defined.
