(* ===== verification/Artifacts.v ===== *)
(** The artifact store of the broker (src/internal/artifacts/s3.go).

    [url.Parse] and the loading of the AWS configuration are parameters; the
    calls of the S3 client are [PutArtifact], [PutResult] and [PresignGet]. *)
From S2P Require Export BrokerEnv.
From stdpp Require Import options.
Open Scope Z_scope.

Record S3Config := {
  sc_Endpoint : string; sc_Region : string; sc_AccessKeyID : string; sc_SecretAccessKey : string;
  sc_Bucket : string; sc_Prefix : string; sc_ForcePathStyle : bool;
  sc_PublishLinks : bool; sc_PresignTTL : Z;
}.

(** The store; [NewS3] sets both clients. *)
Record S3Store := {
  st_bucket : string; st_prefix : string; st_publishLinks : bool; st_presignTTL : Z;
}.

Section config.
Context (url_Parse : string -> result error unit) (LoadDefaultConfig : S3Config -> result error unit).

Definition NewS3 (cfg : S3Config) : result error S3Store :=
  _ ← guard_err (bool_decide (TrimSpace (sc_Endpoint cfg) = "" \/ TrimSpace (sc_Bucket cfg) = ""))
        (Errorf "endpoint and bucket are required" []);
  let region := if decide (TrimSpace (sc_Region cfg) = "") then "us-east-1" else sc_Region cfg in
  _ ← guard_err (bool_decide (TrimSpace (sc_AccessKeyID cfg) = "" \/ TrimSpace (sc_SecretAccessKey cfg) = ""))
        (Errorf "access key and secret are required" []);
  let prefix := if decide (TrimSpace (sc_Prefix cfg) = "") then "workspaces" else sc_Prefix cfg in
  let cfg := {| sc_Endpoint := sc_Endpoint cfg; sc_Region := region; sc_AccessKeyID := sc_AccessKeyID cfg;
    sc_SecretAccessKey := sc_SecretAccessKey cfg; sc_Bucket := sc_Bucket cfg; sc_Prefix := prefix;
    sc_ForcePathStyle := sc_ForcePathStyle cfg; sc_PublishLinks := sc_PublishLinks cfg;
    sc_PresignTTL := sc_PresignTTL cfg |} in
  _ ← (match url_Parse (sc_Endpoint cfg) with
       | Ok _ => Ok tt
       | Err e => Err (Errorf "invalid endpoint: %w" [err_value e])
       end);
  _ ← LoadDefaultConfig cfg;
  Ok {| st_bucket := sc_Bucket cfg; st_prefix := Trim (sc_Prefix cfg) (byte 47);
        st_publishLinks := sc_PublishLinks cfg; st_presignTTL := sc_PresignTTL cfg |}.

(** The lifetime of links, in nanoseconds: a bad setting keeps the default. *)
Definition presign_ttl (raw : string) : Z :=
  if decide (raw = "") then 24 * hour
  else match Atoi raw with Some n => if 0 <? n then seconds n else 24 * hour | None => 24 * hour end.

Definition NewS3FromEnvWithPrefix (env : string -> string) (prefix : string) : result error S3Store :=
  let prefix := TrimSpace prefix in
  _ ← guard_err (bool_decide (prefix = "")) (Errorf "empty env prefix" []);
  let endpoint := TrimSpace (env (prefix +:+ "S3_ENDPOINT")) in
  let bucket := TrimSpace (env (prefix +:+ "S3_BUCKET")) in
  _ ← guard_err (bool_decide (endpoint = "" \/ bucket = ""))
        (Errorf "%sS3_ENDPOINT and %sS3_BUCKET are required" [VStr prefix; VStr prefix]);
  let region := TrimSpace (getenv env (prefix +:+ "S3_REGION") "us-east-1") in
  let ak := TrimSpace (env (prefix +:+ "S3_ACCESS_KEY_ID")) in
  let sk := TrimSpace (env (prefix +:+ "S3_SECRET_ACCESS_KEY")) in
  _ ← guard_err (bool_decide (ak = "" \/ sk = ""))
        (Errorf "%sS3_ACCESS_KEY_ID and %sS3_SECRET_ACCESS_KEY are required" [VStr prefix; VStr prefix]);
  NewS3 {| sc_Endpoint := endpoint; sc_Region := region; sc_AccessKeyID := ak; sc_SecretAccessKey := sk;
    sc_Bucket := bucket;
    sc_Prefix := Trim (TrimSpace (getenv env (prefix +:+ "S3_PREFIX") "workspaces")) (byte 47);
    sc_ForcePathStyle := EqualFold (TrimSpace (getenv env (prefix +:+ "S3_FORCE_PATH_STYLE") "true")) "true";
    sc_PublishLinks := EqualFold (TrimSpace (getenv env (prefix +:+ "PUBLISH_LINKS") "false")) "true";
    sc_PresignTTL := presign_ttl (TrimSpace (getenv env (prefix +:+ "PRESIGN_TTL_SECONDS") "86400")) |}.
Definition NewS3FromEnv (env : string -> string) : result error S3Store :=
  NewS3FromEnvWithPrefix env "ARTIFACT_".
End config.

(** [None] is a nil store. *)
Definition Enabled (s : option S3Store) : bool :=
  match s with Some s => bool_decide (st_bucket s <> "") | None => false end.

Definition key_part (part : string) : string := Trim (TrimSpace part) (byte 47).
Definition Key (s : S3Store) (parts : list string) : string :=
  Join (st_prefix s :: filter (fun t => t <> "") (key_part <$> parts)) "/".

(** The key the client is given. *)
Definition object_key (key : string) : string := l2s (drop_byte (byte 47) (s2l (TrimSpace key))).

(** [call] is the client's PutObject of the body, in any program that uploads. *)
Definition Put {E : Type -> Type} (s : option S3Store) (key contentType : string)
    (call : string -> string -> prog E (result error unit)) : prog E (result error unit) :=
  if negb (Enabled s) then mret (Err (Errorf "artifact store not configured" [])) else
  let key := object_key key in
  if decide (key = "") then mret (Err (Errorf "empty key" [])) else
  let ct := TrimSpace contentType in
  call key (if decide (ct = "") then "application/octet-stream" else ct).

(** The URL, if links are published; the caller ignores the error. *)
Definition PresignGetURL (s : option S3Store) (key : string) : bprog (option string) :=
  match s with
  | None => mret None
  | Some st =>
      if negb (Enabled s) then mret None else
      if negb (st_publishLinks st) then mret None else
      let key := object_key key in
      if decide (key = "") then mret None else
      url ← trigger (PresignGet key);
      mret (option_map TrimSpace url)
  end.

Example Key_ex :
  Key {| st_bucket := "b"; st_prefix := "workspaces"; st_publishLinks := false; st_presignTTL := 0 |}
    ["agentjobs"; "agents"; " build/ "; ""; "agent.log"] = "workspaces/agentjobs/agents/build/agent.log".
Proof. vm_compute. done. Qed.

(** Keys of different objects differ: no part holds a slash or is dropped. *)
Definition plain_part (p : string) : Prop := key_part p = p /\ p <> "" /\ byte 47 ∉ s2l p.

Lemma s2l_Join ps : s2l (Join ps "/") = joinL (byte 47) (s2l <$> ps).
Proof.
  induction ps as [|p ps IH]; [done|]. destruct ps as [|q ps]; [done|].
  change (Join (p :: q :: ps) "/") with (p +:+ "/" +:+ Join (q :: ps) "/").
  rewrite !s2l_app, IH. done.
Qed.

Lemma joinL_inj sep xs ys : xs <> [] -> ys <> [] ->
  Forall (fun x => sep ∉ x) xs -> Forall (fun x => sep ∉ x) ys -> joinL sep xs = joinL sep ys -> xs = ys.
Proof. intros Hx Hy Fx Fy H. by rewrite <- (splitL_joinL sep xs), <- (splitL_joinL sep ys), H. Qed.

Lemma joinL_cons sep x xs : xs <> [] -> joinL sep (x :: xs) = x ++ sep :: joinL sep xs.
Proof. by destruct xs. Qed.

Lemma Key_inj s ps qs : ps <> [] -> qs <> [] -> Forall plain_part ps -> Forall plain_part qs ->
  Key s ps = Key s qs -> ps = qs.
Proof.
  assert (Hplain : forall l, Forall plain_part l -> filter (fun t => t <> "") (key_part <$> l) = l).
  { intros l. induction 1 as [|p l (Hk & Hne & _) Hl IH]; [done|].
    by rewrite fmap_cons, Hk, filter_cons_True, IH. }
  assert (Hno : forall l, Forall plain_part l -> Forall (fun x => byte 47 ∉ x) (s2l <$> l)).
  { intros l Hl. apply list.Forall_fmap. by eapply list.Forall_impl; [exact Hl | intros p (_ & _ & ?)]. }
  intros Hps Hqs Hp Hq H. unfold Key in H. rewrite !Hplain in H by done. apply (f_equal s2l) in H.
  rewrite !s2l_Join in H. cbn [fmap list_fmap] in H.
  rewrite !joinL_cons in H by (by intros ?%fmap_nil_inv). apply app_inv_head in H. injection H as H.
  apply joinL_inj in H; [by apply (list_fmap_eq_inj s2l s2l_inj) in H | by intros ?%fmap_nil_inv.. | by apply Hno | by apply Hno].
Qed.
