(* ===== verification/GitHub.v ===== *)
(** The broker's GitHub client (src/cmd/capability-broker/github.go).

    Parameters: the JSON decoders of the responses, [time.Parse] with RFC 3339,
    SHA-256, and the RS256 signature of the app's JWT. *)
From S2P Require Export BrokerEnv.
From stdpp Require Import options.
Open Scope Z_scope.

(** * Configuration *)

Definition envInt64 (env : string -> string) (name : string) : result error (option Z) :=
  let raw := TrimSpace (env name) in
  if decide (raw = "") then Ok None
  else match ParseInt raw 64 with
       | Some n => Ok (Some n)
       | None => Err (Errorf "%s must be an integer" [VStr name])
       end.

Definition loadKeyMaterialFromEnv (env : string -> string)
    (ReadFile : string -> result error string) : result error string :=
  if decide (env "GITHUB_APP_PRIVATE_KEY_PEM" <> "") then Ok (env "GITHUB_APP_PRIVATE_KEY_PEM")
  else
    let path := env "GITHUB_APP_PRIVATE_KEY_FILE" in
    if decide (path <> "") then
      match ReadFile path with
      | Ok b => Ok b
      | Err e => Err (Errorf "read GITHUB_APP_PRIVATE_KEY_FILE: %w" [err_value e])
      end
    else Err (Errorf "missing GitHub key material: set GITHUB_APP_PRIVATE_KEY_PEM or GITHUB_APP_PRIVATE_KEY_FILE" []).

(** An integer setting: absent keeps the default, a bad value is an error. *)
Definition env_limit (env : string -> string) (name def : string) (dflt : Z) (bad : Z -> bool)
    (e : error) : result error Z :=
  let raw := TrimSpace (getenv env name def) in
  if decide (raw = "") then Ok dflt
  else match Atoi raw with
       | Some n => if bad n then Err e else Ok n
       | None => Err e
       end.

Definition env_true (env : string -> string) (name def : string) : bool :=
  EqualFold (TrimSpace (getenv env name def)) "true".

(** [parse_key] is [parseRSAPrivateKey] (PEM and X.509 decoding). *)
Definition newGitHubServiceFromEnv (env : string -> string)
    (ReadFile : string -> result error string) (parse_key : string -> result error unit)
    : result error githubService :=
  appID ← envInt64 env "GITHUB_APP_ID";
  match appID with
  | None => Err (Errorf "GITHUB_APP_ID not set" [])
  | Some appID =>
  installationID ← envInt64 env "GITHUB_APP_INSTALLATION_ID";
  match installationID with
  | None => Err (Errorf "GITHUB_APP_INSTALLATION_ID not set" [])
  | Some installationID =>
  keyBytes ← loadKeyMaterialFromEnv env ReadFile;
  _ ← (match parse_key keyBytes with
       | Ok _ => Ok tt
       | Err e => Err (Errorf "parse GitHub app private key: %w" [err_value e])
       end);
  let repoAllowlist := parseCSVSet (env "GITHUB_REPO_ALLOWLIST") in
  _ ← guard_err (bool_decide (repoAllowlist = ∅))
        (Errorf "GITHUB_REPO_ALLOWLIST is empty (secure default: deny all)" []);
  let defaultBase := getenv env "GITHUB_DEFAULT_BASE_BRANCH" "main" in
  let allowedBases := parseCSVSet (getenv env "GITHUB_BASE_BRANCH_ALLOWLIST" defaultBase) in
  _ ← guard_err (bool_decide (allowedBases = ∅)) (Errorf "GITHUB_BASE_BRANCH_ALLOWLIST is empty" []);
  maxFilesChanged ← env_limit env "GITHUB_MAX_FILES_CHANGED" "100" 100 (fun n => n <=? 0)
    (Errorf "GITHUB_MAX_FILES_CHANGED must be a positive integer" []);
  maxPatchBytes ← env_limit env "GITHUB_MAX_PATCH_BYTES" "2097152" 2097152 (fun n => n <? 0)
    (Errorf "GITHUB_MAX_PATCH_BYTES must be a non-negative integer" []);
  let checkRunName := TrimSpace (getenv env "GITHUB_CHECK_RUN_NAME" "workspaces-agent") in
  Ok {| gh_apiBase := TrimRight (getenv env "GITHUB_API_URL" "https://api.github.com") (byte 47);
        gh_gitBase := TrimRight (getenv env "GITHUB_GIT_URL" "https://github.com") (byte 47);
        gh_appID := appID; gh_installationID := installationID;
        gh_repoAllowlist := repoAllowlist; gh_defaultBase := defaultBase;
        gh_allowedBases := allowedBases;
        gh_branchPrefix := getenv env "GITHUB_BRANCH_PREFIX" "agent/";
        gh_authorName := getenv env "GITHUB_GIT_AUTHOR_NAME" "workspaces-broker";
        gh_authorEmail := getenv env "GITHUB_GIT_AUTHOR_EMAIL" "workspaces-broker@localhost";
        gh_maxFilesChanged := maxFilesChanged; gh_maxPatchBytes := maxPatchBytes;
        gh_allowBinaryPatches := env_true env "GITHUB_ALLOW_BINARY_PATCHES" "false";
        gh_sensitivePathPrefixDenylist := parseCSVList (getenv env
          "GITHUB_SENSITIVE_PATH_PREFIX_DENYLIST" ".github/workflows/,infra/,terraform/,deploy/");
        gh_sensitivePathAllowlistRepos := parseCSVSet (env "GITHUB_SENSITIVE_PATH_ALLOWLIST_REPOS");
        gh_enableCheckRuns := env_true env "GITHUB_ENABLE_CHECK_RUNS" "false";
        gh_checkRunName := if decide (checkRunName = "") then "workspaces-agent" else checkRunName |}
  end end.

(** * Names, refs, paths *)

Definition repoIsAllowed (g : githubService) (repo : string) : bool :=
  let repo := ToLower (TrimSpace repo) in
  if decide (repo = "") then false else bool_decide (repo ∈ gh_repoAllowlist g).

Definition splitRepo (repo : string) : result error (string * string) :=
  match Split repo (byte 47) with
  | [owner; name] =>
      if decide (owner = "" \/ name = "")
      then Err (Errorf "expected owner/repo, got %q" [VStr repo])
      else Ok (owner, name)
  | _ => Err (Errorf "expected owner/repo, got %q" [VStr repo])
  end.

Definition invalidGitRef (ref : string) : bool :=
  if decide (TrimSpace ref <> ref) then true
  else if ContainsAny ref (l2s [byte 32; byte 9; byte 13; byte 10]) then true
  else if HasPrefix ref "/" || HasSuffix ref "/" then true
  else if Contains ref ".." then true
  else if Contains ref "@{" then true
  else if ContainsAny ref "~^:?*[]\" then true
  else false.

Definition splitNonEmptyLines (s : string) : list string :=
  omap (fun line => let t := TrimSpace line in if decide (t = "") then None else Some t)
    (Split s (byte 10)).

Definition truncateStrings (inp : list string) (n : nat) : list string * bool :=
  if decide (n = 0%nat \/ (length inp <= n)%nat) then (inp, false) else (take n inp, true).

Definition pathMatchesPrefix (path prefix : string) : bool :=
  let p := TrimSpace prefix in
  if decide (p = "") then false
  else if HasSuffix p "/" then
    let dir := TrimSuffix p "/" in
    bool_decide (path = dir) || HasPrefix path p
  else bool_decide (path = p) || HasPrefix path (p +:+ "/").

Definition matchesAnyPrefix (path : string) (prefixes : list string) : bool :=
  existsb (pathMatchesPrefix path) prefixes.

(** [httpError], or any other error. *)
Inductive pr_error :=
| HttpError (status : Z) (code : string)
| Plain (e : error).

Definition enforceSensitivePathDenylist (g : githubService) (repo : string)
    (changed : list string) : result pr_error unit :=
  if decide (gh_sensitivePathPrefixDenylist g = []) then Ok tt
  else if decide (repo ∈ gh_sensitivePathAllowlistRepos g) then Ok tt
  else if existsb (fun f => matchesAnyPrefix f (gh_sensitivePathPrefixDenylist g)) changed
  then Err (HttpError 400 "patch_touches_sensitive_paths")
  else Ok tt.

(** * The comments *)

Definition NL : string := l2s [byte 10].
Definition BT : string := l2s [byte 96].

Definition formatAgentJobCreatedComment (jobNS jobName policyProfile checkRunURL : string)
    : string :=
  "Agent job started." +:+ NL +:+ NL +:+
  "- AgentJob: " +:+ BT +:+ TrimSpace jobNS +:+ "/" +:+ TrimSpace jobName +:+ BT +:+ NL +:+
  (if decide (TrimSpace policyProfile <> "")
   then "- PolicyProfile: " +:+ BT +:+ TrimSpace policyProfile +:+ BT +:+ NL else "") +:+
  (if decide (TrimSpace checkRunURL <> "")
   then "- Check: " +:+ TrimSpace checkRunURL +:+ NL else "") +:+
  NL +:+ "Track:" +:+ NL +:+
  BT +:+ "kubectl -n " +:+ TrimSpace jobNS +:+ " get agentjobs " +:+ TrimSpace jobName
  +:+ " -o yaml" +:+ BT +:+ NL.

Definition comment_rule (r : NetworkGrantEgressRule) : string :=
  let host := TrimSpace (er_Host r) in
  if decide (host = "") then "" else
  "- " +:+ BT +:+ host +:+ BT +:+ " ports: " +:+ BT
  +:+ Join (Itoa <$> rule_ports r) "," +:+ BT +:+ NL.

Definition formatNetworkGrantApprovalComment (ng : NetworkGrant) : string :=
  let ns := m_Namespace (ng_Meta ng) in
  let name := m_Name (ng_Meta ng) in
  let job := match ngs_AgentJobRef (ng_Spec ng) with
             | Some r => TrimSpace (ajr_Name r) | None => "" end in
  "Network access request for an agent job." +:+ NL +:+ NL +:+
  "Grant:" +:+ NL +:+
  "- Namespace: " +:+ BT +:+ ns +:+ BT +:+ NL +:+
  "- Name: " +:+ BT +:+ name +:+ BT +:+ NL +:+
  (if decide (job <> "") then
     "- AppliesTo: AgentJob " +:+ BT +:+ ns +:+ "/" +:+ job +:+ BT +:+ NL +:+
     "- Selector: " +:+ BT
     +:+ "workspaces.platform.dev/app=agent,workspaces.platform.dev/agentjob=" +:+ job
     +:+ BT +:+ NL
   else "") +:+
  (if decide (TrimSpace (ngs_Purpose (ng_Spec ng)) <> "")
   then "- Purpose: " +:+ TrimSpace (ngs_Purpose (ng_Spec ng)) +:+ NL else "") +:+
  NL +:+ "Destinations:" +:+ NL +:+
  fold_right (fun r acc => comment_rule r +:+ acc) "" (ngs_Egress (ng_Spec ng)) +:+
  NL +:+ "Approve with:" +:+ NL +:+
  BT +:+ "/netgrant approve " +:+ ns +:+ "/" +:+ name +:+ BT +:+ NL +:+
  NL +:+ "Optional TTL override:" +:+ NL +:+
  BT +:+ "/netgrant approve " +:+ ns +:+ "/" +:+ name +:+ " ttl=1800" +:+ BT +:+ NL.

(** * The REST API *)

Section api.
Context (decode_token : string -> result error (string * string)).   (* token, expires_at *)
Context (decode_pr : string -> result error (Z * string)).           (* number, html_url *)
Context (decode_comment : string -> result error string).            (* html_url *)
Context (decode_pull : string -> result error string).               (* head.sha *)
Context (decode_check_run : string -> result error (Z * string)).    (* id, html_url *)
Context (time_Parse : string -> result error Z).
Context (app_sign : string -> Z -> Z -> result error string).        (* issuer, iat, exp *)
Context (sha256 : string -> list ascii).

(** [http.NewRequest], the headers, [Do]; a malformed URL is an error of the call. *)
Definition api_do (meth url auth : string) (body : option value)
    : bprog (result error HttpResponse) :=
  base (HttpDo {|
    hr_Method := meth; hr_URL := url;
    hr_Headers := [("Accept", "application/vnd.github+json"); ("Authorization", "Bearer " +:+ auth);
      ("X-GitHub-Api-Version", "2022-11-28")]
      ++ match body with Some _ => [("Content-Type", "application/json")] | None => [] end;
    hr_Body := body |}).

(** [io.ReadAll(io.LimitReader(body, n))] *)
Definition read_limited (n : Z) (body : string) : string :=
  if Z.of_nat (String.length body) <=? n then body else str_take (Z.to_nat n) body.

(** The response of a call: a transport error, a status outside 2xx, or the
    (capped) body. *)
Definition api_body (what : string) (limit : Z) (resp : result error HttpResponse)
    : result error string :=
  resp ← resp;
  let body := read_limited limit (hp_Body resp) in
  if (hp_Status resp <? 200) || (300 <=? hp_Status resp)
  then Err (Errorf (what +:+ ": status=%d body=%s") [VInt (hp_Status resp); VStr (TrimSpace body)])
  else Ok body.

Definition appJWT (g : githubService) : bprog (result error string) :=
  now ← base Now;
  mret (app_sign (Itoa (gh_appID g)) (now - 30 * second) (now + 9 * minute)).

(** The token endpoint's answer. *)
Definition token_of (what : string) (resp : result error HttpResponse)
    : result error (string * Z) :=
  body ← api_body what (2 ^ 20) resp;
  '(tok, expires_at) ← decode_token body;
  _ ← guard_err (bool_decide (tok = "" \/ expires_at = ""))
        (Errorf "github token endpoint returned empty token/expiry" []);
  exp ← time_Parse expires_at;
  Ok (tok, exp).

Definition token_url (g : githubService) : string :=
  gh_apiBase g +:+ "/app/installations/" +:+ Itoa (gh_installationID g) +:+ "/access_tokens".

Definition getInstallationToken (g : githubService) : bprog (result error string) :=
  '(cachedToken, cachedExpiry) ← trigger LoadToken;
  hit ← (if decide (cachedToken = "") then mret false
         else now ← base Now; mret (Before now (cachedExpiry - 2 * minute)));
  if hit : bool then mret (Ok cachedToken) else
  jwtToken ← appJWT g;
  match jwtToken with
  | Err e => mret (Err e)
  | Ok jwtToken =>
      resp ← api_do "POST" (token_url g) jwtToken None;
      match token_of "github token endpoint" resp with
      | Err e => mret (Err e)
      | Ok (tok, exp) => _ ← trigger (StoreToken tok exp); mret (Ok tok)
      end
  end.

(** The check of a repo name that the API methods share. *)
Definition allowed_repo (g : githubService) (repo what : string) : result error string :=
  let repo := ToLower (TrimSpace repo) in
  if decide (repo = "" \/ Contains repo "/" = false)
  then Err (Errorf "invalid repo %q" [VStr repo])
  else if decide (repo ∉ gh_repoAllowlist g) then Err (Errorf what [])
  else Ok repo.

Definition mintRepoReadToken (g : githubService) (repo : string)
    : bprog (result error (string * Z)) :=
  match (repo ← allowed_repo g repo "repo not allowlisted for mintRepoReadToken"; splitRepo repo) with
  | Err e => mret (Err e)
  | Ok (_, name) =>
      jwtToken ← appJWT g;
      match jwtToken with
      | Err e => mret (Err e)
      | Ok jwtToken =>
          resp ← api_do "POST" (token_url g) jwtToken
                   (Some (VObj [("repositories", VList [VStr name]);
                                ("permissions", VObj [("contents", VStr "read")])]));
          mret (token_of "github token endpoint (scoped)" resp)
      end
  end.

Definition createPR (g : githubService) (token owner repo title body head base_ : string)
    (draft : bool) : bprog (result error (Z * string)) :=
  resp ← api_do "POST" (gh_apiBase g +:+ "/repos/" +:+ owner +:+ "/" +:+ repo +:+ "/pulls") token
    (Some (VObj ([("title", VStr title); ("head", VStr head); ("base", VStr base_);
                  ("draft", VBool draft)]
                 ++ if decide (TrimSpace body <> "") then [("body", VStr body)] else [])));
  mret (respBody ← api_body "github create pr" (2 * 2 ^ 20) resp;
        '(n, url) ← decode_pr respBody;
        _ ← guard_err (bool_decide (n = 0 \/ url = ""))
              (Errorf "github create pr returned empty number/url" []);
        Ok (n, url)).

Definition createIssueComment (g : githubService) (token owner repo : string)
    (issueNumber : Z) (body : string) : bprog (result error string) :=
  resp ← api_do "POST" (gh_apiBase g +:+ "/repos/" +:+ owner +:+ "/" +:+ repo +:+ "/issues/"
                        +:+ Itoa issueNumber +:+ "/comments") token
           (Some (VObj [("body", VStr body)]));
  mret (respBody ← api_body "github create comment" (2 * 2 ^ 20) resp;
        url ← decode_comment respBody;
        _ ← guard_err (bool_decide (url = "")) (Errorf "github create comment returned empty url" []);
        Ok url).

Definition getPullHeadSHA (g : githubService) (token owner repo : string) (prNumber : Z)
    : bprog (result error string) :=
  resp ← api_do "GET" (gh_apiBase g +:+ "/repos/" +:+ owner +:+ "/" +:+ repo +:+ "/pulls/"
                       +:+ Itoa prNumber) token None;
  mret (respBody ← api_body "github get pull" (2 * 2 ^ 20) resp;
        sha ← decode_pull respBody;
        _ ← guard_err (bool_decide (TrimSpace sha = ""))
              (Errorf "github get pull returned empty head sha" []);
        Ok (TrimSpace sha)).

Definition createCheckRunInProgress (g : githubService) (token owner repo headSHA jobNS jobName : string)
    : bprog (result error (Z * string)) :=
  let who := TrimSpace jobNS +:+ "/" +:+ TrimSpace jobName in
  resp ← api_do "POST" (gh_apiBase g +:+ "/repos/" +:+ owner +:+ "/" +:+ repo +:+ "/check-runs") token
           (Some (VObj [("name", VStr (gh_checkRunName g)); ("head_sha", VStr headSHA);
              ("status", VStr "in_progress"); ("external_id", VStr who);
              ("output", VObj [("title", VStr "Agent job started");
                               ("summary", VStr ("AgentJob: " +:+ who))])]));
  mret (respBody ← api_body "github create check run" (2 * 2 ^ 20) resp;
        '(id, url) ← decode_check_run respBody;
        Ok (id, TrimSpace url)).

Definition completeCheckRun (g : githubService) (repo : string) (checkRunID : Z)
    (conclusion summary text : string) : bprog (result error string) :=
  match allowed_repo g repo "repo not allowlisted for check runs" with
  | Err e => mret (Err e)
  | Ok repo =>
      if checkRunID <=? 0 then mret (Err (Errorf "invalid checkRunID %d" [VInt checkRunID])) else
      token ← getInstallationToken g;
      match (token ← token; on ← splitRepo repo; Ok (token, on)) with
      | Err e => mret (Err e)
      | Ok (token, (owner, name)) =>
          now ← base Now;
          let output := [("title", VStr ("Agent job " +:+ conclusion));
                         ("summary", VStr (TrimSpace summary))]
            ++ if decide (TrimSpace text <> "") then [("text", VStr (TrimSpace text))] else [] in
          resp ← api_do "PATCH" (gh_apiBase g +:+ "/repos/" +:+ owner +:+ "/" +:+ name
                   +:+ "/check-runs/" +:+ Itoa checkRunID) token
                   (Some (VObj [("status", VStr "completed");
                      ("completed_at", VStr (format_rfc3339 now));
                      ("conclusion", VStr conclusion); ("output", VObj output)]));
          mret (respBody ← api_body "github update check run" (2 * 2 ^ 20) resp;
                '(_, url) ← decode_check_run respBody;
                Ok (TrimSpace url))
      end
  end.

(** Posting a comment on a pull request of an allowlisted repository. *)
Definition post_comment (s : server) (g : githubService) (repo : string) (prNumber : Z)
    (body : string) (event : string) (fields : string -> string -> list (string * value))
    : bprog (result error unit) :=
  match allowed_repo g repo "repo not allowlisted for github comments" with
  | Err e => mret (Err e)
  | Ok repo =>
      if prNumber <=? 0 then mret (Err (Errorf "invalid prNumber %d" [VInt prNumber])) else
      token ← getInstallationToken g;
      match (token ← token; on ← splitRepo repo; Ok (token, on)) with
      | Err e => mret (Err e)
      | Ok (token, (owner, name)) =>
          url ← createIssueComment g token owner name prNumber body;
          match url with
          | Err e => mret (Err e)
          | Ok url => _ ← audit_emit (s_audit s) event (fields repo url); mret (Ok tt)
          end
      end
  end.

Definition commentNetworkGrantRequest (s : server) (g : githubService) (repo : string)
    (prNumber : Z) (ng : NetworkGrant) : bprog (result error unit) :=
  post_comment s g repo prNumber (formatNetworkGrantApprovalComment ng)
    "github.comment_networkgrant_request"
    (fun repo url => [("repo", VStr repo); ("pr_number", VInt prNumber); ("comment_url", VStr url);
       ("grant_ns", VStr (m_Namespace (ng_Meta ng))); ("grant_name", VStr (m_Name (ng_Meta ng)))]).

Definition commentAgentJobCreated (s : server) (g : githubService) (repo : string)
    (prNumber : Z) (jobNS jobName policyProfile checkRunURL : string) : bprog (result error unit) :=
  post_comment s g repo prNumber
    (formatAgentJobCreatedComment jobNS jobName policyProfile checkRunURL)
    "github.comment_agentjob_created"
    (fun repo url => [("repo", VStr repo); ("pr_number", VInt prNumber); ("comment_url", VStr url);
       ("check_run_url", VStr checkRunURL); ("job_ns", VStr jobNS); ("job_name", VStr jobName)]).

(** * Opening a pull request from a patch *)

Record githubOpenPRRequest := {
  op_Repo : string; op_Base : string; op_Title : string; op_Body : string; op_Patch : string;
  op_CommitMessage : string; op_Branch : string; op_Draft : bool;
}.
Record githubOpenPRResponse := {
  or_Repo : string; or_Branch : string; or_Base : string; or_Number : Z; or_URL : string;
  or_PatchSHA256 : string;
}.

(** [runGit] and [runGitOutput]: the output is kept for the error message. *)
Definition runGit (dir : string) (env args : list string) : bprog (result error unit) :=
  r ← trigger (Git dir env args); mret (match r with Ok _ => Ok tt | Err e => Err e end).

Definition brokerGitEnv (tmpDir askpassPath token : string) : bprog (list string) :=
  let home := tmpDir +:+ "/home" in
  _ ← trigger (MkdirAll home);
  mret ["HOME=" +:+ home; "GIT_CONFIG_NOSYSTEM=1"; "GIT_CONFIG_GLOBAL=/dev/null";
        "GIT_TERMINAL_PROMPT=0"; "GIT_ASKPASS=" +:+ askpassPath;
        "WORKSPACES_GIT_PASSWORD=" +:+ token].

Definition askpass_script : string :=
  "#!/bin/sh" +:+ NL +:+ "case " +:+ l2s [byte 34] +:+ "$1" +:+ l2s [byte 34] +:+ " in" +:+ NL
  +:+ "*Username*) echo " +:+ l2s [byte 34] +:+ "x-access-token" +:+ l2s [byte 34] +:+ " ;;" +:+ NL
  +:+ "*) echo " +:+ l2s [byte 34] +:+ "$WORKSPACES_GIT_PASSWORD" +:+ l2s [byte 34] +:+ " ;;" +:+ NL
  +:+ "esac" +:+ NL.

Definition writeAskpass (path : string) : bprog (result error unit) :=
  trigger (WriteFile path askpass_script 448).

Definition changedFiles (repoDir : string) (env : list string)
    : bprog (result pr_error (list string)) :=
  out ← trigger (Git repoDir env ["diff"; "--cached"; "--name-only"]);
  mret (match out with
        | Err e => Err (Plain e)
        | Ok out =>
            let files := splitNonEmptyLines out in
            if existsb (fun f => HasPrefix f "/" || Contains f "..") files
            then Err (HttpError 400 "patch_invalid_path") else Ok files
        end).

Definition gitIndexHasBinaryDiff (repoDir : string) (env : list string)
    : bprog (result error bool) :=
  out ← trigger (Git repoDir env ["diff"; "--cached"; "--numstat"]);
  mret (out ← out;
        Ok (existsb (fun line =>
              match Split line (byte 9) with
              | a :: b :: _ :: _ => bool_decide (a = "-" /\ b = "-")
              | _ => false
              end) (splitNonEmptyLines out))).

Definition gitDiffCheck (repoDir : string) (env : list string) : bprog (result pr_error unit) :=
  out ← trigger (Git repoDir env ["diff"; "--cached"; "--check"]);
  mret (match out with
        | Err e => Err (Plain e)
        | Ok out => if decide (TrimSpace out = "") then Ok tt
                    else Err (HttpError 400 "patch_diff_check_failed")
        end).

(** Sequencing with an error return. *)
Definition tryP {A B X} (p : bprog (result X A)) (f : A -> bprog (result X B))
    : bprog (result X B) :=
  r ← p; match r with Ok a => f a | Err e => mret (Err e) end.
Definition plain {A} (p : bprog (result error A)) : bprog (result pr_error A) :=
  r ← p; mret (match r with Ok a => Ok a | Err e => Err (Plain e) end).
Definition as_code {A} (code : string) (p : bprog (result error A)) : bprog (result pr_error A) :=
  r ← p; mret (match r with Ok a => Ok a | Err _ => Err (HttpError 400 code) end).

(** The request checks of [openPRFromPatch]: repo, base, title, patch and the
    requested branch ([None] to generate one). *)
Definition check_pr_request (g : githubService) (req : githubOpenPRRequest)
    : result pr_error (string * string * string) :=
  let repo := ToLower (TrimSpace (op_Repo req)) in
  _ ← guard_err (bool_decide (repo = "" \/ Contains repo "/" = false)) (HttpError 400 "repo_required");
  _ ← guard_err (bool_decide (repo ∉ gh_repoAllowlist g)) (HttpError 403 "repo_not_allowed");
  let base_ := TrimSpace (op_Base req) in
  let base_ := if decide (base_ = "") then gh_defaultBase g else base_ in
  _ ← guard_err (bool_decide (ToLower base_ ∉ gh_allowedBases g)) (HttpError 400 "base_not_allowed");
  let title := TrimSpace (op_Title req) in
  _ ← guard_err (bool_decide (title = "")) (HttpError 400 "title_required");
  _ ← guard_err (bool_decide (TrimSpace (op_Patch req) = "")) (HttpError 400 "patch_required");
  _ ← guard_err ((0 <? gh_maxPatchBytes g)
                 && (gh_maxPatchBytes g <? Z.of_nat (String.length (op_Patch req))))
        (HttpError 400 "patch_too_large");
  Ok (repo, base_, title).

Definition check_branch (g : githubService) (branch : string) : result pr_error unit :=
  _ ← guard_err (negb (HasPrefix branch (gh_branchPrefix g))) (HttpError 400 "branch_prefix_required");
  guard_err (invalidGitRef branch) (HttpError 400 "invalid_branch").

(** The work in the clone: apply the patch, inspect the index, commit, push. *)
Definition apply_and_push (g : githubService) (tmpDir repoDir patchPath : string)
    (env : list string) (repo baseURL base_ branch commitMsg : string)
    : bprog (result pr_error (list string)) :=
  tryP (plain (runGit tmpDir env ["clone"; "--depth"; "1"; "--branch"; base_; baseURL; repoDir])) (fun _ =>
  tryP (plain (runGit repoDir env ["config"; "user.name"; gh_authorName g])) (fun _ =>
  tryP (plain (runGit repoDir env ["config"; "user.email"; gh_authorEmail g])) (fun _ =>
  _ ← runGit repoDir env ["config"; "commit.gpgsign"; "false"];
  tryP (plain (runGit repoDir env ["checkout"; "-b"; branch])) (fun _ =>
  tryP (as_code "patch_apply_failed" (runGit repoDir env
    (["apply"; "--index"; "--whitespace=nowarn"]
     ++ (if gh_allowBinaryPatches g then ["--binary"] else []) ++ [patchPath]))) (fun _ =>
  tryP (changedFiles repoDir env) (fun files =>
  if decide (files = []) then mret (Err (HttpError 400 "patch_noop"))
  else if (0 <? gh_maxFilesChanged g) && (gh_maxFilesChanged g <? Z.of_nat (length files))
  then mret (Err (HttpError 400 "patch_too_many_files"))
  else
  tryP (mret (enforceSensitivePathDenylist g repo files)) (fun _ =>
  tryP (if gh_allowBinaryPatches g then mret (Ok tt) else
        tryP (plain (gitIndexHasBinaryDiff repoDir env)) (fun hasBinary =>
          mret (guard_err hasBinary (HttpError 400 "patch_binary_not_allowed")))) (fun _ =>
  tryP (gitDiffCheck repoDir env) (fun _ =>
  tryP (as_code "commit_failed" (runGit repoDir env ["commit"; "-m"; commitMsg; "--no-gpg-sign"])) (fun _ =>
  tryP (plain (runGit repoDir env ["push"; "origin"; branch])) (fun _ =>
  mret (Ok files)))))))))))).

Definition openPRFromPatch (s : server) (g : githubService) (r : HttpReq)
    (req : githubOpenPRRequest) : bprog (result pr_error githubOpenPRResponse) :=
  match check_pr_request g req with
  | Err e => mret (Err e)
  | Ok (repo, base_, title) =>
      let branch := TrimSpace (op_Branch req) in
      branch ← (if decide (branch = "") then slug ← randomSlug; mret (gh_branchPrefix g +:+ slug)
                else mret branch);
      match check_branch g branch with
      | Err e => mret (Err e)
      | Ok _ =>
          let commitMsg := TrimSpace (op_CommitMessage req) in
          let commitMsg := if decide (commitMsg = "") then "agent: " +:+ title else commitMsg in
          let patchHashHex := hex_encode (sha256 (op_Patch req)) in
          tryP (plain (getInstallationToken g)) (fun token =>
          match splitRepo repo with
          | Err _ => mret (Err (HttpError 400 "invalid_repo"))
          | Ok (owner, name) =>
          tryP (plain (trigger (MkdirTemp (getenv (s_env s) "BROKER_TMP_DIR" "") "wsp-broker-gh-*")))
            (fun tmpDir =>
             (* the deferred RemoveAll runs on every return *)
             res ← tryP (plain (trigger (WriteFile (tmpDir +:+ "/patch.diff") (op_Patch req) 384))) (fun _ =>
               tryP (plain (writeAskpass (tmpDir +:+ "/askpass.sh"))) (fun _ =>
               env ← brokerGitEnv tmpDir (tmpDir +:+ "/askpass.sh") token;
               tryP (apply_and_push g tmpDir (tmpDir +:+ "/repo") (tmpDir +:+ "/patch.diff") env repo
                       (gh_gitBase g +:+ "/" +:+ owner +:+ "/" +:+ name +:+ ".git")
                       base_ branch commitMsg) (fun files =>
               tryP (plain (createPR g token owner name title (op_Body req) branch base_ (op_Draft req)))
                 (fun '(prNum, prURL) =>
                  let '(touched, truncated) := truncateStrings files 50 in
                  _ ← audit_emit (s_audit s) "github.open_pr"
                    [("request_id", VStr (hq_RequestID r)); ("remote_addr", VStr (hq_RemoteAddr r));
                     ("repo", VStr repo); ("base", VStr base_); ("branch", VStr branch);
                     ("pr_number", VInt prNum); ("pr_url", VStr prURL);
                     ("patch_sha256", VStr patchHashHex); ("commit_message", VStr commitMsg);
                     ("touched_files_count", VInt (Z.of_nat (length files)));
                     ("touched_files_truncated", VBool truncated);
                     ("touched_files", VList (VStr <$> touched))];
                  mret (Ok {| or_Repo := repo; or_Branch := branch; or_Base := base_;
                              or_Number := prNum; or_URL := prURL;
                              or_PatchSHA256 := patchHashHex |})))));
             _ ← trigger (RemoveAll tmpDir);
             mret res)
          end)
      end
  end.

Context (jwt_parse : string -> string -> Z -> result error jobTokenClaims).

(** [body]: the decoded request, [None] for a bad (or too large) body. *)
Definition handleGitHubOpenPR (s : server) (r : HttpReq) (body : option githubOpenPRRequest)
    : bprog (reply + githubOpenPRResponse) :=
  match s_gh s with
  | None => mret (inl (fail 501 "github_disabled"))
  | Some g =>
      match body with
      | None => mret (inl (fail 400 "bad_json"))
      | Some req =>
          if decide (TrimSpace (op_Repo req) = "") then mret (inl (fail 400 "repo_required")) else
          auth ← requireRepoWrite jwt_parse s r (op_Repo req);
          match auth with
          | Err _ => mret (inl (fail 401 "unauthorized"))
          | Ok _ =>
              resp ← openPRFromPatch s g r req;
              mret (match resp with
                    | Ok resp => inr resp
                    | Err (HttpError st code) => inl (fail st code)
                    | Err (Plain _) => inl (fail 500 "internal_error")
                    end)
          end
      end
  end.
End api.

(** * What is pushed *)

(** A git command with its arguments and outcome. *)
Definition obs_git (o : bobs) : option (list string * result error string) :=
  match o with
  | Obs e x =>
      match e in beff T return T -> option (list string * result error string) with
      | Git _ _ args => fun x => Some (args, x)
      | _ => fun _ => None
      end x
  end.

(** The branch of a push. *)
Definition push_of (c : list string * result error string) : option string :=
  match c.1 with [a; b; br] => if decide (a = "push" /\ b = "origin") then Some br else None | _ => None end.
Definition pushed (tr : list bobs) : list string := omap push_of (omap obs_git tr).

Lemma pushed_app t1 t2 : pushed (t1 ++ t2) = pushed t1 ++ pushed t2.
Proof. unfold pushed. by rewrite !omap_app. Qed.

Lemma exec_tryP {A B X} (p : bprog (result X A)) (f : A -> bprog (result X B)) tr r :
  exec (tryP p f) tr r <->
  (exists t1 t2 a, tr = t1 ++ t2 /\ exec p t1 (Ok a) /\ exec (f a) t2 r)
  \/ (exists e, exec p tr (Err e) /\ r = Err e).
Proof.
  unfold tryP. rewrite exec_bind. split.
  - intros (t1 & t2 & [a|e] & -> & H1 & H2); [left; eauto 6|].
    destruct H2 as [-> ->]. rewrite app_nil_r. right. eauto.
  - intros [(t1 & t2 & a & -> & ? & ?)|(e & ? & ->)]; [by exists t1, t2, (Ok a)|].
    exists tr, [], (Err e). rewrite app_nil_r. done.
Qed.

(** What the index of the clone must look like before anything is pushed. *)
Record index_ok (g : githubService) (repo : string) (tr : list bobs) (files : list string)
    : Prop := {
  ix_listed : exists out, (["diff"; "--cached"; "--name-only"], Ok out) ∈ omap obs_git tr
    /\ files = splitNonEmptyLines out;
  ix_some : files <> [];
  ix_paths : forall f, f ∈ files -> HasPrefix f "/" = false /\ Contains f ".." = false;
  ix_count : 0 < gh_maxFilesChanged g -> Z.of_nat (length files) <= gh_maxFilesChanged g;
  ix_sensitive : repo ∈ gh_sensitivePathAllowlistRepos g \/
    forall f p, f ∈ files -> p ∈ gh_sensitivePathPrefixDenylist g -> pathMatchesPrefix f p = false;
  ix_text : gh_allowBinaryPatches g = true \/
    exists out, (["diff"; "--cached"; "--numstat"], Ok out) ∈ omap obs_git tr
      /\ forall line a b rest, line ∈ splitNonEmptyLines out ->
           Split line (byte 9) = a :: b :: rest -> rest <> [] -> ~ (a = "-" /\ b = "-");
  ix_clean : exists out, (["diff"; "--cached"; "--check"], Ok out) ∈ omap obs_git tr
    /\ TrimSpace out = "";
}.

Lemma index_ok_mono g repo t t' files : (forall c, c ∈ omap obs_git t -> c ∈ omap obs_git t') ->
  index_ok g repo t files -> index_ok g repo t' files.
Proof.
  intros Hs [(out & ? & ?) H2 H3 H4 H5 H6 (chk & ? & ?)].
  constructor; try done; [by exists out; auto| |by exists chk; auto].
  destruct H6 as [?|(out' & ? & ?)]; [by left | right; exists out'; auto].
Qed.

Lemma sensitive_ok g repo files u : enforceSensitivePathDenylist g repo files = Ok u ->
  repo ∈ gh_sensitivePathAllowlistRepos g \/
  forall f p, f ∈ files -> p ∈ gh_sensitivePathPrefixDenylist g -> pathMatchesPrefix f p = false.
Proof.
  unfold enforceSensitivePathDenylist. case_decide as He.
  { intros _. right. intros f p _ Hp. rewrite He in Hp. by apply not_elem_of_nil in Hp. }
  case_decide; [by left|]. destruct (existsb _ files) eqn:E; [done|]. intros _. right.
  intros f p Hf Hp. apply not_true_iff_false. intros Hm. apply not_true_iff_false in E. apply E.
  apply existsb_elem_of. exists f. split; [done|]. apply existsb_elem_of. by exists p.
Qed.

Lemma binary_ok out : existsb (fun line =>
    match Split line (byte 9) with
    | a :: b :: _ :: _ => bool_decide (a = "-" /\ b = "-") | _ => false end)
    (splitNonEmptyLines out) = false ->
  forall line a b rest, line ∈ splitNonEmptyLines out ->
    Split line (byte 9) = a :: b :: rest -> rest <> [] -> ~ (a = "-" /\ b = "-").
Proof.
  intros E line a b rest Hl Hs Hr Hab. apply not_true_iff_false in E. apply E.
  apply existsb_elem_of. exists line. split; [done|]. rewrite Hs.
  destruct rest; [done|]. by apply bool_decide_eq_true.
Qed.

Lemma plain_git_none dir env args t r : push_of (args, Ok "") = None ->
  exec (plain (runGit dir env args)) t r -> pushed t = [].
Proof.
  intros Hn H. unfold plain, runGit in H. walk H; unfold pushed; cbn;
    unfold push_of in *; cbn in *; destruct args as [|a [|b [|c [|]]]]; cbn in *; try done;
    by case_decide.
Qed.

Lemma as_code_git_none code dir env args t r : push_of (args, Ok "") = None ->
  exec (as_code code (runGit dir env args)) t r -> pushed t = [].
Proof.
  intros Hn H. unfold as_code, runGit in H. walk H; unfold pushed; cbn;
    unfold push_of in *; cbn in *; destruct args as [|a [|b [|c [|]]]]; cbn in *; try done;
    by case_decide.
Qed.

Lemma changedFiles_spec repoDir env t r : exec (changedFiles repoDir env) t r ->
  pushed t = [] /\ forall files, r = Ok files ->
    (exists out, (["diff"; "--cached"; "--name-only"], Ok out) ∈ omap obs_git t
       /\ files = splitNonEmptyLines out)
    /\ forall f, f ∈ files -> HasPrefix f "/" = false /\ Contains f ".." = false.
Proof.
  unfold changedFiles. intros H. walk H. split; [done|]. intros files Hr.
  destruct ans as [out|]; [|done]. destruct (existsb _ _) eqn:E; [done|]. injection Hr as <-.
  split; [exists out; cbn; split; [by left | done]|]. intros f Hf.
  apply orb_false_iff, not_true_iff_false. intros Hb. apply not_true_iff_false in E. apply E.
  apply existsb_elem_of. by exists f.
Qed.

Lemma binary_check_spec g repoDir env t r :
  exec (if gh_allowBinaryPatches g then mret (Ok tt) else
        tryP (plain (gitIndexHasBinaryDiff repoDir env)) (fun hasBinary =>
          mret (guard_err hasBinary (HttpError 400 "patch_binary_not_allowed")))) t r ->
  pushed t = [] /\ (r = Ok tt -> gh_allowBinaryPatches g = true \/
    exists out, (["diff"; "--cached"; "--numstat"], Ok out) ∈ omap obs_git t
      /\ forall line a b rest, line ∈ splitNonEmptyLines out ->
           Split line (byte 9) = a :: b :: rest -> rest <> [] -> ~ (a = "-" /\ b = "-")).
Proof.
  destruct (gh_allowBinaryPatches g); [intros [-> _]; split; [done | by left]|].
  intros [(t1 & t2 & hb & -> & H1 & [-> ->])|(e & H1 & ->)]%exec_tryP;
    unfold plain, gitIndexHasBinaryDiff in H1; walk H1; (split; [done|]); [|done].
  intros Hr. right. destruct ans as [out|]; [|done]. cbn in *. simplify_eq.
  exists out. split; [by left|]. apply binary_ok.
  unfold guard_err in Hr. by destruct (existsb _ _).
Qed.

Lemma gitDiffCheck_spec repoDir env t r : exec (gitDiffCheck repoDir env) t r ->
  pushed t = [] /\ (is_ok r = true ->
    exists out, (["diff"; "--cached"; "--check"], Ok out) ∈ omap obs_git t /\ TrimSpace out = "").
Proof.
  unfold gitDiffCheck. intros H. walk H. split; [done|]. destruct ans as [out|]; [|done].
  case_decide; [|done]. intros _. exists out. split; [by left | done].
Qed.

(** One step of a sequence that has pushed nothing yet. *)
Ltac next H Hin tac :=
  let t := fresh "t" in let t' := fresh "t" in let a := fresh "a" in
  let H1 := fresh "Hs" in let e := fresh "e" in
  apply exec_tryP in H as [(t & t' & a & -> & H1 & H)|(e & H1 & ->)];
    [ rewrite pushed_app in Hin; let Hn := fresh "Hn" in
      assert (Hn : pushed t = []) by (tac H1); rewrite Hn in Hin; clear Hn; cbn [app] in Hin
    | exfalso; assert (Hn : pushed _ = []) by (tac H1); rewrite Hn in Hin;
      by apply not_elem_of_nil in Hin ].
Ltac git_step H1 :=
  first [eapply plain_git_none in H1 | eapply as_code_git_none in H1]; [exact H1 | first [vm_compute; reflexivity | by destruct (gh_allowBinaryPatches _)]].

Lemma apply_and_push_spec g tmpDir repoDir patchPath env repo baseURL base_ branch msg tr r :
  exec (apply_and_push g tmpDir repoDir patchPath env repo baseURL base_ branch msg) tr r ->
  forall br, br ∈ pushed tr -> br = branch /\ exists files, index_ok g repo tr files.
Proof.
  unfold apply_and_push. intros H br Hin.
  next H Hin git_step. next H Hin git_step. next H Hin git_step.
  apply exec_bind in H as (t5 & t6 & a5 & -> & H5 & H).
  rewrite pushed_app in Hin. replace (pushed t5) with (@nil string) in Hin
    by (unfold runGit in H5; by walk H5). cbn [app] in Hin.
  next H Hin git_step. next H Hin git_step.
  apply exec_tryP in H as [(t7 & t8 & files & -> & H7 & H)|(e & H7 & ->)];
    apply changedFiles_spec in H7 as [Hn Hf]; [|rewrite Hn in Hin; by apply not_elem_of_nil in Hin].
  rewrite pushed_app, Hn in Hin. cbn [app] in Hin.
  destruct (Hf files eq_refl) as [Hlist Hpaths]. clear Hf Hn.
  case_decide as Hne; [destruct H as [-> _]; by apply not_elem_of_nil in Hin|].
  destruct (_ && _) eqn:Hcount; [destruct H as [-> _]; by apply not_elem_of_nil in Hin|].
  apply exec_tryP in H as [(t9 & t10 & u & -> & [-> Hsens] & H)|(e & [-> _] & ->)];
    [|by apply not_elem_of_nil in Hin].
  rewrite (app_nil_l t10) in *.
  apply exec_tryP in H as [(t11 & t12 & [] & -> & H11 & H)|(e & H11 & ->)];
    apply binary_check_spec in H11 as [Hn Hbin]; [|rewrite Hn in Hin; by apply not_elem_of_nil in Hin].
  rewrite pushed_app, Hn in Hin. cbn [app] in Hin. specialize (Hbin eq_refl). clear Hn.
  apply exec_tryP in H as [(t13 & t14 & u' & -> & H13 & H)|(e & H13 & ->)];
    apply gitDiffCheck_spec in H13 as [Hn Hclean]; [|rewrite Hn in Hin; by apply not_elem_of_nil in Hin].
  rewrite pushed_app, Hn in Hin. cbn [app] in Hin. specialize (Hclean eq_refl). clear Hn.
  next H Hin git_step.
  split.
  - apply exec_tryP in H as [(t15 & t16 & v & -> & H15 & [-> _])|(e & H15 & ->)];
      unfold plain, runGit in H15; walk H15; rewrite ?pushed_app in Hin; unfold pushed in Hin; cbn in Hin;
      set_solver.
  - exists files. eapply (index_ok_mono g repo (t7 ++ t11 ++ t13)).
    + intros c. rewrite !omap_app. set_solver.
    + constructor; [|done|done| | | |].
      * destruct Hlist as (out & ? & ?). exists out. rewrite omap_app. set_solver.
      * intros Hpos. apply andb_false_iff in Hcount as [Hc|Hc]; lia.
      * symmetry in Hsens. by eapply sensitive_ok.
      * destruct Hbin as [?|(out & ? & ?)]; [by left|right]. exists out. rewrite !omap_app. set_solver.
      * destruct Hclean as (out & ? & ?). exists out. rewrite !omap_app. set_solver.
Qed.

Definition obs_mktemp (o : bobs) : option (result error string) :=
  match o with
  | Obs e x =>
      match e in beff T return T -> option (result error string) with
      | MkdirTemp _ _ => Some
      | _ => fun _ => None
      end x
  end.
Definition mktemp_ok (tr : list bobs) (d : string) : Prop := Ok d ∈ omap obs_mktemp tr.

(** Nothing of interest to the theorems happens in these programs. *)
Definition calm (tr : list bobs) : Prop := pushed tr = [] /\ omap obs_mktemp tr = [].

Lemma calm_app t1 t2 : calm t1 -> calm t2 -> calm (t1 ++ t2).
Proof. unfold calm. rewrite pushed_app, omap_app. by intros [-> ->] [-> ->]. Qed.


Section pr.
Context (decode_token : string -> result error (string * string)).
Context (decode_pr : string -> result error (Z * string)).
Context (time_Parse : string -> result error Z).
Context (app_sign : string -> Z -> Z -> result error string).
Context (sha256 : string -> list ascii).
Notation token_prog := (getInstallationToken decode_token time_Parse app_sign).
Notation open_pr := (openPRFromPatch decode_token decode_pr time_Parse app_sign sha256).

Lemma branch_calm (g : githubService) branch t b :
  exec (if decide (branch = "") then slug ← randomSlug; mret (gh_branchPrefix g +:+ slug)
        else mret branch) t b -> calm t.
Proof. unfold randomSlug, base. intros H. by walk H. Qed.

Lemma token_calm g t r : exec (token_prog g) t r -> calm t.
Proof. unfold getInstallationToken, appJWT, api_do, base. intros H. by walk H. Qed.

Lemma createPR_calm g token owner repo title body head base_ draft t r :
  exec (createPR decode_pr g token owner repo title body head base_ draft) t r -> calm t.
Proof. unfold createPR, api_do, base. intros H. by walk H. Qed.

Lemma writeFile_calm {A} p c m t (r : A) f :
  exec (r ← trigger (WriteFile p c m); mret (f r)) t r -> calm t.
Proof. intros H. by walk H. Qed.

Lemma git_no_mktemp dir env args t r :
  exec (runGit dir env args) t r -> omap obs_mktemp t = [].
Proof. unfold runGit. intros H. by walk H. Qed.

(** [no_mktemp p]: the program creates no temporary directory. *)
Definition no_mktemp {A} (p : bprog A) : Prop := forall t r, exec p t r -> omap obs_mktemp t = [].

Lemma no_mktemp_tryP {A B X} (p : bprog (result X A)) (f : A -> bprog (result X B)) :
  no_mktemp p -> (forall a, no_mktemp (f a)) -> no_mktemp (tryP p f).
Proof.
  intros Hp Hf t r [(t1 & t2 & a & -> & H1 & H2)|(e & H1 & ->)]%exec_tryP; [|by eapply Hp].
  rewrite omap_app, (Hp _ _ H1), (Hf _ _ _ H2). done.
Qed.
Lemma no_mktemp_bind {A B} (p : bprog A) (f : A -> bprog B) :
  no_mktemp p -> (forall a, no_mktemp (f a)) -> no_mktemp (p ≫= f).
Proof.
  intros Hp Hf t r (t1 & t2 & a & -> & H1 & H2)%exec_bind.
  rewrite omap_app, (Hp _ _ H1), (Hf _ _ _ H2). done.
Qed.
Lemma no_mktemp_ret {A} (a : A) : no_mktemp (mret a).
Proof. by intros t r [-> _]. Qed.
Lemma no_mktemp_git dir env args : no_mktemp (runGit dir env args).
Proof. intros t r. apply git_no_mktemp. Qed.
Lemma no_mktemp_plain {A} (p : bprog (result error A)) : no_mktemp p -> no_mktemp (plain p).
Proof. intros Hp. apply no_mktemp_bind; [done|]. intros. apply no_mktemp_ret. Qed.
Lemma no_mktemp_code {A} c (p : bprog (result error A)) : no_mktemp p -> no_mktemp (as_code c p).
Proof. intros Hp. apply no_mktemp_bind; [done|]. intros. apply no_mktemp_ret. Qed.
Lemma no_mktemp_trigger dir env args : no_mktemp (trigger (Git dir env args)).
Proof. intros t r H. by walk H. Qed.

Lemma apply_and_push_no_mktemp g tmpDir repoDir patchPath env repo baseURL base_ branch msg :
  no_mktemp (apply_and_push g tmpDir repoDir patchPath env repo baseURL base_ branch msg).
Proof.
  unfold apply_and_push, changedFiles, gitIndexHasBinaryDiff, gitDiffCheck.
  repeat first [apply no_mktemp_tryP; [|intros ?] | apply no_mktemp_plain | apply no_mktemp_code
    | apply no_mktemp_git | apply no_mktemp_trigger | apply no_mktemp_ret
    | apply no_mktemp_bind; [|intros ?] | case_match].
Qed.

(** The work in the temporary directory. *)
Lemma in_tmpdir_spec s g r req token owner name tmpDir repo base_ branch title msg hash tr res :
  exec (tryP (plain (trigger (WriteFile (tmpDir +:+ "/patch.diff") (op_Patch req) 384))) (fun _ =>
     tryP (plain (writeAskpass (tmpDir +:+ "/askpass.sh"))) (fun _ =>
     env ← brokerGitEnv tmpDir (tmpDir +:+ "/askpass.sh") token;
     tryP (apply_and_push g tmpDir (tmpDir +:+ "/repo") (tmpDir +:+ "/patch.diff") env repo
             (gh_gitBase g +:+ "/" +:+ owner +:+ "/" +:+ name +:+ ".git")
             base_ branch msg) (fun files =>
     tryP (plain (createPR decode_pr g token owner name title (op_Body req) branch base_ (op_Draft req)))
       (fun '(prNum, prURL) =>
        let '(touched, truncated) := truncateStrings files 50 in
        _ ← audit_emit (s_audit s) "github.open_pr"
          [("request_id", VStr (hq_RequestID r)); ("remote_addr", VStr (hq_RemoteAddr r));
           ("repo", VStr repo); ("base", VStr base_); ("branch", VStr branch);
           ("pr_number", VInt prNum); ("pr_url", VStr prURL);
           ("patch_sha256", VStr hash); ("commit_message", VStr msg);
           ("touched_files_count", VInt (Z.of_nat (length files)));
           ("touched_files_truncated", VBool truncated);
           ("touched_files", VList (VStr <$> touched))];
        mret (Ok {| or_Repo := repo; or_Branch := branch; or_Base := base_;
                    or_Number := prNum; or_URL := prURL; or_PatchSHA256 := hash |})))))) tr res ->
  omap obs_mktemp tr = [] /\
  forall br, br ∈ pushed tr -> br = branch /\ exists files, index_ok g repo tr files.
Proof using All.
  intros H.
  assert (Hw : forall t x, exec (plain (trigger (WriteFile (tmpDir +:+ "/patch.diff") (op_Patch req) 384))) t x -> calm t)
    by (intros t x Hx; unfold plain in Hx; by walk Hx).
  assert (Ha : forall t x, exec (plain (writeAskpass (tmpDir +:+ "/askpass.sh"))) t x -> calm t)
    by (intros t x Hx; unfold plain, writeAskpass in Hx; by walk Hx).
  assert (He : forall t x, exec (brokerGitEnv tmpDir (tmpDir +:+ "/askpass.sh") token) t x -> calm t)
    by (intros t x Hx; unfold brokerGitEnv in Hx; by walk Hx).
  assert (Hcalm : forall t, calm t -> omap obs_mktemp t = [] /\
    forall br, br ∈ pushed t -> br = branch /\ exists files, index_ok g repo t files).
  { intros t [Hp Hm]. split; [done|]. rewrite Hp. by intros br ?%not_elem_of_nil. }
  apply exec_tryP in H as [(t1 & t2 & [] & -> & H1%Hw & H)|(e & H1%Hw & ->)]; [|by apply Hcalm].
  apply exec_tryP in H as [(t3 & t4 & [] & -> & H3%Ha & H)|(e & H3%Ha & ->)];
    [|by apply Hcalm, calm_app].
  apply exec_bind in H as (t5 & t6 & env & -> & H5%He & H).
  assert (H0 : calm (t1 ++ t3 ++ t5)) by (repeat apply calm_app; done).
  assert (Hpost : forall t t', calm t' -> omap obs_mktemp t = [] ->
    (forall br, br ∈ pushed t -> br = branch /\ exists files, index_ok g repo t files) ->
    omap obs_mktemp ((t1 ++ t3 ++ t5) ++ t ++ t') = [] /\
    forall br, br ∈ pushed ((t1 ++ t3 ++ t5) ++ t ++ t') -> br = branch /\
      exists files, index_ok g repo ((t1 ++ t3 ++ t5) ++ t ++ t') files).
  { intros t t' [Hp' Hm'] Hm Hi. destruct H0 as [Hp0 Hm0].
    rewrite !(omap_app _ (t1 ++ t3 ++ t5)), !(omap_app _ t), Hm0, Hm', Hm. split; [done|].
    intros br. rewrite !pushed_app in *. rewrite Hp0, Hp', app_nil_r. cbn [app].
    intros Hbr. destruct (Hi br Hbr) as [? (files & Hf)]. split; [done|]. exists files.
    eapply index_ok_mono; [|exact Hf]. intros c Hc. rewrite !omap_app, !elem_of_app. tauto. }
  assert (Hcreate : forall t x, exec (plain (createPR decode_pr g token owner name title
      (op_Body req) branch base_ (op_Draft req))) t x -> calm t).
  { unfold plain. intros t x (t7 & t8 & y & -> & Hy%createPR_calm & [-> _])%exec_bind.
    by rewrite app_nil_r. }
  rewrite (app_assoc t1), (app_assoc (t1 ++ t3)), <- (app_assoc t1).
  apply exec_tryP in H as [(t7 & t8 & files & -> & H7 & H)|(e & H7 & ->)].
  - pose proof (apply_and_push_no_mktemp _ _ _ _ _ _ _ _ _ _ _ _ H7) as Hm.
    apply Hpost; [|done|by eapply apply_and_push_spec].
    apply exec_tryP in H as [(t9 & t10 & [n u] & -> & H9%Hcreate & H)|(e & H9%Hcreate & ->)]; [|done].
    apply calm_app; [done|]. destruct (truncateStrings files 50). unfold audit_emit, base in H. by walk H.
  - rewrite <- (app_nil_r t6). apply Hpost; [done| |by eapply apply_and_push_spec].
    by apply apply_and_push_no_mktemp in H7.
Qed.

(** C11: a patch only becomes a push when it passed every gate.  Whenever
    [openPRFromPatch] pushes a branch: the repository is allowlisted and the base
    branch allowed, the title and the patch are present and the patch within its
    size limit, the branch has the configured prefix and is a safe ref, and the
    index of the clone, as git listed it, has at least one changed file, not too
    many, none absolute or with [..], none under a sensitive prefix (unless the
    repository is exempt) and no binary change (unless allowed).  The temporary
    directory with the clone and the token helper is removed last in every
    execution that created it. *)
Theorem openPR_gates s g r req tr res :
  exec (open_pr s g r req) tr res ->
  (forall branch, branch ∈ pushed tr -> exists repo base_ title files,
     check_pr_request g req = Ok (repo, base_, title) /\ check_branch g branch = Ok tt
     /\ index_ok g repo tr files)
  /\ forall d, mktemp_ok tr d -> list.last tr = Some (Obs (RemoveAll d) tt).
Proof.
  intros H. unfold openPRFromPatch in H.
  assert (Hcalm : forall t, calm t -> (forall branch, branch ∈ pushed t -> exists repo base_ title files,
     check_pr_request g req = Ok (repo, base_, title) /\ check_branch g branch = Ok tt
     /\ index_ok g repo t files) /\ forall d, mktemp_ok t d -> list.last t = Some (Obs (RemoveAll d) tt)).
  { intros t [Hp Hm]. unfold mktemp_ok. rewrite Hp, Hm. split; intros ? ?%not_elem_of_nil; done. }
  destruct (check_pr_request g req) as [[[repo base_] title]|e] eqn:Hreq;
    [|destruct H as [-> _]; by apply Hcalm].
  apply exec_bind in H as (t1 & t2 & branch & -> & H1%branch_calm & H).
  destruct (check_branch g branch) as [[]|e] eqn:Hbr;
    [|destruct H as [-> _]; apply Hcalm; by rewrite app_nil_r].
  assert (Htok : forall t x, exec (plain (token_prog g)) t x -> calm t).
  { unfold plain. intros t x (t7 & t8 & y & -> & Hy%token_calm & [-> _])%exec_bind. by rewrite app_nil_r. }
  apply exec_tryP in H as [(t3 & t4 & token & -> & H3%Htok & H)|(e & H3%Htok & ->)];
    [|by apply Hcalm, calm_app].
  destruct (splitRepo repo) as [[owner name]|e];
    [|destruct H as [-> _]; apply Hcalm; rewrite app_nil_r; by apply calm_app].
  destruct H1 as [Hp1 Hm1], H3 as [Hp3 Hm3].
  apply exec_tryP in H as [(t5 & t6 & d & -> & H5 & H)|(e & H5 & ->)]; unfold plain in H5; walk H5;
    destruct ans as [d'|]; simplify_eq.
  - apply exec_bind in H as (t7 & t8 & res' & -> & H7%in_tmpdir_spec & H).
    walk H. destruct H7 as [Hm7 Hp7]. destruct ans. split.
    + intros br. rewrite !pushed_app, Hp1, Hp3. cbn [app].
      replace (pushed [Obs (MkdirTemp _ _) (Ok d')]) with (@nil string) by done.
      replace (pushed [Obs (RemoveAll d') tt]) with (@nil string) by done.
      rewrite app_nil_r. cbn [app]. intros Hin. destruct (Hp7 br Hin) as [-> (files & Hf)].
      exists repo, base_, title, files. do 2 (split; [done|]).
      eapply index_ok_mono; [|exact Hf]. intros c Hc. rewrite !omap_app. cbn. rewrite !omap_app, !elem_of_app. tauto.
    + intros d0. unfold mktemp_ok. rewrite !omap_app, Hm1, Hm3, Hm7. cbn.
      rewrite elem_of_cons. intros [[= ->]|?%not_elem_of_nil]; [|done].
      rewrite app_comm_cons, !app_assoc. by rewrite list.last_snoc.
  - split.
    + rewrite !pushed_app, Hp1, Hp3. cbn. by intros br ?%not_elem_of_nil.
    + intros d. unfold mktemp_ok. rewrite !omap_app, Hm1, Hm3. cbn. set_solver.
Qed.
End pr.

(** * A run *)

Definition demo_gh : githubService := {|
  gh_apiBase := "https://api.github.com"; gh_gitBase := "https://github.com"; gh_appID := 1;
  gh_installationID := 2; gh_repoAllowlist := {["acme/app"]}; gh_defaultBase := "main";
  gh_allowedBases := {["main"]}; gh_branchPrefix := "agent/"; gh_authorName := "bot";
  gh_authorEmail := "bot@localhost"; gh_maxFilesChanged := 100; gh_maxPatchBytes := 1000;
  gh_allowBinaryPatches := false; gh_sensitivePathPrefixDenylist := [".github/workflows/"];
  gh_sensitivePathAllowlistRepos := ∅; gh_enableCheckRuns := false; gh_checkRunName := "x" |}.
Definition demo_server : server := {|
  s_audit := true; s_jobJWTSecret := "secret"; s_adminToken := "adm"; s_webhookToken := "hook";
  s_gh := Some demo_gh; s_netPolicy := demo_policy; s_artifacts := false; s_kube := false;
  s_redact := None; s_env := fun _ => "" |}.
Definition demo_http (headers : string -> string) : HttpReq := {|
  hq_Header := headers; hq_RemoteAddr := "10.0.0.9:1"; hq_RequestID := "r1";
  hq_URLParam := fun _ => "" |}.

Definition broker_world (now : Z) (get : forall k, string -> string -> result kerr (obj k))
    (lst : forall k, list (obj k)) (http : HttpRequest -> result error HttpResponse)
    (git : list string -> string) (X : Type) (e : beff X) : unit -> X * unit :=
  match e in beff T return unit -> T * unit with
  | BBase e => echo_world now get lst http _ e
  | LoadMaps => fun u => (demo_heap, u)
  | StoreMaps _ | StoreToken _ _ | RemoveAll _ | MkdirAll _ => fun u => (tt, u)
  | LoadToken => fun u => (("tok", now + hour), u)
  | MkdirTemp _ _ => fun u => (Ok "/tmp/x", u)
  | WriteFile _ _ _ => fun u => (Ok tt, u)
  | Git _ _ args => fun u => (Ok (git args), u)
  | GetJob _ _ => fun u => (Err (Errorf "" []), u)
  | ListPods _ _ => fun u => (Ok [], u)
  | PodLogs _ _ _ _ => fun u => (Ok "", u)
  | PutArtifact _ _ _ | PutResult _ _ => fun u => (Ok tt, u)
  | PresignGet _ => fun u => (None, u)
  end.

Definition demo_pr : githubOpenPRRequest := {|
  op_Repo := "Acme/App"; op_Base := ""; op_Title := "Fix"; op_Body := ""; op_Patch := "diff";
  op_CommitMessage := ""; op_Branch := "agent/fix"; op_Draft := false |}.
Definition demo_pr_prog : bprog (result pr_error githubOpenPRResponse) :=
  openPRFromPatch (fun _ => Ok ("", "")) (fun _ => Ok (7, "u")) (fun _ => Ok 0) (fun _ _ _ => Ok "")
    (fun _ => []) demo_server demo_gh (demo_http (fun _ => "")) demo_pr.
Definition demo_pr_run : result pr_error githubOpenPRResponse * list bobs * unit :=
  run (broker_world 0 (fun _ _ _ => Err NotFound) (fun _ => [])
    (fun _ => Ok {| hp_Status := 201; hp_Body := "" |})
    (fun args => if decide (args = ["diff"; "--cached"; "--name-only"])
                 then "src/a.go" +:+ NL else "")) demo_pr_prog tt.

Lemma openPR_gates_witness :
  pushed demo_pr_run.1.2 = ["agent/fix"] /\
  forall branch, branch ∈ pushed demo_pr_run.1.2 -> exists repo base_ title files,
     check_pr_request demo_gh demo_pr = Ok (repo, base_, title) /\ check_branch demo_gh branch = Ok tt
     /\ index_ok demo_gh repo demo_pr_run.1.2 files.
Proof.
  split; [vm_compute; reflexivity|].
  exact (proj1 (openPR_gates (fun _ => Ok ("", "")) (fun _ => Ok (7, "u")) (fun _ => Ok 0)
    (fun _ _ _ => Ok "") (fun _ => []) demo_server demo_gh (demo_http (fun _ => "")) demo_pr
    demo_pr_run.1.2 demo_pr_run.1.1 (run_is_exec _ demo_pr_prog tt))).
Defined.

(** * Sensitive paths *)

Lemma slash_split p : HasSuffix p "/" = true -> TrimSuffix p "/" +:+ "/" = p.
Proof.
  intros Hs. pose proof Hs as [t ->]%HasSuffix_spec. unfold TrimSuffix. rewrite Hs.
  apply s2l_inj. rewrite str_length_app, s2l_app, s2l_l2s, !s2l_app.
  rewrite Nat.add_sub, <- s2l_length, take_app_length. done.
Qed.

Lemma str_app_assoc (a b c : string) : (a +:+ b) +:+ c = a +:+ (b +:+ c).
Proof. apply s2l_inj. by rewrite !s2l_app, app_assoc. Qed.

Lemma pathMatchesPrefix_spec path prefix :
  pathMatchesPrefix path prefix = true <->
  TrimSpace prefix <> "" /\
  (path = TrimSuffix (TrimSpace prefix) "/"
   \/ exists rest, path = TrimSuffix (TrimSpace prefix) "/" +:+ ("/" +:+ rest)).
Proof.
  unfold pathMatchesPrefix. set (p := TrimSpace prefix). case_decide as Hp; [naive_solver|].
  assert (Hd : exists dir, dir = TrimSuffix p "/" /\
    (if HasSuffix p "/" then bool_decide (path = TrimSuffix p "/") || HasPrefix path p
     else bool_decide (path = p) || HasPrefix path (p +:+ "/"))
    = bool_decide (path = dir) || HasPrefix path (dir +:+ "/")).
  { eexists. split; [done|]. destruct (HasSuffix p "/") eqn:Hs; [by rewrite slash_split|].
    unfold TrimSuffix. by rewrite Hs. }
  destruct Hd as (dir & <- & ->). rewrite orb_true_iff, bool_decide_eq_true, HasPrefix_spec.
  setoid_rewrite str_app_assoc. naive_solver.
Qed.

(** The denylist works on path components: a changed path is sensitive for
    a (trimmed, non-empty) prefix exactly when it is that file or directory, or
    lies below it; [infra/] does not match [infrastructure/x]. *)
Lemma pathMatchesPrefix_iff path prefix :
  pathMatchesPrefix path prefix = true <->
  TrimSpace prefix <> "" /\
  (path = TrimSuffix (TrimSpace prefix) "/"
   \/ exists rest, path = TrimSuffix (TrimSpace prefix) "/" +:+ ("/" +:+ rest)).
Proof. apply pathMatchesPrefix_spec. Qed.

Lemma head_app_ne {A} (l k : list A) : l <> [] -> head (l ++ k) = head l.
Proof. by destruct l. Qed.

(** Git lists a path with unusual bytes in quotes (core.quotePath), and a
    listed name that starts with a quote matches no prefix that does not: a file
    with a non-ASCII name below a sensitive directory passes the denylist. *)
Lemma quoted_path_not_sensitive g repo path :
  head (s2l path) = Some (byte 34) ->
  (forall p, p ∈ gh_sensitivePathPrefixDenylist g ->
     head (s2l (TrimSpace p)) <> Some (byte 34) /\ TrimSuffix (TrimSpace p) "/" <> "") ->
  enforceSensitivePathDenylist g repo [path] = Ok tt.
Proof.
  intros Hq Hp. unfold enforceSensitivePathDenylist. do 2 (case_decide; [done|]).
  cbn [existsb]. rewrite orb_false_r.
  destruct (matchesAnyPrefix path _) eqn:E; [|done]. exfalso.
  apply existsb_elem_of in E as (p & Hin & [_ Hm]%pathMatchesPrefix_spec).
  destruct (Hp p Hin) as [Hhd Hne]. apply Hhd.
  assert (Hhead : head (s2l (TrimSuffix (TrimSpace p) "/")) = Some (byte 34)).
  { rewrite <- Hq. destruct Hm as [->|[rest ->]]; [done|].
    rewrite s2l_app, head_app_ne; [done|]. intros He. by apply s2l_nil in He. }
  destruct (HasSuffix (TrimSpace p) "/") eqn:Hs.
  - rewrite <- (slash_split _ Hs), s2l_app, head_app_ne; [done|]. intros He. by apply s2l_nil in He.
  - unfold TrimSuffix in Hhead. by rewrite Hs in Hhead.
Qed.

(** The path [.github/workflows/ü.yml] as git prints it. *)
Definition quoted_workflow : string :=
  l2s [byte 34] +:+ ".github/workflows/\303\274.yml" +:+ l2s [byte 34].
Lemma quoted_path_not_sensitive_witness :
  enforceSensitivePathDenylist demo_gh "acme/app" [quoted_workflow] = Ok tt
  /\ enforceSensitivePathDenylist demo_gh "acme/app" [".github/workflows/u.yml"] <> Ok tt.
Proof.
  split; [|vm_compute; discriminate].
  apply (quoted_path_not_sensitive demo_gh "acme/app" quoted_workflow); [vm_compute; reflexivity|].
  intros p Hp. apply list_elem_of_singleton in Hp as ->. split; vm_compute; discriminate.
Defined.
