(* ===== verification/Broker.v ===== *)
(** The broker's handlers for network grants and agent jobs
    (src/cmd/capability-broker/main.go).

    A handler gets the decoded body ([None] when decoding failed).  Writing the
    response is the returned [reply]. *)
From S2P Require Export GitHub.
From stdpp Require Import options.
Open Scope Z_scope.

(** * Checks shared by the handlers *)

Definition shape_port (allowNon443 : bool) (i : nat) (p : Z) : result error unit :=
  if (p <=? 0) || (65535 <? p)
  then Err (Errorf "egress[%d] has invalid port %d" [VInt (Z.of_nat i); VInt p])
  else if negb allowNon443 && negb (p =? 443)
  then Err (Errorf "egress[%d] requests non-443 port %d but allowNon443 is false"
         [VInt (Z.of_nat i); VInt p])
  else Ok tt.

Definition validateNetworkGrantSpecShape (egress : list NetworkGrantEgressRule)
    (dnsAllow : list string) (allowNon443 : bool) : result error unit :=
  _ ← forE (fun i r _ =>
        let host := TrimSpace (er_Host r) in
        match ValidateExactHostname host with
        | Err e => Err (Errorf "egress[%d].host %q is invalid: %w"
                     [VInt (Z.of_nat i); VStr host; err_value e])
        | Ok _ => forE (fun _ p _ => shape_port allowNon443 i p) (rule_ports r) tt
        end) egress tt;
  forE (fun i host _ =>
    let h := TrimSpace host in
    if decide (h = "") then Err (Errorf "dnsAllow[%d] is empty" [VInt (Z.of_nat i)]) else
    match ValidateExactHostname h with
    | Err e => Err (Errorf "dnsAllow[%d] %q is invalid: %w"
                 [VInt (Z.of_nat i); VStr h; err_value e])
    | Ok _ => Ok tt
    end) dnsAllow tt.

(** Whether a grant counts against its job. *)
Definition grant_counts (jobName : string) (now : Z) (ng : NetworkGrant) : bool :=
  match ngs_AgentJobRef (ng_Spec ng) with
  | None => false
  | Some ref =>
      bool_decide (TrimSpace (ajr_Name ref) = jobName)
      && negb (ngs_Approved (ng_Spec ng)
               && negb (IsZero (ngt_ExpiresAt (ng_Status ng)))
               && After now (ngt_ExpiresAt (ng_Status ng)))
  end.

Definition countActiveOrPendingNetworkGrantsForJob (namespace jobName : string)
    : bprog (result error Z) :=
  let namespace := TrimSpace namespace in
  let jobName := TrimSpace jobName in
  if decide (namespace = "" \/ jobName = "")
  then mret (Err (Errorf "namespace and jobName are required" []))
  else
    l ← base (ListNS KNetworkGrant namespace ∅);
    match l with
    | Err e => mret (Err (kerr_error e))
    | Ok grants =>
        now ← base Now;
        mret (Ok (Z.of_nat (length (filter (fun ng => grant_counts jobName now ng = true) grants))))
    end.

Record github_ref := { gr_Repo : string; gr_PullNumber : Z; gr_Actor : string; gr_CommentURL : string }.

Record createNetworkGrantRequest := {
  cg_Namespace : string; cg_Name : string; cg_AgentJob : string; cg_PolicyMode : string;
  cg_Protocol : string; cg_Purpose : string; cg_Egress : list NetworkGrantEgressRule;
  cg_DNSAllow : list string; cg_AllowNon443 : bool; cg_TTLSeconds : Z; cg_Reason : string;
  cg_GitHub : option github_ref;
}.

Record approveNetworkGrantRequest := {
  ap_ApprovedBy : string; ap_Reason : string; ap_TTLSeconds : option Z;
}.

Record createAgentJobRequest := {
  cj_Namespace : string; cj_Name : string; cj_PolicyProfile : string;
  cj_TTLSecondsAfterFinished : Z; cj_GitHub : option github_ref;
}.

(** [s.netPolicy.validateNonAdminNetworkGrant] on the shared maps. *)
Definition validateNonAdmin (s : server) (profile : string) (spec : NetworkGrantSpec)
    : bprog (result error unit) :=
  m ← trigger LoadMaps;
  let '(r, m') := validateNonAdminNetworkGrant (s_netPolicy s) profile spec m in
  _ ← trigger (StoreMaps m');
  mret r.

Section handlers.
Context (jwt_sign : string -> jobTokenClaims -> result error string).
Context (jwt_parse : string -> string -> Z -> result error jobTokenClaims).
Context (decode_token : string -> result error (string * string)).
Context (decode_comment : string -> result error string).
Context (decode_pull : string -> result error string).
Context (decode_check_run : string -> result error (Z * string)).
Context (time_Parse : string -> result error Z).
Context (app_sign : string -> Z -> Z -> result error string).

(** * POST /v1/network-grants *)

(** The cap on grants per job: the reply when it is reached. *)
Definition check_cap (s : server) (r : HttpReq) (req : createNetworkGrantRequest)
    : bprog (result reply unit) :=
  if negb (isAdmin s r) && (0 <? pol_maxGrantsPerJob (s_netPolicy s)) then
    n ← countActiveOrPendingNetworkGrantsForJob (TrimSpace (cg_Namespace req))
          (TrimSpace (cg_AgentJob req));
    mret match n with
         | Err _ => Err (fail 500 "list_failed")
         | Ok n =>
             if pol_maxGrantsPerJob (s_netPolicy s) <=? n then
               Err {| rp_Status := 429; rp_Body := PError "networkgrant_limit_exceeded"
                        [("current", VInt n); ("max", VInt (pol_maxGrantsPerJob (s_netPolicy s)))] |}
             else Ok tt
         end
  else mret (Ok tt).

(** The default policy mode by destination type. *)
Definition default_mode (s : server) (r : HttpReq) (req : createNetworkGrantRequest)
    (policyProfile : string) : bprog string :=
  if decide (cg_PolicyMode req <> "") then mret (cg_PolicyMode req) else
  pol ← (if isAdmin s r then mret (s_netPolicy s) else
         m ← trigger LoadMaps;
         let '(p, m') := forProfile (s_netPolicy s) policyProfile m in
         _ ← trigger (StoreMaps m'); mret p);
  let publicRequested := existsb (fun er => negb (hostIsInternal pol (er_Host er))) (cg_Egress req) in
  mret (if negb (isAdmin s r) && publicRequested then NetworkGrantPolicyModeProxyConnect
        else NetworkGrantPolicyModeStrictFQDN).

(** The guardrail for callers without the admin token. *)
Definition check_policy (s : server) (r : HttpReq) (req : createNetworkGrantRequest)
    (policyProfile mode proto : string) : bprog (result reply unit) :=
  if isAdmin s r then mret (Ok tt) else
  v ← validateNonAdmin s policyProfile
        {| ngs_AgentJobRef := None; ngs_PodSelector := None; ngs_PolicyMode := mode;
           ngs_Protocol := proto; ngs_Purpose := ""; ngs_Egress := cg_Egress req;
           ngs_DNSAllow := cg_DNSAllow req; ngs_AllowNon443 := cg_AllowNon443 req;
           ngs_TTLSeconds := 0; ngs_Approved := false; ngs_ApprovedBy := ""; ngs_Reason := "" |};
  match v with
  | Ok _ => mret (Ok tt)
  | Err e =>
      _ ← audit_emit (s_audit s) "networkgrant.request_denied"
        [("request_id", VStr (hq_RequestID r)); ("remote_addr", VStr (hq_RemoteAddr r));
         ("namespace", VStr (TrimSpace (cg_Namespace req)));
         ("agentjob", VStr (TrimSpace (cg_AgentJob req))); ("policyProfile", VStr policyProfile);
         ("egress_count", VInt (Z.of_nat (length (cg_Egress req))));
         ("dns_allow_count", VInt (Z.of_nat (length (cg_DNSAllow req)))); ("error", err_value e)];
      mret (Err {| rp_Status := 403;
                   rp_Body := PError "network_policy_denied" [("detail", err_value e)] |})
  end.

(** The grant object the handler creates. *)
Definition requested_grant (req : createNetworkGrantRequest) (mode proto : string) : NetworkGrant := {|
  ng_Meta := {| m_Namespace := cg_Namespace req; m_Name := cg_Name req;
    m_GenerateName := if decide (cg_Name req <> "") then "" else "netgrant-";
    m_Labels := ∅; m_Annotations := ∅; m_CreationTimestamp := 0; m_Generation := 0; m_UID := "" |};
  ng_Spec := {| ngs_AgentJobRef := Some {| ajr_Name := TrimSpace (cg_AgentJob req) |};
    ngs_PodSelector := None; ngs_PolicyMode := mode; ngs_Protocol := proto;
    ngs_Purpose := TrimSpace (cg_Purpose req); ngs_Egress := cg_Egress req;
    ngs_DNSAllow := cg_DNSAllow req; ngs_AllowNon443 := cg_AllowNon443 req;
    ngs_TTLSeconds := cg_TTLSeconds req; ngs_Approved := false; ngs_ApprovedBy := "";
    ngs_Reason := cg_Reason req |};
  ng_Status := zero_ngstatus |}.

Definition create_grant (s : server) (r : HttpReq) (req : createNetworkGrantRequest)
    (policyProfile : string) (g : NetworkGrant) : bprog reply :=
  created ← base (Create KNetworkGrant g);
  match created with
  | Err _ => mret (fail 500 "create_failed")
  | Ok ng =>
      _ ← (match cg_GitHub req, s_gh s with
           | Some ref, Some gh =>
               commentNetworkGrantRequest decode_token decode_comment time_Parse app_sign s gh
                 (gr_Repo ref) (gr_PullNumber ref) ng
           | _, _ => mret (Ok tt)
           end);
      _ ← audit_emit (s_audit s) "networkgrant.request"
        [("request_id", VStr (hq_RequestID r)); ("remote_addr", VStr (hq_RemoteAddr r));
         ("namespace", VStr (m_Namespace (ng_Meta ng))); ("name", VStr (m_Name (ng_Meta ng)));
         ("agentjob", VStr (TrimSpace (cg_AgentJob req))); ("policyProfile", VStr policyProfile);
         ("egress_count", VInt (Z.of_nat (length (cg_Egress req))));
         ("dns_allow_count", VInt (Z.of_nat (length (cg_DNSAllow req))));
         ("purpose", VStr (TrimSpace (cg_Purpose req))); ("ttl_seconds", VInt (cg_TTLSeconds req));
         ("allow_non_443", VBool (cg_AllowNon443 req))];
      mret {| rp_Status := 201; rp_Body := PGrant ng |}
  end.

(** Continues, or returns the reply that ends the handler. *)
Definition orReply {A} (p : bprog (result reply A)) (f : A -> bprog reply) : bprog reply :=
  r ← p; match r with Ok a => f a | Err rep => mret rep end.

Definition handleCreateNetworkGrant (s : server) (r : HttpReq)
    (body : option createNetworkGrantRequest) : bprog reply :=
  match body with
  | None => mret (fail 400 "bad_json")
  | Some req =>
      if decide (cg_Namespace req = "") then mret (fail 400 "namespace_required")
      else if decide (TrimSpace (cg_Namespace req) <> "agents")
      then mret (fail 400 "namespace_not_allowed")
      else if decide (TrimSpace (cg_AgentJob req) = "") then mret (fail 400 "agentJob_required")
      else
        auth ← requireJobOrAdmin jwt_parse s r (TrimSpace (cg_AgentJob req));
        match auth with
        | Err _ => mret (fail 401 "unauthorized")
        | Ok _ =>
            aj ← base (Get KAgentJob (TrimSpace (cg_Namespace req)) (TrimSpace (cg_AgentJob req)));
            match aj with
            | Err _ => mret (fail 404 "agentjob_not_found")
            | Ok aj =>
                let policyProfile := TrimSpace (ajs_PolicyProfile (aj_Spec aj)) in
                let policyProfile := if decide (policyProfile = "") then "restricted" else policyProfile in
                orReply (check_cap s r req) (fun _ =>
                if decide (TrimSpace (cg_Purpose req) = "") then mret (fail 400 "purpose_required")
                else if decide (cg_Egress req = []) then mret (fail 400 "egress_required")
                else
                  let proto := if decide (cg_Protocol req = "") then NetworkGrantProtocolTCP
                               else cg_Protocol req in
                  match validateNetworkGrantSpecShape (cg_Egress req) (cg_DNSAllow req)
                          (cg_AllowNon443 req) with
                  | Err e => mret {| rp_Status := 400;
                                     rp_Body := PError "invalid_networkgrant" [("detail", err_value e)] |}
                  | Ok _ =>
                      mode ← default_mode s r req policyProfile;
                      orReply (check_policy s r req policyProfile mode proto) (fun _ =>
                      create_grant s r req policyProfile (requested_grant req mode proto))
                  end)
            end
        end
  end.

(** * POST /v1/network-grants/{namespace}/{name}/approve[-github] *)

(** The patched grant. *)
Definition approved_grant (ng : NetworkGrant) (approvedBy : string)
    (body : approveNetworkGrantRequest) : NetworkGrant :=
  let spec := ng_Spec ng in
  {| ng_Meta := ng_Meta ng;
     ng_Spec := {| ngs_AgentJobRef := ngs_AgentJobRef spec; ngs_PodSelector := ngs_PodSelector spec;
       ngs_PolicyMode := ngs_PolicyMode spec; ngs_Protocol := ngs_Protocol spec;
       ngs_Purpose := ngs_Purpose spec; ngs_Egress := ngs_Egress spec;
       ngs_DNSAllow := ngs_DNSAllow spec; ngs_AllowNon443 := ngs_AllowNon443 spec;
       ngs_TTLSeconds := default (ngs_TTLSeconds spec) (ap_TTLSeconds body);
       ngs_Approved := true; ngs_ApprovedBy := approvedBy;
       ngs_Reason := if decide (ap_Reason body <> "") then ap_Reason body else ngs_Reason spec |};
     ng_Status := ng_Status ng |}.

Definition approve_fields (r : HttpReq) (ng : NetworkGrant) (approvedBy : string)
    (extra : list (string * value)) (body : approveNetworkGrantRequest) : list (string * value) :=
  [("request_id", VStr (hq_RequestID r)); ("remote_addr", VStr (hq_RemoteAddr r));
   ("namespace", VStr (m_Namespace (ng_Meta ng))); ("name", VStr (m_Name (ng_Meta ng)));
   ("approved_by", VStr approvedBy)] ++ extra
  ++ match ap_TTLSeconds body with Some t => [("ttl_seconds", VInt t)] | None => [] end
  ++ (if decide (ap_Reason body <> "") then [("reason", VStr (ap_Reason body))] else []).

Definition handleApproveNetworkGrant (s : server) (r : HttpReq)
    (body : option approveNetworkGrantRequest) : bprog reply :=
  match requireAdmin s r with
  | Err _ => mret (fail 401 "unauthorized")
  | Ok _ =>
      let ns := hq_URLParam r "namespace" in
      let name := hq_URLParam r "name" in
      if decide (ns = "" \/ name = "") then mret (fail 400 "namespace_and_name_required")
      else if decide (TrimSpace ns <> "agents") then mret (fail 400 "namespace_not_allowed")
      else match body with
      | None => mret (fail 400 "bad_json")
      | Some body =>
          if decide (ap_ApprovedBy body = "") then mret (fail 400 "approvedBy_required") else
          got ← base (Get KNetworkGrant ns name);
          match got with
          | Err _ => mret (fail 404 "not_found")
          | Ok ng =>
              patched ← base (Patch KNetworkGrant (approved_grant ng (ap_ApprovedBy body) body) ng);
              match patched with
              | Err _ => mret (fail 500 "approve_failed")
              | Ok ng =>
                  _ ← audit_emit (s_audit s) "networkgrant.approve"
                        (approve_fields r ng (ap_ApprovedBy body) [] body);
                  mret {| rp_Status := 200; rp_Body := PGrant ng |}
              end
          end
      end
  end.

(** The policy check of an approval without the admin token. *)
Definition check_approval (s : server) (r : HttpReq) (ns : string) (ng : NetworkGrant)
    (body : approveNetworkGrantRequest) : bprog (result reply unit) :=
  if isAdmin s r then mret (Ok tt) else
  let job := match ngs_AgentJobRef (ng_Spec ng) with Some ref => TrimSpace (ajr_Name ref) | None => "" end in
  profile ← (if decide (job <> "") then
               aj ← base (Get KAgentJob ns job);
               mret match aj with
                    | Err _ => Err (fail 404 "agentjob_not_found")
                    | Ok aj =>
                        let v := TrimSpace (ajs_PolicyProfile (aj_Spec aj)) in
                        Ok (if decide (v <> "") then v else "restricted")
                    end
             else mret (Ok "restricted"));
  match profile with
  | Err rep => mret (Err rep)
  | Ok profile =>
      v ← validateNonAdmin s profile (ng_Spec ng);
      match v with
      | Ok _ => mret (Ok tt)
      | Err e =>
          _ ← audit_emit (s_audit s) "networkgrant.approve_denied"
            [("request_id", VStr (hq_RequestID r)); ("remote_addr", VStr (hq_RemoteAddr r));
             ("namespace", VStr (m_Namespace (ng_Meta ng))); ("name", VStr (m_Name (ng_Meta ng)));
             ("approved_by", VStr (TrimSpace (ap_ApprovedBy body))); ("via", VStr "github");
             ("policyProfile", VStr profile); ("error", err_value e)];
          mret (Err {| rp_Status := 403;
                       rp_Body := PError "network_policy_denied" [("detail", err_value e)] |})
      end
  end.

Definition handleApproveNetworkGrantGitHub (s : server) (r : HttpReq)
    (body : option approveNetworkGrantRequest) : bprog reply :=
  match requireWebhook s r with
  | Err _ => mret (fail 401 "unauthorized")
  | Ok _ =>
      let ns := hq_URLParam r "namespace" in
      let name := hq_URLParam r "name" in
      if decide (ns = "" \/ name = "") then mret (fail 400 "namespace_and_name_required")
      else if decide (TrimSpace ns <> "agents") then mret (fail 400 "namespace_not_allowed")
      else match body with
      | None => mret (fail 400 "bad_json")
      | Some body =>
          if decide (TrimSpace (ap_ApprovedBy body) = "") then mret (fail 400 "approvedBy_required") else
          got ← base (Get KNetworkGrant ns name);
          match got with
          | Err _ => mret (fail 404 "not_found")
          | Ok ng =>
              orReply (check_approval s r ns ng body) (fun _ =>
              patched ← base (Patch KNetworkGrant
                (approved_grant ng (TrimSpace (ap_ApprovedBy body)) body) ng);
              match patched with
              | Err _ => mret (fail 500 "approve_failed")
              | Ok ng =>
                  _ ← audit_emit (s_audit s) "networkgrant.approve"
                        (approve_fields r ng (ngs_ApprovedBy (ng_Spec ng)) [("via", VStr "github")] body);
                  mret {| rp_Status := 200; rp_Body := PGrant ng |}
              end)
          end
      end
  end.
(** * POST /v1/agent-jobs *)

(** A non-negative setting; anything else is 0 (no cap). *)
Definition env_cap (env : string -> string) (name : string) : Z :=
  let raw := TrimSpace (getenv env name "0") in
  if decide (raw = "") then 0
  else match Atoi raw with Some n => if 0 <=? n then n else 0 | None => 0 end.

(** A positive setting, converted to [int32]; anything else is the default. *)
Definition env_int32 (env : string -> string) (name def : string) (dflt : Z) : Z :=
  let raw := TrimSpace (getenv env name def) in
  if decide (raw = "") then dflt
  else match Atoi raw with Some n => if 0 <? n then wrap32 n else dflt | None => dflt end.

Definition annotation (m : ObjectMeta) (k : string) : string := default "" (m_Annotations m !! k).

Definition job_active (aj : AgentJob) : bool :=
  let phase := TrimSpace (ajt_Phase (aj_Status aj)) in
  negb (bool_decide (phase = "Succeeded" \/ phase = "Failed")).
Definition job_of_repo (repo : string) (aj : AgentJob) : bool :=
  bool_decide (ToLower (TrimSpace (annotation (aj_Meta aj) "workspaces.platform.dev/github-repo")) = repo).

Definition count {A} (f : A -> bool) (l : list A) : Z :=
  Z.of_nat (length (filter (fun x => f x = true) l)).

(** The concurrency caps. *)
Definition check_concurrency (s : server) (repo : string) : bprog (result reply unit) :=
  let maxConcurrent := env_cap (s_env s) "AGENT_MAX_CONCURRENT" in
  let maxConcurrentPerRepo := env_cap (s_env s) "AGENT_MAX_CONCURRENT_PER_REPO" in
  if (0 <? maxConcurrent) || (0 <? maxConcurrentPerRepo) then
    l ← base (ListNS KAgentJob "agents" ∅);
    mret match l with
         | Err _ => Err (fail 500 "list_failed")
         | Ok jobs =>
             let activeTotal := count job_active jobs in
             let activeRepo := count (fun j => job_active j && job_of_repo repo j) jobs in
             if (0 <? maxConcurrent) && (maxConcurrent <=? activeTotal)
             then Err (fail 429 "agentjob_concurrency_limit")
             else if (0 <? maxConcurrentPerRepo) && (maxConcurrentPerRepo <=? activeRepo)
             then Err (fail 429 "agentjob_repo_concurrency_limit")
             else Ok tt
         end
  else mret (Ok tt).

Definition default_script : string :=
  "set -euo pipefail" +:+ NL +:+
  "cd " +:+ l2s [byte 34] +:+ "${WORKSPACES_REPO_DIR:-/workspace/repo}" +:+ l2s [byte 34] +:+ NL +:+
  "if [ -x .workspaces/agent.sh ]; then" +:+ NL +:+
  "  exec .workspaces/agent.sh" +:+ NL +:+ "fi" +:+ NL +:+
  "if [ -f .workspaces/agent.sh ]; then" +:+ NL +:+
  "  bash .workspaces/agent.sh" +:+ NL +:+ "  exit 0" +:+ NL +:+ "fi" +:+ NL +:+
  "echo " +:+ l2s [byte 34] +:+ "No .workspaces/agent.sh found; nothing to do." +:+ l2s [byte 34] +:+ NL.

(** The name of the job, generated when the request has none. *)
Definition choose_job_name (req : createAgentJobRequest) (pull : Z) : bprog string :=
  let jobName := ToLower (TrimSpace (cj_Name req)) in
  if decide (jobName <> "") then mret jobName else
  slug ← randomSlug;
  let n := "ghpr-" +:+ Itoa pull +:+ "-" +:+ slug in
  let n := if (63 <? String.length n)%nat then str_take 63 n else n in
  mret (TrimRight n (byte 45)).

Definition github_hosts : list string :=
  ["github.com"; "api.github.com"; "objects.githubusercontent.com"; "codeload.github.com"].

(** The pre-approved grant of a job. *)
Definition autogrant_name (jobName : string) : string :=
  let n := "autogrant-" +:+ jobName +:+ "-github" in
  if (63 <? String.length n)%nat then str_take 63 n else n.

Definition autogrant (ns jobName repo : string) (pull autoTTL : Z) : NetworkGrant := {|
  ng_Meta := with_labels (new_meta ns (autogrant_name jobName))
    {["workspaces.platform.dev/app" := "netgrant"; "workspaces.platform.dev/agentjob" := jobName;
      "workspaces.platform.dev/autogrant" := "github"]};
  ng_Spec := {| ngs_AgentJobRef := Some {| ajr_Name := jobName |}; ngs_PodSelector := None;
    ngs_PolicyMode := NetworkGrantPolicyModeProxyConnect; ngs_Protocol := NetworkGrantProtocolTCP;
    ngs_Purpose := "repo checkout + GitHub API";
    ngs_Egress := (fun h => {| er_Host := h; er_Ports := [443] |}) <$> github_hosts;
    ngs_DNSAllow := []; ngs_AllowNon443 := false; ngs_TTLSeconds := autoTTL; ngs_Approved := true;
    ngs_ApprovedBy := "broker";
    ngs_Reason := "auto: github access for " +:+ repo +:+ "#" +:+ Itoa pull |};
  ng_Status := zero_ngstatus |}.

(** Creates the autogrant, or finds the existing one. *)
Definition ensure_autogrant (s : server) (ns jobName repo : string) (pull : Z)
    : bprog (result reply (option NetworkGrant)) :=
  if negb (env_true (s_env s) "AGENT_AUTO_GRANT_GITHUB" "true") then mret (Ok None) else
  let autoTTL := env_int32 (s_env s) "AGENT_AUTO_GRANT_TTL_SECONDS" "7200" 7200 in
  let ng := autogrant ns jobName repo pull autoTTL in
  created ← base (Create KNetworkGrant ng);
  g ← (match created with
       | Ok g => mret (Ok (Some g))
       | Err AlreadyExists =>
           existing ← base (Get KNetworkGrant ns (autogrant_name jobName));
           mret (Ok (ok_opt existing))
       | Err _ => mret (Err (fail 500 "autogrant_create_failed"))
       end);
  match g with
  | Err rep => mret (Err rep)
  | Ok g =>
      _ ← audit_emit (s_audit s) "networkgrant.autogrant"
        [("namespace", VStr ns); ("name", VStr (autogrant_name jobName)); ("agentjob", VStr jobName);
         ("repo", VStr repo); ("pullNumber", VInt pull); ("ttlSeconds", VInt autoTTL)];
      mret (Ok g)
  end.

Definition job_annotations (repo : string) (ref : github_ref) (headSHA : string)
    (checkRunID : Z) (checkRunURL : string) : gmap string string :=
  let m : gmap string string :=
    {["workspaces.platform.dev/source" := "github";
      "workspaces.platform.dev/github-repo" := repo;
      "workspaces.platform.dev/github-pr-number" := Itoa (gr_PullNumber ref);
      "workspaces.platform.dev/github-comment-url" := TrimSpace (gr_CommentURL ref);
      "workspaces.platform.dev/github-actor" := TrimSpace (gr_Actor ref);
      "workspaces.platform.dev/github-head-sha" := headSHA]} in
  let m := if 0 <? checkRunID
           then <["workspaces.platform.dev/github-check-run-id" := Itoa checkRunID]> m else m in
  if decide (TrimSpace checkRunURL <> "")
  then <["workspaces.platform.dev/github-check-run-url" := TrimSpace checkRunURL]> m else m.

(** The settings of the handler, read from the environment. *)
Record job_settings := {
  jset_Image : string; jset_Profile : string; jset_TTL : Z; jset_RuntimeClass : string;
  jset_Script : string;
}.

Definition read_job_settings (s : server) (req : createAgentJobRequest)
    : result reply job_settings :=
  let env := s_env s in
  let image := TrimSpace (getenv env "AGENT_DEFAULT_IMAGE" "ghcr.io/haasonsaas/workspaces-agent-runner:latest") in
  if decide (image = "") then Err (fail 500 "agent_default_image_not_configured") else
  let profile := TrimSpace (cj_PolicyProfile req) in
  let profile := if decide (profile = "")
                 then TrimSpace (getenv env "AGENT_DEFAULT_POLICY_PROFILE" "restricted") else profile in
  let ttl := cj_TTLSecondsAfterFinished req in
  let ttl := if ttl =? 0 then env_int32 env "AGENT_DEFAULT_TTL_SECONDS_AFTER_FINISHED" "" 3600 else ttl in
  let rc := TrimSpace (getenv env "AGENT_DEFAULT_RUNTIME_CLASS" "kata") in
  let script := TrimSpace (env "AGENT_DEFAULT_SCRIPT") in
  Ok {| jset_Image := image; jset_Profile := profile; jset_TTL := ttl;
        jset_RuntimeClass := if decide (rc = "") then "kata" else rc;
        jset_Script := if decide (script = "") then default_script else script |}.

Definition new_agent_job (ns jobName repo headSHA : string) (pull : Z)
    (annotations : gmap string string) (js : job_settings) : AgentJob := {|
  aj_Meta := with_annotations (new_meta ns jobName) annotations;
  aj_Spec := {| ajs_Image := jset_Image js; ajs_Command := []; ajs_Args := [];
    ajs_Script := jset_Script js; ajs_Workdir := "";
    ajs_GitHub := Some {| ajg_Repo := repo; ajg_PullNumber := wrap32 pull; ajg_HeadSHA := headSHA |};
    ajs_Env := []; ajs_Resources := VObj [];
    ajs_NodeSelector := {["workspaces.platform.dev/pool" := "agents"]};
    ajs_Tolerations := [{| tol_Key := "workspaces.platform.dev/pool"; tol_Operator := "Equal";
                           tol_Value := "agents"; tol_Effect := "NoSchedule" |}];
    ajs_RuntimeClassName := Some (jset_RuntimeClass js);
    ajs_TTLSecondsAfterFinished := Some (jset_TTL js);
    ajs_PolicyProfile := jset_Profile js |};
  aj_Status := zero_ajstatus |}.

(** The two secrets of a job, through [CreateOrUpdate]. *)
Definition write_token_secret (aj : AgentJob) (ns name token : string) (expires : kprog string)
    : bprog (result kerr Secret) :=
  lift (CreateOrUpdate KSecret ns name
    {| sec_Meta := new_meta ns name; sec_Type := ""; sec_Data := ∅ |}
    (fun sec =>
       exp ← expires;
       let m := sec_Meta sec in
       let m := with_labels m (<["workspaces.platform.dev/agentjob" := m_Name (aj_Meta aj)]>
                  (<["workspaces.platform.dev/app" := "agent"]> (m_Labels m))) in
       let m := with_annotations m (<["workspaces.platform.dev/expires-at" := exp]> (m_Annotations m)) in
       trigger (SetControllerReference KSecret (aj_Meta aj)
         {| sec_Meta := m; sec_Type := "Opaque"; sec_Data := <["token" := token]> (sec_Data sec) |}))).

Definition delete_job (aj : AgentJob) : bprog unit :=
  _ ← base (DeleteObj KAgentJob (m_Namespace (aj_Meta aj)) (m_Name (aj_Meta aj))); mret tt.

(** After the job exists: the autogrant's owner, the secrets (or the cleanup). *)
Definition provision_job (s : server) (aj : AgentJob) (ns : string) (auto : option NetworkGrant)
    (repoReadToken : string) (repoReadExpiry : Z) : bprog (result reply unit) :=
  _ ← (match auto with
       | None => mret tt
       | Some before =>
           g ← base (SetControllerReference KNetworkGrant (aj_Meta aj) before);
           match g with
           | Err _ => mret tt
           | Ok g => _ ← base (Patch KNetworkGrant g before); mret tt
           end
       end);
  sErr ← write_token_secret aj ns ("agentjob-" +:+ m_Name (aj_Meta aj) +:+ "-github") repoReadToken
           (mret (format_rfc3339 repoReadExpiry));
  match sErr with
  | Err _ => _ ← delete_job aj; mret (Err (fail 500 "github_token_secret_failed"))
  | Ok _ =>
      let raw := TrimSpace (getenv (s_env s) "AGENT_JOB_TOKEN_TTL_SECONDS" "7200") in
      let jobTokenTTL := match Atoi raw with
                         | Some n => if 0 <? n then seconds n else 2 * hour
                         | None => 2 * hour
                         end in
      jobToken ← mintJobToken jwt_sign s ns (m_Name (aj_Meta aj)) jobTokenTTL;
      match jobToken with
      | Err _ => _ ← delete_job aj; mret (Err (fail 500 "job_token_mint_failed"))
      | Ok jobToken =>
          bErr ← write_token_secret aj ns ("agentjob-" +:+ m_Name (aj_Meta aj) +:+ "-broker") jobToken
                   (now ← trigger Now; mret (format_rfc3339 (now + jobTokenTTL)));
          match bErr with
          | Err _ => _ ← delete_job aj; mret (Err (fail 500 "job_token_secret_failed"))
          | Ok _ => mret (Ok tt)
          end
      end
  end.

(** The GitHub calls before the job is created: installation token, head
    commit, check run, scoped read token. *)
Definition github_context (s : server) (gh : githubService) (ns jobName repo : string) (pull : Z)
    : bprog (result reply (string * Z * string * (string * Z))) :=
  match splitRepo repo with
  | Err _ => mret (Err (fail 400 "github_repo_required"))
  | Ok (owner, repoName) =>
      installToken ← getInstallationToken decode_token time_Parse app_sign gh;
      match installToken with
      | Err _ => mret (Err (fail 500 "github_token_failed"))
      | Ok installToken =>
          headSHA ← getPullHeadSHA decode_pull gh installToken owner repoName pull;
          match headSHA with
          | Err _ => mret (Err (fail 502 "github_pull_fetch_failed"))
          | Ok headSHA =>
              '(checkRunID, checkRunURL) ←
                (if gh_enableCheckRuns gh then
                   cr ← createCheckRunInProgress decode_check_run gh installToken owner repoName
                          headSHA ns jobName;
                   mret (match cr with Ok p => p | Err _ => (0, "") end)
                 else mret (0, ""));
              read ← mintRepoReadToken decode_token time_Parse app_sign gh repo;
              match read with
              | Err _ => mret (Err (fail 500 "github_repo_read_token_failed"))
              | Ok tok => mret (Ok (headSHA, checkRunID, checkRunURL, tok))
              end
          end
      end
  end.

(** The checks before any work: repository, pull request, allowlist. *)
Definition check_job_request (s : server) (req : createAgentJobRequest)
    : result reply (githubService * github_ref * string) :=
  let ns := TrimSpace (cj_Namespace req) in
  let ns := if decide (ns = "") then "agents" else ns in
  if decide (ns <> "agents") then Err (fail 400 "namespace_not_allowed") else
  match cj_GitHub req with
  | None => Err (fail 400 "github_context_required")
  | Some ref =>
      let repo := ToLower (TrimSpace (gr_Repo ref)) in
      if decide (repo = "" \/ Contains repo "/" = false) then Err (fail 400 "github_repo_required")
      else if gr_PullNumber ref <=? 0 then Err (fail 400 "github_pullNumber_required")
      else match s_gh s with
      | None => Err (fail 501 "github_disabled")
      | Some gh =>
          if negb (repoIsAllowed gh repo) then Err (fail 403 "repo_not_allowed")
          else Ok (gh, ref, repo)
      end
  end.

Definition handleCreateAgentJob (s : server) (r : HttpReq) (body : option createAgentJobRequest)
    : bprog reply :=
  match requireWebhook s r with
  | Err _ => mret (fail 401 "unauthorized")
  | Ok _ =>
  match body with
  | None => mret (fail 400 "bad_json")
  | Some req =>
  match check_job_request s req with
  | Err rep => mret rep
  | Ok (gh, ref, repo) =>
      let ns := "agents" in
      let pull := gr_PullNumber ref in
      orReply (check_concurrency s repo) (fun _ =>
      match read_job_settings s req with
      | Err rep => mret rep
      | Ok js =>
          jobName ← choose_job_name req pull;
          orReply (github_context s gh ns jobName repo pull)
            (fun '(headSHA, checkRunID, checkRunURL, (repoReadToken, repoReadExpiry)) =>
          orReply (ensure_autogrant s ns jobName repo pull) (fun auto =>
          let annotations := job_annotations repo ref headSHA checkRunID checkRunURL in
          created ← base (Create KAgentJob (new_agent_job ns jobName repo headSHA pull annotations js));
          match created with
          | Err _ => mret (fail 500 "create_failed")
          | Ok aj =>
              orReply (provision_job s aj ns auto repoReadToken repoReadExpiry) (fun _ =>
              _ ← audit_emit (s_audit s) "agentjob.create"
                [("request_id", VStr (hq_RequestID r)); ("remote_addr", VStr (hq_RemoteAddr r));
                 ("namespace", VStr (m_Namespace (aj_Meta aj))); ("name", VStr (m_Name (aj_Meta aj)));
                 ("repo", VStr repo); ("pull_number", VInt pull); ("head_sha", VStr headSHA);
                 ("check_run_id", VInt checkRunID); ("policyProfile", VStr (jset_Profile js));
                 ("ttl_seconds_after_finished", VInt (jset_TTL js))];
              _ ← commentAgentJobCreated decode_token decode_comment time_Parse app_sign s gh repo pull
                    (m_Namespace (aj_Meta aj)) (m_Name (aj_Meta aj)) (jset_Profile js) checkRunURL;
              mret {| rp_Status := 201; rp_Body := PAgentJob aj |})
          end))
      end)
  end
  end
  end.
End handlers.

(** * Reading off the handlers' traces *)

Definition obs_newgrant (o : bobs) : option NetworkGrant :=
  match o with Obs (BBase (Create KNetworkGrant g)) _ => Some g | _ => None end.
Definition obs_newjob (o : bobs) : option AgentJob :=
  match o with Obs (BBase (Create KAgentJob j)) _ => Some j | _ => None end.
Definition obs_patch (o : bobs) : option (NetworkGrant * NetworkGrant) :=
  match o with Obs (BBase (Patch KNetworkGrant g before)) _ => Some (g, before) | _ => None end.
Definition obs_deljob (o : bobs) : option string :=
  match o with Obs (BBase (DeleteObj KAgentJob _ n)) _ => Some n | _ => None end.
Definition obs_maps (o : bobs) : option pheap :=
  match o with
  | Obs e x => match e in beff T return T -> option pheap with LoadMaps => Some | _ => fun _ => None end x
  end.

(** No object of interest is written in these executions. *)
Definition writes_nothing (tr : list bobs) : Prop :=
  omap obs_newgrant tr = [] /\ omap obs_newjob tr = [] /\ omap obs_patch tr = [].

Lemma writes_nothing_app t1 t2 : writes_nothing t1 -> writes_nothing t2 -> writes_nothing (t1 ++ t2).
Proof. unfold writes_nothing. rewrite !omap_app. by intros (-> & -> & ->) (-> & -> & ->). Qed.
Lemma writes_nothing_nil : writes_nothing [].
Proof. done. Qed.

Lemma isAdmin_header s r : isAdmin s r = admin_header s r.
Proof.
  unfold isAdmin, admin_header. case_decide as Ha; [rewrite bool_decide_false; [done|tauto]|].
  apply bool_decide_ext. split; [intros [_ ?]; done | intros [? He]; split; [by rewrite He | done]].
Qed.

Lemma exec_orReply {A} (p : bprog (result reply A)) f tr rep :
  exec (orReply p f) tr rep ->
  (exists t1 t2 a, tr = t1 ++ t2 /\ exec p t1 (Ok a) /\ exec (f a) t2 rep)
  \/ exec p tr (Err rep).
Proof.
  unfold orReply. intros (t1 & t2 & [a|e] & -> & H1 & H2)%exec_bind; [left; eauto 6|].
  destruct H2 as [-> ->]. rewrite app_nil_r. by right.
Qed.

Lemma validateNonAdmin_exec s profile spec t v : exec (validateNonAdmin s profile spec) t v ->
  writes_nothing t /\ exists m, m ∈ omap obs_maps t
    /\ v = (validateNonAdminNetworkGrant (s_netPolicy s) profile spec m).1.
Proof.
  unfold validateNonAdmin. intros (t1 & t2 & m & -> & H1%exec_trigger & Hx)%exec_bind. subst t1.
  destruct (validateNonAdminNetworkGrant _ _ _ m) as [v' m'] eqn:E. walk Hx. subst.
  split; [done|]. exists m. rewrite E. split; [by left|]. done.
Qed.

Lemma audit_nothing on ev fields t u : exec (audit_emit on ev fields) t u -> writes_nothing t.
Proof. unfold audit_emit, base. destruct on; intros H; by walk H. Qed.

(** A job found under its name. *)
Definition obs_job (ns name : string) (o : bobs) : option AgentJob :=
  match o with
  | Obs e x =>
      match e in beff T return T -> option AgentJob with
      | BBase e =>
          match e in eff T return T -> option AgentJob with
          | Get k ns' name' =>
              match k as k return result kerr (obj k) -> option AgentJob with
              | KAgentJob => fun x => if decide (ns' = ns /\ name' = name) then ok_opt x else None
              | _ => fun _ => None end
          | _ => fun _ => None
          end
      | _ => fun _ => None
      end x
  end.


Section handler_facts.
Context (jwt_parse : string -> string -> Z -> result error jobTokenClaims).
Context (decode_token : string -> result error (string * string)).
Context (decode_comment : string -> result error string).
Context (time_Parse : string -> result error Z).
Context (app_sign : string -> Z -> Z -> result error string).

Lemma auth_nothing s r job t u : exec (requireJobOrAdmin jwt_parse s r job) t u -> writes_nothing t.
Proof. unfold requireJobOrAdmin, parseJobToken, base. intros H. by walk H. Qed.

Lemma token_nothing g t r :
  exec (getInstallationToken decode_token time_Parse app_sign g) t r -> writes_nothing t.
Proof. unfold getInstallationToken, appJWT, api_do, base. intros H. by walk H. Qed.

Lemma comment_nothing s g repo n body ev f t r :
  exec (post_comment decode_token decode_comment time_Parse app_sign s g repo n body ev f) t r ->
  writes_nothing t.
Proof.
  unfold post_comment, createIssueComment, api_do. destruct (allowed_repo _ _ _); [|by intros [-> _]].
  case_match; [by intros [-> _]|].
  intros (t1 & t2 & tok & -> & H1%token_nothing & Hx)%exec_bind. apply writes_nothing_app; [done|].
  destruct (tok ≫= _) as [[tk [o nm]]|]; [|by destruct Hx as [-> _]].
  unfold audit_emit, base in Hx. by walk Hx.
Qed.

Lemma count_exec ns job t n : exec (countActiveOrPendingNetworkGrantsForJob ns job) t n ->
  writes_nothing t.
Proof. unfold countActiveOrPendingNetworkGrantsForJob, base. intros H. by walk H. Qed.

End handler_facts.

(** The profile of a job, as the broker reads it. *)
Definition job_profile (aj : AgentJob) : string :=
  let v := TrimSpace (ajs_PolicyProfile (aj_Spec aj)) in
  if decide (v = "") then "restricted" else v.

Lemma count_exec_ok ns job t n :
  exec (countActiveOrPendingNetworkGrantsForJob ns job) t (Ok n) ->
  exists l now, t = [Obs (BBase (ListNS KNetworkGrant (TrimSpace ns) ∅)) (Ok l); Obs (BBase Now) now]
    /\ n = Z.of_nat (length (filter (fun ng => grant_counts (TrimSpace job) now ng = true) l)).
Proof.
  unfold countActiveOrPendingNetworkGrantsForJob, base. intros H. walk H; simplify_eq.
  by eexists _, _.
Qed.

Lemma check_cap_exec s r req t res : exec (check_cap s r req) t res ->
  writes_nothing t /\ (res = Ok tt -> isAdmin s r = false -> 0 < pol_maxGrantsPerJob (s_netPolicy s) ->
    exists l now,
      t = [Obs (BBase (ListNS KNetworkGrant (TrimSpace (cg_Namespace req)) ∅)) (Ok l); Obs (BBase Now) now]
      /\ Z.of_nat (length (filter (fun ng => grant_counts (TrimSpace (cg_AgentJob req)) now ng = true) l))
         < pol_maxGrantsPerJob (s_netPolicy s)).
Proof.
  unfold check_cap. destruct (isAdmin s r); cbn [negb andb].
  { by intros [-> ->]. }
  destruct (Z.ltb_spec 0 (pol_maxGrantsPerJob (s_netPolicy s))).
  - intros (t1 & t2 & n & -> & H1 & [-> Hr])%exec_bind. rewrite app_nil_r. split; [by eapply count_exec|].
    intros -> _ _. destruct n as [n|]; [|done]. destruct (Z.leb_spec (pol_maxGrantsPerJob (s_netPolicy s)) n); [done|].
    apply count_exec_ok in H1 as (l & now & -> & ->). exists l, now.
    rewrite TrimSpace_idemp in *. split; [done | lia].
  - intros [-> ->]. split; [done | lia].
Qed.

Lemma default_mode_nothing s r req profile t m : exec (default_mode s r req profile) t m ->
  writes_nothing t /\ (cg_PolicyMode req <> "" -> m = cg_PolicyMode req).
Proof.
  unfold default_mode. case_decide; [by intros [-> ->]|]. destruct (isAdmin s r).
  - intros Hx. walk Hx. split; [done | tauto].
  - intros (t1 & t2 & p & -> & (t3 & t4 & mm & -> & H1%exec_trigger & H2)%exec_bind & [-> _])%exec_bind.
    subst t3. destruct (forProfile _ _ mm) as [q m']. walk H2. split; [done | tauto].
Qed.

Lemma check_policy_exec s r req profile mode proto t res :
  exec (check_policy s r req profile mode proto) t res ->
  writes_nothing t /\ (res = Ok tt -> isAdmin s r = false -> exists m, m ∈ omap obs_maps t /\
    grant_permitted (forProfile (s_netPolicy s) profile m).1 (forProfile (s_netPolicy s) profile m).2
      (ng_Spec (requested_grant req mode proto))).
Proof.
  unfold check_policy. destruct (isAdmin s r); [by intros [-> ->]|].
  intros (t1 & t2 & v & -> & [Hw (m & Hm & ->)]%validateNonAdmin_exec & Hx)%exec_bind.
  destruct (validateNonAdminNetworkGrant _ _ _ m).1 as [[]|e] eqn:Ev.
  - destruct Hx as [-> ->]. rewrite app_nil_r. split; [done|]. intros _ _. exists m. split; [done|].
    by apply validateNonAdmin_spec in Ev.
  - apply exec_bind in Hx as (t3 & t4 & u & -> & H3%audit_nothing & [-> ->]).
    split; [repeat apply writes_nothing_app; done | done].
Qed.

Section create_grant.
Context (jwt_parse : string -> string -> Z -> result error jobTokenClaims).
Context (decode_token : string -> result error (string * string)).
Context (decode_comment : string -> result error string).
Context (time_Parse : string -> result error Z).
Context (app_sign : string -> Z -> Z -> result error string).
Notation create_handler :=
  (handleCreateNetworkGrant jwt_parse decode_token decode_comment time_Parse app_sign).

Lemma create_grant_exec s r req profile g t rep :
  exec (create_grant decode_token decode_comment time_Parse app_sign s r req profile g) t rep ->
  omap obs_newgrant t = [g].
Proof.
  unfold create_grant, base.
  intros (t1 & t2 & c & -> & H1%exec_trigger & Hx)%exec_bind. subst t1. cbn.
  enough (omap obs_newgrant t2 = []) as -> by done.
  destruct c as [ng|]; [|by destruct Hx as [-> _]].
  apply exec_bind in Hx as (t3 & t4 & u & -> & H3 & Hx).
  apply exec_bind in Hx as (t5 & t6 & u' & -> & H5%audit_nothing & [-> _]).
  assert (writes_nothing t3) as [Hn _].
  { destruct (cg_GitHub req), (s_gh s); try (by destruct H3 as [-> _]).
    by eapply comment_nothing. }
  rewrite !omap_app, Hn. destruct H5 as [-> _]. done.
Qed.

(** C6: what a request for a network grant creates.  [handleCreateNetworkGrant]
    creates at most one grant: the pending one the decoded body asks for, with
    its namespace, which trimmed is [agents], its policy mode where it names one
    and a reference to the job it names, which the handler has fetched.  The
    caller presented the admin token, or a token the JWT library accepts at a
    time the handler read for that very job.  The hosts and ports are well
    formed.  For a caller without the admin token the network policy of the
    fetched job's profile ([restricted] when it has none) permits the grant, and
    when grants are capped, of the grants listed in [agents] before fewer than
    the cap are the job's and active or pending at the time read right after. *)
Theorem created_grant_checked s r body tr rep g :
  exec (create_handler s r body) tr rep -> g ∈ omap obs_newgrant tr ->
  exists req aj mode, let job := TrimSpace (cg_AgentJob req) in
    body = Some req /\ omap obs_newgrant tr = [g]
    /\ g = requested_grant req mode
             (if decide (cg_Protocol req = "") then NetworkGrantProtocolTCP else cg_Protocol req)
    /\ (cg_PolicyMode req <> "" -> mode = cg_PolicyMode req)
    /\ ngs_Approved (ng_Spec g) = false
    /\ ngs_AgentJobRef (ng_Spec g) = Some {| ajr_Name := job |} /\ job <> ""
    /\ m_Namespace (ng_Meta g) = cg_Namespace req /\ TrimSpace (cg_Namespace req) = "agents"
    /\ Obs (BBase (Get KAgentJob "agents" job)) (Ok aj) ∈ tr
    /\ (isAdmin s r = true
        \/ exists now, Obs (BBase Now) now ∈ tr /\ token_of_job jwt_parse s r job now)
    /\ validateNetworkGrantSpecShape (ngs_Egress (ng_Spec g)) (ngs_DNSAllow (ng_Spec g))
         (ngs_AllowNon443 (ng_Spec g)) = Ok tt
    /\ (isAdmin s r = false ->
        (exists m, m ∈ omap obs_maps tr /\
           grant_permitted (forProfile (s_netPolicy s) (job_profile aj) m).1
             (forProfile (s_netPolicy s) (job_profile aj) m).2 (ng_Spec g))
        /\ (0 < pol_maxGrantsPerJob (s_netPolicy s) -> exists l now t1 t2,
             tr = t1 ++ [Obs (BBase (ListNS KNetworkGrant "agents" ∅)) (Ok l); Obs (BBase Now) now] ++ t2
             /\ g ∈ omap obs_newgrant t2
             /\ Z.of_nat (length (filter (fun ng => grant_counts job now ng = true) l))
                < pol_maxGrantsPerJob (s_netPolicy s))).
Proof.
  intros Hx Hin. unfold handleCreateNetworkGrant in Hx.
  destruct body as [req|]; [|destruct Hx as [-> _]; by apply not_elem_of_nil in Hin].
  case_decide; [destruct Hx as [-> _]; by apply not_elem_of_nil in Hin|].
  case_decide as Hns; [destruct Hx as [-> _]; by apply not_elem_of_nil in Hin|].
  rewrite Hns in Hx.
  case_decide as Hjob; [destruct Hx as [-> _]; by apply not_elem_of_nil in Hin|].
  apply exec_bind in Hx as (t1 & t2 & auth & -> & H1 & Hx).
  pose proof (auth_nothing _ _ _ _ _ _ H1) as [Hw1 _]. rewrite omap_app, Hw1 in Hin. cbn [app] in Hin.
  destruct auth as [[]|]; [|destruct Hx as [-> _]; by apply not_elem_of_nil in Hin].
  apply requireJobOrAdmin_exec in H1. rewrite TrimSpace_idemp in H1. unfold base in Hx.
  apply exec_bind in Hx as (t3 & t4 & aj & -> & H3%exec_trigger & Hx). subst t3. cbn in Hin.
  destruct aj as [aj|]; [|destruct Hx as [-> _]; by apply not_elem_of_nil in Hin]. cbv zeta in Hx.
  change (if decide (TrimSpace (ajs_PolicyProfile (aj_Spec aj)) = "") then _ else _)
    with (job_profile aj) in Hx.
  apply exec_orReply in Hx as [(t5 & t6 & [] & -> & [[Hw5 _] Hcap]%check_cap_exec & Hx)|
    [[Hw _] _]%check_cap_exec]; [|rewrite Hw in Hin; by apply not_elem_of_nil in Hin].
  rewrite omap_app, Hw5 in Hin. cbn [app] in Hin.
  case_decide; [destruct Hx as [-> _]; by apply not_elem_of_nil in Hin|].
  case_decide; [destruct Hx as [-> _]; by apply not_elem_of_nil in Hin|].
  destruct (validateNetworkGrantSpecShape _ _ _) as [[]|] eqn:Hshape;
    [|destruct Hx as [-> _]; by apply not_elem_of_nil in Hin].
  apply exec_bind in Hx as (t7 & t8 & mode & -> & [[Hw7 _] Hmode]%default_mode_nothing & Hx).
  rewrite omap_app, Hw7 in Hin. cbn [app] in Hin.
  apply exec_orReply in Hx as [(t9 & t10 & [] & -> & [[Hw9 _] Hpol]%check_policy_exec & Hx)|
    [[Hw _] _]%check_policy_exec]; [|rewrite Hw in Hin; by apply not_elem_of_nil in Hin].
  rewrite omap_app, Hw9 in Hin. cbn [app] in Hin.
  apply create_grant_exec in Hx. rewrite Hx in Hin. apply list_elem_of_singleton in Hin as ->.
  exists req, aj, mode. split; [done|]. split; [by rewrite !omap_app, Hw1, Hw5, Hw7, Hw9, Hx|].
  do 7 (split; [done|]). split; [|split; [|split; [done|]]].
  - rewrite elem_of_app. right. left.
  - rewrite isAdmin_header. destruct H1 as [?|(now & name & -> & Htok & Hname)]; [by left|right].
    exists now. split; [by left|]. by rewrite <- Hname.
  - intros Ha. split.
    + destruct (Hpol eq_refl Ha) as (m & Hm & Hperm). exists m. split; [|done].
      rewrite !omap_app, !elem_of_app. cbn. rewrite ?omap_app, ?elem_of_app. tauto.
    + intros Hpos. destruct (Hcap eq_refl Ha Hpos) as (l & now & -> & Hlt).
      rewrite Hns. exists l, now, (t1 ++ [Obs (BBase (Get KAgentJob "agents" (TrimSpace (cg_AgentJob req)))) (Ok aj)]),
        (t7 ++ t9 ++ t10). split; [by rewrite <- !app_assoc|]. split; [|done].
      rewrite !omap_app, Hw7, Hw9, Hx. by left.
Qed.
End create_grant.

Definition demo_admin : HttpReq := demo_http (fun h =>
  if decide (h = "X-Broker-Admin-Token") then "adm" else
  if decide (h = "X-Broker-Webhook-Token") then "hook" else "").
Definition demo_grant_request : createNetworkGrantRequest := {|
  cg_Namespace := "agents"; cg_Name := ""; cg_AgentJob := "job-1"; cg_PolicyMode := "";
  cg_Protocol := ""; cg_Purpose := "fetch"; cg_Egress := [{| er_Host := "pypi.org"; er_Ports := [] |}];
  cg_DNSAllow := []; cg_AllowNon443 := false; cg_TTLSeconds := 600; cg_Reason := ""; cg_GitHub := None |}.
Definition demo_job : AgentJob := {|
  aj_Meta := new_meta "agents" "job-1";
  aj_Spec := {| ajs_Image := "img"; ajs_Command := []; ajs_Args := []; ajs_Script := "";
    ajs_Workdir := ""; ajs_GitHub := None; ajs_Env := []; ajs_Resources := VObj [];
    ajs_NodeSelector := ∅; ajs_Tolerations := []; ajs_RuntimeClassName := None;
    ajs_TTLSecondsAfterFinished := None; ajs_PolicyProfile := "" |};
  aj_Status := zero_ajstatus |}.
Definition demo_get (k : kind) (ns name : string) : result kerr (obj k) :=
  match k as k return result kerr (obj k) with
  | KAgentJob => Ok demo_job
  | KNetworkGrant => Ok (requested_grant demo_grant_request NetworkGrantPolicyModeProxyConnect "TCP")
  | _ => Err NotFound
  end.
Definition demo_http_answer (h : HttpRequest) : result error HttpResponse :=
  Ok {| hp_Status := if decide (hr_Method h = "GET") then 200 else 201; hp_Body := "" |}.
Definition demo_run {A} (p : bprog A) : A * list bobs * unit :=
  run (broker_world 0 demo_get (fun _ => []) demo_http_answer (fun _ => "")) p tt.
(** A run: the job [build-1] asks with its own token for a host of the cluster,
    while one of its grants is pending. *)
Definition demo_internal_request : createNetworkGrantRequest := {|
  cg_Namespace := "agents"; cg_Name := "netgrant-x"; cg_AgentJob := "build-1"; cg_PolicyMode := "";
  cg_Protocol := ""; cg_Purpose := "db"; cg_Egress := [{| er_Host := "db.svc.cluster.local"; er_Ports := [] |}];
  cg_DNSAllow := []; cg_AllowNon443 := false; cg_TTLSeconds := 600; cg_Reason := ""; cg_GitHub := None |}.
Definition demo_pending : NetworkGrant :=
  requested_grant demo_internal_request NetworkGrantPolicyModeStrictFQDN "TCP".
Definition demo_create : bprog reply :=
  handleCreateNetworkGrant demo_parse (fun _ => Ok ("", "")) (fun _ => Ok "")
    (fun _ => Ok 0) (fun _ _ _ => Ok "") demo_server demo_bearer (Some demo_internal_request).
Definition demo_create_run : reply * list bobs * unit :=
  run (broker_world 0 demo_get
    (fun k => match k as k return list (obj k) with KNetworkGrant => [demo_pending] | _ => [] end)
    demo_http_answer (fun _ => "")) demo_create tt.

Lemma created_grant_checked_witness :
  isAdmin demo_server demo_bearer = false /\ omap obs_newgrant demo_create_run.1.2 = [demo_pending]
  /\ (exists m, m ∈ omap obs_maps demo_create_run.1.2 /\
       grant_permitted (forProfile demo_policy "restricted" m).1 (forProfile demo_policy "restricted" m).2
         (ng_Spec demo_pending))
  /\ exists l now, Obs (BBase (ListNS KNetworkGrant "agents" ∅)) (Ok l) ∈ demo_create_run.1.2
     /\ Z.of_nat (length (filter (fun ng => grant_counts "build-1" now ng = true) l)) < 20.
Proof.
  split; [reflexivity|].
  assert (Ho : omap obs_newgrant demo_create_run.1.2 = [demo_pending]) by (vm_compute; reflexivity).
  split; [exact Ho|].
  destruct (created_grant_checked demo_parse (fun _ => Ok ("", "")) (fun _ => Ok "")
    (fun _ => Ok 0) (fun _ _ _ => Ok "") demo_server demo_bearer (Some demo_internal_request)
    demo_create_run.1.2 demo_create_run.1.1 demo_pending)
    as (req & aj & mode & Hr & _ & _ & _ & _ & _ & _ & _ & _ & Hget & _ & _ & Hchk).
  - exact (run_is_exec _ demo_create tt).
  - rewrite Ho. apply list_elem_of_here.
  - injection Hr as <-.
    destruct (Hchk eq_refl) as [Hpol Hcap]. split.
    + assert (Hj : omap (obs_job "agents" "build-1") demo_create_run.1.2 = [demo_job])
        by (vm_compute; reflexivity).
      assert (Hin : aj ∈ omap (obs_job "agents" "build-1") demo_create_run.1.2).
      { apply list_elem_of_omap. eexists. split; [exact Hget | reflexivity]. }
      rewrite Hj in Hin. apply list_elem_of_singleton in Hin. subst aj. exact Hpol.
    + destruct (Hcap ltac:(reflexivity)) as (l & now & t1 & t2 & Htr & _ & Hlt).
      exists l, now. split; [|exact Hlt]. rewrite Htr. apply elem_of_app. right. apply list_elem_of_here.
Defined.

(** * Approvals through the GitHub webhook *)

(** The profile the approval of [ng] is checked under. *)
Definition approval_profile (tr : list bobs) (ns : string) (ng : NetworkGrant) (profile : string)
    : Prop :=
  match ngs_AgentJobRef (ng_Spec ng) with
  | Some ref =>
      if decide (TrimSpace (ajr_Name ref) = "") then profile = "restricted" else
      exists aj, Obs (BBase (Get KAgentJob ns (TrimSpace (ajr_Name ref)))) (Ok aj) ∈ tr
        /\ profile = job_profile aj
  | None => profile = "restricted"
  end.

Lemma approval_profile_app t1 t2 t3 ns ng v :
  approval_profile t2 ns ng v -> approval_profile (t1 ++ t2 ++ t3) ns ng v.
Proof.
  unfold approval_profile. case_match; [|done]. case_decide; [done|]. intros (aj & Haj & ->).
  exists aj. rewrite !elem_of_app. tauto.
Qed.

Lemma check_approval_exec s r ns ng body t res :
  exec (check_approval s r ns ng body) t res ->
  writes_nothing t /\ (res = Ok tt -> isAdmin s r = false -> exists m profile,
    m ∈ omap obs_maps t /\ approval_profile t ns ng profile /\
    grant_permitted (forProfile (s_netPolicy s) profile m).1 (forProfile (s_netPolicy s) profile m).2
      (ng_Spec ng)).
Proof.
  unfold check_approval, base. destruct (isAdmin s r); [by intros [-> ->]|]. cbv zeta.
  intros (t1 & t2 & p & -> & H1 & Hx)%exec_bind.
  assert (writes_nothing t1 /\ (forall v, p = Ok v -> approval_profile t1 ns ng v)) as [Hw1 Hp].
  { unfold approval_profile. destruct (ngs_AgentJobRef (ng_Spec ng)) as [ref|]; cycle 1.
    { rewrite decide_False in H1 by tauto. destruct H1 as [-> ->]. split; [done|]. by intros v [= <-]. }
    destruct (decide (TrimSpace (ajr_Name ref) = "")) as [He|He].
    { rewrite decide_False in H1 by tauto. destruct H1 as [-> ->]. split; [done|]. by intros v [= <-]. }
    rewrite decide_True in H1 by done. walk H1; subst. split; [done|].
    destruct ans as [aj|]; [|done]. intros v [= <-]. exists aj. split; [by left|].
    unfold job_profile. destruct (decide (TrimSpace (ajs_PolicyProfile (aj_Spec aj)) = "")) as [e|e].
    - by rewrite decide_False by tauto.
    - by rewrite decide_True by done. }
  destruct p as [v|]; [|by destruct Hx as [-> ->]; rewrite app_nil_r].
  apply exec_bind in Hx as (t3 & t4 & w & -> & [Hw3 (m & Hm & ->)]%validateNonAdmin_exec & Hx).
  destruct (validateNonAdminNetworkGrant _ _ _ m).1 as [[]|e] eqn:Ev.
  - destruct Hx as [-> ->]. rewrite app_nil_r. split; [by apply writes_nothing_app|]. intros _ _.
    exists m, v. rewrite omap_app, elem_of_app. split; [by right|]. split; [|by apply validateNonAdmin_spec in Ev].
    by apply (approval_profile_app []), Hp.
  - apply exec_bind in Hx as (t5 & t6 & u & -> & H5%audit_nothing & [-> ->]).
    split; [repeat apply writes_nothing_app; done | done].
Qed.

(** C7: approval on behalf of GitHub.  The only object
    [handleApproveNetworkGrantGitHub] patches is the grant it fetched under the
    namespace and the name of the URL, to which it adds the approval and the
    approver, changing at most the time to live and the reason; the caller holds
    the webhook (or admin) token; and without the admin token the network policy
    permits the fetched spec, in full, under the profile of the job the grant
    names, which the handler fetched too ([restricted] when the job has none, or
    the grant names no job). *)
Theorem github_approval_checked s r body tr rep g before :
  exec (handleApproveNetworkGrantGitHub s r body) tr rep -> (g, before) ∈ omap obs_patch tr ->
  exists b, let ns := hq_URLParam r "namespace" in
    body = Some b /\ requireWebhook s r = Ok tt /\ TrimSpace ns = "agents"
    /\ Obs (BBase (Get KNetworkGrant ns (hq_URLParam r "name"))) (Ok before) ∈ tr
    /\ omap obs_patch tr = [(g, before)]
    /\ g = approved_grant before (TrimSpace (ap_ApprovedBy b)) b /\ TrimSpace (ap_ApprovedBy b) <> ""
    /\ (isAdmin s r = false -> exists m profile,
          m ∈ omap obs_maps tr /\ approval_profile tr ns before profile /\
          grant_permitted (forProfile (s_netPolicy s) profile m).1
            (forProfile (s_netPolicy s) profile m).2 (ng_Spec before)).
Proof.
  intros Hx Hin. unfold handleApproveNetworkGrantGitHub, base in Hx.
  destruct (requireWebhook s r) as [[]|] eqn:Hauth; [|destruct Hx as [-> _]; by apply not_elem_of_nil in Hin].
  cbv zeta in Hx. case_decide; [destruct Hx as [-> _]; by apply not_elem_of_nil in Hin|].
  case_decide as Hns; [destruct Hx as [-> _]; by apply not_elem_of_nil in Hin|].
  destruct body as [b|]; [|destruct Hx as [-> _]; by apply not_elem_of_nil in Hin].
  case_decide as Hby; [destruct Hx as [-> _]; by apply not_elem_of_nil in Hin|].
  apply exec_bind in Hx as (t1 & t2 & got & -> & H1%exec_trigger & Hx). subst t1. cbn in Hin.
  destruct got as [ng|]; [|destruct Hx as [-> _]; by apply not_elem_of_nil in Hin].
  apply exec_orReply in Hx as [(t3 & t4 & [] & -> & [(_ & _ & Hw3) Hpol]%check_approval_exec & Hx)|
    [(_ & _ & Hw) _]%check_approval_exec]; [|rewrite Hw in Hin; by apply not_elem_of_nil in Hin].
  rewrite omap_app, Hw3 in Hin. cbn [app] in Hin.
  apply exec_bind in Hx as (t5 & t6 & p & -> & H5%exec_trigger & Hx). subst t5. cbn in Hin.
  assert (omap obs_patch t6 = []) as Hw6.
  { destruct p; [|by destruct Hx as [-> _]].
    apply exec_bind in Hx as (t7 & t8 & u & -> & (_ & _ & H7)%audit_nothing & [-> _]).
    by rewrite app_nil_r. }
  rewrite Hw6 in Hin. apply list_elem_of_singleton in Hin as [= -> ->].
  exists b. do 3 (split; [done|]). split; [by left|].
  split; [by cbn; rewrite omap_app, Hw3; cbn; rewrite Hw6|]. do 2 (split; [done|]).
  intros Ha. destruct (Hpol eq_refl Ha) as (m & profile & Hm & Hp & Hperm).
  exists m, profile. split; [|split; [|done]].
  - rewrite !omap_app, !elem_of_app. tauto.
  - by apply (approval_profile_app [_]).
Qed.

Definition demo_webhook : HttpReq := {|
  hq_Header := fun h => if decide (h = "X-Broker-Webhook-Token") then "hook" else "";
  hq_RemoteAddr := "10.0.0.9:1"; hq_RequestID := "r1";
  hq_URLParam := fun p => if decide (p = "namespace") then "agents" else "netgrant-x" |}.

Definition demo_approval : approveNetworkGrantRequest :=
  {| ap_ApprovedBy := "alice"; ap_Reason := ""; ap_TTLSeconds := None |}.
Definition demo_approve : bprog reply :=
  handleApproveNetworkGrantGitHub demo_server demo_webhook (Some demo_approval).
Definition demo_approve_run : reply * list bobs * unit :=
  run (broker_world 0 (fun k _ _ => match k as k return result kerr (obj k) with
                                    | KNetworkGrant => Ok demo_pending | KAgentJob => Ok demo_job
                                    | _ => Err NotFound end)
    (fun _ => []) demo_http_answer (fun _ => "")) demo_approve tt.

Lemma github_approval_checked_witness :
  omap obs_patch demo_approve_run.1.2 = [(approved_grant demo_pending "alice" demo_approval, demo_pending)]
  /\ isAdmin demo_server demo_webhook = false
  /\ exists m profile, m ∈ omap obs_maps demo_approve_run.1.2
       /\ approval_profile demo_approve_run.1.2 "agents" demo_pending profile /\
       grant_permitted (forProfile demo_policy profile m).1 (forProfile demo_policy profile m).2
         (ng_Spec demo_pending).
Proof.
  assert (Ho : omap obs_patch demo_approve_run.1.2
    = [(approved_grant demo_pending "alice" demo_approval, demo_pending)]) by (vm_compute; reflexivity).
  split; [exact Ho|]. split; [reflexivity|].
  destruct (github_approval_checked demo_server demo_webhook (Some demo_approval)
    demo_approve_run.1.2 demo_approve_run.1.1 (approved_grant demo_pending "alice" demo_approval)
    demo_pending (run_is_exec _ demo_approve tt)) as (b & _ & _ & _ & _ & _ & _ & _ & Hp).
  - rewrite Ho. apply list_elem_of_here.
  - exact (Hp eq_refl).
Defined.

(** * Agent jobs *)

Definition no_create (tr : list bobs) : Prop := omap obs_newgrant tr = [] /\ omap obs_newjob tr = [].

(** The job an API call created. *)
Definition obs_madejob (o : bobs) : option AgentJob :=
  match o with
  | Obs e x =>
      match e in beff T return T -> option AgentJob with
      | BBase e =>
          match e in eff T return T -> option AgentJob with
          | Create k _ =>
              match k as k return result kerr (obj k) -> option AgentJob with
              | KAgentJob => ok_opt | _ => fun _ => None end
          | _ => fun _ => None
          end
      | _ => fun _ => None
      end x
  end.
(** A successful list of jobs. *)
Definition obs_jobs (o : bobs) : option (list AgentJob) :=
  match o with
  | Obs e x =>
      match e in beff T return T -> option (list AgentJob) with
      | BBase e =>
          match e in eff T return T -> option (list AgentJob) with
          | ListNS k _ _ =>
              match k as k return result kerr (list (obj k)) -> option (list AgentJob) with
              | KAgentJob => ok_opt | _ => fun _ => None end
          | _ => fun _ => None
          end
      | _ => fun _ => None
      end x
  end.

(** Executions that create neither grants nor jobs. *)
Definition inert (tr : list bobs) : Prop := no_create tr /\ omap obs_madejob tr = [].

Lemma inert_app t1 t2 : inert t1 -> inert t2 -> inert (t1 ++ t2).
Proof. unfold inert, no_create. rewrite !omap_app. by intros [[-> ->] ->] [[-> ->] ->]. Qed.
Lemma inert_bind {A B} (p : bprog A) (f : A -> bprog B) t b :
  exec (p ≫= f) t b -> (forall t a, exec p t a -> inert t) -> (forall a t b, exec (f a) t b -> inert t) ->
  inert t.
Proof. intros (t1 & t2 & a & -> & H1 & H2)%exec_bind Hp Hf. apply inert_app; eauto. Qed.

(** [count] of what is below the cap, when there is a cap. *)
Definition below (cap : Z) (f : AgentJob -> bool) (tr : list bobs) : Prop :=
  0 < cap -> exists l, l ∈ omap obs_jobs tr /\ count f l < cap.

Lemma check_concurrency_exec s repo t res : exec (check_concurrency s repo) t res ->
  inert t /\ (res = Ok tt ->
    below (env_cap (s_env s) "AGENT_MAX_CONCURRENT") job_active t /\
    below (env_cap (s_env s) "AGENT_MAX_CONCURRENT_PER_REPO")
      (fun j => job_active j && job_of_repo repo j) t).
Proof.
  unfold check_concurrency, base, below. set (c1 := env_cap _ _). set (c2 := env_cap _ _).
  destruct ((0 <? c1) || (0 <? c2)) eqn:Hc; cycle 1.
  { intros [-> ->]. apply orb_false_iff in Hc as [?%Z.ltb_ge ?%Z.ltb_ge]. split; [done|]. lia. }
  intros (t1 & t2 & l & -> & H1%exec_trigger & [-> Hr])%exec_bind. subst t1. split; [by destruct l|].
  intros ->. destruct l as [jobs|]; [|done]. cbn.
  destruct (Z.ltb_spec 0 c1), (Z.leb_spec c1 (count job_active jobs)), (Z.ltb_spec 0 c2),
    (Z.leb_spec c2 (count (fun j => job_active j && job_of_repo repo j) jobs)); try done;
    split; intros ?; try (exfalso; lia); (exists jobs; split; [by left|]; lia).
Qed.

Lemma choose_job_name_inert req pull t n : exec (choose_job_name req pull) t n -> inert t.
Proof. unfold choose_job_name, randomSlug, base. intros Hx. by walk Hx. Qed.

Section job_facts.
Context (decode_token : string -> result error (string * string)).
Context (decode_comment : string -> result error string).
Context (decode_pull : string -> result error string).
Context (decode_check_run : string -> result error (Z * string)).
Context (time_Parse : string -> result error Z).
Context (app_sign : string -> Z -> Z -> result error string).

Lemma token_inert g t r : exec (getInstallationToken decode_token time_Parse app_sign g) t r -> inert t.
Proof. unfold getInstallationToken, appJWT, api_do, base. intros Hx. by walk Hx. Qed.
Lemma read_token_inert g repo t r :
  exec (mintRepoReadToken decode_token time_Parse app_sign g repo) t r -> inert t.
Proof.
  unfold mintRepoReadToken, appJWT, api_do, base. intros Hx.
  destruct (repo ← _; _) as [[]|]; [|by walk Hx]. by walk Hx.
Qed.
Lemma pull_inert g token owner repo n t r : exec (getPullHeadSHA decode_pull g token owner repo n) t r -> inert t.
Proof. unfold getPullHeadSHA, api_do, base. intros Hx. by walk Hx. Qed.
Lemma check_run_inert g token owner repo sha ns job t r :
  exec (createCheckRunInProgress decode_check_run g token owner repo sha ns job) t r -> inert t.
Proof. unfold createCheckRunInProgress, api_do, base. intros Hx. by walk Hx. Qed.
Lemma comment_inert s g repo n body ev f t r :
  exec (post_comment decode_token decode_comment time_Parse app_sign s g repo n body ev f) t r -> inert t.
Proof.
  unfold post_comment, createIssueComment, api_do. destruct (allowed_repo _ _ _); [|by intros [-> _]].
  case_match; [by intros [-> _]|].
  intros (t1 & t2 & tok & -> & H1%token_inert & Hx)%exec_bind. apply inert_app; [done|].
  destruct (tok ≫= _) as [[tk [o nm]]|]; [|by destruct Hx as [-> _]].
  unfold audit_emit, base in Hx. by walk Hx.
Qed.
Lemma audit_inert on ev fields t u : exec (audit_emit on ev fields) t u -> inert t.
Proof. unfold audit_emit, base. destruct on; intros Hx; by walk Hx. Qed.

Lemma github_context_inert s gh ns jobName repo pull t r :
  exec (github_context decode_token decode_pull decode_check_run time_Parse app_sign s gh ns jobName
    repo pull) t r -> inert t.
Proof.
  unfold github_context. destruct (splitRepo repo) as [[owner name]|]; [|by intros [-> _]].
  intros Hx. eapply inert_bind; [exact Hx | apply token_inert|]. clear Hx t r. intros tok t r Hx.
  destruct tok as [tok|]; [|by destruct Hx as [-> _]].
  eapply inert_bind; [exact Hx | apply pull_inert|]. clear Hx t r. intros sha t r Hx.
  destruct sha as [sha|]; [|by destruct Hx as [-> _]].
  eapply inert_bind; [exact Hx | |].
  - intros t' a Ha. destruct (gh_enableCheckRuns gh); [|by destruct Ha as [-> _]].
    eapply inert_bind; [exact Ha | apply check_run_inert|]. by intros ? ? ? [-> _].
  - clear Hx t r. intros [id url] t r Hx. eapply inert_bind; [exact Hx | apply read_token_inert|].
    intros [] ? ? Hy; by destruct Hy as [-> _].
Qed.

Lemma ensure_autogrant_exec s ns jobName repo pull t r :
  exec (ensure_autogrant s ns jobName repo pull) t r ->
  omap obs_newjob t = [] /\ omap obs_madejob t = [] /\
  forall g, g ∈ omap obs_newgrant t ->
    g = autogrant ns jobName repo pull (env_int32 (s_env s) "AGENT_AUTO_GRANT_TTL_SECONDS" "7200" 7200).
Proof.
  unfold ensure_autogrant. destruct (negb _).
  { intros [-> _]. do 2 (split; [done|]). by intros g ?%not_elem_of_nil. }
  cbv zeta. set (a := autogrant _ _ _ _ _). unfold base.
  intros (t1 & t2 & c & -> & H1%exec_trigger & Hx)%exec_bind. subst t1.
  assert (inert t2) as [[Hg Hj] Hm].
  { eapply inert_bind; [exact Hx | |].
    - intros t' x Hy. destruct c as [|[]]; by walk Hy.
    - intros [] t' x Hy; [|by destruct Hy as [-> _]].
      eapply inert_bind; [exact Hy | apply audit_inert | by intros ? ? ? [-> _]]. }
  rewrite !omap_app, Hg, Hj, Hm. cbn. split; [done|]. split; [by destruct c|].
  by intros g ->%list_elem_of_singleton.
Qed.
End job_facts.

Lemma write_token_secret_inert aj ns name token expires t r :
  (forall t0 v, exec expires t0 v -> t0 = [] \/ exists now, t0 = [Obs Now now]) ->
  exec (write_token_secret aj ns name token expires) t r -> inert t.
Proof.
  intros Hexp (t0 & -> & Hx)%exec_lift. unfold CreateOrUpdate in Hx.
  apply exec_bind in Hx as (t1 & t2 & cur & -> & H1%exec_trigger & Hx). subst t1.
  destruct cur as [cur|]; [|by destruct Hx as [-> _]].
  apply exec_bind in Hx as (t3 & t4 & m & -> & Hm & Hx).
  apply exec_bind in Hm as (t5 & t6 & exp & -> & He%Hexp & Hm%exec_trigger). subst t6.
  destruct m as [o|]; [apply exec_trigger in Hx as -> | destruct Hx as [-> _]];
    destruct He as [->|[now ->]]; done.
Qed.

Lemma provision_job_exec jwt_sign s aj ns auto tok exp t r :
  exec (provision_job jwt_sign s aj ns auto tok exp) t r ->
  inert t /\ (is_ok r = false -> m_Name (aj_Meta aj) ∈ omap obs_deljob t).
Proof.
  unfold provision_job. intros (t1 & t2 & u & -> & H1 & Hx)%exec_bind.
  assert (inert t1) as Hi1.
  { destruct auto as [g|]; [|by destruct H1 as [-> _]]. unfold base in H1. by walk H1. }
  assert (Hd : forall t r rep, exec (_ ← delete_job aj; mret (Err rep : result reply unit)) t r ->
    inert t /\ m_Name (aj_Meta aj) ∈ omap obs_deljob t).
  { unfold delete_job, base. intros t r0 rep Hy. walk Hy. split; [done | by left]. }
  apply exec_bind in Hx as (t3 & t4 & w & -> & H3 & Hx).
  apply write_token_secret_inert in H3; [|intros ? ? [-> _]; by left].
  destruct w as [w|]; cycle 1.
  { apply Hd in Hx as [? Hin]. split; [by repeat apply inert_app|]. intros _.
    rewrite !omap_app, !elem_of_app. tauto. }
  cbv zeta in Hx. apply exec_bind in Hx as (t5 & t6 & jt & -> & H5 & Hx).
  assert (inert t5) as Hi5.
  { unfold mintJobToken, randomSlug, base in H5. case_decide; [by destruct H5 as [-> _]|]. by walk H5. }
  destruct jt as [jt|]; cycle 1.
  { apply Hd in Hx as [? Hin]. split; [by repeat apply inert_app|]. intros _.
    rewrite !omap_app, !elem_of_app. tauto. }
  apply exec_bind in Hx as (t7 & t8 & b & -> & H7 & Hx).
  apply write_token_secret_inert in H7.
  2:{ intros t0 v (ta & tb & now & -> & ->%exec_trigger & [-> _])%exec_bind. right. by exists now. }
  destruct b as [b|]; cycle 1.
  { apply Hd in Hx as [? Hin]. split; [by repeat apply inert_app|]. intros _.
    rewrite !omap_app, !elem_of_app. tauto. }
  destruct Hx as [-> ->]. split; [|done]. rewrite app_nil_r. by repeat apply inert_app.
Qed.

(** What [handleCreateAgentJob] requires before it creates [j]. *)
Definition job_allowed (s : server) (r : HttpReq) (body : option createAgentJobRequest)
    (tr : list bobs) (j : AgentJob) (repo : string) (pull : Z) : Prop :=
  exists req gh ref, body = Some req /\ requireWebhook s r = Ok tt
    /\ check_job_request s req = Ok (gh, ref, repo) /\ s_gh s = Some gh
    /\ repoIsAllowed gh repo = true /\ pull = gr_PullNumber ref /\ 0 < pull
    /\ m_Namespace (aj_Meta j) = "agents"
    /\ (exists sha, ajs_GitHub (aj_Spec j)
         = Some {| ajg_Repo := repo; ajg_PullNumber := wrap32 pull; ajg_HeadSHA := sha |})
    /\ below (env_cap (s_env s) "AGENT_MAX_CONCURRENT") job_active tr
    /\ below (env_cap (s_env s) "AGENT_MAX_CONCURRENT_PER_REPO")
         (fun j => job_active j && job_of_repo repo j) tr.

Lemma check_job_request_ok s req gh ref repo : check_job_request s req = Ok (gh, ref, repo) ->
  s_gh s = Some gh /\ repoIsAllowed gh repo = true /\ 0 < gr_PullNumber ref.
Proof.
  unfold check_job_request. cbv zeta. destruct (decide (_ <> "agents")) as [|Hn]; [done|]. clear Hn.
  destruct (cj_GitHub req) as [rf|]; [|done]. case_decide; [done|].
  destruct (Z.leb_spec (gr_PullNumber rf) 0); [done|]. destruct (s_gh s) as [g|]; [|done].
  destruct (repoIsAllowed g _) eqn:Ha; [|done]. cbn. by intros [= <- <- <-].
Qed.

Lemma below_mono cap f t1 t2 t3 : below cap f t2 -> below cap f (t1 ++ t2 ++ t3).
Proof.
  unfold below. intros Hb Hc. destruct (Hb Hc) as (l & Hl & ?). exists l.
  rewrite !omap_app, !elem_of_app. tauto.
Qed.

Section create_job.
Context (jwt_sign : string -> jobTokenClaims -> result error string).
Context (decode_token : string -> result error (string * string)).
Context (decode_comment : string -> result error string).
Context (decode_pull : string -> result error string).
Context (decode_check_run : string -> result error (Z * string)).
Context (time_Parse : string -> result error Z).
Context (app_sign : string -> Z -> Z -> result error string).
Notation job_handler := (handleCreateAgentJob jwt_sign decode_token decode_comment decode_pull
  decode_check_run time_Parse app_sign).

(** What the handler created, if anything: at most one job, whose grants are
    its autogrant, and which is deleted unless the reply is 201. *)
Lemma job_handler_exec s r body tr rep : exec (job_handler s r body) tr rep ->
  (omap obs_newjob tr = [] /\ omap obs_madejob tr = []
   /\ (forall g, g ∈ omap obs_newgrant tr -> exists req gh ref repo jobName,
        body = Some req /\ requireWebhook s r = Ok tt /\ check_job_request s req = Ok (gh, ref, repo)
        /\ g = autogrant "agents" jobName repo (gr_PullNumber ref)
                 (env_int32 (s_env s) "AGENT_AUTO_GRANT_TTL_SECONDS" "7200" 7200)))
  \/ exists j repo pull, omap obs_newjob tr = [j] /\ job_allowed s r body tr j repo pull
   /\ (forall g, g ∈ omap obs_newgrant tr ->
         g = autogrant "agents" (m_Name (aj_Meta j)) repo pull
               (env_int32 (s_env s) "AGENT_AUTO_GRANT_TTL_SECONDS" "7200" 7200))
   /\ (forall aj, aj ∈ omap obs_madejob tr ->
         rp_Status rep = 201 \/ m_Name (aj_Meta aj) ∈ omap obs_deljob tr).
Proof.
  assert (Hnil : forall t, inert t -> omap obs_newjob t = [] /\ omap obs_madejob t = []
    /\ (forall g, g ∈ omap obs_newgrant t -> exists req gh ref repo jobName,
        body = Some req /\ requireWebhook s r = Ok tt /\ check_job_request s req = Ok (gh, ref, repo)
        /\ g = autogrant "agents" jobName repo (gr_PullNumber ref)
                 (env_int32 (s_env s) "AGENT_AUTO_GRANT_TTL_SECONDS" "7200" 7200))).
  { intros t [[-> ->] ->]. split_and!; [done..|]. by intros g ?%not_elem_of_nil. }
  unfold handleCreateAgentJob, base. intros Hx.
  destruct (requireWebhook s r) as [[]|] eqn:Hauth; [|destruct Hx as [-> _]; left; by apply Hnil].
  destruct body as [req|]; [|destruct Hx as [-> _]; left; by apply Hnil].
  destruct (check_job_request s req) as [[[gh ref] repo]|] eqn:Hreq;
    [|destruct Hx as [-> _]; left; by apply Hnil]. cbv zeta in Hx.
  apply exec_orReply in Hx as [(t1 & t2 & [] & -> & [Hi1 Hcap]%check_concurrency_exec & Hx)|
    [Hi _]%check_concurrency_exec]; [|left; by apply Hnil].
  destruct (read_job_settings s req) as [js|]; [|destruct Hx as [-> _]; left; rewrite app_nil_r; by apply Hnil].
  apply exec_bind in Hx as (t3 & t4 & jobName & -> & Hi3%choose_job_name_inert & Hx).
  apply exec_orReply in Hx as [(t5 & t6 & [[[sha crid] crurl] [tok exp]] & -> & Hi5%github_context_inert & Hx)|
    Hi%github_context_inert]; [|left; apply Hnil; by repeat apply inert_app].
  pose proof (inert_app _ _ Hi1 (inert_app _ _ Hi3 Hi5)) as Hi. clear Hi1 Hi3 Hi5.
  destruct (Hcap eq_refl) as [Hb1 Hb2]. clear Hcap.
  apply (below_mono _ _ [] _ (t3 ++ t5)) in Hb1, Hb2. cbn [app] in Hb1, Hb2.
  replace (t1 ++ t3 ++ t5 ++ t6) with ((t1 ++ t3 ++ t5) ++ t6) by (by rewrite <- !(assoc_L (++))).
  set (t0 := t1 ++ t3 ++ t5) in *. clearbody t0. destruct Hi as [[Hig Hij] Him].
  apply exec_orReply in Hx as [(t7 & t8 & auto & -> & (Hj7 & Hm7 & Hg7)%ensure_autogrant_exec & Hx)|
    (Hj7 & Hm7 & Hg7)%ensure_autogrant_exec]; cycle 1.
  { left. rewrite !omap_app, Hig, Hij, Him, Hj7, Hm7. do 2 (split; [done|]). cbn [app].
    intros g ->%Hg7. eauto 12. }
  right. apply exec_bind in Hx as (t9 & t10 & c & -> & H9%exec_trigger & Hx). subst t9.
  set (j := new_agent_job _ _ _ _ _ _ _) in *. exists j, repo, (gr_PullNumber ref).
  assert (Hend : inert t10 /\ (forall aj, c = Ok aj ->
      rp_Status rep = 201 \/ m_Name (aj_Meta aj) ∈ omap obs_deljob t10)).
  { destruct c as [aj|]; [|by destruct Hx as [-> _]].
    apply exec_orReply in Hx as [(ta & tb & [] & -> & [Hp _]%provision_job_exec & Hx)|
      [Hp Hd]%provision_job_exec]; [|split; [done|]; intros ? [= <-]; right; by apply Hd].
    apply exec_bind in Hx as (tc & td & u & -> & Hc%audit_inert & Hx).
    apply exec_bind in Hx as (te & tf & v & -> & He%comment_inert & [-> ->]).
    split; [repeat apply inert_app; done | by left]. }
  destruct Hend as [[[Hg10 Hj10] Hm10] Hrep]. rewrite !omap_app, Hij, Him, Hig, Hj7, Hm7. cbn.
  rewrite Hj10, Hm10. split; [done|]. split; [|split].
  - destruct (check_job_request_ok _ _ _ _ _ Hreq) as (Hgh & Hallow & Hpull).
    exists req, gh, ref. do 8 (split; [done|]). split; [by eexists|].
    split; [by apply (below_mono _ _ [] t0) | by apply (below_mono _ _ [] t0)].
  - intros g Hin. rewrite Hg10, app_nil_r in Hin. by apply Hg7 in Hin.
  - intros aj Hin. destruct c as [aj'|]; [|by apply not_elem_of_nil in Hin].
    apply list_elem_of_singleton in Hin as ->. destruct (Hrep aj' eq_refl) as [|Hd]; [by left|right].
    rewrite !elem_of_app. auto.
Qed.
End create_job.

(** C13: what [handleCreateAgentJob] creates.  A job is created only for a caller
    with the webhook (or admin) token, for an allowlisted repository and a
    positive pull request number, in the agents namespace, and only while the
    active jobs listed are below the configured caps (in total and for the
    repository).  At most one job is created, and every grant created with it is
    its autogrant: approved, but bound to this job, for the four GitHub hosts on
    port 443 only. *)
Theorem created_job_checked jwt_sign decode_token decode_comment decode_pull decode_check_run
    time_Parse app_sign s r body tr rep j :
  exec (handleCreateAgentJob jwt_sign decode_token decode_comment decode_pull decode_check_run
    time_Parse app_sign s r body) tr rep ->
  j ∈ omap obs_newjob tr ->
  omap obs_newjob tr = [j] /\ exists repo pull, job_allowed s r body tr j repo pull /\
    forall g, g ∈ omap obs_newgrant tr ->
      ngs_AgentJobRef (ng_Spec g) = Some {| ajr_Name := m_Name (aj_Meta j) |}
      /\ m_Namespace (ng_Meta g) = "agents"
      /\ ngs_PolicyMode (ng_Spec g) = NetworkGrantPolicyModeProxyConnect
      /\ (forall er, er ∈ ngs_Egress (ng_Spec g) -> er_Host er ∈ github_hosts /\ er_Ports er = [443])
      /\ ngs_DNSAllow (ng_Spec g) = [] /\ ngs_AllowNon443 (ng_Spec g) = false.
Proof.
  intros [(Hj & _)|(j' & repo & pull & Hj & Hok & Hg & _)]%job_handler_exec; rewrite Hj.
  - by intros ?%not_elem_of_nil.
  - intros ->%list_elem_of_singleton. split; [done|]. exists repo, pull. split; [done|].
    intros g ->%Hg. do 3 (split; [done|]). split; [|done].
    intros er (h & -> & Hh)%list_elem_of_fmap. done.
Qed.

(** C14: no half-made jobs.  When the API server has created the job and the
    handler then fails (the GitHub token secret, the job token or its secret),
    it deletes the job again: a created job either answers 201 or is deleted. *)
Theorem failed_job_removed jwt_sign decode_token decode_comment decode_pull decode_check_run
    time_Parse app_sign s r body tr rep aj :
  exec (handleCreateAgentJob jwt_sign decode_token decode_comment decode_pull decode_check_run
    time_Parse app_sign s r body) tr rep ->
  aj ∈ omap obs_madejob tr -> rp_Status rep <> 201 ->
  m_Name (aj_Meta aj) ∈ omap obs_deljob tr.
Proof.
  intros [(_ & Hm & _)|(j & repo & pull & _ & _ & _ & Hd)]%job_handler_exec Hin Hne.
  - rewrite Hm in Hin. by apply not_elem_of_nil in Hin.
  - by destruct (Hd aj Hin).
Qed.

Definition demo_job_request : createAgentJobRequest := {|
  cj_Namespace := ""; cj_Name := "job-7"; cj_PolicyProfile := ""; cj_TTLSecondsAfterFinished := 0;
  cj_GitHub := Some {| gr_Repo := "Acme/App"; gr_PullNumber := 7; gr_Actor := "alice"; gr_CommentURL := "" |} |}.
(** With a JWT library that signs, and with one that fails. *)
Definition demo_job_handler (sign : result error string) : bprog reply :=
  handleCreateAgentJob (fun _ _ => sign) (fun _ => Ok ("t", "later")) (fun _ => Ok "")
    (fun _ => Ok "abc") (fun _ => Ok (1, "")) (fun _ => Ok 0) (fun _ _ _ => Ok "")
    demo_server demo_webhook (Some demo_job_request).

Lemma created_job_checked_witness :
  length (omap obs_newjob (demo_run (demo_job_handler (Ok "jwt"))).1.2) = 1%nat
  /\ length (omap obs_newgrant (demo_run (demo_job_handler (Ok "jwt"))).1.2) = 1%nat
  /\ forall j, j ∈ omap obs_newjob (demo_run (demo_job_handler (Ok "jwt"))).1.2 ->
     exists repo pull, job_allowed demo_server demo_webhook (Some demo_job_request)
       (demo_run (demo_job_handler (Ok "jwt"))).1.2 j repo pull.
Proof.
  split; [vm_compute; reflexivity|]. split; [vm_compute; reflexivity|]. intros j Hj.
  destruct (created_job_checked (fun _ _ => Ok "jwt") (fun _ => Ok ("t", "later")) (fun _ => Ok "")
    (fun _ => Ok "abc") (fun _ => Ok (1, "")) (fun _ => Ok 0) (fun _ _ _ => Ok "") demo_server demo_webhook
    (Some demo_job_request) (demo_run (demo_job_handler (Ok "jwt"))).1.2
    (demo_run (demo_job_handler (Ok "jwt"))).1.1 j (run_is_exec _ (demo_job_handler (Ok "jwt")) tt) Hj)
    as (_ & repo & pull & Hok & _).
  by exists repo, pull.
Defined.

Lemma failed_job_removed_witness :
  rp_Status (demo_run (demo_job_handler (Err (Errorf "" [])))).1.1 = 500
  /\ exists aj, omap obs_madejob (demo_run (demo_job_handler (Err (Errorf "" [])))).1.2 = [aj]
  /\ m_Name (aj_Meta aj) ∈ omap obs_deljob (demo_run (demo_job_handler (Err (Errorf "" [])))).1.2.
Proof.
  split; [vm_compute; reflexivity|].
  destruct (omap obs_madejob (demo_run (demo_job_handler (Err (Errorf "" [])))).1.2) as [|aj l] eqn:E;
    [vm_compute in E; discriminate|].
  exists aj. split; [vm_compute in E |- *; congruence|].
  apply (failed_job_removed (fun _ _ => Err (Errorf "" [])) (fun _ => Ok ("t", "later")) (fun _ => Ok "")
    (fun _ => Ok "abc") (fun _ => Ok (1, "")) (fun _ => Ok 0) (fun _ _ _ => Ok "") demo_server demo_webhook
    (Some demo_job_request) (demo_run (demo_job_handler (Err (Errorf "" [])))).1.2
    (demo_run (demo_job_handler (Err (Errorf "" [])))).1.1 aj
    (run_is_exec _ (demo_job_handler (Err (Errorf "" []))) tt)).
  - rewrite E. apply list_elem_of_here.
  - vm_compute. discriminate.
Defined.
