(* ===== verification/BrokerApi.v ===== *)
(** The HTTP interface of the capability broker: the routes of [main] and the
    decoding of the bodies (src/cmd/capability-broker/main.go, github.go).

    A body is the value the sender gave to [json.Marshal].  [json_sent] is what
    [encoding/json] makes of its texts on the way: each byte that belongs to no UTF-8
    encoding becomes U+FFFD.  [decode_*] do the rest for the structs of the source:
    unknown members are ignored, names match up to case, numbers must fit the width
    of their field.  Of a member given twice only the last one counts here.  JSON null, which no client of
    this program sends, is not a [value]. *)
From S2P Require Export GoCrypto Broker.
From stdpp Require Import options.
Open Scope Z_scope.

(** * Texts *)

(** The bytes 128 to 191, and the leading bytes of two-, three- and four-byte encodings
    with the byte after them: no overlong form, no surrogate, at most U+10FFFF. *)
Definition in_range (lo hi : nat) (c : ascii) : bool := ((lo <=? code c) && (code c <=? hi))%nat.
Definition utf8_tail : ascii -> bool := in_range 0x80 0xBF.
Definition utf8_two (a b : ascii) : bool := in_range 0xC2 0xDF a && utf8_tail b.
Definition utf8_three (a b c : ascii) : bool :=
  utf8_tail c &&
  (in_range 0xE0 0xE0 a && in_range 0xA0 0xBF b
   || (in_range 0xE1 0xEC a || in_range 0xEE 0xEF a) && utf8_tail b
   || in_range 0xED 0xED a && in_range 0x80 0x9F b).
Definition utf8_four (a b c d : ascii) : bool :=
  utf8_tail c && utf8_tail d &&
  (in_range 0xF0 0xF0 a && in_range 0x90 0xBF b
   || in_range 0xF1 0xF3 a && utf8_tail b
   || in_range 0xF4 0xF4 a && in_range 0x80 0x8F b).

(** U+FFFD. *)
Definition replacement : list ascii := [byte 0xEF; byte 0xBF; byte 0xBD].
(** A text after [encoding/json] ([utf8.DecodeRuneInString] at each place). *)
Fixpoint json_bytes (l : list ascii) : list ascii :=
  match l with
  | [] => []
  | a :: l1 =>
      if in_range 0 0x7F a then a :: json_bytes l1 else
      match l1 with
      | b :: l2 =>
          if utf8_two a b then a :: b :: json_bytes l2 else
          match l2 with
          | c :: l3 =>
              if utf8_three a b c then a :: b :: c :: json_bytes l3 else
              match l3 with
              | d :: l4 => if utf8_four a b c d then a :: b :: c :: d :: json_bytes l4 else replacement ++ json_bytes l1
              | [] => replacement ++ json_bytes l1
              end
          | [] => replacement ++ json_bytes l1
          end
      | [] => replacement ++ json_bytes l1
      end
  end.
Definition json_text (s : string) : string := l2s (json_bytes (s2l s)).

(** Texts in UTF-8, which are not changed. *)
Inductive utf8 : list ascii -> Prop :=
| utf8_nil : utf8 []
| utf8_1 a l : in_range 0 0x7F a = true -> utf8 l -> utf8 (a :: l)
| utf8_2 a b l : utf8_two a b = true -> utf8 l -> utf8 (a :: b :: l)
| utf8_3 a b c l : utf8_three a b c = true -> utf8 l -> utf8 (a :: b :: c :: l)
| utf8_4 a b c d l : utf8_four a b c d = true -> utf8 l -> utf8 (a :: b :: c :: d :: l).

Lemma in_range_true lo hi c : in_range lo hi c = true <-> (lo <= code c <= hi)%nat.
Proof. unfold in_range. rewrite andb_true_iff, !Nat.leb_le. done. Qed.
Lemma in_range_false lo hi c : in_range lo hi c = false <-> ~ (lo <= code c <= hi)%nat.
Proof. rewrite <- in_range_true. by destruct (in_range lo hi c). Qed.

Lemma json_text_utf8 s : utf8 (s2l s) -> json_text s = s.
Proof.
  intros Hs. apply s2l_inj. unfold json_text. rewrite s2l_l2s.
  induction Hs as [|a l H _ IH|a b l H _ IH|a b c l H _ IH|a b c d l H _ IH]; [done|..]; cbn [json_bytes].
  1: by rewrite H, IH.
  all: assert (Ha : in_range 0 0x7F a = false)
    by (unfold utf8_two, utf8_three, utf8_four in H; rewrite ?andb_true_iff, ?orb_true_iff, ?andb_true_iff, ?orb_true_iff, ?in_range_true in H;
        apply in_range_false; lia).
  all: rewrite Ha.
  1: by rewrite H, IH.
  all: assert (H2 : utf8_two a b = false)
    by (unfold utf8_three, utf8_four in H; rewrite ?andb_true_iff, ?orb_true_iff, ?andb_true_iff, ?orb_true_iff, ?in_range_true in H;
        unfold utf8_two; apply andb_false_iff; left; apply in_range_false; lia).
  all: rewrite H2.
  1: by rewrite H, IH.
  assert (H3 : utf8_three a b c = false).
  { unfold utf8_four in H. rewrite ?andb_true_iff, ?orb_true_iff, ?andb_true_iff, ?in_range_true in H. unfold utf8_three.
    rewrite !(proj2 (in_range_false _ _ a)) by lia. by destruct (utf8_tail c). }
  by rewrite H3, H, IH.
Qed.

Example json_text_ex :
  json_text (l2s (byte <$> [0xC3; 0xA9; 0xE2; 0x82; 0xAC; 0xF0; 0x9F; 0x98; 0x80]%nat))
    = l2s (byte <$> [0xC3; 0xA9; 0xE2; 0x82; 0xAC; 0xF0; 0x9F; 0x98; 0x80]%nat)
  /\ json_text (l2s (byte <$> [0x63; 0xE9; 0x64; 0xED; 0xA0; 0x80]%nat))
    = l2s (byte 0x63 :: replacement ++ byte 0x64 :: replacement ++ replacement ++ replacement).
Proof. vm_compute. done. Qed.

(** The names of members are left as they are: one with such a byte matches no field
    in either form. *)
Fixpoint json_sent (v : value) : value :=
  match v with
  | VStr s => VStr (json_text s)
  | VList l => VList (map json_sent l)
  | VObj l => VObj (map (fun kv => (kv.1, json_sent kv.2)) l)
  | _ => v
  end.

(** * Decoding *)

(** The members whose name matches a tag, and the value they give a field. *)
Definition members (tag : string) (l : list (string * value)) : list value :=
  snd <$> filter (fun kv => ToLower kv.1 = ToLower tag) l.
Definition field {A} (d : value -> option A) (tag : string) (zero : A) (l : list (string * value)) : option A :=
  xs ← mapM d (members tag l); Some (default zero (list.last xs)).

Definition d_string (v : value) : option string := match v with VStr s => Some s | _ => None end.
Definition d_bool (v : value) : option bool := match v with VBool b => Some b | _ => None end.
(** A signed integer of [w] bits. *)
Definition d_int (w : Z) (v : value) : option Z :=
  match v with VInt z => if (- 2 ^ (w - 1) <=? z) && (z <? 2 ^ (w - 1)) then Some z else None | _ => None end.
Definition d_list {A} (d : value -> option A) (v : value) : option (list A) :=
  match v with VList l => mapM d l | _ => None end.
Definition d_object {A} (d : list (string * value) -> option A) (v : value) : option A :=
  match v with VObj l => d l | _ => None end.
Definition d_pointer {A} (d : value -> option A) (v : value) : option (option A) := Some <$> d v.

Definition decode_rule : value -> option NetworkGrantEgressRule := d_object (fun l =>
  host ← field d_string "host" "" l;
  ports ← field (d_list (d_int 32)) "ports" [] l;
  Some {| er_Host := host; er_Ports := ports |}).

(** The GitHub context of a grant has a repository and a pull request only. *)
Definition decode_pull_ref : value -> option github_ref := d_object (fun l =>
  repo ← field d_string "repo" "" l;
  pull ← field (d_int 64) "pullNumber" 0 l;
  Some {| gr_Repo := repo; gr_PullNumber := pull; gr_Actor := ""; gr_CommentURL := "" |}).
Definition decode_job_ref : value -> option github_ref := d_object (fun l =>
  repo ← field d_string "repo" "" l;
  pull ← field (d_int 64) "pullNumber" 0 l;
  actor ← field d_string "actor" "" l;
  url ← field d_string "commentUrl" "" l;
  Some {| gr_Repo := repo; gr_PullNumber := pull; gr_Actor := actor; gr_CommentURL := url |}).

Definition decode_grant_request : value -> option createNetworkGrantRequest := d_object (fun l =>
  namespace ← field d_string "namespace" "" l;
  name ← field d_string "name" "" l;
  agentJob ← field d_string "agentJob" "" l;
  policyMode ← field d_string "policyMode" "" l;
  protocol ← field d_string "protocol" "" l;
  purpose ← field d_string "purpose" "" l;
  egress ← field (d_list decode_rule) "egress" [] l;
  dnsAllow ← field (d_list d_string) "dnsAllow" [] l;
  allowNon443 ← field d_bool "allowNon443" false l;
  ttl ← field (d_int 32) "ttlSeconds" 0 l;
  reason ← field d_string "reason" "" l;
  github ← field (d_pointer decode_pull_ref) "github" None l;
  Some {| cg_Namespace := namespace; cg_Name := name; cg_AgentJob := agentJob; cg_PolicyMode := policyMode;
    cg_Protocol := protocol; cg_Purpose := purpose; cg_Egress := egress; cg_DNSAllow := dnsAllow;
    cg_AllowNon443 := allowNon443; cg_TTLSeconds := ttl; cg_Reason := reason; cg_GitHub := github |}).

Definition decode_approval : value -> option approveNetworkGrantRequest := d_object (fun l =>
  approvedBy ← field d_string "approvedBy" "" l;
  reason ← field d_string "reason" "" l;
  ttl ← field (d_pointer (d_int 32)) "ttlSeconds" None l;
  Some {| ap_ApprovedBy := approvedBy; ap_Reason := reason; ap_TTLSeconds := ttl |}).

Definition decode_job_request : value -> option createAgentJobRequest := d_object (fun l =>
  namespace ← field d_string "namespace" "" l;
  name ← field d_string "name" "" l;
  profile ← field d_string "policyProfile" "" l;
  ttl ← field (d_int 32) "ttlSecondsAfterFinished" 0 l;
  github ← field (d_pointer decode_job_ref) "github" None l;
  Some {| cj_Namespace := namespace; cj_Name := name; cj_PolicyProfile := profile;
    cj_TTLSecondsAfterFinished := ttl; cj_GitHub := github |}).

Definition decode_pr_request : value -> option githubOpenPRRequest := d_object (fun l =>
  repo ← field d_string "repo" "" l;
  base ← field d_string "base" "" l;
  title ← field d_string "title" "" l;
  body ← field d_string "body" "" l;
  patch ← field d_string "patch" "" l;
  msg ← field d_string "commitMessage" "" l;
  branch ← field d_string "branch" "" l;
  draft ← field d_bool "draft" false l;
  Some {| op_Repo := repo; op_Base := base; op_Title := title; op_Body := body; op_Patch := patch;
    op_CommitMessage := msg; op_Branch := branch; op_Draft := draft |}).

(** * Routes *)

(** The segments of the path of an absolute URL, up to a query or a fragment.
    Percent escapes are left as they are. *)
Fixpoint before_query (l : list ascii) : list ascii :=
  match l with
  | [] => []
  | c :: l' => if decide (c = byte 63 \/ c = byte 35) then [] else c :: before_query l'
  end.
Definition url_segments (url : string) : option (list string) :=
  match Split (l2s (before_query (s2l url))) (byte 47) with
  | _ :: blank :: _ :: segs => if decide (blank = "") then Some segs else None
  | _ => None
  end.

Inductive endpoint :=
| EHealth
| ECreateGrant
| EApprove (ns name : string)
| EApproveGitHub (ns name : string)
| EOpenPR
| ECreateJob.

(** The method and the endpoint of a path. *)
Definition route (segs : list string) : option (string * endpoint) :=
  match segs with
  | [p] => if decide (p = "healthz" \/ p = "readyz") then Some ("GET", EHealth) else None
  | v1 :: rest =>
      if decide (v1 <> "v1") then None else
      match rest with
      | [p] => if decide (p = "network-grants") then Some ("POST", ECreateGrant) else
               if decide (p = "agent-jobs") then Some ("POST", ECreateJob) else None
      | [p; q] => if decide (p = "github" /\ q = "open-pr") then Some ("POST", EOpenPR) else None
      | [p; ns; name; action] =>
          if decide (p <> "network-grants") then None else
          if decide (action = "approve") then Some ("POST", EApprove ns name) else
          if decide (action = "approve-github") then Some ("POST", EApproveGitHub ns name) else None
      | _ => None
      end
  | [] => None
  end.

Definition url_params (e : endpoint) (k : string) : string :=
  match e with
  | EApprove ns name | EApproveGitHub ns name =>
      if decide (k = "namespace") then ns else if decide (k = "name") then name else ""
  | _ => ""
  end.

(** [r.Header.Get]: names are compared up to case. *)
Definition header_get (hs : list (string * string)) (k : string) : string :=
  default "" (snd <$> head (filter (fun h => ToLower h.1 = ToLower k) hs)).

(** What is sent back: a status without a body, a reply, or an opened pull request. *)
Inductive served := SStatus (status : Z) | SReply (r : reply) | SOpened (r : githubOpenPRResponse).

Section serve.
Context (jwt_sign : string -> jobTokenClaims -> result error string).
Context (jwt_parse : string -> string -> Z -> result error jobTokenClaims).
Context (decode_token : string -> result error (string * string)).
Context (decode_pr : string -> result error (Z * string)).
Context (decode_comment : string -> result error string).
Context (decode_pull : string -> result error string).
Context (decode_check_run : string -> result error (Z * string)).
Context (time_Parse : string -> result error Z).
Context (app_sign : string -> Z -> Z -> result error string).
Context (json_length : value -> Z).    (* of the encoded body *)

Definition request_of (q : HttpRequest) (e : endpoint) (addr id : string) : HttpReq := {|
  hq_Header := header_get (hr_Headers q); hq_RemoteAddr := addr; hq_RequestID := id; hq_URLParam := url_params e |}.

(** The body of [http.MaxBytesReader(w, r.Body, 5<<20)]. *)
Definition limited (v : option value) : option value :=
  v ← v; if json_length v <=? 5 * 2 ^ 20 then Some v else None.

(** A request with its remote address and the identifier given to it. *)
Definition serve (s : server) (q : HttpRequest) (addr id : string) : bprog served :=
  match url_segments (hr_URL q) ≫= route with
  | None => mret (SStatus 404)
  | Some (method, e) =>
      if decide (hr_Method q <> method) then mret (SStatus 405) else
      let r := request_of q e addr id in
      match e with
      | EHealth => mret (SStatus 200)
      | ECreateGrant =>
          rep ← handleCreateNetworkGrant jwt_parse decode_token decode_comment time_Parse app_sign s r
                  ((json_sent <$> hr_Body q) ≫= decode_grant_request);
          mret (SReply rep)
      | EApprove _ _ =>
          rep ← handleApproveNetworkGrant s r ((json_sent <$> hr_Body q) ≫= decode_approval); mret (SReply rep)
      | EApproveGitHub _ _ =>
          rep ← handleApproveNetworkGrantGitHub s r ((json_sent <$> hr_Body q) ≫= decode_approval); mret (SReply rep)
      | EOpenPR =>
          rep ← handleGitHubOpenPR decode_token decode_pr time_Parse app_sign (fun s => sha256 (s2l s)) jwt_parse s r
                  ((json_sent <$> limited (hr_Body q)) ≫= decode_pr_request);
          mret (match rep with inl rep => SReply rep | inr resp => SOpened resp end)
      | ECreateJob =>
          rep ← handleCreateAgentJob jwt_sign decode_token decode_comment decode_pull decode_check_run time_Parse app_sign s r
                  ((json_sent <$> hr_Body q) ≫= decode_job_request);
          mret (SReply rep)
      end
  end.
End serve.

Example decode_ex :
  decode_approval (VObj [("approvedBy", VStr "alice"); ("TTLSeconds", VInt 60); ("x", VBool true)])
    = Some {| ap_ApprovedBy := "alice"; ap_Reason := ""; ap_TTLSeconds := Some 60 |}
  /\ decode_approval (VObj [("ttlSeconds", VInt 3000000000)]) = None
  /\ (url_segments "http://broker:8080/v1/network-grants/agents/g1/approve?x=1" ≫= route) = Some ("POST", EApprove "agents" "g1")
  /\ (url_segments "http://broker:8080//v1/agent-jobs" ≫= route) = None.
Proof. vm_compute. done. Qed.
