(* ===== verification/Webhook.v ===== *)
(** The GitHub webhook (src/cmd/github-webhook/main.go): the signature of a
    delivery, the commands of a comment, and the requests to the broker.

    [json.Unmarshal] of the event is a parameter; SHA-256 and HMAC are written
    out.  A request whose URL does not parse is an error of the call. *)
From S2P Require Export GoCrypto GoTime GitHub.
From stdpp Require Import options.
Open Scope Z_scope.

(** * Data *)

Record hookserver := {
  wh_webhookSecret : list ascii;
  wh_repoAllowlist : gset string;
  wh_approverAllowlist : gset string;
  wh_launcherAllowlist : gset string;
  wh_brokerBaseURL : string;
  wh_brokerHeader : string;
  wh_brokerToken : string;
}.

(** [r.Method], [r.Header.Get] and the body ([None]: reading it fails). *)
Record delivery := {
  dl_Method : string;
  dl_Header : string -> string;
  dl_Body : option (list ascii);
}.

Record issueCommentEvent := {
  ic_Action : string;
  ic_Repo : string;
  ic_Number : Z;
  ic_PullRequest : list ascii;
  ic_Body : string;
  ic_HTMLURL : string;
  ic_Login : string;
}.

Record netgrantApproveCommand := { nc_Namespace : string; nc_Name : string; nc_TTL : option Z }.
Record agentRunCommand := { rc_PolicyProfile : string; rc_TTL : option Z }.

(** * Configuration *)

Definition add_csv (out : gset string) (part : string) : gset string :=
  let s := ToLower (TrimSpace part) in
  if decide (s = "") then out else {[s]} ∪ out.
Definition parseCSVSet (csv : string) : gset string := fold_left add_csv (Split csv (byte 44)) ∅.

(** [main]: the server it starts, or the message it dies with. *)
Definition hook_config (env : string -> string) : result error hookserver :=
  let secret := env "GITHUB_WEBHOOK_SECRET" in
  if decide (secret = "") then Err (Errorf "GITHUB_WEBHOOK_SECRET is required" []) else
  let repos := parseCSVSet (env "GITHUB_REPO_ALLOWLIST") in
  if decide (repos = ∅)
  then Err (Errorf "GITHUB_REPO_ALLOWLIST is empty (secure default: deny all)" []) else
  let approvers := parseCSVSet (env "GITHUB_APPROVER_ALLOWLIST") in
  if decide (approvers = ∅)
  then Err (Errorf "GITHUB_APPROVER_ALLOWLIST is empty (secure default: deny all)" []) else
  let launchers := parseCSVSet (env "GITHUB_LAUNCHER_ALLOWLIST") in
  let launchers := if decide (launchers = ∅) then approvers else launchers in
  let brokerBase := TrimRight (env "BROKER_BASE_URL") (byte 47) in
  if decide (brokerBase = "") then Err (Errorf "BROKER_BASE_URL is required" []) else
  let start header token := Ok {|
    wh_webhookSecret := s2l secret; wh_repoAllowlist := repos;
    wh_approverAllowlist := approvers; wh_launcherAllowlist := launchers;
    wh_brokerBaseURL := brokerBase; wh_brokerHeader := header; wh_brokerToken := token |} in
  if decide (TrimSpace (env "BROKER_WEBHOOK_TOKEN") <> "")
  then start "X-Broker-Webhook-Token" (TrimSpace (env "BROKER_WEBHOOK_TOKEN"))
  else if decide (TrimSpace (env "BROKER_ADMIN_TOKEN") <> "")
  then start "X-Broker-Admin-Token" (TrimSpace (env "BROKER_ADMIN_TOKEN"))
  else Err (Errorf "BROKER_WEBHOOK_TOKEN (preferred) or BROKER_ADMIN_TOKEN is required" []).

(** * Commands *)

(** The loop of findCommandLine over the lines. *)
Fixpoint command_line (lines : list string) (prefix : string) : option string :=
  match lines with
  | [] => None
  | raw :: lines' =>
      let line := TrimSpace raw in
      if decide (line = "") then command_line lines' prefix else
      let line := Trim line (byte 96) in
      if HasPrefix line prefix then Some line else command_line lines' prefix
  end.
Definition findCommandLine (body prefix : string) : option string :=
  command_line (Split body (byte 10)) prefix.

(** [ttl=<seconds>] *)
Definition parse_ttl (raw : string) : option Z :=
  n ← ParseInt raw 32;
  if (n <=? 0) || (86400 <? n) then None else Some n.

(** [None]: the command is refused. *)
Fixpoint netgrant_options (parts : list string) (ttl : option Z) : option (option Z) :=
  match parts with
  | [] => Some ttl
  | p :: parts' =>
      if HasPrefix p "ttl="
      then n ← parse_ttl (TrimPrefix p "ttl="); netgrant_options parts' (Some n)
      else netgrant_options parts' ttl
  end.

Definition netgrant_target (target : string) : option (string * string) :=
  if Contains target "/" then
    match Split target (byte 47) with
    | [ns; name] => if decide (ns = "" \/ name = "") then None else Some (ns, name)
    | _ => None
    end
  else Some ("agents", target).

Definition parseNetgrantApproveCommand (body : string) : option netgrantApproveCommand :=
  line ← findCommandLine body "/netgrant";
  match Fields line with
  | p0 :: p1 :: p2 :: rest =>
      if decide (p0 <> "/netgrant" \/ p1 <> "approve") then None else
      let target := TrimSpace p2 in
      if decide (target = "") then None else
      '(ns, name) ← netgrant_target target;
      ttl ← netgrant_options rest None;
      Some {| nc_Namespace := ns; nc_Name := name; nc_TTL := ttl |}
  | _ => None
  end.

Definition after_eq (p : string) : string :=
  match index_byte (byte 61) (s2l p) with Some i => str_drop (S i) p | None => "" end.

Fixpoint run_options (parts : list string) (out : agentRunCommand) : option agentRunCommand :=
  match parts with
  | [] => Some out
  | p :: parts' =>
      if HasPrefix p "profile=" || HasPrefix p "policyProfile="
      then run_options parts' {| rc_PolicyProfile := TrimSpace (after_eq p); rc_TTL := rc_TTL out |}
      else if HasPrefix p "ttl="
      then n ← parse_ttl (TrimSpace (TrimPrefix p "ttl="));
           run_options parts' {| rc_PolicyProfile := rc_PolicyProfile out; rc_TTL := Some n |}
      else run_options parts' out
  end.

Definition parseAgentRunCommand (body : string) : option agentRunCommand :=
  line ← findCommandLine body "/agent";
  match Fields line with
  | p0 :: p1 :: rest =>
      if decide (p0 <> "/agent" \/ p1 <> "run") then None
      else run_options rest {| rc_PolicyProfile := ""; rc_TTL := None |}
  | _ => None
  end.

(** * The broker *)

Definition broker_request (s : hookserver) (path : string) (payload : value) : HttpRequest := {|
  hr_Method := "POST"; hr_URL := wh_brokerBaseURL s +:+ path;
  hr_Headers := [("Content-Type", "application/json"); (wh_brokerHeader s, wh_brokerToken s)];
  hr_Body := Some payload |}.

(** [what]: the request named in the error. *)
Definition call_broker (what : string) (r : HttpRequest) : kprog (result error unit) :=
  resp ← trigger (HttpDo r);
  mret (match resp with
        | Err e => Err e
        | Ok resp =>
            if (hp_Status resp <? 200) || (300 <=? hp_Status resp)
            then Err (Errorf (what +:+ ": status=%d body=%s")
                   [VInt (hp_Status resp); VStr (TrimSpace (read_limited 1048576 (hp_Body resp)))])
            else Ok tt
        end).

Definition approve_request (s : hookserver) (cmd : netgrantApproveCommand) (approvedBy reason : string)
    : HttpRequest :=
  let path := if decide (wh_brokerHeader s = "X-Broker-Webhook-Token") then "approve-github" else "approve" in
  broker_request s ("/v1/network-grants/" +:+ nc_Namespace cmd +:+ "/" +:+ nc_Name cmd +:+ "/" +:+ path)
    (VObj ([("approvedBy", VStr approvedBy); ("reason", VStr reason)]
           ++ match nc_TTL cmd with Some t => [("ttlSeconds", VInt t)] | None => [] end)).

Definition approveNetworkGrant (s : hookserver) (cmd : netgrantApproveCommand) (approvedBy reason : string)
    : kprog (result error unit) :=
  call_broker "broker approve" (approve_request s cmd approvedBy reason).

Definition job_request (s : hookserver) (repo : string) (prNumber : Z) (actor commentURL : string)
    (cmd : agentRunCommand) : HttpRequest :=
  broker_request s "/v1/agent-jobs"
    (VObj ([("github", VObj [("repo", VStr repo); ("pullNumber", VInt prNumber);
                             ("actor", VStr actor); ("commentUrl", VStr commentURL)])]
           ++ (if decide (TrimSpace (rc_PolicyProfile cmd) <> "")
               then [("policyProfile", VStr (TrimSpace (rc_PolicyProfile cmd)))] else [])
           ++ match rc_TTL cmd with Some t => [("ttlSecondsAfterFinished", VInt t)] | None => [] end)).

Definition createAgentJob (s : hookserver) (repo : string) (prNumber : Z) (actor commentURL : string)
    (cmd : agentRunCommand) : kprog (result error unit) :=
  call_broker "broker create agent job" (job_request s repo prNumber actor commentURL cmd).

(** * The handler *)

Definition verifySignature (s : hookserver) (sigHeader : string) (body : list ascii) : result error unit :=
  let sigHeader := TrimSpace sigHeader in
  if negb (HasPrefix sigHeader "sha256=") then Err (Errorf "missing sha256 signature" []) else
  match hex_decode (TrimPrefix sigHeader "sha256=") with
  | None => Err (Errorf "invalid signature encoding" [])
  | Some want =>
      if decide (length want <> 32%nat) then Err (Errorf "invalid signature encoding" []) else
      if decide (hmac_sha256 (wh_webhookSecret s) body = want) then Ok tt
      else Err (Errorf "signature mismatch" [])
  end.

Section handler.
Context (json_event : list ascii -> option issueCommentEvent).

Definition comment_repo (ev : issueCommentEvent) : string := ToLower (TrimSpace (ic_Repo ev)).
Definition comment_actor (ev : issueCommentEvent) : string := ToLower (TrimSpace (ic_Login ev)).
Definition comment_reason (ev : issueCommentEvent) : string :=
  "github:" +:+ comment_repo ev +:+ "#" +:+ Itoa (ic_Number ev) +:+ " " +:+ TrimSpace (ic_HTMLURL ev).

(** Each command: [Ok handled], or the status of a failure. *)
Definition do_approve (s : hookserver) (ev : issueCommentEvent) : kprog (result Z bool) :=
  match parseNetgrantApproveCommand (ic_Body ev) with
  | Some cmd =>
      if decide (comment_actor ev ∈ wh_approverAllowlist s) then
        r ← approveNetworkGrant s cmd (comment_actor ev) (comment_reason ev);
        mret (match r with Ok _ => Ok true | Err _ => Err 502 end)
      else mret (Ok false)
  | None => mret (Ok false)
  end.

Definition do_run (s : hookserver) (ev : issueCommentEvent) : kprog (result Z bool) :=
  match parseAgentRunCommand (ic_Body ev) with
  | Some cmd =>
      if decide (comment_actor ev ∈ wh_launcherAllowlist s) then
        r ← createAgentJob s (comment_repo ev) (ic_Number ev) (comment_actor ev) (TrimSpace (ic_HTMLURL ev)) cmd;
        mret (match r with Ok _ => Ok true | Err _ => Err 502 end)
      else mret (Ok false)
  | None => mret (Ok false)
  end.

Definition handleIssueComment (s : hookserver) (body : list ascii) : kprog Z :=
  match json_event body with
  | None => mret 400
  | Some ev =>
      if decide (ic_Action ev <> "created") then mret 202 else
      if decide (ic_PullRequest ev = []) then mret 202 else
      if decide (comment_repo ev = "") then mret 202 else
      if decide (comment_repo ev ∉ wh_repoAllowlist s) then mret 202 else
      if decide (comment_actor ev = "") then mret 202 else
      a ← do_approve s ev;
      match a with
      | Err status => mret status
      | Ok approved =>
          j ← do_run s ev;
          match j with
          | Err status => mret status
          | Ok launched => mret (if approved || launched then 200 else 202)
          end
      end
  end.

Definition handleGitHubWebhook (s : hookserver) (r : delivery) : kprog Z :=
  if decide (dl_Method r <> "POST") then mret 405 else
  let eventType := TrimSpace (dl_Header r "X-GitHub-Event") in
  if decide (eventType = "") then mret 400 else
  match dl_Body r with
  | None => mret 400
  | Some all =>
      let body := take (Z.to_nat 2097152) all in
      match verifySignature s (dl_Header r "X-Hub-Signature-256") body with
      | Err _ => mret 401
      | Ok _ =>
          if decide (eventType = "issue_comment") then handleIssueComment s body else mret 202
      end
  end.
End handler.

Example parse_commands_ex :
  parseNetgrantApproveCommand ("hi" +:+ NL +:+ "`/netgrant approve a/b ttl=60`")
  = Some {| nc_Namespace := "a"; nc_Name := "b"; nc_TTL := Some 60 |}
  /\ parseNetgrantApproveCommand "/netgrant approve b ttl=0" = None
  /\ parseAgentRunCommand "/agent run profile=p=q ttl=5"
     = Some {| rc_PolicyProfile := "p=q"; rc_TTL := Some 5 |}.
Proof. vm_compute. done. Qed.

Example verify_ex :
  let s := {| wh_webhookSecret := s2l "It's a Secret to Everybody"; wh_repoAllowlist := ∅;
    wh_approverAllowlist := ∅; wh_launcherAllowlist := ∅; wh_brokerBaseURL := ""; wh_brokerHeader := "";
    wh_brokerToken := "" |} in
  verifySignature s "sha256=757107ea0eb2509fc211221cce984b8a37570b6d7586c22c46f4379c8b043e17"
    (s2l "Hello, World!") = Ok tt.
Proof. vm_compute. done. Qed.

(** * What a delivery makes the webhook do *)

Definition posted (o : kobs) : option (HttpRequest * result error HttpResponse) :=
  match o with
  | Obs e x => match e in eff X return X -> option (HttpRequest * result error HttpResponse) with
               | HttpDo r => fun a => Some (r, a)
               | _ => fun _ => None
               end x
  end.

(** The broker answered with a status of the 200s. *)
Definition accepted (q : HttpRequest * result error HttpResponse) : Prop :=
  exists a, q.2 = Ok a /\ 200 <= hp_Status a < 300.

Section obeys.
Context (json_event : list ascii -> option issueCommentEvent).

(** The delivery is a comment event, signed under the server's secret. *)
Definition authentic (s : hookserver) (r : delivery) (ev : issueCommentEvent) : Prop :=
  dl_Method r = "POST" /\ TrimSpace (dl_Header r "X-GitHub-Event") = "issue_comment"
  /\ exists all sig, dl_Body r = Some all
     /\ TrimSpace (dl_Header r "X-Hub-Signature-256") = "sha256=" +:+ sig
     /\ hex_decode sig = Some (hmac_sha256 (wh_webhookSecret s) (take (Z.to_nat 2097152) all))
     /\ json_event (take (Z.to_nat 2097152) all) = Some ev.

(** A new comment on a pull request of an allowed repository. *)
Definition relevant (s : hookserver) (ev : issueCommentEvent) : Prop :=
  ic_Action ev = "created" /\ ic_PullRequest ev <> [] /\ comment_repo ev <> ""
  /\ comment_repo ev ∈ wh_repoAllowlist s /\ comment_actor ev <> "".

Definition approve_order (s : hookserver) (ev : issueCommentEvent) : option HttpRequest :=
  cmd ← parseNetgrantApproveCommand (ic_Body ev);
  if decide (comment_actor ev ∈ wh_approverAllowlist s)
  then Some (approve_request s cmd (comment_actor ev) (comment_reason ev)) else None.

Definition run_order (s : hookserver) (ev : issueCommentEvent) : option HttpRequest :=
  cmd ← parseAgentRunCommand (ic_Body ev);
  if decide (comment_actor ev ∈ wh_launcherAllowlist s)
  then Some (job_request s (comment_repo ev) (ic_Number ev) (comment_actor ev) (TrimSpace (ic_HTMLURL ev)) cmd)
  else None.

(** What the comment orders, in this order: an approval by an approver, a run by
    a launcher. *)
Definition orders (s : hookserver) (ev : issueCommentEvent) : list HttpRequest :=
  option_list (approve_order s ev) ++ option_list (run_order s ev).

(** The orders are carried out up to the first failure. *)
Definition carries_out (todo : list HttpRequest) (sent : list (HttpRequest * result error HttpResponse))
    (status : Z) : Prop :=
  sent.*1 = todo /\ Forall accepted sent /\ status = (if decide (todo = []) then 202 else 200)
  \/ exists done q, sent = done ++ [q] /\ Forall accepted done /\ ~ accepted q
     /\ sent.*1 `prefix_of` todo /\ status = 502.

Lemma call_broker_exec what r tr res : exec (call_broker what r) tr res ->
  exists a, omap posted tr = [(r, a)] /\ (accepted (r, a) <-> res = Ok tt).
Proof using Type.
  intros H. cbn in H. destruct H as (a & tr' & -> & -> & ->). exists a. split; [done|].
  unfold accepted. cbn. destruct a as [a|e]; [|split; [by intros (? & ? & _) | done]].
  destruct ((hp_Status a <? 200) || (300 <=? hp_Status a)) eqn:Hst.
  - split; [|done]. intros (b & [= <-] & ?). lia.
  - split; [done|]. intros _. exists a. split; [done | lia].
Qed.

(** One command: nothing is sent, or its order is. *)
Definition step_spec (order : option HttpRequest) (tr : list kobs) (r : result Z bool) : Prop :=
  match order with
  | None => omap posted tr = [] /\ r = Ok false
  | Some q => exists a, omap posted tr = [(q, a)]
      /\ (accepted (q, a) /\ r = Ok true \/ ~ accepted (q, a) /\ r = Err 502)
  end.

Lemma call_step what q tr r :
  exec (r ← call_broker what q; mret (match r with Ok _ => Ok true | Err _ => Err 502 end)) tr r ->
  step_spec (Some q) tr r.
Proof using Type.
  intros (t1 & t2 & res & -> & H1 & H2)%exec_bind. apply call_broker_exec in H1 as (a & Hp & Ha).
  destruct H2 as [-> ->]. exists a. rewrite app_nil_r. split; [done|].
  destruct res as [[]|e]; [left; split; [by apply Ha | done] | right; split; [by intros ?%Ha | done]].
Qed.

Lemma do_approve_exec s ev tr r : exec (do_approve s ev) tr r -> step_spec (approve_order s ev) tr r.
Proof using Type.
  unfold do_approve, approve_order. destruct (parseNetgrantApproveCommand (ic_Body ev)) as [cmd|]; cbn [mbind option_bind].
  - case_decide; [apply call_step | by intros [-> ->]].
  - by intros [-> ->].
Qed.

Lemma do_run_exec s ev tr r : exec (do_run s ev) tr r -> step_spec (run_order s ev) tr r.
Proof using Type.
  unfold do_run, run_order. destruct (parseAgentRunCommand (ic_Body ev)) as [cmd|]; cbn [mbind option_bind].
  - case_decide; [apply call_step | by intros [-> ->]].
  - by intros [-> ->].
Qed.

Lemma commands_exec s ev tr status :
  exec (a ← do_approve s ev;
        match a with
        | Err status => mret status
        | Ok approved =>
            j ← do_run s ev;
            match j with
            | Err status => mret status
            | Ok launched => mret (if (approved : bool) || launched then 200 else 202)
            end
        end) tr status ->
  carries_out (orders s ev) (omap posted tr) status.
Proof using Type.
  intros (t1 & t2 & r1 & -> & H1 & H2)%exec_bind. apply do_approve_exec in H1. unfold orders, carries_out.
  rewrite omap_app. assert (Hone : forall q a, ~ accepted (q, a) -> forall todo status, status = 502 ->
    exists done q', [(q, a)] = done ++ [q'] /\ Forall accepted done /\ ~ accepted q'
      /\ [(q, a)].*1 `prefix_of` q :: todo /\ status = 502).
  { intros q a Hq todo st ->. exists [], (q, a). split_and!; [done | constructor | done | by exists todo | done]. }
  destruct (approve_order s ev) as [q|]; cbn in H1.
  - destruct H1 as (a & -> & [[Ha ->]|[Ha ->]]).
    + apply exec_bind in H2 as (t3 & t4 & r2 & -> & H3 & H4). apply do_run_exec in H3. rewrite omap_app.
      destruct (run_order s ev) as [q'|]; cbn in H3.
      * destruct H3 as (a' & -> & [[Ha' ->]|[Ha' ->]]); destruct H4 as [-> ->].
        -- left. split; [done|]. split; [by repeat constructor | done].
        -- right. exists [(q, a)], (q', a'). split_and!; [done | by repeat constructor | done | done | done].
      * destruct H3 as [-> ->], H4 as [-> ->]. left. split; [done|]. split; [by repeat constructor | done].
    + destruct H2 as [-> ->]. right. by apply Hone.
  - destruct H1 as [-> ->]. apply exec_bind in H2 as (t3 & t4 & r2 & -> & H3 & H4). apply do_run_exec in H3.
    rewrite omap_app. destruct (run_order s ev) as [q'|]; cbn in H3.
    + destruct H3 as (a' & -> & [[Ha' ->]|[Ha' ->]]); destruct H4 as [-> ->].
      * left. split; [done|]. split; [by repeat constructor | done].
      * right. by apply Hone.
    + destruct H3 as [-> ->], H4 as [-> ->]. left. split; [done|]. split; [constructor | done].
Qed.

Lemma verifySignature_iff s hdr body : verifySignature s hdr body = Ok tt <->
  exists sig, TrimSpace hdr = "sha256=" +:+ sig
    /\ hex_decode sig = Some (hmac_sha256 (wh_webhookSecret s) body).
Proof using Type.
  unfold verifySignature. assert (Hlen : length (hmac_sha256 (wh_webhookSecret s) body) = 32%nat) by apply sha256_length.
  destruct (HasPrefix (TrimSpace hdr) "sha256=") eqn:Hp; cbn [negb].
  - apply HasPrefix_spec in Hp as [sig Hsig]. rewrite Hsig.
    assert (Ht : TrimPrefix ("sha256=" +:+ sig) "sha256=" = sig) by apply TrimPrefix_app.
    rewrite Ht. destruct (hex_decode sig) as [want|] eqn:Hd.
    + destruct (decide (length want <> 32%nat)) as [Hw|Hw].
      * split; [done|]. intros (sig' & Heq & Hd'). apply (inj (String.append "sha256=")) in Heq as <-.
        rewrite Hd in Hd'. injection Hd' as ->. done.
      * destruct (decide (hmac_sha256 (wh_webhookSecret s) body = want)) as [<-|Hne].
        -- split; [|done]. intros _. by exists sig.
        -- split; [done|]. intros (sig' & Heq & Hd'). apply (inj (String.append "sha256=")) in Heq as <-.
           rewrite Hd in Hd'. by injection Hd' as ->.
    + split; [done|]. intros (sig' & Heq & Hd'). apply (inj (String.append "sha256=")) in Heq as <-. congruence.
  - split; [done|]. intros (sig & Heq & _). assert (HasPrefix (TrimSpace hdr) "sha256=" = true)
      by (apply HasPrefix_spec; by exists sig). congruence.
Qed.

(** What [handleGitHubWebhook] does before it looks at the comment. *)
Lemma webhook_exec s r tr status : exec (handleGitHubWebhook json_event s r) tr status ->
  (omap posted tr = [] /\ (forall ev, authentic s r ev -> ~ relevant s ev))
  \/ exists ev, authentic s r ev /\ relevant s ev /\ carries_out (orders s ev) (omap posted tr) status.
Proof using Type.
  unfold handleGitHubWebhook. destruct (decide (dl_Method r <> "POST")) as [Hm|Hm].
  { intros [-> _]. left. split; [done|]. by intros ev [? _]. }
  destruct (decide (TrimSpace (dl_Header r "X-GitHub-Event") = "")) as [He|He].
  { intros [-> _]. left. split; [done|]. intros ev (_ & Hev & _). by rewrite Hev in He. }
  destruct (dl_Body r) as [all|] eqn:Hb.
  2:{ intros [-> _]. left. split; [done|]. intros ev (_ & _ & all & sig & ? & _). congruence. }
  set (body := take (Z.to_nat 2097152) all).
  destruct (verifySignature s _ body) as [[]|e] eqn:Hv.
  2:{ intros [-> _]. left. split; [done|]. intros ev (_ & _ & all' & sig & Hb' & Hsig & Hd & _).
      rewrite Hb in Hb'. injection Hb' as <-.
      assert (verifySignature s (dl_Header r "X-Hub-Signature-256") body = Ok tt)
        by (apply verifySignature_iff; by exists sig). congruence. }
  apply verifySignature_iff in Hv as (sig & Hsig & Hd).
  case_decide as Hev.
  2:{ intros [-> _]. left. split; [done|]. by intros ev (_ & ? & _). }
  assert (Hauth : forall ev, json_event body = Some ev -> authentic s r ev).
  { intros ev Hj. split; [destruct (decide (dl_Method r = "POST")); [done|by destruct Hm]|]. split; [done|].
    exists all, sig. done. }
  assert (Huniq : forall ev, authentic s r ev -> json_event body = Some ev).
  { intros ev (_ & _ & all' & sig' & Hb' & _ & _ & Hj). rewrite Hb in Hb'. by injection Hb' as <-. }
  unfold handleIssueComment. destruct (json_event body) as [ev|] eqn:Hj.
  2:{ intros [-> _]. left. split; [done|]. by intros ev ?%Huniq. }
  assert (Hskip : forall st, (~ relevant s ev) -> exec (mret st) tr status ->
    omap posted tr = [] /\ forall ev', authentic s r ev' -> ~ relevant s ev').
  { intros st Hn [-> _]. split; [done|]. intros ev' Ha. apply Huniq in Ha. by injection Ha as <-. }
  case_decide as H1; [intros Hx; left; apply (Hskip _ ltac:(intros (Hx2 & _); by apply H1) Hx)|].
  case_decide as H2; [intros Hx; left; apply (Hskip _ ltac:(intros (_ & Hx2 & _); by apply Hx2) Hx)|].
  case_decide as H3; [intros Hx; left; apply (Hskip _ ltac:(intros (_ & _ & Hx2 & _); by apply Hx2) Hx)|].
  case_decide as H4; [intros Hx; left; apply (Hskip _ ltac:(intros (_ & _ & _ & Hx2 & _); by apply H4) Hx)|].
  case_decide as H5; [intros Hx; left; apply (Hskip _ ltac:(intros (_ & _ & _ & _ & Hx2); by apply Hx2) Hx)|].
  intros Hx. right. exists ev. split; [by apply Hauth|]. split.
  - by split_and!.
  - by apply commands_exec in Hx.
Qed.

(** C31: A delivery makes the webhook call the broker only if it is a comment
    event whose signature is the HMAC-SHA256 of its body under the secret, on a
    pull request of an allowed repository.  Then the calls are what the comment
    orders: the approval its command asks for, when its author is an approver,
    and then the run its command asks for, when its author is a launcher, up to
    the first one the broker does not accept, which is answered by 502; otherwise
    the answer is 200, or 202 when nothing was ordered. *)
Theorem webhook_carries_out_orders s r tr status :
  exec (handleGitHubWebhook json_event s r) tr status ->
  (omap posted tr <> [] -> exists ev, authentic s r ev /\ relevant s ev)
  /\ forall ev, authentic s r ev -> relevant s ev -> carries_out (orders s ev) (omap posted tr) status.
Proof using Type.
  intros [[Hn Hno]|(ev & Ha & Hr & Hc)]%webhook_exec.
  - split; [done|]. intros ev Ha Hr. by edestruct Hno.
  - split; [eauto|]. intros ev' (_ & _ & all & sig & Hb & _ & _ & Hj) _.
    destruct Ha as (_ & _ & all' & sig' & Hb' & _ & _ & Hj'). rewrite Hb in Hb'. injection Hb' as <-.
    rewrite Hj in Hj'. by injection Hj' as ->.
Qed.
End obeys.

(** An approver who is not a launcher approves a grant. *)
Definition demo_hook : hookserver := {|
  wh_webhookSecret := s2l "secret"; wh_repoAllowlist := {["o/r"]}; wh_approverAllowlist := {["alice"]};
  wh_launcherAllowlist := {["bob"]}; wh_brokerBaseURL := "http://broker";
  wh_brokerHeader := "X-Broker-Webhook-Token"; wh_brokerToken := "t" |}.
Definition demo_comment : issueCommentEvent := {|
  ic_Action := "created"; ic_Repo := "O/R"; ic_Number := 7; ic_PullRequest := s2l "{}";
  ic_Body := "/netgrant approve agents/g ttl=60" +:+ NL +:+ "/agent run"; ic_HTMLURL := "u"; ic_Login := "Alice" |}.
Definition demo_delivery : delivery := {|
  dl_Method := "POST";
  dl_Header := fun h => if decide (h = "X-GitHub-Event") then "issue_comment"
                        else "sha256=" +:+ hex_encode (hmac_sha256 (s2l "secret") (s2l "{}"));
  dl_Body := Some (s2l "{}") |}.
Definition demo_hook_run : Z * list kobs * unit :=
  run (echo_world 0 (fun _ _ _ => Err NotFound) (fun _ => []) (fun _ => Ok {| hp_Status := 200; hp_Body := "" |}))
    (handleGitHubWebhook (fun _ => Some demo_comment) demo_hook demo_delivery) tt.

Lemma TrimSpace_signature l : TrimSpace ("sha256=" +:+ hex_encode l) = "sha256=" +:+ hex_encode l.
Proof.
  unfold TrimSpace. rewrite TrimSpaceL_solid; [apply l2s_s2l|].
  rewrite s2l_app. apply list.Forall_app. split.
  { repeat (apply list.Forall_cons; split; [split; [vm_compute; lia | reflexivity]|]). constructor. }
  unfold hex_encode. rewrite s2l_l2s. induction l as [|c l IH]; [constructor|].
  assert (Hd : forall n, (n < 16)%nat -> solid (hex_digit n)).
  { intros n Hn. do 16 (destruct n as [|n]; [split; [vm_compute; lia | done]|]). lia. }
  pose proof (code_lt c). pose proof (Nat.Div0.div_lt_upper_bound (code c) 16 16).
  pose proof (Nat.mod_upper_bound (code c) 16). cbn [hex_encodeL]. constructor; [|constructor; [|done]]; apply Hd; lia.
Qed.

Lemma webhook_carries_out_orders_witness :
  authentic (fun _ => Some demo_comment) demo_hook demo_delivery demo_comment
  /\ relevant demo_hook demo_comment
  /\ carries_out (orders demo_hook demo_comment) (omap posted demo_hook_run.1.2) demo_hook_run.1.1.
Proof.
  assert (Ha : authentic (fun _ => Some demo_comment) demo_hook demo_delivery demo_comment).
  { split; [done|]. split; [vm_compute; reflexivity|].
    exists (s2l "{}"), (hex_encode (hmac_sha256 (s2l "secret") (s2l "{}"))).
    split; [done|]. split; [apply TrimSpace_signature|]. split; [|done]. apply hex_decode_encode. }
  assert (Hr : relevant demo_hook demo_comment).
  { split; [done|]. split; [done|]. split; [by vm_compute|]. split; [apply (bool_decide_unpack _); vm_compute; exact I|].
    by vm_compute. }
  split; [exact Ha|]. split; [exact Hr|].
  exact (proj2 (webhook_carries_out_orders (fun _ => Some demo_comment) demo_hook demo_delivery
    demo_hook_run.1.2 demo_hook_run.1.1 (run_is_exec _ _ tt)) demo_comment Ha Hr).
Defined.

(** * The commands the broker's comments suggest *)

Definition newline : ascii := byte 10.
Definition backtick : ascii := byte 96.
Definition slash : ascii := byte 47.

Definition find_netgrant (l : list ascii) : option string := findCommandLine (l2s l) "/netgrant".

(** A line, or the start of one, that is no command: it starts with a byte that
    is not trimmed, and that is no slash. *)
Definition no_command (l : list ascii) : Prop :=
  (newline ∉ l) /\ exists c l', l = c :: l' /\ solid c /\ c <> slash /\ c <> backtick.

Lemma command_line_skip l lines :
  no_command l -> command_line (l2s l :: lines) "/netgrant" = command_line lines "/netgrant".
Proof.
  intros (_ & c & l' & -> & Hc & Hs & Hb). cbn [command_line]. case_decide as Hne; [done|].
  unfold TrimSpace in *. rewrite s2l_l2s in *. destruct (trim_right_prefix (c :: l')) as [r Hr].
  assert (Ht : TrimSpaceL (c :: l') = trim_right (c :: l')).
  { unfold TrimSpaceL, trim_left. by rewrite trimL_id by by apply leads_fwd_solid. }
  rewrite Ht in *. destruct (trim_right (c :: l')) as [|c' m] eqn:Hm; [by destruct Hne|].
  injection Hr as -> _. unfold Trim. rewrite s2l_l2s. cbn [drop_byte]. rewrite decide_False by done.
  destruct (HasPrefix _ "/netgrant") eqn:Hp; [|done]. exfalso. apply HasPrefix_spec in Hp as [t Ht'].
  apply (f_equal s2l) in Ht'. rewrite s2l_l2s, s2l_app in Ht'.
  destruct (trim_right_byte_spec backtick (c' :: m)) as [k Hk].
  unfold backtick in Hk. rewrite Ht' in Hk. cbn in Hk. by injection Hk as -> _.
Qed.

Lemma find_skip l rest : no_command l -> find_netgrant (l ++ newline :: rest) = find_netgrant rest.
Proof.
  intros Hl. unfold find_netgrant, findCommandLine, Split. rewrite !s2l_l2s.
  rewrite splitL_app by apply Hl. cbn [fmap list_fmap]. by apply command_line_skip.
Qed.

Lemma find_empty rest : find_netgrant (newline :: rest) = find_netgrant rest.
Proof. unfold find_netgrant, findCommandLine, Split. rewrite !s2l_l2s. done. Qed.

Lemma no_command_app l w : no_command l -> newline ∉ w -> no_command (l ++ w).
Proof.
  intros (Hn & c & l' & -> & Hc) Hw. split; [set_solver|]. by exists c, (l' ++ w).
Qed.

(** Words of ASCII bytes, and lines made of them. *)
Lemma fieldsL_word w l : Forall solid w -> forall cur,
  fieldsL (w ++ byte 32 :: l) cur = emit_field (reverse w ++ cur) (fieldsL l []).
Proof.
  induction 1 as [|c w [Hc Hs] _ IH]; intros cur; [done|]. cbn [app fieldsL]. rewrite Hs.
  assert (H2 : forall b, space2 c b = false) by (intros b; unfold space2; by rewrite (eqb_ge_false (code c)) by lia).
  assert (H3 : forall b d, space3 c b d = false)
    by (intros b d; unfold space3; by rewrite !(eqb_ge_false (code c)) by lia).
  rewrite reverse_cons, <- app_assoc. cbn [app]. rewrite <- IH.
  destruct (w ++ byte 32 :: l) as [|b m] eqn:Hm; [by destruct w|]. rewrite H2. destruct m as [|d m]; [done|].
  by rewrite H3.
Qed.

Lemma fieldsL_last w : Forall solid w -> forall cur, fieldsL w cur = emit_field (reverse w ++ cur) [].
Proof.
  induction 1 as [|c w [Hc Hs] _ IH]; intros cur; [done|]. cbn [fieldsL]. rewrite Hs.
  assert (H2 : forall b, space2 c b = false) by (intros b; unfold space2; by rewrite (eqb_ge_false (code c)) by lia).
  assert (H3 : forall b d, space3 c b d = false)
    by (intros b d; unfold space3; by rewrite !(eqb_ge_false (code c)) by lia).
  rewrite reverse_cons, <- app_assoc. cbn [app]. rewrite <- IH.
  destruct w as [|b m] eqn:Hm; [done|]. rewrite H2. destruct m as [|d m]; [done|]. by rewrite H3.
Qed.

Lemma emit_word w rest : w <> [] -> emit_field (reverse w ++ []) rest = w :: rest.
Proof.
  intros Hw. rewrite app_nil_r. destruct (reverse w) as [|c l] eqn:Hr.
  - apply (f_equal reverse) in Hr. rewrite reverse_involutive in Hr. by subst.
  - unfold emit_field. by rewrite <- Hr, reverse_involutive.
Qed.

(** A name as Kubernetes has it, as far as the commands are concerned. *)
Definition plain (s : string) : Prop :=
  s <> "" /\ Forall solid (s2l s) /\ (slash ∉ s2l s) /\ (backtick ∉ s2l s).

Lemma solid_no_newline l : Forall solid l -> newline ∉ l.
Proof. intros Hl Hin. rewrite list.Forall_forall in Hl. by destruct (Hl _ Hin) as [_ ?]. Qed.

Lemma solid_text s : forallb (fun c => (code c <? 128)%nat && negb (space1 c)) (s2l s) = true -> Forall solid (s2l s).
Proof.
  intros Hall. apply list.Forall_forall. intros c Hc. rewrite forallb_elem_of in Hall.
  specialize (Hall _ Hc). apply andb_true_iff in Hall as [H1 H2]. split; [by apply Nat.ltb_lt | by apply negb_true_iff].
Qed.

Lemma drop_trim_backticks c d m : c <> backtick -> d <> backtick ->
  trim_right_byte backtick (drop_byte backtick (backtick :: (c :: m ++ [d]) ++ [backtick])) = c :: m ++ [d].
Proof.
  intros Hc Hd. cbn [app drop_byte]. rewrite decide_True, decide_False by done.
  change (c :: (m ++ [d]) ++ [backtick]) with ((c :: m ++ [d]) ++ [backtick]).
  change (c :: m ++ [d]) with ((c :: m) ++ [d]). generalize (c :: m). intros k.
  unfold trim_right_byte. rewrite !reverse_app. change (reverse [backtick]) with [backtick].
  change (reverse [d]) with [d]. cbn [app drop_byte]. rewrite decide_True, decide_False by done.
  by rewrite reverse_cons, reverse_involutive.
Qed.

(** The line of a command, quoted: what [find_netgrant] makes of it. *)
Lemma find_quoted l rest : newline ∉ s2l "/netgrant" ++ l -> 
  (exists m d, s2l "/netgrant" ++ l = slash :: m ++ [d] /\ d <> backtick) ->
  (rest = [] \/ exists rest', rest = newline :: rest') ->
  find_netgrant ((backtick :: (s2l "/netgrant" ++ l) ++ [backtick]) ++ rest) = Some (l2s (s2l "/netgrant" ++ l)).
Proof.
  intros Hn (m & d & Hm & Hd) Hrest. set (line := s2l "/netgrant" ++ l) in *.
  assert (Hq : newline ∉ backtick :: line ++ [backtick]).
  { rewrite not_elem_of_cons, not_elem_of_app. split; [done|]. split; [done|]. by intros ?%list_elem_of_singleton. }
  assert (Hsplit : exists more, splitL newline ((backtick :: line ++ [backtick]) ++ rest)
    = (backtick :: line ++ [backtick]) :: more).
  { destruct Hrest as [->|(rest' & ->)].
    - rewrite app_nil_r, splitL_none by done. by eexists.
    - rewrite splitL_app by done. by eexists. }
  destruct Hsplit as [more Hsplit]. unfold find_netgrant, findCommandLine, Split.
  rewrite s2l_l2s. unfold newline in Hsplit. rewrite Hsplit. cbn [fmap list_fmap command_line].
  assert (Hb : solid backtick) by (split; [vm_compute; lia | reflexivity]).
  assert (Ht : TrimSpace (l2s (backtick :: line ++ [backtick])) = l2s (backtick :: line ++ [backtick])).
  { unfold TrimSpace. rewrite s2l_l2s, TrimSpaceL_id; [done | by apply leads_fwd_solid|].
    rewrite app_comm_cons. by apply leads_bwd_solid. }
  rewrite Ht, decide_False by done. unfold Trim. rewrite s2l_l2s.
  fold backtick. rewrite Hm, drop_trim_backticks by done. rewrite <- Hm.
  assert (Hp : HasPrefix (l2s line) "/netgrant" = true).
  { apply HasPrefix_spec. exists (l2s l). apply s2l_inj. by rewrite s2l_app, !s2l_l2s. }
  by rewrite Hp.
Qed.

Lemma target_slash ns name : plain ns -> plain name ->
  netgrant_target (ns +:+ "/" +:+ name) = Some (ns, name).
Proof.
  intros (Hne & Hs & Hn & _) (Hne' & _ & Hn' & _). unfold netgrant_target.
  assert (Hc : Contains (ns +:+ "/" +:+ name) "/" = true).
  { apply (Contains_byte _ slash). rewrite !s2l_app. set_solver. }
  rewrite Hc. unfold Split. rewrite !s2l_app. change (s2l "/") with [slash]. cbn [app].
  fold slash. rewrite splitL_app, splitL_none by done. cbn. rewrite !l2s_s2l.
  rewrite decide_False; [done|]. by intros [?|?].
Qed.

Lemma plain_target ns name : plain ns -> plain name ->
  Forall solid (s2l (ns +:+ "/" +:+ name)) /\ ns +:+ "/" +:+ name <> ""
  /\ backtick ∉ s2l (ns +:+ "/" +:+ name).
Proof.
  intros (Hne & Hs & _ & Hb) (_ & Hs' & _ & Hb'). split; [|split].
  - rewrite !s2l_app. apply list.Forall_app. split; [done|]. apply list.Forall_app.
    split; [apply solid_text; reflexivity | done].
  - destruct ns; [done|]. done.
  - rewrite !s2l_app, !elem_of_app. intros [?|[H|?]]; [done| |done].
    by apply list_elem_of_singleton in H.
Qed.

(** [/netgrant approve <ns>/<name>], with options. *)
Lemma parse_line body ns name options words ttl :
  plain ns -> plain name ->
  findCommandLine body "/netgrant" = Some ("/netgrant approve " +:+ ns +:+ "/" +:+ name +:+ options) ->
  (options = "" /\ words = []
   \/ exists w, options = " " +:+ w /\ w <> "" /\ Forall solid (s2l w) /\ words = [w]) ->
  netgrant_options words None = Some ttl ->
  parseNetgrantApproveCommand body = Some {| nc_Namespace := ns; nc_Name := name; nc_TTL := ttl |}.
Proof.
  intros Hns Hname Hfind Hopt Httl. destruct (plain_target _ _ Hns Hname) as (Hsol & Hne & _).
  assert (Hfields : Fields ("/netgrant approve " +:+ ns +:+ "/" +:+ name +:+ options)
    = "/netgrant" :: "approve" :: (ns +:+ "/" +:+ name) :: words).
  { assert (Hne' : s2l (ns +:+ "/" +:+ name) <> []) by by intros ?%s2l_nil.
    unfold Fields. replace ("/netgrant approve " +:+ ns +:+ "/" +:+ name +:+ options)
      with (l2s (s2l "/netgrant" ++ byte 32 :: s2l "approve" ++ byte 32 :: s2l (ns +:+ "/" +:+ name) ++ s2l options))
      by (apply s2l_inj; rewrite s2l_l2s; rewrite !s2l_app, <- !app_assoc; reflexivity).
    rewrite s2l_l2s, fieldsL_word by (apply solid_text; reflexivity). rewrite emit_word by done.
    rewrite fieldsL_word by (apply solid_text; reflexivity). rewrite emit_word by done.
    destruct Hopt as [[-> ->]|(w & -> & Hw & Hsw & ->)].
    - rewrite app_nil_r, fieldsL_last, emit_word by done. cbn [fmap list_fmap]. by rewrite !l2s_s2l.
    - rewrite (s2l_app " " w). change (s2l " ") with [byte 32]. cbn [app].
      rewrite fieldsL_word, emit_word by done. rewrite fieldsL_last, emit_word by first [done | by intros ?%s2l_nil].
      cbn [fmap list_fmap]. by rewrite !l2s_s2l. }
  unfold parseNetgrantApproveCommand. rewrite Hfind. cbn [mbind option_bind]. rewrite Hfields.
  rewrite decide_False by (by intros [?|?]).
  assert (Ht : TrimSpace (ns +:+ "/" +:+ name) = ns +:+ "/" +:+ name)
    by (unfold TrimSpace; rewrite TrimSpaceL_solid by done; apply l2s_s2l).
  rewrite Ht, decide_False, target_slash by done. cbn [mbind option_bind]. by rewrite Httl.
Qed.

(** The quoted command, at the end of a text or followed by other lines. *)
Lemma find_command ns name options rest :
  plain ns -> plain name ->
  (options = "" \/ exists w, options = " " +:+ w /\ w <> "" /\ Forall solid (s2l w) /\ backtick ∉ s2l w) ->
  (rest = [] \/ exists rest', rest = newline :: rest') ->
  find_netgrant (s2l (BT +:+ "/netgrant approve " +:+ ns +:+ "/" +:+ name +:+ options +:+ BT) ++ rest)
  = Some ("/netgrant approve " +:+ ns +:+ "/" +:+ name +:+ options).
Proof.
  intros Hns Hname Hopt Hrest. destruct (plain_target _ _ Hns Hname) as (Hsol & _ & Hbt).
  set (l := s2l (" approve " +:+ ns +:+ "/" +:+ name +:+ options)).
  assert (Hl : s2l "/netgrant" ++ l = s2l ("/netgrant approve " +:+ ns +:+ "/" +:+ name +:+ options)) by done.
  assert (Hsplit : l = s2l " approve " ++ s2l (ns +:+ "/" +:+ name) ++ s2l options)
    by (unfold l; rewrite !s2l_app, <- !app_assoc; done).
  assert (Hopts : newline ∉ s2l options /\ backtick ∉ s2l options).
  { destruct Hopt as [->|(w & -> & _ & Hw & Hb)]; [split; by intros ?%not_elem_of_nil|].
    rewrite s2l_app, !elem_of_app. pose proof (solid_no_newline _ Hw).
    split; (intros [Hx|?]; [by apply list_elem_of_singleton in Hx | done]). }
  destruct Hopts as [Hon Hob].
  rewrite <- (l2s_s2l ("/netgrant approve " +:+ ns +:+ "/" +:+ name +:+ options)), <- Hl.
  rewrite <- (find_quoted l rest); [| | |done].
  - f_equal. f_equal. rewrite Hl, !s2l_app, <- !app_assoc. done.
  - intros Hin. apply elem_of_app in Hin as [Hin|Hin].
    + vm_compute in Hin. by repeat (apply elem_of_cons in Hin as [?|Hin]; [done|]); apply not_elem_of_nil in Hin.
    + rewrite Hsplit, !elem_of_app in Hin. destruct Hin as [Hin|[Hin|Hin]]; [|by eapply solid_no_newline|done].
      vm_compute in Hin. by repeat (apply elem_of_cons in Hin as [?|Hin]; [done|]); apply not_elem_of_nil in Hin.
  - assert (Hlast : exists m d, l = m ++ [d] /\ d <> backtick).
    { assert (Hb : backtick ∉ s2l (ns +:+ "/" +:+ name) ++ s2l options) by (rewrite elem_of_app; tauto).
      assert (Hne : s2l (ns +:+ "/" +:+ name) ++ s2l options <> []).
      { intros [He _]%app_eq_nil. destruct Hns as (Hns & _). apply s2l_nil in He. by destruct ns. }
      destruct (exists_last Hne) as (m & d & Hmd). rewrite Hsplit, Hmd. exists (s2l " approve " ++ m), d.
      split; [by rewrite app_assoc|]. intros ->. apply Hb. rewrite Hmd. set_solver. }
    destruct Hlast as (m & d & -> & Hd). exists (drop 1 (s2l "/netgrant") ++ m), d. split; [|done].
    by rewrite app_assoc.
Qed.

Lemma parse_ttl_option n : 0 < n <= 86400 -> netgrant_options ["ttl=" +:+ Itoa n] None = Some (Some n).
Proof.
  intros Hn. cbn [netgrant_options]. rewrite (proj2 (HasPrefix_spec _ _)) by by exists (Itoa n).
  rewrite TrimPrefix_app. unfold parse_ttl, ParseInt. rewrite Itoa_parse. cbn [mbind option_bind].
  rewrite decide_True by lia. cbn [mbind option_bind].
  by rewrite (proj2 (Z.leb_gt n 0)), (proj2 (Z.ltb_ge 86400 n)) by lia.
Qed.

(** ** The comment that asks for an approval *)

Definition text_line (s : string) : bool :=
  match s2l s with
  | c :: _ => (code c <? 128)%nat && negb (space1 c) && negb (bool_decide (c = slash))
              && negb (bool_decide (c = backtick))
  | [] => false
  end && forallb (fun c => negb (bool_decide (c = newline))) (s2l s).

Lemma no_newline_text s : forallb (fun c => negb (bool_decide (c = newline))) (s2l s) = true -> newline ∉ s2l s.
Proof.
  intros Hall Hin. rewrite forallb_elem_of in Hall. specialize (Hall _ Hin).
  by rewrite bool_decide_true in Hall.
Qed.

Lemma no_command_text s : text_line s = true -> no_command (s2l s).
Proof.
  unfold text_line. intros [Hh Hn]%andb_true_iff. split; [by apply no_newline_text|].
  destruct (s2l s) as [|c l]; [done|]. exists c, l. rewrite !andb_true_iff, !negb_true_iff, Nat.ltb_lt in Hh.
  destruct Hh as [[[? ?] Hs%bool_decide_eq_false] Hb%bool_decide_eq_false]. done.
Qed.

(** Skips the lines at the head of a text, one after the other. *)
Ltac no_newline := first [assumption | by apply solid_no_newline | apply no_newline_text; reflexivity].
Ltac skip_lines := repeat lazymatch goal with
  | |- find_netgrant ([byte 10] ++ ?r) = _ => rewrite (find_empty r : find_netgrant ([byte 10] ++ r) = _)
  | |- find_netgrant (?a ++ [byte 10] ++ ?r) = _ =>
      rewrite (find_skip a r : no_command a -> find_netgrant (a ++ [byte 10] ++ r) = _)
        by first [assumption | apply no_command_text; reflexivity]
  | |- find_netgrant (?a ++ ?b ++ ?r) = _ =>
      let H := fresh "Hline" in
      assert (H : no_command (a ++ b))
        by (apply no_command_app; [first [assumption | apply no_command_text; reflexivity] | no_newline]);
      rewrite (app_assoc a b r)
  end.

(** No line of the text is cut by what the grant holds. *)
Definition one_line (ng : NetworkGrant) : Prop :=
  (forall r, ngs_AgentJobRef (ng_Spec ng) = Some r -> newline ∉ s2l (TrimSpace (ajr_Name r)))
  /\ (newline ∉ s2l (TrimSpace (ngs_Purpose (ng_Spec ng))))
  /\ forall r, r ∈ ngs_Egress (ng_Spec ng) -> newline ∉ s2l (TrimSpace (er_Host r)).

Lemma ports_no_newline ps : newline ∉ s2l (Join (Itoa <$> ps) ",").
Proof.
  assert (Hi : forall z, newline ∉ s2l (Itoa z)) by (intros z; apply Itoa_not_in; vm_compute; lia).
  induction ps as [|z ps IH]; [by intros ?%not_elem_of_nil|]. cbn [fmap list_fmap].
  destruct ps as [|z' ps]; [apply Hi|]. cbn [fmap list_fmap Join] in *. rewrite !s2l_app, !elem_of_app.
  intros [?|[Hc|?]]; [by eapply Hi | by apply list_elem_of_singleton in Hc | by apply IH].
Qed.

Lemma find_rules rules rest :
  (forall r, r ∈ rules -> newline ∉ s2l (TrimSpace (er_Host r))) ->
  find_netgrant (s2l (fold_right (fun r acc => comment_rule r +:+ acc) "" rules) ++ rest) = find_netgrant rest.
Proof.
  induction rules as [|r rules IH]; intros Hr; [done|]. cbn [fold_right]. rewrite s2l_app, <- app_assoc.
  transitivity (find_netgrant (s2l (fold_right (fun r acc => comment_rule r +:+ acc) "" rules) ++ rest)).
  2:{ apply IH. intros r' Hr'. apply Hr. by right. }
  assert (Hhost : newline ∉ s2l (TrimSpace (er_Host r))) by (apply Hr; by left).
  pose proof (ports_no_newline (rule_ports r)) as Hports.
  unfold comment_rule. case_decide; [done|]. unfold NL. rewrite !s2l_app, s2l_l2s, <- !app_assoc. skip_lines. done.
Qed.

Lemma find_in_comment ng : plain (m_Namespace (ng_Meta ng)) -> plain (m_Name (ng_Meta ng)) -> one_line ng ->
  find_netgrant (s2l (formatNetworkGrantApprovalComment ng))
  = Some ("/netgrant approve " +:+ m_Namespace (ng_Meta ng) +:+ "/" +:+ m_Name (ng_Meta ng) +:+ "").
Proof.
  intros Hns Hname (Hjob & Hpurpose & Hrules). unfold formatNetworkGrantApprovalComment. cbv zeta.
  set (ns := m_Namespace (ng_Meta ng)) in *. set (name := m_Name (ng_Meta ng)) in *.
  assert (Hns' : Forall solid (s2l ns)) by apply Hns. assert (Hname' : Forall solid (s2l name)) by apply Hname.
  set (job := match ngs_AgentJobRef (ng_Spec ng) with Some r => TrimSpace (ajr_Name r) | None => "" end).
  assert (Hj : newline ∉ s2l job).
  { unfold job. destruct (ngs_AgentJobRef (ng_Spec ng)) as [r|]; [by apply Hjob | by intros ?%not_elem_of_nil]. }
  unfold NL. rewrite ?s2l_app, ?s2l_l2s. skip_lines.
  transitivity (find_netgrant
    (s2l (BT +:+ "/netgrant approve " +:+ ns +:+ "/" +:+ name +:+ "" +:+ BT) ++
     newline :: newline :: s2l "Optional TTL override:" ++ [byte 10] ++ s2l BT ++ s2l "/netgrant approve " ++
     s2l ns ++ s2l "/" ++ s2l name ++ s2l " ttl=1800" ++ s2l BT ++ [byte 10])).
  2:{ apply find_command; [done | done | by left | right; by eexists]. }
  case_decide as Hjd; case_decide as Hpd; unfold NL; rewrite ?s2l_app, ?s2l_l2s, <- ?app_assoc;
    change (s2l "") with (@nil ascii); rewrite ?app_nil_l; skip_lines; rewrite find_rules by done; skip_lines; done.
Qed.

(** C32: The comment the broker posts for a grant of a namespace and a name that
    are DNS names, and whose other texts have no line break, is read by the
    webhook as the command to approve exactly this grant, and an approver's
    answer with it is sent to the broker's approval of this grant.  With the
    option [ttl=n] the quoted command is read back for every [n] from a second to
    a day. *)
Theorem approval_comment_round_trip ng :
  plain (m_Namespace (ng_Meta ng)) -> plain (m_Name (ng_Meta ng)) -> one_line ng ->
  let ns := m_Namespace (ng_Meta ng) in
  let name := m_Name (ng_Meta ng) in
  let cmd ttl := {| nc_Namespace := ns; nc_Name := name; nc_TTL := ttl |} in
  parseNetgrantApproveCommand (formatNetworkGrantApprovalComment ng) = Some (cmd None)
  /\ (forall n, 0 < n <= 86400 ->
       parseNetgrantApproveCommand
         (BT +:+ "/netgrant approve " +:+ ns +:+ "/" +:+ name +:+ (" ttl=" +:+ Itoa n) +:+ BT) = Some (cmd (Some n)))
  /\ forall s ev, ic_Body ev = formatNetworkGrantApprovalComment ng -> comment_actor ev ∈ wh_approverAllowlist s ->
       wh_brokerHeader s = "X-Broker-Webhook-Token" ->
       hr_URL <$> approve_order s ev
       = Some (wh_brokerBaseURL s +:+ "/v1/network-grants/" +:+ ns +:+ "/" +:+ name +:+ "/approve-github").
Proof.
  intros Hns Hname Hone ns name cmd.
  assert (Hparse : parseNetgrantApproveCommand (formatNetworkGrantApprovalComment ng) = Some (cmd None)).
  { pose proof (find_in_comment ng Hns Hname Hone) as Hf. unfold find_netgrant in Hf. rewrite l2s_s2l in Hf.
    apply (parse_line _ ns name "" [] None); [done | done | exact Hf | by left | done]. }
  split; [done|]. split.
  - intros n Hn. pose proof (Itoa_solid n) as Hi.
    assert (Hw : Forall solid (s2l ("ttl=" +:+ Itoa n))).
    { rewrite s2l_app. apply list.Forall_app. split; [apply solid_text; reflexivity | done]. }
    assert (Hb : backtick ∉ s2l ("ttl=" +:+ Itoa n)).
    { rewrite s2l_app, elem_of_app. intros [Hx|Hx]; [|by apply Itoa_not_in in Hx; [|vm_compute; lia]].
      vm_compute in Hx. by repeat (apply elem_of_cons in Hx as [?|Hx]; [done|]); apply not_elem_of_nil in Hx. }
    eapply (parse_line _ _ _ (" ttl=" +:+ Itoa n) ["ttl=" +:+ Itoa n]); [done | done | | |by apply parse_ttl_option].
    + rewrite <- (find_command ns name (" ttl=" +:+ Itoa n) []); [| done | done | | by left].
      * rewrite app_nil_r. unfold find_netgrant. by rewrite l2s_s2l.
      * right. by exists ("ttl=" +:+ Itoa n).
    + right. by exists ("ttl=" +:+ Itoa n).
  - intros s ev Hbody Hact Hhdr. unfold approve_order. rewrite Hbody, Hparse. cbn [mbind option_bind].
    rewrite decide_True by done. cbn. unfold approve_request. by rewrite Hhdr.
Qed.

Definition demo_asked (purpose : string) : NetworkGrant := {|
  ng_Meta := new_meta "agents" "fetch-1";
  ng_Spec := {| ngs_AgentJobRef := Some {| ajr_Name := "job-1" |}; ngs_PodSelector := None;
    ngs_PolicyMode := ""; ngs_Protocol := ""; ngs_Purpose := purpose;
    ngs_Egress := [{| er_Host := "pypi.org"; er_Ports := [443] |}]; ngs_DNSAllow := []; ngs_AllowNon443 := false;
    ngs_TTLSeconds := 0; ngs_Approved := false; ngs_ApprovedBy := ""; ngs_Reason := "" |};
  ng_Status := zero_ngstatus |}.

Lemma demo_plain s : forallb (fun c => (code c <? 128)%nat && negb (space1 c)) (s2l s) = true ->
  forallb (fun c => negb (bool_decide (c = slash)) && negb (bool_decide (c = backtick))) (s2l s) = true ->
  s <> "" -> plain s.
Proof.
  intros Hs Hc Hne. rewrite forallb_elem_of in Hc. split; [done|]. split; [by apply solid_text|].
  split; intros Hin; specialize (Hc _ Hin); apply andb_true_iff in Hc as [H1 H2].
  - by rewrite bool_decide_true in H1.
  - by rewrite (bool_decide_true (backtick = backtick)) in H2.
Qed.

Lemma approval_comment_round_trip_witness :
  one_line (demo_asked "install dependencies")
  /\ parseNetgrantApproveCommand (formatNetworkGrantApprovalComment (demo_asked "install dependencies"))
     = Some {| nc_Namespace := "agents"; nc_Name := "fetch-1"; nc_TTL := None |}.
Proof.
  assert (Ho : one_line (demo_asked "install dependencies")).
  { split; [intros r [= <-]; apply no_newline_text; reflexivity|].
    split; [apply no_newline_text; reflexivity|].
    intros r Hr. apply list_elem_of_singleton in Hr. subst r. apply no_newline_text. reflexivity. }
  split; [exact Ho|].
  apply (approval_comment_round_trip (demo_asked "install dependencies"));
    [apply demo_plain; [reflexivity | reflexivity | discriminate]..|exact Ho].
Defined.

(** The purpose, which a job chooses, can put a command for another grant before
    the one the comment suggests. *)
Lemma purpose_changes_command :
  parseNetgrantApproveCommand
    (formatNetworkGrantApprovalComment (demo_asked ("x" +:+ NL +:+ "/netgrant approve agents/other")))
  = Some {| nc_Namespace := "agents"; nc_Name := "other"; nc_TTL := None |}.
Proof. vm_compute. reflexivity. Qed.

(** A line that only starts like a command hides the command after it. *)
Lemma first_prefix_hides_command :
  parseAgentRunCommand ("/agents can do this" +:+ NL +:+ "/agent run") = None
  /\ parseAgentRunCommand "/agent run" = Some {| rc_PolicyProfile := ""; rc_TTL := None |}.
Proof. vm_compute. done. Qed.
