(* ===== verification/PortShare.v ===== *)
(** The PortShare controller (src/internal/controller/portshare_controller.go):
    a Service for a port of a desktop, until it expires. *)
From S2P Require Export Effects NetUtil.
From stdpp Require Import options.
Open Scope Z_scope.

(** * The name of the service *)

(** [fnv.New32a] over a byte string. *)
Definition fnv32a (l : list ascii) : Z :=
  fold_left (fun h c => (Z.lxor h (Z.of_nat (code c)) * 16777619) mod 2 ^ 32) l 2166136261.

(** [fmt.Sprintf("%08x", n)] of a 32-bit number. *)
Definition hex8 (n : Z) : string :=
  l2s ((fun i => hex_digit (Z.to_nat (Z.shiftr n (4 * Z.of_nat (7 - i)) mod 16))) <$> seq 0 8).

Definition share_base (desk : string) (port : Z) : string :=
  "desktop-" +:+ desk +:+ "-port-" +:+ Itoa port.

Definition portShareServiceName (desktopName : string) (port : Z) : string :=
  let desk := ToLower (TrimSpace desktopName) in
  let desk := if decide (desk = "") then "desktop" else desk in
  let base := share_base desk port in
  if (String.length base <=? 63)%nat then base else
  let suf := "-" +:+ hex8 (fnv32a (s2l desk ++ s2l ":" ++ s2l (Itoa port))) in
  let maxPrefix := 63 - Z.of_nat (String.length suf) in
  if maxPrefix <? 1 then "ps" +:+ str_drop 1 suf else
  let prefix := TrimSuffix (str_take (Z.to_nat maxPrefix) base) "-" in
  let prefix := if decide (prefix = "") then "ps" else prefix in
  prefix +:+ suf.

Example portShareServiceName_ex :
  (portShareServiceName " Alice" 8080,
   portShareServiceName "a-very-long-desktop-name-that-does-not-fit-in-a-label-0123" 8080)
  = ("desktop-alice-port-8080", "desktop-a-very-long-desktop-name-that-does-not-fit-in-3209e789").
Proof. vm_compute. done. Qed.

(** * Status *)

Definition ps_with_status (p : PortShare) (s : PortShareStatus) : PortShare :=
  {| ps_Meta := ps_Meta p; ps_Spec := ps_Spec p; ps_Status := s |}.
Definition ps_set_ExpiresAt (t : Z) (p : PortShare) : PortShare :=
  let s := ps_Status p in
  ps_with_status p {| pst_Active := pst_Active s; pst_ServiceName := pst_ServiceName s;
    pst_ExpiresAt := t; pst_Conditions := pst_Conditions s |}.
Definition ps_set_Service (active : bool) (svc : string) (p : PortShare) : PortShare :=
  let s := ps_Status p in
  ps_with_status p {| pst_Active := active; pst_ServiceName := svc;
    pst_ExpiresAt := pst_ExpiresAt s; pst_Conditions := pst_Conditions s |}.
Definition ps_set_Conditions (cs : list Condition) (p : PortShare) : PortShare :=
  let s := ps_Status p in
  ps_with_status p {| pst_Active := pst_Active s; pst_ServiceName := pst_ServiceName s;
    pst_ExpiresAt := pst_ExpiresAt s; pst_Conditions := cs |}.

(** [_ = r.Status().Patch(ctx, &ps, client.MergeFrom(before))] *)
Definition patch_share (p before : PortShare) : kprog PortShare :=
  r ← trigger (StatusPatch KPortShare p before);
  mret (match r with Ok p' => p' | Err _ => p end).

Definition portShareCondSpecValid : string := "SpecValid".

Section controller.
(** [meta.SetStatusCondition] of apimachinery. *)
Context (SetStatusCondition : list Condition -> Condition -> list Condition).

Definition setPortShareSpecValidCondition (p : PortShare) (status : bool) (reason msg : string)
    : kprog PortShare :=
  now ← trigger Now;
  let cond := {|
    c_Type := portShareCondSpecValid; c_Status := if status then "True" else "False";
    c_Reason := reason; c_Message := VStr msg; c_ObservedGeneration := m_Generation (ps_Meta p);
    c_LastTransitionTime := now |} in
  let p' := ps_set_Conditions (SetStatusCondition (pst_Conditions (ps_Status p)) cond) p in
  if decide (pst_Conditions (ps_Status p) = pst_Conditions (ps_Status p'))
  then mret p' else patch_share p' p.

(** The start of the share's lifetime. *)
Definition share_start (p : PortShare) (now : Z) : Z :=
  let start := m_CreationTimestamp (ps_Meta p) in
  let start := match pss_RequestedAt (ps_Spec p) with
               | Some t => if negb (IsZero t) then t else start
               | None => start
               end in
  if IsZero start then now else start.

(** The expiry of the share (0 for none), recorded in its status. *)
Definition share_expiry (p : PortShare) (now : Z) : kprog (PortShare * Z) :=
  let exp := pst_ExpiresAt (ps_Status p) in
  if 0 <? pss_TTLSeconds (ps_Spec p) then
    let desired := share_start p now + seconds (pss_TTLSeconds (ps_Spec p)) in
    if IsZero exp || negb (exp =? desired) then
      p ← patch_share (ps_set_ExpiresAt desired p) p; mret (p, desired)
    else mret (p, exp)
  else if negb (IsZero exp) then
    p ← patch_share (ps_set_ExpiresAt 0 p) p; mret (p, 0)
  else mret (p, exp).

(** The service of the share. *)
Definition share_service (p : PortShare) (desk : Desktop) (svc : Service) : Service := {|
  svc_Meta := with_labels (svc_Meta svc)
    (<[labelPortShare := m_Name (ps_Meta p)]> (<[labelDesktop := m_Name (d_Meta desk)]>
      (<[labelApp := "desktop"]> (m_Labels (svc_Meta svc)))));
  svc_Selector := {[labelApp := "desktop"; labelDesktop := m_Name (d_Meta desk)]};
  svc_Ports := [{| sp_Name := "p" +:+ Itoa (pss_Port (ps_Spec p)); sp_Port := pss_Port (ps_Spec p);
                   sp_TargetPort := pss_Port (ps_Spec p); sp_Protocol := "TCP" |}] |}.

(** From the decision about the expiry to the end. *)
Definition expose (p : PortShare) (desk : Desktop) (now exp : Z) : kprog (result kerr Z) :=
  let ns := m_Namespace (ps_Meta p) in
  let svcName := portShareServiceName (m_Name (d_Meta desk)) (pss_Port (ps_Spec p)) in
  if negb (IsZero exp) && After now exp then
    _ ← trigger (DeleteObj KService ns svcName);
    _ ← (if pst_Active (ps_Status p) || bool_decide (pst_ServiceName (ps_Status p) <> "")
         then patch_share (ps_set_Service false "" p) p else mret p);
    mret (Ok 0)
  else
    r ← CreateOrUpdate KService ns svcName
          {| svc_Meta := new_meta ns svcName; svc_Selector := ∅; svc_Ports := [] |}
          (fun svc => trigger (SetControllerReference KService (ps_Meta p) (share_service p desk svc)));
    match r with
    | Err e => mret (Err e)
    | Ok _ =>
        _ ← (if negb (pst_Active (ps_Status p)) || bool_decide (pst_ServiceName (ps_Status p) <> svcName)
             then patch_share (ps_set_Service true svcName p) p else mret p);
        if negb (IsZero exp) then n ← trigger Now; mret (Ok (time_sub exp n)) else mret (Ok 0)
    end.

(** [Reconcile]: the requeue delay (0 for none) or the error. *)
Definition Reconcile (ns name : string) : kprog (result kerr Z) :=
  got ← trigger (Get KPortShare ns name);
  match got with
  | Err NotFound => mret (Ok 0)
  | Err e => mret (Err e)
  | Ok p =>
      if decide (psr_Name (pss_DesktopRef (ps_Spec p)) = "" \/ pss_Port (ps_Spec p) <= 0) then
        _ ← setPortShareSpecValidCondition p false "InvalidSpec" "desktopRef.name and port are required";
        mret (Ok 0)
      else
        p ← setPortShareSpecValidCondition p true "Valid" "spec is valid";
        d ← trigger (Get KDesktop (m_Namespace (ps_Meta p))
                       (TrimSpace (psr_Name (pss_DesktopRef (ps_Spec p)))));
        match d with
        | Err NotFound =>
            _ ← setPortShareSpecValidCondition p false "DesktopNotFound"
                  "referenced Desktop does not exist";
            mret (Ok (10 * second))
        | Err e => mret (Err e)
        | Ok desk =>
            now ← trigger Now;
            '(p, exp) ← share_expiry p now;
            expose p desk now exp
        end
  end.
End controller.

(** * Names of services *)

Lemma hex8_bits h : 0 <= h < 2 ^ 32 -> forall h', 0 <= h' < 2 ^ 32 -> hex8 h = hex8 h' -> h = h'.
Proof.
  intros Hh h' Hh' Heq.
  assert (Hd : forall i, (i < 8)%nat ->
    Z.shiftr h (4 * Z.of_nat (7 - i)) mod 2 ^ 4 = Z.shiftr h' (4 * Z.of_nat (7 - i)) mod 2 ^ 4).
  { intros i Hi. apply (f_equal s2l) in Heq. unfold hex8 in Heq. rewrite !s2l_l2s in Heq.
    apply (f_equal (.!! i)) in Heq. rewrite !list_lookup_fmap, !lookup_seq_lt in Heq by done.
    cbn [fmap option_fmap option_map Nat.add] in Heq. injection Heq as Heq.
    apply (f_equal hex_val) in Heq.
    rewrite !hex_val_digit in Heq
      by (match goal with |- context [?x mod 16] => pose proof (Z.mod_pos_bound x 16) end; lia).
    injection Heq as Heq. apply Z2Nat.inj in Heq; [exact Heq| |]; apply Z.mod_pos_bound; lia. }
  rewrite <- (Z.mod_small h (2 ^ 32)), <- (Z.mod_small h' (2 ^ 32)) by lia.
  apply Z.bits_inj'. intros j Hj. destruct (decide (j < 32)).
  - rewrite !Z.mod_pow2_bits_low by lia.
    pose proof (Z.div_pos j 4 ltac:(lia) ltac:(lia)).
    pose proof (Z.div_lt_upper_bound j 4 8 ltac:(lia) ltac:(lia)).
    pose proof (Z.mod_pos_bound j 4 ltac:(lia)).
    specialize (Hd (Z.to_nat (7 - j / 4)) ltac:(lia)).
    replace (Z.of_nat (7 - Z.to_nat (7 - j / 4))) with (j / 4) in Hd by lia.
    apply (f_equal (fun z => Z.testbit z (j mod 4))) in Hd.
    rewrite !Z.mod_pow2_bits_low, !Z.shiftr_spec in Hd by lia.
    replace (j mod 4 + 4 * (j / 4)) with j in Hd by (pose proof (Z.div_mod j 4); lia). exact Hd.
  - rewrite !Z.mod_pow2_bits_high by lia. done.
Qed.

(** The part after the last separator. *)
Lemma last_sep_inj (c : ascii) l1 l2 x1 x2 : c ∉ x1 -> c ∉ x2 ->
  l1 ++ c :: x1 = l2 ++ c :: x2 -> l1 = l2 /\ x1 = x2.
Proof.
  intros H1 H2 Heq. apply (f_equal reverse) in Heq. rewrite !reverse_app, !reverse_cons in Heq.
  rewrite <- !app_assoc in Heq. cbn [app] in Heq.
  assert (Hs : forall (a b : list ascii) a' b', c ∉ a -> c ∉ a' ->
    a ++ c :: b = a' ++ c :: b' -> a = a' /\ b = b').
  { induction a as [|y a IH]; intros b [|y' a'] b' Ha Ha' E; cbn in E; simplify_eq; [done | | |].
    - destruct Ha'. by left.
    - destruct Ha. by left.
    - match goal with H : _ ++ _ = _ ++ _ |- _ => apply IH in H as [-> ->]; set_solver end. }
  apply Hs in Heq as [Ea Eb]; [|by rewrite elem_of_reverse..].
  by apply (inj reverse) in Ea; apply (inj reverse) in Eb.
Qed.

Lemma hex8_shape n : length (s2l (hex8 n)) = 8%nat
  /\ Forall (fun c => label_byte c = true) (s2l (hex8 n)) /\ (byte 45 ∉ s2l (hex8 n)).
Proof.
  unfold hex8. rewrite s2l_l2s. split; [by rewrite length_fmap, length_seq|].
  assert (Hall : Forall (fun c => label_byte c = true /\ c <> byte 45)
    ((fun i => hex_digit (Z.to_nat (Z.shiftr n (4 * Z.of_nat (7 - i)) mod 16))) <$> seq 0 8)).
  { apply list.Forall_fmap, list.Forall_forall. intros i _. unfold compose.
    pose proof (Z.mod_pos_bound (Z.shiftr n (4 * Z.of_nat (7 - i))) 16 ltac:(lia)).
    assert (Hd : Forall (fun k => label_byte (hex_digit k) = true /\ hex_digit k <> byte 45) (seq 0 16)).
    { by repeat (constructor; [vm_compute; done|]). }
    rewrite list.Forall_forall in Hd. apply Hd. apply elem_of_seq. lia. }
  split.
  - eapply list.Forall_impl; [exact Hall|]. by intros ? [? _].
  - intros Hin. rewrite list.Forall_forall in Hall. by destruct (Hall _ Hin).
Qed.

Lemma port_digits p : 1 <= p <= 65535 ->
  Forall is_digit (s2l (Itoa p)) /\ (length (s2l (Itoa p)) <= 5)%nat /\ s2l (Itoa p) <> [].
Proof.
  intros Hp. destruct (Itoa_shape p) as (sg & ds & Heq & _ & Hd & Hne & Hs & _).
  rewrite Hs in Heq by lia. rewrite Heq. split; [done|]. split; [|done]. rewrite <- Heq, s2l_length.
  apply Itoa_length; cbn; lia.
Qed.

Lemma label_names l : Forall (fun c => label_byte c = true) l ->
  Forall (fun c => name_byte c = true) l.
Proof.
  intros Hl. eapply list.Forall_impl; [exact Hl|]. cbn. intros c Hc. unfold name_byte. by rewrite Hc.
Qed.

Lemma digit_label c : is_digit c -> label_byte c = true /\ c <> byte 45.
Proof.
  unfold is_digit, label_byte. intros Hc. split.
  - rewrite !orb_true_iff, !andb_true_iff, !Nat.leb_le. lia.
  - intros ->. vm_compute in Hc. lia.
Qed.

Lemma share_base_bytes d p : dns_label (s2l d) -> 1 <= p <= 65535 ->
  Forall (fun c => label_byte c = true) (s2l (share_base d p)).
Proof.
  intros (_ & Hd & _) Hp. destruct (port_digits p Hp) as (Hi & _). unfold share_base.
  rewrite !s2l_app, !list.Forall_app. split; [by repeat constructor|]. split; [done|].
  split; [by repeat constructor|]. eapply list.Forall_impl; [exact Hi|]. apply digit_label.
Qed.

Lemma str_eqb_nonempty s : s2l s <> [] -> s <> "".
Proof. by intros H ->. Qed.

(** The two forms of the name. *)
Lemma service_name_cases d p : dns_label (s2l d) -> 1 <= p <= 65535 ->
  let h := fnv32a (s2l d ++ s2l ":" ++ s2l (Itoa p)) in
  ((String.length (share_base d p) <= 63)%nat /\ portShareServiceName d p = share_base d p)
  \/ exists pre, s2l (portShareServiceName d p) = pre ++ byte 45 :: s2l (hex8 h)
       /\ (63 < String.length (share_base d p))%nat /\ (8 <= length pre <= 54)%nat /\ Forall (fun c => label_byte c = true) pre
       /\ head pre = Some (byte 100).
Proof.
  intros Hd Hp h. unfold portShareServiceName.
  pose proof (share_base_bytes d p Hd Hp) as Hb. destruct Hd as ([Hl1 _] & Hl & _).
  assert (TrimSpace d = d) as -> by (unfold TrimSpace; by rewrite TrimSpaceL_names, l2s_s2l by by apply label_names).
  assert (ToLower d = d) as -> by (unfold ToLower; by rewrite ToLowerL_names, l2s_s2l by by apply label_names).
  rewrite (decide_False (P := d = "")) by (apply str_eqb_nonempty; destruct (s2l d); cbn in *; [lia | done]).
  destruct (Nat.leb_spec (String.length (share_base d p)) 63); [by left | right].
  fold h. rewrite str_length_app, <- (s2l_length (hex8 h)).
  destruct (hex8_shape h) as (Hlen & _ & _). rewrite Hlen.
  change (63 - Z.of_nat (String.length "-" + 8)) with 54.
  change (54 <? 1) with false. cbv iota. change (Z.to_nat 54) with 54%nat.
  set (pre := TrimSuffix _ "-").
  assert (Hpre : (8 <= length (s2l pre) <= 54)%nat /\ (s2l pre `prefix_of` s2l (share_base d p))).
  { assert (Ht : length (take 54 (s2l (share_base d p))) = 54%nat).
    { rewrite length_take, s2l_length. lia. }
    subst pre. unfold TrimSuffix, str_take. rewrite str_length_l2s.
    destruct (HasSuffix _ _); unfold str_take; rewrite !s2l_l2s, ?take_take, ?length_take.
    - rewrite length_take in Ht. cbn [String.length].
      split; [lia|]. apply prefix_take.
    - rewrite length_take in Ht. split; [lia | apply prefix_take]. }
  destruct Hpre as [Hln Hpr]. rewrite decide_False by (intros He; rewrite He in Hln; cbn in Hln; lia).
  exists (s2l pre). rewrite !s2l_app. split; [done|]. split; [done|]. split; [done|].
  destruct Hpr as [r Hr]. rewrite Hr in Hb. apply list.Forall_app in Hb as [Hb _]. split; [done|].
  destruct (s2l pre) as [|c l]; [cbn in Hln; lia|].
  apply (f_equal head) in Hr. unfold share_base in Hr. rewrite s2l_app in Hr. cbn in Hr |- *. done.
Qed.

(** What is hashed when the name does not fit. *)
Definition share_key (d : string) (p : Z) : list ascii := s2l d ++ s2l ":" ++ s2l (Itoa p).

Lemma fnv32a_range l : 0 <= fnv32a l < 2 ^ 32.
Proof.
  unfold fnv32a. induction l as [|c l IH] using rev_ind; [cbn; lia|].
  rewrite fold_left_app. cbn [fold_left]. apply Z.mod_pos_bound. lia.
Qed.

Lemma port_no_dash p : 1 <= p <= 65535 -> byte 45 ∉ s2l (Itoa p).
Proof.
  intros (Hd & _)%port_digits Hin. rewrite list.Forall_forall in Hd.
  by destruct (digit_label _ (Hd _ Hin)).
Qed.

Lemma share_base_dash d p :
  s2l (share_base d p) = (s2l "desktop-" ++ s2l d ++ s2l "-port") ++ byte 45 :: s2l (Itoa p).
Proof. unfold share_base. rewrite !s2l_app, <- !(assoc_L (++)). done. Qed.

Lemma service_name_label d p : dns_label (s2l d) -> 1 <= p <= 65535 ->
  dns_label (s2l (portShareServiceName d p)).
Proof.
  intros Hd Hp. destruct (service_name_cases d p Hd Hp) as [[Hl ->]|(pre & -> & _ & Hl & Hb & Hh)].
  - unfold dns_label. rewrite s2l_length. split; [|split; [by apply share_base_bytes|split]].
    + split; [|done]. unfold share_base. rewrite str_length_app. cbn. lia.
    + unfold share_base. by rewrite s2l_app.
    + rewrite share_base_dash, last_app_cons. destruct (port_digits p Hp) as (_ & _ & Hne).
      intros Hlast. apply (port_no_dash p Hp).
      destruct (s2l (Itoa p)) as [|c l]; [done|]. rewrite last_cons_cons in Hlast.
      by apply last_Some_elem_of in Hlast.
  - destruct (hex8_shape (fnv32a (share_key d p))) as (Hlen & Hhex & Hno). fold (share_key d p).
    split; [|split; [|split]].
    + rewrite length_app. cbn. lia.
    + rewrite list.Forall_app, list.Forall_cons. done.
    + rewrite head_app, Hh. done.
    + rewrite last_app_cons. intros Hlast. destruct (s2l (hex8 _)) as [|c l]; [done|].
      rewrite last_cons_cons in Hlast. by apply last_Some_elem_of in Hlast.
Qed.

(** C19: the service of a port share always has a valid name, and its own: for a
    desktop whose name is a DNS label and a TCP port, [portShareServiceName]
    answers a DNS label of at most 63 bytes, and two (desktop, port) pairs with
    the same name are the same pair, or their 32-bit FNV-1a hashes collide. *)
Theorem portShareServiceName_unique d p d' p' :
  dns_label (s2l d) -> 1 <= p <= 65535 -> dns_label (s2l d') -> 1 <= p' <= 65535 ->
  dns_label (s2l (portShareServiceName d p))
  /\ (portShareServiceName d p = portShareServiceName d' p' ->
      (d = d' /\ p = p')
      \/ ((63 < String.length (share_base d p))%nat
          /\ fnv32a (share_key d p) = fnv32a (share_key d' p'))).
Proof.
  intros Hd Hp Hd' Hp'. split; [by apply service_name_label|]. intros Heq.
  pose proof (port_no_dash p Hp) as Hn. pose proof (port_no_dash p' Hp') as Hn'.
  destruct (port_digits p Hp) as (_ & H5 & _). destruct (port_digits p' Hp') as (_ & H5' & _).
  pose proof (hex8_shape (fnv32a (share_key d p))) as (Hlen & _ & Hno).
  pose proof (hex8_shape (fnv32a (share_key d' p'))) as (Hlen' & _ & Hno').
  destruct (service_name_cases d p Hd Hp) as [[Hl Hs]|(pre & Hs & Hl & _)],
    (service_name_cases d' p' Hd' Hp') as [[Hl' Hs']|(pre' & Hs' & Hl' & _)];
    try fold (share_key d p) in Hs; try fold (share_key d' p') in Hs'.
  - left. rewrite Hs, Hs' in Heq. apply (f_equal s2l) in Heq. rewrite !share_base_dash in Heq.
    apply last_sep_inj in Heq as [Hb Hi]; [|done..].
    split.
    + apply app_inv_head, app_inv_tail in Hb. by apply s2l_inj.
    + apply s2l_inj, (f_equal parse_decimal) in Hi. rewrite !Itoa_parse in Hi. congruence.
  - apply (f_equal s2l) in Heq. rewrite Hs', Hs, share_base_dash in Heq.
    apply last_sep_inj in Heq as [_ Hi]; [|done..]. rewrite Hi in H5. lia.
  - apply (f_equal s2l) in Heq. rewrite Hs', Hs, share_base_dash in Heq.
    apply last_sep_inj in Heq as [_ Hi]; [|done..]. rewrite <- Hi in H5'. lia.
  - right. split; [done|]. apply (f_equal s2l) in Heq. rewrite Hs, Hs' in Heq.
    apply last_sep_inj in Heq as [_ Hi]; [|done..].
    apply hex8_bits; [apply fnv32a_range..|by apply s2l_inj].
Qed.

Lemma portShareServiceName_unique_witness :
  dns_label (s2l (portShareServiceName "alice" 8080))
  /\ portShareServiceName "alice" 8080 <> portShareServiceName "bob" 8080.
Proof.
  destruct (portShareServiceName_unique "alice" 8080 "bob" 8080) as [Hl Hu].
  1, 3: apply isValidDNSLabel_spec; vm_compute; reflexivity.
  1, 2: lia.
  split; [exact Hl|]. intros Heq. destruct (Hu Heq) as [[He _]|[He _]]; [discriminate|].
  revert He. vm_compute. lia.
Defined.

(** * What a reconcile exposes *)

Definition obs_share (o : kobs) : option (result kerr PortShare) :=
  match o with
  | Obs e x =>
      match e in eff X return X -> option (result kerr PortShare) with
      | Get k _ _ => match k as k return result kerr (obj k) -> option (result kerr PortShare) with
                     | KPortShare => Some | _ => fun _ => None end
      | _ => fun _ => None
      end x
  end.
Definition obs_desktop (o : kobs) : option (string * string * result kerr Desktop) :=
  match o with
  | Obs e x =>
      match e in eff X return X -> option (string * string * result kerr Desktop) with
      | Get k ns n =>
          match k as k return result kerr (obj k) -> option (string * string * result kerr Desktop) with
          | KDesktop => fun d => Some (ns, n, d) | _ => fun _ => None end
      | _ => fun _ => None
      end x
  end.
(** The services written, and those deleted. *)
Definition obs_service (o : kobs) : option Service :=
  match o with
  | Obs e _ => match e with
               | Write k s => match k as k return obj k -> option Service with
                              | KService => Some | _ => fun _ => None end s
               | _ => None
               end
  end.
Definition obs_unservice (o : kobs) : option (string * string) :=
  match o with
  | Obs e _ => match e with DeleteObj KService ns n => Some (ns, n) | _ => None end
  end.

(** What a reconcile depends on of a share. *)
Definition share_core (p : PortShare) : PortShareSpec * string * string * Z :=
  (ps_Spec p, m_Namespace (ps_Meta p), m_Name (ps_Meta p), m_CreationTimestamp (ps_Meta p)).

(** The API server stores what it is told and nobody else changes the share while
    it is being reconciled; [SetControllerReference] only adds an owner. *)
Definition share_kept (k : kind) : obj k -> obj k -> Prop :=
  match k with
  | KPortShare => fun p p' => share_core p' = share_core p /\ ps_Status p' = ps_Status p
  | KService => fun s s' => svc_Selector s' = svc_Selector s /\ svc_Ports s' = svc_Ports s
  | _ => fun _ _ => True
  end.
Notation quiet tr := (kept share_kept tr).

(** The deadline of the share. *)
Definition within_ttl (p : PortShare) (now : Z) : Prop :=
  0 < pss_TTLSeconds (ps_Spec p) ->
  now <= share_start p now + seconds (pss_TTLSeconds (ps_Spec p))
  \/ share_start p now + seconds (pss_TTLSeconds (ps_Spec p)) = 0.

Section proofs.
Context (SSC : list Condition -> Condition -> list Condition).

(** A trace that touches no service and reads no desktop. *)
Definition still (tr : list kobs) : Prop :=
  omap obs_service tr = [] /\ omap obs_unservice tr = [] /\ omap obs_desktop tr = [].

Lemma still_app t1 t2 : still t1 -> still t2 -> still (t1 ++ t2).
Proof. intros (H1 & H2 & H3) (H4 & H5 & H6). unfold still. by rewrite !omap_app, H1, H2, H3, H4, H5, H6. Qed.

Lemma patch_share_exec p b tr p' : exec (patch_share p b) tr p' ->
  still tr /\ (quiet tr -> share_core p' = share_core p).
Proof.
  unfold patch_share. intros H. walk H. split; [done|].
  intros Hq. apply list.Forall_cons in Hq as [Hq _]. cbn in Hq.
  destruct ans; [by destruct (Hq _ eq_refl) | done].
Qed.

Lemma share_setCond_exec p ok reason msg tr p' :
  exec (setPortShareSpecValidCondition SSC p ok reason msg) tr p' ->
  still tr /\ (quiet tr -> share_core p' = share_core p).
Proof.
  unfold setPortShareSpecValidCondition. intros H.
  apply exec_bind in H as (t1 & t2 & now & -> & H1%exec_trigger & H). subst t1.
  cbv zeta in H. case_decide.
  - destruct H as [-> ->]. done.
  - apply patch_share_exec in H as [Hs Hq]. split; [by apply still_app|].
    intros [_ Hq2]%list.Forall_app. by rewrite Hq.
Qed.

Lemma share_expiry_exec p now tr p' e : exec (share_expiry p now) tr (p', e) ->
  still tr /\ (quiet tr -> share_core p' = share_core p)
  /\ (0 < pss_TTLSeconds (ps_Spec p) -> e = share_start p now + seconds (pss_TTLSeconds (ps_Spec p))).
Proof.
  unfold share_expiry. cbv zeta.
  destruct (Z.ltb_spec 0 (pss_TTLSeconds (ps_Spec p))).
  - destruct (IsZero _ || _) eqn:Hc.
    + intros (t1 & t2 & p1 & -> & H1 & [-> Heq])%exec_bind. injection Heq as -> ->.
      apply patch_share_exec in H1 as [Hs Hq]. rewrite app_nil_r. done.
    + intros [-> [= -> ->]]. split; [done|]. split; [done|].
      apply orb_false_iff in Hc as [_ Hc]. apply negb_false_iff, Z.eqb_eq in Hc. done.
  - destruct (negb _).
    + intros (t1 & t2 & p1 & -> & H1 & [-> Heq])%exec_bind. injection Heq as -> ->.
      apply patch_share_exec in H1 as [Hs Hq]. rewrite app_nil_r. split; [done|]. split; [done|]. lia.
    + intros [-> [= -> ->]]. split; [done|]. split; [done|]. lia.
Qed.
(** The service of a share of the desktop. *)
Definition serves (p : PortShare) (desk : Desktop) (svc : Service) : Prop :=
  svc_Selector svc = {[labelApp := "desktop"; labelDesktop := m_Name (d_Meta desk)]}
  /\ svc_Ports svc = [{| sp_Name := "p" +:+ Itoa (pss_Port (ps_Spec p));
       sp_Port := pss_Port (ps_Spec p); sp_TargetPort := pss_Port (ps_Spec p); sp_Protocol := "TCP" |}].
Definition share_target (p : PortShare) (desk : Desktop) : string * string :=
  (m_Namespace (ps_Meta p), portShareServiceName (m_Name (d_Meta desk)) (pss_Port (ps_Spec p))).

Lemma serves_core p p' desk svc : share_core p' = share_core p ->
  serves p' desk svc -> serves p desk svc.
Proof. unfold share_core, serves. intros [= -> _ _ _]. done. Qed.

Lemma record_service p desk ns n tr r :
  exec (CreateOrUpdate KService ns n {| svc_Meta := new_meta ns n; svc_Selector := ∅; svc_Ports := [] |}
    (fun svc => trigger (SetControllerReference KService (ps_Meta p) (share_service p desk svc)))) tr r ->
  quiet tr -> (forall svc, svc ∈ omap obs_service tr -> serves p desk svc)
  /\ omap obs_unservice tr = [].
Proof.
  unfold CreateOrUpdate. intros H Hq. walk H; cbn [omap list_omap obs_service obs_unservice];
    (split; [|done]); intros svc Hin; rewrite ?elem_of_cons, ?elem_of_nil in Hin; try done.
  destruct Hin as [->|[]]. apply list.Forall_cons in Hq as [_ Hq]. apply list.Forall_cons in Hq as [Hq _].
  cbn in Hq. destruct (Hq _ eq_refl) as [Hs Hp]. split; [by rewrite Hs | by rewrite Hp].
Qed.

Lemma patch_if_exec (b : bool) p' p tr q : exec (if b then patch_share p' p else mret p) tr q -> still tr.
Proof. destruct b; [by intros [? _]%patch_share_exec | by intros [-> _]]. Qed.

Lemma expose_exec p desk now e tr out : exec (expose p desk now e) tr out -> quiet tr ->
  if negb (IsZero e) && After now e
  then omap obs_service tr = [] /\ share_target p desk ∈ omap obs_unservice tr
  else forall svc, svc ∈ omap obs_service tr -> serves p desk svc.
Proof.
  unfold expose. cbv zeta. intros H Hq. destruct (negb _ && _).
  - apply exec_bind in H as (t1 & t2 & u & -> & H1%exec_trigger & H). subst t1.
    apply exec_bind in H as (t3 & t4 & q & -> & (Hs & Hd & _)%patch_if_exec & [-> _]).
    rewrite !omap_app, Hs, Hd. split; [done|]. cbn. by left.
  - apply exec_bind in H as (t1 & t2 & r & -> & H1 & H). apply list.Forall_app in Hq as [Hq1 _].
    apply record_service in H1 as [Hw _]; [|done]. intros svc. rewrite omap_app, elem_of_app.
    intros [Hin|Hin]; [by apply Hw|]. exfalso. revert Hin.
    destruct r; [|by destruct H as [-> _]; intros ?%not_elem_of_nil].
    apply exec_bind in H as (t3 & t4 & q & -> & (Hs & Hd & _)%patch_if_exec & H).
    rewrite omap_app, Hs. cbn [app]. walk H; cbn; by intros ?%not_elem_of_nil.
Qed.

Lemma expiry_decision p now e :
  (0 < pss_TTLSeconds (ps_Spec p) -> e = share_start p now + seconds (pss_TTLSeconds (ps_Spec p))) ->
  negb (IsZero e) && After now e = false -> within_ttl p now.
Proof.
  intros He Hc Ht. specialize (He Ht). subst e. unfold IsZero, After in Hc.
  apply andb_false_iff in Hc as [Hc|Hc].
  - right. by apply negb_false_iff, Z.eqb_eq in Hc.
  - left. by apply Z.ltb_ge in Hc.
Qed.

(** What the share may have exposed, by the reads of the reconcile. *)
Definition exposable (p : PortShare) (desk : Desktop) (tr : list kobs) : Prop :=
  (m_Namespace (ps_Meta p), TrimSpace (psr_Name (pss_DesktopRef (ps_Spec p))), Ok desk)
    ∈ omap obs_desktop tr
  /\ 0 < pss_Port (ps_Spec p)
  /\ exists now, now ∈ omap time_read tr /\ within_ttl p now.

Lemma within_ttl_core p p' now : share_core p' = share_core p -> within_ttl p' now -> within_ttl p now.
Proof. unfold share_core, within_ttl, share_start. by intros [= -> _ _ ->]. Qed.

Lemma share_reconcile_spec ns name p tr out :
  exec (Reconcile SSC ns name) tr out -> head (omap obs_share tr) = Some (Ok p) -> quiet tr ->
  (forall svc, svc ∈ omap obs_service tr -> exists desk, exposable p desk tr /\ serves p desk svc)
  /\ forall d n desk, head (omap obs_desktop tr) = Some (d, n, Ok desk) ->
      share_target p desk ∈ omap obs_unservice tr \/ exposable p desk tr.
Proof.
  intros H Hp Hq. unfold Reconcile in H.
  apply exec_bind in H as (t0 & t1 & got & -> & H0%exec_trigger & H). subst t0.
  cbn in Hp. injection Hp as ->. apply list.Forall_app in Hq as [_ Hq].
  case_decide as Hreq.
  { apply exec_bind in H as (t2 & t3 & q & -> & H2 & [-> _]).
    apply share_setCond_exec in H2 as [(Hs & Hu & Hd) _]. rewrite app_nil_r in *.
    cbn [app omap list_omap obs_service obs_desktop]. rewrite Hs, Hd.
    split; [by intros ? ?%not_elem_of_nil | done]. }
  apply exec_bind in H as (t2 & t3 & p1 & -> & H2 & H).
  apply share_setCond_exec in H2 as [(Hs2 & Hu2 & Hd2) Hc2]. apply list.Forall_app in Hq as [Hq2 Hq].
  specialize (Hc2 Hq2). pose proof Hc2 as Hc2'. unfold share_core in Hc2'. injection Hc2' as Hsp Hns _ _.
  apply exec_bind in H as (t4 & t5 & d & -> & H4%exec_trigger & H). subst t4.
  apply list.Forall_app in Hq as [_ Hq]. rewrite Hsp, Hns.
  unfold exposable. rewrite !omap_app, Hs2, Hu2, Hd2.
  cbn [app omap list_omap obs_service obs_desktop obs_unservice time_read head].
  destruct d as [desk|e]; cycle 1.
  { split; [|done]. intros svc. destruct e; [|destruct H as [-> _]; by intros ?%not_elem_of_nil..].
    apply exec_bind in H as (t6 & t7 & q & -> & H6 & [-> _]).
    apply share_setCond_exec in H6 as [(Hs6 & _) _]. rewrite omap_app, Hs6. by intros ?%not_elem_of_nil. }
  apply exec_bind in H as (t6 & t7 & now & -> & H6%exec_trigger & H). subst t6.
  apply exec_bind in H as (t8 & t9 & [p2 e] & -> & H8 & H).
  apply share_expiry_exec in H8 as ((Hs8 & Hu8 & _) & Hc8 & He).
  apply list.Forall_app in Hq as [_ Hq]. apply list.Forall_app in Hq as [Hq8 Hq9].
  specialize (Hc8 Hq8). rewrite Hc2 in Hc8. apply expose_exec in H; [|done].
  rewrite !omap_app, Hs8, Hu8. cbn [app omap list_omap obs_service obs_desktop obs_unservice time_read].
  destruct (negb (IsZero e) && After now e) eqn:Hdec.
  - destruct H as [-> Hdel]. split; [by intros ? ?%not_elem_of_nil|]. intros ??? [= _ _ <-]. left.
    unfold share_target in *. unfold share_core in Hc8. injection Hc8 as Hsp8 Hns8 _ _.
    by rewrite <- Hsp8, <- Hns8.
  - assert (Hok : forall l0 l, 0 < pss_Port (ps_Spec p)
      /\ exists n, n ∈ l0 ++ now :: l /\ within_ttl p n).
    { intros l0 l. split; [lia|]. exists now. split; [set_solver|].
      eapply within_ttl_core; [exact Hc2|]. by eapply expiry_decision. }
    split.
    + intros svc Hin. exists desk. split; [split; [by left | apply Hok]|].
      eapply serves_core; [exact Hc8 | by apply H].
    + intros ??? [= _ _ <-]. right. split; [by left | apply Hok].
Qed.
End proofs.

(** C20: a port share exposes one port of its desktop, and only while it lives.
    In every reconcile that nobody interferes with ([quiet]), for the share [p]
    it fetched: each Service it writes selects exactly the pods of the desktop
    [p] names and carries exactly [p]'s (positive) port, and the time is not
    past the end of [p]'s lifetime; and when the desktop exists and the lifetime
    is over, the Service of that desktop and port is deleted. *)
Theorem PortShare_exposes_live_port SSC ns name p tr out :
  exec (Reconcile SSC ns name) tr out -> head (omap obs_share tr) = Some (Ok p) -> quiet tr ->
  (forall svc, svc ∈ omap obs_service tr -> exists desk, exposable p desk tr /\ serves p desk svc)
  /\ forall d n desk, head (omap obs_desktop tr) = Some (d, n, Ok desk) ->
      share_target p desk ∈ omap obs_unservice tr \/ exposable p desk tr.
Proof. apply share_reconcile_spec. Qed.

Definition demo_share : PortShare := {|
  ps_Meta := new_meta "agents" "web";
  ps_Spec := {| pss_DesktopRef := {| psr_Name := "alice" |}; pss_RequestedAt := Some (100 * second);
    pss_Port := 8080; pss_ShareLevel := "owner"; pss_Protocol := "http"; pss_TTLSeconds := 60 |};
  ps_Status := {| pst_Active := false; pst_ServiceName := ""; pst_ExpiresAt := 0;
    pst_Conditions := [] |} |}.
Definition demo_desk : Desktop := {|
  d_Meta := new_meta "agents" "alice";
  d_Spec := {| ds_User := "alice"; ds_Image := "img"; ds_AuthorizedKeys := []; ds_ConnectivityMode := "";
    ds_Home := {| dh_StorageClassName := None; dh_Size := "1Gi"; dh_Seed := None; dh_Reset := None |};
    ds_Resources := VObj []; ds_NodeSelector := ∅; ds_Tolerations := []; ds_SecurityProfile := "";
    ds_Suspended := false; ds_IdleTimeoutSeconds := 0 |};
  d_Status := {| dt_Phase := ""; dt_Suspended := false; dt_ServiceName := ""; dt_LastActiveAt := None;
    dt_HomeClaimName := ""; dt_HomeRevision := 0; dt_LastResetAt := None; dt_Conditions := [] |} |}.

Definition share_world (now : Z) : forall X, eff X -> unit -> X * unit :=
  echo_world now
    (fun k _ _ => match k as k return result kerr (obj k) with
                  | KPortShare => Ok demo_share | KDesktop => Ok demo_desk | _ => Err NotFound end)
    (fun _ => []) (fun _ => Err (Errorf "" [])).
Definition share_run (now : Z) : result kerr Z * list kobs :=
  (run (share_world now) (Reconcile (fun l c => l ++ [c]) "agents" "web") tt).1.

(** The trace of a run at a given time, evaluated. *)
Lemma PortShare_exposes_live_port_witness :
  omap obs_service (share_run (130 * second)).2 <> []
  /\ forall svc, svc ∈ omap obs_service (share_run (130 * second)).2 ->
       exists desk, exposable demo_share desk (share_run (130 * second)).2 /\ serves demo_share desk svc.
Proof.
  split; [by vm_compute|].
  refine (proj1 (PortShare_exposes_live_port (fun l c => l ++ [c]) "agents" "web" demo_share _
    (share_run (130 * second)).1 _ _ _)).
  - apply run_is_exec.
  - vm_compute. reflexivity.
  - apply echo_kept. by intros [].
Defined.

(** At the very end of its lifetime the share is still exposed, and the delay
    the reconcile asks for is 0, which is no requeue. *)
Example share_at_its_end :
  (share_run (160 * second)).1 = Ok 0 /\ omap obs_service (share_run (160 * second)).2 <> []
  /\ omap obs_unservice (share_run (161 * second)).2 = [("agents", "desktop-alice-port-8080")].
Proof. vm_compute. done. Qed.
