(* ===== verification/HomeTemplate.v ===== *)
(** The HomeTemplate controller
    (src/internal/controller/hometemplate_controller.go): a template volume, a
    snapshot of it every so often, and the deletion of the oldest ones. *)
From S2P Require Export Effects.
From Stdlib Require Import Sorting.Sorted Permutation.
From stdpp Require Import sorting options.
Open Scope Z_scope.

(** * Snapshots *)

Record volumeSnapshotInfo := { vi_name : string; vi_createdAt : Z; vi_ready : bool }.

Definition snapshot_info (it : VolumeSnapshot) : volumeSnapshotInfo := {|
  vi_name := m_Name (vs_Meta it); vi_createdAt := m_CreationTimestamp (vs_Meta it);
  vi_ready := match vs_ReadyToUse it with Ok (Some b) => b | _ => false end |}.

(** [latestSnapshot], and [latestReadySnapshot]: the last ready one. *)
Definition latestSnapshot (snaps : list volumeSnapshotInfo) : option volumeSnapshotInfo :=
  list.last snaps.
Definition latestReadySnapshot (snaps : list volumeSnapshotInfo) : option volumeSnapshotInfo :=
  list.last (filter (fun s => vi_ready s = true) snaps).

Definition template_labels (ht : HomeTemplate) : gmap string string :=
  {[labelApp := "hometemplate"; "workspaces.platform.dev/hometemplate" := m_Name (ht_Meta ht)]}.

Definition template_pvc (ht : HomeTemplate) : string :=
  if decide (htt_TemplatePVC (ht_Status ht) = "") then "hometemplate-" +:+ m_Name (ht_Meta ht)
  else htt_TemplatePVC (ht_Status ht).

Definition snapshot_name (ht : HomeTemplate) (now : Z) : string :=
  let name := "hometemplate-" +:+ m_Name (ht_Meta ht) +:+ "-" +:+ Itoa (Unix now) in
  if (63 <? String.length name)%nat then str_take 63 name else name.

Definition snapshot_spec (ht : HomeTemplate) (pvcName : string) : value :=
  VObj ([("source", VObj [("persistentVolumeClaimName", VStr pvcName)])]
    ++ match hts_SnapshotClassName (ht_Spec ht) with
       | Some c => if decide (c = "") then [] else [("volumeSnapshotClassName", VStr c)]
       | None => []
       end).

Definition ht_interval (ht : HomeTemplate) : Z :=
  if hts_IntervalSeconds (ht_Spec ht) <=? 0 then 24 * 60 * 60 else hts_IntervalSeconds (ht_Spec ht).
Definition ht_retention (ht : HomeTemplate) : Z :=
  if hts_Retention (ht_Spec ht) <=? 0 then 7 else hts_Retention (ht_Spec ht).

Definition ht_with_status (ht : HomeTemplate) (s : HomeTemplateStatus) : HomeTemplate :=
  {| ht_Meta := ht_Meta ht; ht_Spec := ht_Spec ht; ht_Status := s |}.

(** [_ = r.Status().Patch(ctx, &ht, patch)] *)
Definition patch_template (ht before : HomeTemplate) : kprog HomeTemplate :=
  r ← trigger (StatusPatch KHomeTemplate ht before);
  mret (match r with Ok ht' => ht' | Err _ => ht end).

Definition set_TemplatePVC (n : string) (ht : HomeTemplate) : HomeTemplate :=
  let s := ht_Status ht in
  ht_with_status ht {| htt_TemplatePVC := n; htt_LatestSnapshot := htt_LatestSnapshot s;
    htt_LastSnapshotTime := htt_LastSnapshotTime s; htt_Conditions := htt_Conditions s |}.
Definition set_Latest (n : string) (t : option Z) (ht : HomeTemplate) : HomeTemplate :=
  let s := ht_Status ht in
  ht_with_status ht {| htt_TemplatePVC := htt_TemplatePVC s; htt_LatestSnapshot := n;
    htt_LastSnapshotTime := t; htt_Conditions := htt_Conditions s |}.

Definition enforceSnapshotRetention (ns : string) (keep : Z) (snaps : list volumeSnapshotInfo)
    : kprog unit :=
  if keep <=? 0 then mret tt
  else if wrap32 (Z.of_nat (length snaps)) <=? keep then mret tt
  else foldP (fun _ s => _ ← trigger (DeleteObj KVolumeSnapshot ns (vi_name s)); mret tt)
         (take (length snaps - Z.to_nat keep) snaps) tt.

Definition createVolumeSnapshot (ht : HomeTemplate) (pvcName : string)
    (labels : gmap string string) : kprog (result kerr unit) :=
  now ← trigger Now;
  let vs := {|
    vs_Meta := with_labels (new_meta (m_Namespace (ht_Meta ht)) (snapshot_name ht now)) labels;
    vs_Spec := VObj []; vs_ReadyToUse := Ok None |} in
  r ← trigger (SetSpec KVolumeSnapshot vs (snapshot_spec ht pvcName));
  let vs := match r with Ok vs' => vs' | Err _ => vs end in
  r ← trigger (SetControllerReference KVolumeSnapshot (ht_Meta ht) vs);
  match r with
  | Err e => mret (Err e)
  | Ok vs =>
      r ← trigger (Create KVolumeSnapshot vs);
      mret (match r with Ok _ => Ok tt | Err e => Err e end)
  end.

(** Is a snapshot due?  [time.Since] is read once or twice. *)
Definition snapshot_due (latest : option volumeSnapshotInfo) (interval : Z) : kprog bool :=
  match latest with
  | None => mret true
  | Some l =>
      if IsZero (vi_createdAt l) then mret false else
      now ← trigger Now;
      if seconds interval <=? time_sub now (vi_createdAt l) then
        now ← trigger Now; mret (negb (time_sub now (vi_createdAt l) <? 5 * minute))
      else mret false
  end.

(** The status: the name and the time of the latest ready snapshot. *)
Definition record_latest (ht : HomeTemplate) (snaps : list volumeSnapshotInfo) : kprog HomeTemplate :=
  let latestReady := latestReadySnapshot snaps in
  let name := match latestReady with Some s => vi_name s | None => "" end in
  let time := match latestReady with
              | Some s => if IsZero (vi_createdAt s) then None else Some (vi_createdAt s)
              | None => None
              end in
  if decide (htt_LatestSnapshot (ht_Status ht) = name /\ htt_LastSnapshotTime (ht_Status ht) = time)
  then mret ht else patch_template (set_Latest name time ht) ht.

Section controller.
(** [resource.ParseQuantity] of apimachinery and [sort.Slice] by creation time
    (not stable: the order of equal times is not specified). *)
Context (ParseQuantity : string -> result error string)
        (sort_snaps : list volumeSnapshotInfo -> list volumeSnapshotInfo).

Definition listVolumeSnapshots (ns : string) (labels : gmap string string)
    : kprog (result kerr (list volumeSnapshotInfo)) :=
  r ← trigger (ListNS KVolumeSnapshot ns labels);
  mret (match r with Ok items => Ok (sort_snaps (snapshot_info <$> items)) | Err e => Err e end).

(** The claim of the template, as the callback of [CreateOrUpdate] sets it. *)
Definition template_claim (ht : HomeTemplate) (qty : string) (pvc : PVC) : PVC := {|
  pvc_Meta := with_labels (pvc_Meta pvc) (template_labels ht ∪ m_Labels (pvc_Meta pvc));
  pvc_AccessModes := if decide (hts_AccessModes (ht_Spec ht) = []) then ["ReadWriteOnce"]
                     else hts_AccessModes (ht_Spec ht);
  pvc_Storage := qty; pvc_StorageClassName := hts_StorageClassName (ht_Spec ht);
  pvc_DataSource := pvc_DataSource pvc |}.

(** From the list of snapshots to the end. *)
Definition roll (ht : HomeTemplate) (pvcName : string) (labels : gmap string string)
    (snaps : list volumeSnapshotInfo) : kprog (result kerr Z) :=
  let latest := latestSnapshot snaps in
  due ← snapshot_due latest (ht_interval ht);
  if (due : bool) then
    r ← createVolumeSnapshot ht pvcName labels;
    match r with Err e => mret (Err e) | Ok _ => mret (Ok (10 * second)) end
  else
    let interval := ht_interval ht in
    let retention := ht_retention ht in
    ht' ← record_latest ht snaps;
    _ ← enforceSnapshotRetention (m_Namespace (ht_Meta ht')) retention snaps;
    match latest with
    | Some l => if IsZero (vi_createdAt l) then mret (Ok (seconds interval)) else
                n ← trigger Now; mret (Ok (time_sub (vi_createdAt l + seconds interval) n))
    | None => mret (Ok (seconds interval))
    end.

(** [Reconcile]: the requeue delay or the error. *)
Definition Reconcile (ns name : string) : kprog (result kerr Z) :=
  got ← trigger (Get KHomeTemplate ns name);
  match got with
  | Err NotFound => mret (Ok 0)
  | Err e => mret (Err e)
  | Ok ht =>
      let labels := template_labels ht in
      let pvcName := template_pvc ht in
      let size := hts_Size (ht_Spec ht) in
      match ParseQuantity (if decide (size = "") then "50Gi" else size) with
      | Err e => mret (Err (OtherErr e))
      | Ok qty =>
          r ← CreateOrUpdate KPVC (m_Namespace (ht_Meta ht)) pvcName
                {| pvc_Meta := new_meta (m_Namespace (ht_Meta ht)) pvcName; pvc_AccessModes := [];
                   pvc_Storage := ""; pvc_StorageClassName := None; pvc_DataSource := None |}
                (fun pvc => trigger (SetControllerReference KPVC (ht_Meta ht) (template_claim ht qty pvc)));
          match r with
          | Err e => mret (Err e)
          | Ok _ =>
              ht ← (if decide (htt_TemplatePVC (ht_Status ht) = pvcName) then mret ht
                    else patch_template (set_TemplatePVC pvcName ht) ht);
              r ← listVolumeSnapshots (m_Namespace (ht_Meta ht)) labels;
              match r with
              | Err _ => mret (Ok (30 * second))
              | Ok snaps => roll ht pvcName labels snaps
              end
          end
      end
  end.
End controller.

(** * Proofs *)

(** The documented behaviour of [sort.Slice] with [createdAt.Before]. *)
Definition older (a b : volumeSnapshotInfo) : Prop := vi_createdAt a <= vi_createdAt b.
Definition sort_law (sort : list volumeSnapshotInfo -> list volumeSnapshotInfo) : Prop :=
  forall l, sort l ≡ₚ l /\ StronglySorted older (sort l).

Definition obs_template (o : kobs) : option (result kerr HomeTemplate) :=
  match o with
  | Obs e x =>
      match e in eff X return X -> option (result kerr HomeTemplate) with
      | Get k _ _ => match k as k return result kerr (obj k) -> option (result kerr HomeTemplate) with
                     | KHomeTemplate => Some | _ => fun _ => None end
      | _ => fun _ => None
      end x
  end.
Definition obs_snaps (o : kobs) : option (result kerr (list VolumeSnapshot)) :=
  match o with
  | Obs e x =>
      match e in eff X return X -> option (result kerr (list VolumeSnapshot)) with
      | ListNS k _ _ =>
          match k as k return result kerr (list (obj k)) -> option (result kerr (list VolumeSnapshot)) with
          | KVolumeSnapshot => Some | _ => fun _ => None end
      | _ => fun _ => None
      end x
  end.
Definition obs_unsnap (o : kobs) : option (string * string) :=
  match o with
  | Obs e _ => match e with DeleteObj KVolumeSnapshot ns n => Some (ns, n) | _ => None end
  end.
Notation made tr := (omap (obs_created KVolumeSnapshot) tr).
Notation gone tr := (omap obs_unsnap tr).

Definition template_kept (k : kind) : obj k -> obj k -> Prop :=
  match k with
  | KHomeTemplate => fun h h' => ht_Spec h' = ht_Spec h
      /\ m_Namespace (ht_Meta h') = m_Namespace (ht_Meta h)
  | _ => fun _ _ => True
  end.
Notation quiet tr := (kept template_kept tr).

(** A trace that neither makes, deletes nor lists snapshots. *)
Definition still (tr : list kobs) : Prop :=
  made tr = [] /\ gone tr = [] /\ omap obs_snaps tr = [].

Lemma patch_template_exec h b tr h' : exec (patch_template h b) tr h' ->
  still tr /\ (quiet tr -> template_kept KHomeTemplate h h').
Proof.
  unfold patch_template. intros H. walk H. split; [done|].
  intros Hq. apply list.Forall_cons in Hq as [Hq _]. cbn in Hq.
  destruct ans; [by apply Hq | done].
Qed.

Lemma record_latest_exec h snaps tr h' : exec (record_latest h snaps) tr h' ->
  still tr /\ (quiet tr -> template_kept KHomeTemplate h h').
Proof.
  unfold record_latest. cbv zeta. case_decide; [by intros [-> ->]|].
  by intros [Hs Hk]%patch_template_exec.
Qed.

Lemma delete_all_exec ns l : forall tr u,
  exec (foldP (fun _ s => _ ← trigger (DeleteObj KVolumeSnapshot ns (vi_name s)); mret tt) l tt) tr u ->
  made tr = [] /\ gone tr = (fun s => (ns, vi_name s)) <$> l /\ omap obs_snaps tr = [].
Proof.
  induction l as [|s l IH]; intros tr u H; [by destruct H as [-> _]|].
  cbn [foldP] in H. apply (exec_bind (fun b' => foldP _ l b')) in H as (t1 & t2 & [] & -> & H1 & H2).
  apply IH in H2 as (Hm & Hg & Hn). walk H1. rewrite !omap_app, Hm, Hg, Hn. done.
Qed.

(** The retention cuts the list where only [keep] newer ones are left. *)
Definition cut (keep : Z) (snaps : list volumeSnapshotInfo) : nat :=
  if Z.of_nat (length snaps) <=? keep then 0 else (length snaps - Z.to_nat keep)%nat.

Lemma retention_exec ns keep snaps tr u : 0 < keep -> Z.of_nat (length snaps) < 2 ^ 31 ->
  exec (enforceSnapshotRetention ns keep snaps) tr u ->
  made tr = [] /\ gone tr = (fun s => (ns, vi_name s)) <$> take (cut keep snaps) snaps
  /\ omap obs_snaps tr = [].
Proof.
  intros Hk Hl. unfold enforceSnapshotRetention, cut.
  destruct (Z.leb_spec keep 0); [lia|].
  rewrite wrap32_id by (unfold int32_range; lia).
  destruct (Z.leb_spec (Z.of_nat (length snaps)) keep); [by intros [-> _] | apply delete_all_exec].
Qed.

Lemma create_snapshot_exec h pvc labels tr r : exec (createVolumeSnapshot h pvc labels) tr r ->
  (length (made tr) <= 1)%nat /\ gone tr = [].
Proof.
  unfold createVolumeSnapshot. intros H. walk H; cbn; split; (lia || done).
Qed.

Lemma latest_newest snaps l s : StronglySorted older snaps -> latestSnapshot snaps = Some l ->
  s ∈ snaps -> vi_createdAt s <= vi_createdAt l.
Proof.
  unfold latestSnapshot. intros Hs (init & ->)%last_Some Hin.
  apply elem_of_app in Hin as [Hin|Hin%list_elem_of_singleton]; [|subst; lia].
  apply StronglySorted_app_1_elem_of with (x1 := s) (x2 := l) in Hs; [done | done | by left].
Qed.

(** When a snapshot is due, every listed one is old enough, by the clock. *)
Definition old_enough (interval : Z) (snaps : list volumeSnapshotInfo) (tr : list kobs) : Prop :=
  exists n1 n2, n1 ∈ omap time_read tr /\ n2 ∈ omap time_read tr
  /\ forall s, s ∈ snaps -> seconds interval <= time_sub n1 (vi_createdAt s)
                            /\ 5 * minute <= time_sub n2 (vi_createdAt s).

(** When none is due, some listed one is too young by the clock, or undated. *)
Definition young (interval : Z) (snaps : list volumeSnapshotInfo) (tr : list kobs) : Prop :=
  exists s, s ∈ snaps /\ (IsZero (vi_createdAt s) = true \/ exists n, n ∈ omap time_read tr
    /\ (time_sub n (vi_createdAt s) < seconds interval \/ time_sub n (vi_createdAt s) < 5 * minute)).

Lemma due_exec snaps interval tr due : StronglySorted older snaps ->
  exec (snapshot_due (latestSnapshot snaps) interval) tr due ->
  still tr /\ (due = true -> snaps = [] \/ old_enough interval snaps tr)
  /\ (due = false -> young interval snaps tr).
Proof.
  intros Hs. unfold snapshot_due. destruct (latestSnapshot snaps) as [l|] eqn:Hl; cycle 1.
  { intros [-> ->]. split; [done|]. split; [|done]. left. by apply last_None. }
  assert (Hlast : l ∈ snaps) by (apply last_Some_elem_of; exact Hl).
  destruct (IsZero _) eqn:Hz.
  { intros [-> ->]. split; [done|]. split; [done|]. intros _. exists l. auto. }
  intros H. walk H; (split; [done|]); (split; [|intros Hd; exists l; split; [done|right]]).
  - intros Hd. right. exists ans, ans0. split; [by left|]. split; [by right; left|].
    intros s Hin. pose proof (latest_newest _ _ _ Hs Hl Hin).
    apply Z.leb_le in Hc. apply negb_true_iff, Z.ltb_ge in Hd. unfold time_sub in *. lia.
  - exists ans0. split; [by right; left|]. right. by apply negb_false_iff, Z.ltb_lt in Hd.
  - done.
  - exists ans. split; [by left|]. left. by apply Z.leb_gt in Hc.
Qed.

(** What a reconcile does to the snapshots [infos] of the template. *)
Definition rolls (ht : HomeTemplate) (infos : list volumeSnapshotInfo) (tr : list kobs)
    (out : result kerr Z) : Prop :=
  (length (made tr) <= 1)%nat /\ (made tr = [] \/ gone tr = [])
  /\ (made tr <> [] -> infos = [] \/ old_enough (ht_interval ht) infos tr)
  /\ (made tr = [] -> is_ok out = true -> young (ht_interval ht) infos tr)
  /\ exists old kept_, old ++ kept_ ≡ₚ infos
       /\ gone tr = (fun s => (m_Namespace (ht_Meta ht), vi_name s)) <$> old
       /\ (forall a b, a ∈ old -> b ∈ kept_ -> older a b)
       /\ (old <> [] -> Z.of_nat (length kept_) = ht_retention ht)
       /\ (made tr = [] -> is_ok out = true ->
           Z.of_nat (length kept_) = Z.min (ht_retention ht) (Z.of_nat (length infos))).

Lemma retention_pos ht : 0 < ht_retention ht.
Proof. unfold ht_retention. destruct (Z.leb_spec (hts_Retention (ht_Spec ht)) 0); lia. Qed.

Lemma old_enough_mono interval snaps l1 l2 tr : snaps ≡ₚ l1 ->
  old_enough interval snaps tr -> old_enough interval l1 (l2 ++ tr).
Proof.
  intros Hp (n1 & n2 & H1 & H2 & Ha). exists n1, n2. rewrite omap_app.
  split; [set_solver|]. split; [set_solver|]. intros s Hs. apply Ha. by rewrite Hp.
Qed.

Lemma young_mono interval snaps l1 l2 tr l3 : snaps ≡ₚ l1 ->
  young interval snaps tr -> young interval l1 (l2 ++ tr ++ l3).
Proof.
  intros Hp (s & Hin & Hy). exists s. split; [by rewrite <- Hp|]. destruct Hy as [?|(n & Hn & ?)]; [by left|right].
  exists n. rewrite !omap_app, !elem_of_app. tauto.
Qed.

Lemma cut_length keep snaps : 0 < keep ->
  Z.of_nat (length (drop (cut keep snaps) snaps)) = Z.min keep (Z.of_nat (length snaps)).
Proof.
  unfold cut. intros Hk. rewrite length_drop.
  destruct (Z.leb_spec (Z.of_nat (length snaps)) keep); lia.
Qed.

Lemma cut_spec keep snaps : 0 < keep -> take (cut keep snaps) snaps <> [] ->
  Z.of_nat (length (drop (cut keep snaps) snaps)) = keep.
Proof.
  unfold cut. intros Hk. destruct (Z.leb_spec (Z.of_nat (length snaps)) keep); [done|].
  intros _. rewrite length_drop. lia.
Qed.

Lemma roll_exec ht pvc labels snaps tr out : StronglySorted older snaps ->
  Z.of_nat (length snaps) < 2 ^ 31 -> exec (roll ht pvc labels snaps) tr out -> quiet tr ->
  rolls ht snaps tr out /\ omap obs_snaps tr = [].
Proof.
  intros Hs Hl H Hq. unfold roll in H. cbv zeta in H.
  apply exec_bind in H as (t1 & t2 & due & -> & H1 & H).
  apply due_exec in H1 as ((Hm1 & Hg1 & Hn1) & Hold & Hyoung); [|done].
  apply list.Forall_app in Hq as [_ Hq]. destruct due.
  - apply exec_bind in H as (t3 & t4 & r & -> & H3 & H).
    assert (t4 = [] /\ is_ok out = is_ok r) as [-> Hout] by (destruct r; by destruct H as [-> ->]).
    rewrite app_nil_r.
    assert (Hmade : made t3 = [] -> is_ok r = false)
      by (unfold createVolumeSnapshot in H3; walk H3; done).
    assert (omap obs_snaps t3 = []) as Hn3 by (unfold createVolumeSnapshot in H3; by walk H3).
    apply create_snapshot_exec in H3 as [Hm3 Hg3].
    unfold rolls. rewrite !omap_app, Hm1, Hg1, Hg3, Hn1, Hn3. split; [|done].
    split; [done|]. split; [by right|]. split.
    + intros _. destruct (Hold eq_refl) as [?|Ho]; [by left | right].
      destruct Ho as (n1 & n2 & ? & ? & ?). exists n1, n2. rewrite omap_app. set_solver.
    + rewrite Hout. split; [by intros ->%Hmade|].
      exists [], snaps. split; [done|]. split; [done|]. split; [set_solver|]. split; [done|].
      by intros ->%Hmade.
  - apply exec_bind in H as (t3 & t4 & h' & -> & H3 & H).
    apply record_latest_exec in H3 as [(Hm3 & Hg3 & Hn3) Hk3].
    apply list.Forall_app in Hq as [Hq3 _]. destruct (Hk3 Hq3) as [Hsp Hns].
    apply exec_bind in H as (t5 & t6 & u & -> & H5 & H).
    apply retention_exec in H5 as (Hm5 & Hg5 & Hn5); [|apply retention_pos | done].
    assert (Hend : still t6) by (repeat case_match; by walk H).
    destruct Hend as (Hm6 & Hg6 & Hn6).
    unfold rolls. rewrite !omap_app, Hm1, Hg1, Hm3, Hg3, Hm5, Hg5, Hm6, Hg6, Hn1, Hn3, Hn5, Hn6.
    split; [|done]. split; [cbn; lia|]. split; [by left|]. split; [done|].
    split; [intros _ _; by apply (young_mono _ snaps _ []), Hyoung|].
    exists (take (cut (ht_retention ht) snaps) snaps), (drop (cut (ht_retention ht) snaps) snaps).
    rewrite take_drop. split; [done|]. split; [by rewrite app_nil_r, Hns|]. split.
    + intros a b Ha Hb. rewrite <- (take_drop (cut (ht_retention ht) snaps) snaps) in Hs.
      by eapply StronglySorted_app_1_elem_of.
    + split; [apply cut_spec, retention_pos|]. intros _ _. apply cut_length, retention_pos.
Qed.

Lemma rolls_kept ht ht' infos infos' tr1 tr2 out : infos ≡ₚ infos' ->
  template_kept KHomeTemplate ht ht' -> made tr1 = [] -> gone tr1 = [] ->
  rolls ht' infos tr2 out -> rolls ht infos' (tr1 ++ tr2) out.
Proof.
  intros Hp [Hsp Hns] Hm Hg (Hl & Ho & Hd & Hy & old & kp & Hok & Hgo & Hab & Hlen & Hmin). unfold rolls.
  rewrite !omap_app, Hm, Hg. cbn [app]. unfold ht_interval, ht_retention in *.
  rewrite Hsp, Hns in *. split; [done|]. split; [done|]. split.
  - intros Hne. destruct (Hd Hne) as [->|Ho']; [left; by apply Permutation_nil|right].
    by eapply old_enough_mono.
  - split.
    + intros Hn Hout. specialize (Hy Hn Hout).
      apply (young_mono _ _ infos' tr1 _ [] Hp) in Hy. by rewrite app_nil_r in Hy.
    + exists old, kp. split; [by rewrite Hok|]. rewrite <- Hp. done.
Qed.

Lemma write_claim_exec (ht : HomeTemplate) qty ns n fresh tr r :
  exec (CreateOrUpdate KPVC ns n fresh
    (fun pvc => trigger (SetControllerReference KPVC (ht_Meta ht) (template_claim ht qty pvc)))) tr r ->
  still tr.
Proof. unfold CreateOrUpdate. intros H. by walk H. Qed.

(** C21: the controller keeps a rolling set of snapshots.  In every reconcile that
    nobody interferes with ([quiet]), for the template [ht] it fetched and the
    snapshots it listed: it creates at most one snapshot, and only when each
    listed one is at least [intervalSeconds] and five minutes old; a reconcile
    that creates none and ends without error has found one that is younger (or
    undated), and deletes exactly the oldest snapshots, so that [retention] newer
    ones are left, or all when there are no more; otherwise it deletes none; and
    it touches no snapshot when it could not list them. *)
Theorem HomeTemplate_rolls_snapshots PQ sort ns name ht tr out :
  sort_law sort -> exec (Reconcile PQ sort ns name) tr out ->
  head (omap obs_template tr) = Some (Ok ht) -> quiet tr ->
  match head (omap obs_snaps tr) with
  | Some (Ok items) => Z.of_nat (length items) < 2 ^ 31 -> rolls ht (snapshot_info <$> items) tr out
  | _ => made tr = [] /\ gone tr = []
  end.
Proof.
  intros Hsort H Hht Hq. unfold Reconcile in H.
  apply exec_bind in H as (t0 & t1 & got & -> & H0%exec_trigger & H). subst t0.
  cbn in Hht. injection Hht as ->. cbn [app omap list_omap obs_snaps]. apply list.Forall_app in Hq as [_ Hq].
  cbv zeta in H. destruct (PQ _) as [qty|e]; [|by destruct H as [-> _]].
  apply exec_bind in H as (t2 & t3 & w & -> & (Hm2 & Hg2 & Hn2)%write_claim_exec & H).
  apply list.Forall_app in Hq as [_ Hq]. rewrite !omap_app, Hn2. cbn [app].
  destruct w as [w|]; [|destruct H as [-> _]; by rewrite ?Hm2, ?Hg2].
  apply exec_bind in H as (t4 & t5 & h1 & -> & H4 & H). apply list.Forall_app in Hq as [Hq4 Hq].
  assert (still t4 /\ template_kept KHomeTemplate ht h1) as [(Hm4 & Hg4 & Hn4) Hk4].
  { case_decide; [by destruct H4 as [-> ->]|]. apply patch_template_exec in H4 as [? Hk].
    split; [done|]. by apply Hk. }
  apply exec_bind in H as (t6 & t7 & r & -> & H6 & H). unfold listVolumeSnapshots in H6.
  apply exec_bind in H6 as (t8 & t9 & items & -> & H8%exec_trigger & [-> ->]). subst t8.
  rewrite !omap_app, Hn4. cbn [app omap list_omap obs_snaps head].
  destruct items as [items|e]; cycle 1.
  { destruct H as [-> _]. rewrite ?omap_app, ?Hm2, ?Hm4, ?Hg2, ?Hg4. done. }
  intros Hlen. destruct (Hsort (snapshot_info <$> items)) as [Hperm Hsd].
  apply list.Forall_app in Hq as [_ Hq].
  apply roll_exec in H as [Hr _]; [|done|by rewrite Hperm, length_fmap|done].
  match goal with |- rolls _ _ ?tr _ => assert (Heq : exists l0, tr = l0 ++ t7 /\ made l0 = [] /\ gone l0 = []) end.
  { exists ([Obs (Get KHomeTemplate ns name) (Ok ht)] ++ t2 ++ t4
      ++ [Obs (ListNS KVolumeSnapshot (m_Namespace (ht_Meta h1)) (template_labels ht)) (Ok items)]).
    split; [by rewrite <- !(assoc_L (++))|].
    by rewrite !omap_app, Hm2, Hm4, Hg2, Hg4. }
  destruct Heq as (l0 & -> & Hm & Hg). by eapply rolls_kept.
Qed.

(** * A run *)

#[global] Instance older_dec a b : Decision (older a b) := Z_le_dec _ _.
Lemma merge_sort_law : sort_law (merge_sort older).
Proof.
  intros l. split; [apply merge_sort_Permutation|].
  assert (Transitive older) by (intros ???; unfold older; lia).
  assert (Total older) by (intros a b; unfold older; lia).
  apply StronglySorted_merge_sort; exact _.
Qed.

Definition demo_template (interval : Z) : HomeTemplate := {|
  ht_Meta := new_meta "agents" "golden";
  ht_Spec := {| hts_StorageClassName := None; hts_Size := ""; hts_AccessModes := [];
    hts_SnapshotClassName := None; hts_IntervalSeconds := interval; hts_Retention := 2 |};
  ht_Status := {| htt_TemplatePVC := ""; htt_LatestSnapshot := ""; htt_LastSnapshotTime := None;
    htt_Conditions := [] |} |}.
Definition demo_snap (n : string) (t : Z) : VolumeSnapshot := {|
  vs_Meta := {| m_Namespace := "agents"; m_Name := n; m_GenerateName := ""; m_Labels := ∅;
    m_Annotations := ∅; m_CreationTimestamp := t; m_Generation := 0; m_UID := "" |};
  vs_Spec := VObj []; vs_ReadyToUse := Ok (Some (bool_decide (n = "s1"))) |}.

Definition template_world (interval now : Z) : forall X, eff X -> unit -> X * unit :=
  echo_world now
    (fun k _ _ => match k as k return result kerr (obj k) with
                  | KHomeTemplate => Ok (demo_template interval) | _ => Err NotFound end)
    (fun k => match k as k return list (obj k) with
              | KVolumeSnapshot => [demo_snap "s2" (200 * second); demo_snap "s3" (300 * second);
                                    demo_snap "s1" (100 * second)]
              | _ => [] end) (fun _ => Err (Errorf "" [])).
Definition template_run (interval now : Z) : result kerr Z * list kobs :=
  (run (template_world interval now) (Reconcile (fun s => Ok s) (merge_sort older) "agents" "golden") tt).1.

Lemma HomeTemplate_rolls_snapshots_witness :
  gone (template_run 3600 (400 * second)).2 = [("agents", "s1")]
  /\ rolls (demo_template 3600) (snapshot_info <$> [demo_snap "s2" (200 * second);
       demo_snap "s3" (300 * second); demo_snap "s1" (100 * second)]) (template_run 3600 (400 * second)).2
       (template_run 3600 (400 * second)).1.
Proof.
  split; [by vm_compute|].
  assert (Hs : head (omap obs_snaps (template_run 3600 (400 * second)).2)
    = Some (Ok [demo_snap "s2" (200 * second); demo_snap "s3" (300 * second);
                demo_snap "s1" (100 * second)])) by (vm_compute; reflexivity).
  pose proof (HomeTemplate_rolls_snapshots (fun s => Ok s) (merge_sort older) "agents" "golden"
    (demo_template 3600) (template_run 3600 (400 * second)).2 (template_run 3600 (400 * second)).1
    merge_sort_law) as H.
  rewrite Hs in H. apply H; [apply run_is_exec | vm_compute; reflexivity | | cbn; lia].
  apply echo_kept. by intros [].
Defined.

(** The only ready snapshot is deleted by the reconcile that records it; and a
    template with an interval below five minutes asks for no requeue when its
    latest snapshot is due but less than five minutes old. *)
Example retention_deletes_the_recorded_snapshot :
  let '(out, tr) := template_run 3600 (400 * second) in
  latestReadySnapshot (merge_sort older (snapshot_info <$> [demo_snap "s2" (200 * second);
    demo_snap "s3" (300 * second); demo_snap "s1" (100 * second)]))
  = Some {| vi_name := "s1"; vi_createdAt := 100 * second; vi_ready := true |}
  /\ gone tr = [("agents", "s1")].
Proof. vm_compute. done. Qed.
Example short_interval_stops :
  (template_run 60 (400 * second)).1 = Ok (-40 * second) /\ made (template_run 60 (400 * second)).2 = [].
Proof. vm_compute. done. Qed.

(** A snapshot of a template with a long name has a name without its time. *)
Lemma long_template_name ht t1 t2 : (49 <= String.length (m_Name (ht_Meta ht)))%nat ->
  snapshot_name ht t1 = snapshot_name ht t2.
Proof.
  intros Hl.
  assert (Hn : forall t, snapshot_name ht t = l2s (take 63
    (s2l ("hometemplate-" +:+ m_Name (ht_Meta ht)) ++ s2l "-"))).
  { intros t. unfold snapshot_name.
    set (base := "hometemplate-" +:+ m_Name (ht_Meta ht)).
    assert (Hb : (62 <= length (s2l base))%nat).
    { subst base. rewrite s2l_length, str_length_app. cbn [String.length]. lia. }
    assert (Heq : s2l ("hometemplate-" +:+ m_Name (ht_Meta ht) +:+ "-" +:+ Itoa (Unix t))
      = (s2l base ++ s2l "-") ++ s2l (Itoa (Unix t))).
    { subst base. by rewrite !s2l_app, <- !(assoc_L (++)). }
    rewrite <- s2l_length, Heq. unfold str_take. rewrite Heq.
    assert (Hbd : (63 <= length (s2l base ++ s2l "-"))%nat) by (rewrite length_app; cbn; lia).
    destruct (Itoa_shape (Unix t)) as (sg & ds & Hds & _ & _ & Hne & _).
    assert (Hi : (1 <= length (s2l (Itoa (Unix t))))%nat).
    { rewrite Hds, length_app. destruct ds; cbn; [done | lia]. }
    rewrite length_app. destruct (Nat.ltb_spec 63 (length (s2l base ++ s2l "-") + length (s2l (Itoa (Unix t))))).
    - by rewrite take_app_le.
    - lia. }
  by rewrite !Hn.
Qed.
