(* ===== verification/Desktop.v ===== *)
(** The Desktop controller (src/internal/controller/desktop_controller.go): a
    pod behind a Deployment with a home volume, its SSH service, idle
    suspension, snapshot-based resets of the home, and the token of the reverse
    tunnel ("relay" mode). *)
From S2P Require Export Effects GoTime GoCrypto.
From Stdlib Require Import Sorting.Sorted Permutation.
From stdpp Require Import sorting options.
Open Scope Z_scope.

Record DesktopReconciler := {
  dr_DefaultDesktopImage : string;
  dr_DesktopRelayAgentImage : string;
  dr_DesktopRelaydControlAddr : string;
  dr_DesktopRelaydDataAddr : string;
  dr_DesktopRelayJWTSecret : string;
  dr_DesktopRelayJWTTTL : Z;
}.

Definition annotationLastActiveAt : string := "workspaces.platform.dev/last-active-at".
Definition annotationRelayTokenSHA256 : string := "workspaces.platform.dev/relay-token-sha256".
Definition desktopCondRelayConfigured : string := "RelayConfigured".

(** The errors of the two sentinels, beside those of the API. *)
Inductive home_err :=
| errHomeSeedNotReady
| errNoSnapshotSource
| HomeErr (e : kerr).

(** * Status *)

Definition d_with_status (d : Desktop) (s : DesktopStatus) : Desktop :=
  {| d_Meta := d_Meta d; d_Spec := d_Spec d; d_Status := s |}.
Definition set_LastActiveAt (t : option Z) (d : Desktop) : Desktop :=
  let s := d_Status d in
  d_with_status d {| dt_Phase := dt_Phase s; dt_Suspended := dt_Suspended s;
    dt_ServiceName := dt_ServiceName s; dt_LastActiveAt := t; dt_HomeClaimName := dt_HomeClaimName s;
    dt_HomeRevision := dt_HomeRevision s; dt_LastResetAt := dt_LastResetAt s;
    dt_Conditions := dt_Conditions s |}.
Definition set_Home (claim : string) (rev : Z) (reset : option Z) (d : Desktop) : Desktop :=
  let s := d_Status d in
  d_with_status d {| dt_Phase := dt_Phase s; dt_Suspended := dt_Suspended s;
    dt_ServiceName := dt_ServiceName s; dt_LastActiveAt := dt_LastActiveAt s; dt_HomeClaimName := claim;
    dt_HomeRevision := rev; dt_LastResetAt := reset; dt_Conditions := dt_Conditions s |}.
Definition set_Phase (phase : string) (suspended : bool) (svc : string) (d : Desktop) : Desktop :=
  let s := d_Status d in
  d_with_status d {| dt_Phase := phase; dt_Suspended := suspended; dt_ServiceName := svc;
    dt_LastActiveAt := dt_LastActiveAt s; dt_HomeClaimName := dt_HomeClaimName s;
    dt_HomeRevision := dt_HomeRevision s; dt_LastResetAt := dt_LastResetAt s;
    dt_Conditions := dt_Conditions s |}.
Definition set_DConditions (cs : list Condition) (d : Desktop) : Desktop :=
  let s := d_Status d in
  d_with_status d {| dt_Phase := dt_Phase s; dt_Suspended := dt_Suspended s;
    dt_ServiceName := dt_ServiceName s; dt_LastActiveAt := dt_LastActiveAt s;
    dt_HomeClaimName := dt_HomeClaimName s; dt_HomeRevision := dt_HomeRevision s;
    dt_LastResetAt := dt_LastResetAt s; dt_Conditions := cs |}.

(** [_ = r.Status().Patch(ctx, &desk, client.MergeFrom(before))] *)
Definition patch_desktop (d before : Desktop) : kprog Desktop :=
  r ← trigger (StatusPatch KDesktop d before);
  mret (match r with Ok d' => d' | Err _ => d end).

(** [sameTimePtr] (src/internal/controller/helpers.go). *)
Definition sameTimePtr (a b : option Z) : bool := bool_decide (a = b).

(** * Activity *)

Definition last_active (d : Desktop) : option Z :=
  let raw := TrimSpace (default "" (m_Annotations (d_Meta d) !! annotationLastActiveAt)) in
  if decide (raw = "") then None else parse_rfc3339 raw.

Definition record_activity (d : Desktop) (lastActive : option Z) : kprog Desktop :=
  if sameTimePtr (dt_LastActiveAt (d_Status d)) lastActive then mret d
  else patch_desktop (set_LastActiveAt lastActive d) d.

Definition should_suspend (d : Desktop) (lastActive : option Z) (now : Z) : bool :=
  ds_Suspended (d_Spec d)
  || ((0 <? ds_IdleTimeoutSeconds (d_Spec d))
      && match lastActive with
         | Some t => seconds (ds_IdleTimeoutSeconds (d_Spec d)) <=? time_sub now t
         | None => false
         end).

Definition desktop_labels (d : Desktop) : gmap string string :=
  let sp := TrimSpace (ds_SecurityProfile (d_Spec d)) in
  {[labelApp := "desktop"; labelDesktop := m_Name (d_Meta d);
    labelPolicy := if decide (sp = "") then "standard" else sp]}.

Definition want_relay (d : Desktop) : bool :=
  let mode := ds_ConnectivityMode (d_Spec d) in
  bool_decide ((if decide (TrimSpace mode = "") then DesktopConnectivityModePortForward else mode)
               = DesktopConnectivityModeRelay).

Definition sha256Hex (s : string) : string := hex_encode (sha256 (s2l s)).

(** * Snapshots *)

Definition volumeSnapshotReady (ns name : string) : kprog (result kerr bool) :=
  let name := TrimSpace name in
  if decide (name = "") then mret (Err (OtherErr (Errorf "snapshot name is empty" []))) else
  r ← trigger (Get KVolumeSnapshot ns name);
  mret (match r with
        | Err e => Err e
        | Ok vs => match vs_ReadyToUse vs with
                   | Err e => Err (OtherErr e)
                   | Ok None => Ok false
                   | Ok (Some b) => Ok b
                   end
        end).

Definition trimmed (s : option string) : string := default "" (TrimSpace <$> s).

Definition resolveDesktopHomeSnapshot (d : Desktop) (templateRef snapshotName : option string)
    : kprog (result home_err string) :=
  if decide (trimmed snapshotName <> "") then mret (Ok (trimmed snapshotName)) else
  if decide (trimmed templateRef <> "") then
    r ← trigger (Get KHomeTemplate (m_Namespace (d_Meta d)) (trimmed templateRef));
    mret (match r with
          | Err e => Err (HomeErr e)
          | Ok ht =>
              let l := TrimSpace (htt_LatestSnapshot (ht_Status ht)) in
              if decide (l = "") then
                Err (HomeErr (OtherErr (Errorf "hometemplate %s has no latestSnapshot yet"
                                          [VStr (m_Name (ht_Meta ht))])))
              else Ok l
          end)
  else mret (Err errNoSnapshotSource).

Section controller.
(** Of other packages: [meta.SetStatusCondition], [resource.ParseQuantity], the
    HS256 signature of the claims (subject, issue and expiry times), and
    [sort.Slice] of claims, newest first. *)
Context (SetStatusCondition : list Condition -> Condition -> list Condition)
        (ParseQuantity : string -> result error string)
        (sign_relay : string -> string -> Z -> Z -> result error string)
        (sort_claims : list (string * Z) -> list (string * Z)).

(** * The home volume *)

(** The snapshot a new claim is made from ([""] for none). *)
Definition seed_snapshot (d : Desktop) (creating : bool) (snapshotName : string)
    : kprog (result home_err string) :=
  let seedSnap := TrimSpace snapshotName in
  match dh_Seed (ds_Home (d_Spec d)) with
  | Some seed =>
      if creating && bool_decide (seedSnap = "") then
        r ← resolveDesktopHomeSnapshot d (dhs_TemplateRef seed) (dhs_SnapshotName seed);
        match r with
        | Err errNoSnapshotSource => mret (Ok "")
        | Err _ => mret (Err errHomeSeedNotReady)
        | Ok sn =>
            if decide (TrimSpace sn = "") then mret (Ok "") else
            ready ← volumeSnapshotReady (m_Namespace (d_Meta d)) sn;
            mret (match ready with
                  | Err e => Err (HomeErr e)
                  | Ok false => Err errHomeSeedNotReady
                  | Ok true => Ok sn
                  end)
        end
      else mret (Ok seedSnap)
  | None => mret (Ok seedSnap)
  end.

Definition home_claim (d : Desktop) (labels : gmap string string) (qty : string) (revision : Z)
    (creating : bool) (seedSnap : string) (pvc : PVC) : PVC := {|
  pvc_Meta := with_labels (pvc_Meta pvc)
    (<["workspaces.platform.dev/home-revision" := Itoa revision]> (labels ∪ m_Labels (pvc_Meta pvc)));
  pvc_AccessModes := ["ReadWriteOnce"];
  pvc_Storage := qty;
  pvc_StorageClassName := dh_StorageClassName (ds_Home (d_Spec d));
  pvc_DataSource := if creating && bool_decide (seedSnap <> "")
                    then Some ("snapshot.storage.k8s.io", "VolumeSnapshot", seedSnap)
                    else pvc_DataSource pvc |}.

Definition ensureHomePVC (d : Desktop) (labels : gmap string string) (pvcName : string)
    (revision : Z) (snapshotName : string) : kprog (result home_err unit) :=
  let homeSize := dh_Size (ds_Home (d_Spec d)) in
  match ParseQuantity (if decide (homeSize = "") then "50Gi" else homeSize) with
  | Err e => mret (Err (HomeErr (OtherErr e)))
  | Ok qty =>
      CreateOrUpdateWith HomeErr KPVC (m_Namespace (d_Meta d)) pvcName
        {| pvc_Meta := new_meta (m_Namespace (d_Meta d)) pvcName; pvc_AccessModes := [];
           pvc_Storage := ""; pvc_StorageClassName := None; pvc_DataSource := None |}
        (fun pvc =>
           let creating := IsZero (m_CreationTimestamp (pvc_Meta pvc)) in
           r ← seed_snapshot d creating snapshotName;
           match r with
           | Err e => mret (Err e)
           | Ok seedSnap =>
               o ← trigger (SetControllerReference KPVC (d_Meta d)
                              (home_claim d labels qty revision creating seedSnap pvc));
               mret (match o with Ok pvc' => Ok (pvc', tt) | Err e => Err (HomeErr e) end)
           end)
  end.

(** The claims to keep: the active one and the newest [retainOld] others. *)
Fixpoint keep_claims (active : string) (retainOld : Z) (all : list (string * Z))
    (keep : gset string) : gset string :=
  match all with
  | [] => keep
  | (n, _) :: all' =>
      if decide (n = active) then keep_claims active retainOld all' keep
      else if retainOld <=? Z.of_nat (size keep) - 1 then keep
      else keep_claims active retainOld all' ({[n]} ∪ keep)
  end.

Definition enforceHomeRetention (d : Desktop) (labels : gmap string string) (activePVC : string)
    (retainOld : Z) : kprog (result kerr unit) :=
  let retainOld := if retainOld <? 0 then 0 else retainOld in
  r ← trigger (ListNS KPVC (m_Namespace (d_Meta d)) labels);
  match r with
  | Err e => mret (Err e)
  | Ok items =>
      let prefix := "desktop-" +:+ m_Name (d_Meta d) +:+ "-home" in
      let all := (fun p => (m_Name (pvc_Meta p), m_CreationTimestamp (pvc_Meta p)))
                 <$> filter (fun p => HasPrefix (m_Name (pvc_Meta p)) prefix = true) items in
      if Z.of_nat (length all) <=? retainOld + 1 then mret (Ok tt) else
      let all := sort_claims all in
      let keep := keep_claims activePVC retainOld all {[activePVC]} in
      _ ← foldP (fun _ p =>
            if decide (p.1 ∈ keep) then mret tt else
            now ← trigger Now;
            if time_sub now p.2 <? hour then mret tt else
            _ ← trigger (DeleteObj KPVC (m_Namespace (d_Meta d)) p.1); mret tt) all tt;
      mret (Ok tt)
  end.

(** * Relay mode *)

Definition relay_secret_name (d : Desktop) : string := "desktop-" +:+ m_Name (d_Meta d) +:+ "-relay".

Definition deleteDesktopRelaySecret (d : Desktop) : kprog (result kerr unit) :=
  r ← trigger (DeleteObj KSecret (m_Namespace (d_Meta d)) (relay_secret_name d));
  mret (match r with Err NotFound => Ok tt | r => r end).

(** The token and its expiry. *)
Definition mintDesktopRelayJWT (secret relayKey : string) (ttl : Z) : kprog (result error (string * Z)) :=
  now ← trigger Now;
  let expiresAt := now + (if ttl <=? 0 then 24 * hour else ttl) in
  mret (match sign_relay secret (TrimSpace relayKey) now expiresAt with
        | Err e => Err e
        | Ok tok => Ok (tok, expiresAt)
        end).

(** The stored token, while it is valid for more than ten minutes. *)
Definition valid_token (data : gmap string string) (now : Z) : option string :=
  let rawTok := TrimSpace (default "" (data !! "token")) in
  let rawExp := TrimSpace (default "" (data !! "expires_at")) in
  if decide (rawTok = "" \/ rawExp = "") then None else
  match parse_rfc3339 rawExp with
  | Some t => if After t (now + 10 * minute) then Some rawTok else None
  | None => None
  end.

(** The callback: the secret and the token chosen. *)
Definition relay_secret (r : DesktopReconciler) (d : Desktop) (labels : gmap string string)
    (relayKey : string) (now : Z) (s : Secret) : kprog (result kerr (Secret * string)) :=
  let ttl := if dr_DesktopRelayJWTTTL r <=? 0 then 24 * hour else dr_DesktopRelayJWTTTL r in
  let s := {| sec_Meta := with_labels (sec_Meta s) (labels ∪ m_Labels (sec_Meta s));
              sec_Type := "Opaque"; sec_Data := <["key" := relayKey]> (sec_Data s) |} in
  let own s tok :=
    o ← trigger (SetControllerReference KSecret (d_Meta d) s);
    mret (match o with Ok s' => Ok (s', tok) | Err e => Err e end) in
  match valid_token (sec_Data s) now with
  | Some tok => own s tok
  | None =>
      minted ← mintDesktopRelayJWT (dr_DesktopRelayJWTSecret r) relayKey ttl;
      match minted with
      | Err e => mret (Err (OtherErr e))
      | Ok (tok, exp) =>
          own {| sec_Meta := sec_Meta s; sec_Type := sec_Type s;
                 sec_Data := <["expires_at" := format_rfc3339nano exp]>
                               (<["token" := tok]> (sec_Data s)) |} tok
      end
  end.

Definition ensureDesktopRelaySecret (r : DesktopReconciler) (d : Desktop)
    (labels : gmap string string) (relayKey : string) : kprog (result kerr string) :=
  let name := relay_secret_name d in
  now ← trigger Now;
  res ← CreateOrUpdateWith id KSecret (m_Namespace (d_Meta d)) name
          {| sec_Meta := new_meta (m_Namespace (d_Meta d)) name; sec_Type := ""; sec_Data := ∅ |}
          (relay_secret r d labels relayKey now);
  mret (match res with Ok tok => Ok (sha256Hex tok) | Err e => Err e end).

Definition setDesktopRelayCondition (d : Desktop) (ok : bool) (reason : string) (msg : value)
    : kprog Desktop :=
  now ← trigger Now;
  let cond := {|
    c_Type := desktopCondRelayConfigured; c_Status := if ok then "True" else "False";
    c_Reason := reason; c_Message := msg; c_ObservedGeneration := m_Generation (d_Meta d);
    c_LastTransitionTime := now |} in
  let d' := set_DConditions (SetStatusCondition (dt_Conditions (d_Status d)) cond) d in
  if decide (dt_Conditions (d_Status d) = dt_Conditions (d_Status d')) then mret d'
  else patch_desktop d' d.

(** A nil list of conditions is not [DeepEqual] to the empty one that replaces it. *)
Definition clearDesktopRelayCondition (d : Desktop) : kprog Desktop :=
  let out := filter (fun c => c_Type c <> desktopCondRelayConfigured) (dt_Conditions (d_Status d)) in
  let d' := set_DConditions out d in
  if decide (dt_Conditions (d_Status d) = out /\ out <> []) then mret d' else patch_desktop d' d.

Definition relay_configured (r : DesktopReconciler) : bool :=
  bool_decide (TrimSpace (dr_DesktopRelayAgentImage r) <> "")
  && bool_decide (TrimSpace (dr_DesktopRelaydControlAddr r) <> "")
  && bool_decide (TrimSpace (dr_DesktopRelaydDataAddr r) <> "")
  && bool_decide (dr_DesktopRelayJWTSecret r <> "").

(** The hash of the relay token ([""] without relay mode), or the error. *)
Definition setup_relay (r : DesktopReconciler) (d : Desktop) (labels : gmap string string)
    : kprog (Desktop * result kerr string) :=
  if want_relay d then
    if negb (relay_configured r) then
      d ← setDesktopRelayCondition d false "MissingConfig"
            (VStr "relay mode requested but operator relay config is incomplete");
      mret (d, Ok "")
    else
      sha ← ensureDesktopRelaySecret r d labels
              (m_Namespace (d_Meta d) +:+ "/" +:+ m_Name (d_Meta d));
      match sha with
      | Err e =>
          d ← setDesktopRelayCondition d false "SecretError" (err_value (kerr_error e));
          mret (d, Err e)
      | Ok sha =>
          d ← setDesktopRelayCondition d true "Configured" (VStr "relay mode configured");
          mret (d, Ok sha)
      end
  else
    d ← clearDesktopRelayCondition d;
    _ ← deleteDesktopRelaySecret d;
    mret (d, Ok "").

(** * The home claim and its resets *)

Definition home_base (d : Desktop) : string := "desktop-" +:+ m_Name (d_Meta d) +:+ "-home".

(** The claim in use, recorded in the status with its revision. *)
Definition active_home (d : Desktop) : string :=
  let n := TrimSpace (dt_HomeClaimName (d_Status d)) in
  if decide (n = "") then home_base d else n.
Definition home_revision (d : Desktop) : Z :=
  if dt_HomeRevision (d_Status d) =? 0 then 1 else dt_HomeRevision (d_Status d).
Definition record_home (d : Desktop) : kprog Desktop :=
  if decide (dt_HomeClaimName (d_Status d) = active_home d /\ dt_HomeRevision (d_Status d) = home_revision d)
  then mret d
  else patch_desktop (set_Home (active_home d) (home_revision d) (dt_LastResetAt (d_Status d)) d) d.

Definition reset_name (d : Desktop) (rev : Z) : string :=
  let n := home_base d +:+ "-r" +:+ Itoa rev in
  if (63 <? String.length n)%nat then str_take 63 n else n.

(** The reset asked for and not done yet. *)
Definition pending_reset (d : Desktop) : option (DesktopHomeResetSpec * Z) :=
  match dh_Reset (ds_Home (d_Spec d)) with
  | Some reset =>
      match dhr_RequestedAt reset with
      | Some t => if sameTimePtr (dt_LastResetAt (d_Status d)) (Some t) then None else Some (reset, t)
      | None => None
      end
  | None => None
  end.

(** The claim in use after the reset, or ([Err]) what the reconcile returns. *)
Definition handle_reset (d : Desktop) (labels : gmap string string) (active : string)
    : kprog (result (result kerr Z) (Desktop * string)) :=
  match pending_reset d with
  | None => mret (Ok (d, active))
  | Some (reset, requestedAt) =>
      snap ← resolveDesktopHomeSnapshot d (dhr_TemplateRef reset) (dhr_SnapshotName reset);
      match snap with
      | Err errNoSnapshotSource => mret (Err (Ok 0))
      | Err _ => mret (Err (Ok (15 * second)))
      | Ok snapName =>
          ready ← volumeSnapshotReady (m_Namespace (d_Meta d)) snapName;
          match ready with
          | Err e => mret (Err (Err e))
          | Ok false => mret (Err (Ok (10 * second)))
          | Ok true =>
              let newRev := wrap64 (dt_HomeRevision (d_Status d) + 1) in
              let newPVCName := reset_name d newRev in
              r ← ensureHomePVC d labels newPVCName newRev snapName;
              match r with
              | Err (HomeErr e) => mret (Err (Err e))
              | Err _ => mret (Err (Err (OtherErr (Errorf "home_seed_not_ready" []))))
              | Ok _ =>
                  d' ← patch_desktop (set_Home newPVCName newRev (Some requestedAt) d) d;
                  mret (Ok (d', newPVCName))
              end
          end
      end
  end.

(** * The objects of the desktop *)

Definition authkeys_name (d : Desktop) : string := "desktop-" +:+ m_Name (d_Meta d) +:+ "-authkeys".
Definition deploy_name (d : Desktop) : string := "desktop-" +:+ m_Name (d_Meta d).
Definition ssh_name (d : Desktop) : string := "desktop-" +:+ m_Name (d_Meta d) +:+ "-ssh".

Definition authkeys_secret (d : Desktop) (labels : gmap string string) (s : Secret) : Secret :=
  let keys := TrimSpace (GoStrings.Join (ds_AuthorizedKeys (d_Spec d)) (String (byte 10) "")) in
  {| sec_Meta := with_labels (sec_Meta s) (labels ∪ m_Labels (sec_Meta s)); sec_Type := "Opaque";
     sec_Data := <["authorized_keys" := if decide (keys = "") then "" else keys +:+ String (byte 10) ""]>
                   (sec_Data s) |}.

Definition desktop_container (r : DesktopReconciler) (d : Desktop) : Container := {|
  ct_Name := "desktop";
  ct_Image := if decide (ds_Image (d_Spec d) = "") then dr_DefaultDesktopImage r else ds_Image (d_Spec d);
  ct_Command := []; ct_Args := []; ct_WorkingDir := ""; ct_Ports := [("ssh", 2222)];
  ct_Env := [env_val "WORKSPACES_USERNAME" (ds_User (d_Spec d));
             env_val "WORKSPACES_AUTHORIZED_KEYS_FILE" "/etc/workspaces/authorized_keys"];
  ct_Resources := ds_Resources (d_Spec d);
  ct_VolumeMounts := [{| vm_Name := "home"; vm_MountPath := "/home"; vm_ReadOnly := false |};
                      {| vm_Name := "authkeys"; vm_MountPath := "/etc/workspaces"; vm_ReadOnly := true |}];
  ct_SecurityContext := Some {| sc_AllowPrivilegeEscalation := Some false; sc_DropCapabilities := ["ALL"];
    sc_ReadOnlyRootFilesystem := None; sc_RunAsNonRoot := None; sc_RunAsUser := None;
    sc_Seccomp := "RuntimeDefault" |} |}.

Definition relay_container (r : DesktopReconciler) (d : Desktop) : Container := {|
  ct_Name := "ws-desktop-agent"; ct_Image := TrimSpace (dr_DesktopRelayAgentImage r);
  ct_Command := []; ct_Args := []; ct_WorkingDir := ""; ct_Ports := [];
  ct_Env := [env_val "WS_RELAYD_CONTROL_ADDR" (TrimSpace (dr_DesktopRelaydControlAddr r));
             env_val "WS_RELAYD_DATA_ADDR" (TrimSpace (dr_DesktopRelaydDataAddr r));
             env_val "WS_RELAY_KEY" (m_Namespace (d_Meta d) +:+ "/" +:+ m_Name (d_Meta d));
             {| ev_Name := "WS_RELAY_TOKEN"; ev_Value := "";
                ev_ValueFrom := Some {| skr_Name := relay_secret_name d; skr_Key := "token";
                                        skr_Optional := None |} |};
             env_val "WS_RELAY_CONCURRENCY" "4"];
  ct_Resources := VObj []; ct_VolumeMounts := [];
  ct_SecurityContext := Some {| sc_AllowPrivilegeEscalation := Some false; sc_DropCapabilities := ["ALL"];
    sc_ReadOnlyRootFilesystem := Some true; sc_RunAsNonRoot := Some true; sc_RunAsUser := Some 1000;
    sc_Seccomp := "RuntimeDefault" |} |}.

Definition desktop_volumes (d : Desktop) (home : string) : list Volume := [
  {| vol_Name := "home";
     vol_Source := VObj [("persistentVolumeClaim", VObj [("claimName", VStr home)])] |};
  {| vol_Name := "authkeys";
     vol_Source := VObj [("secret", VObj [("secretName", VStr (authkeys_name d));
                                          ("defaultMode", VInt 292)])] |} ].

Definition desktop_deployment (r : DesktopReconciler) (d : Desktop) (labels : gmap string string)
    (home relayTokenSHA : string) (replicas : Z) (dep : Deployment) : Deployment := {|
  dep_Meta := with_labels (dep_Meta dep) (labels ∪ m_Labels (dep_Meta dep));
  dep_Replicas := Some replicas;
  dep_Strategy := "Recreate";
  dep_Selector := Some labels;
  dep_TemplateLabels := labels;
  dep_TemplateAnnotations :=
    if decide (relayTokenSHA <> "")
    then <[annotationRelayTokenSHA256 := relayTokenSHA]> (dep_TemplateAnnotations dep)
    else delete annotationRelayTokenSHA256 (dep_TemplateAnnotations dep);
  dep_Pod := {|
    pod_RestartPolicy := pod_RestartPolicy (dep_Pod dep);
    pod_RuntimeClassName := pod_RuntimeClassName (dep_Pod dep);
    pod_AutomountServiceAccountToken := Some false;
    pod_EnableServiceLinks := Some false;
    pod_NodeSelector := ds_NodeSelector (d_Spec d);
    pod_Tolerations := ds_Tolerations (d_Spec d);
    pod_Volumes := desktop_volumes d home;
    pod_InitContainers := pod_InitContainers (dep_Pod dep);
    pod_Containers := desktop_container r d
      :: if want_relay d && bool_decide (relayTokenSHA <> "") then [relay_container r d] else [] |};
  dep_AvailableReplicas := dep_AvailableReplicas dep |}.

Definition fresh_deployment (ns name : string) : Deployment := {|
  dep_Meta := new_meta ns name; dep_Replicas := None; dep_Strategy := ""; dep_Selector := None;
  dep_TemplateLabels := ∅; dep_TemplateAnnotations := ∅;
  dep_Pod := {| pod_RestartPolicy := ""; pod_RuntimeClassName := None;
    pod_AutomountServiceAccountToken := None; pod_EnableServiceLinks := None; pod_NodeSelector := ∅;
    pod_Tolerations := []; pod_Volumes := []; pod_InitContainers := []; pod_Containers := [] |};
  dep_AvailableReplicas := 0 |}.

Definition desktop_service (labels : gmap string string) (svc : Service) : Service := {|
  svc_Meta := with_labels (svc_Meta svc) (labels ∪ m_Labels (svc_Meta svc));
  svc_Selector := labels;
  svc_Ports := [{| sp_Name := "ssh"; sp_Port := 22; sp_TargetPort := 2222; sp_Protocol := "TCP" |}] |}.

(** [controllerutil.CreateOrUpdate] of an object of the desktop. *)
Definition own (k : kind) (d : Desktop) (name : string) (fresh : obj k) (edit : obj k -> obj k)
    : kprog (result kerr (obj k)) :=
  CreateOrUpdate k (m_Namespace (d_Meta d)) name fresh
    (fun o => trigger (SetControllerReference k (d_Meta d) (edit o))).

(** * Reconcile *)

Definition report_phase (d : Desktop) (suspend : bool) : kprog Desktop :=
  latest ← trigger (Get KDeployment (m_Namespace (d_Meta d)) (deploy_name d));
  match latest with
  | Err _ => mret d
  | Ok dep =>
      let phase := if suspend then "Suspended"
                   else if 0 <? dep_AvailableReplicas dep then "Running" else "Pending" in
      if decide (dt_Phase (d_Status d) = phase /\ dt_ServiceName (d_Status d) = ssh_name d
                 /\ dt_Suspended (d_Status d) = suspend)
      then mret d else patch_desktop (set_Phase phase suspend (ssh_name d) d) d
  end.

(** Retention after resets, and the time until the idle suspension. *)
Definition finish (d : Desktop) (labels : gmap string string) (active : string) (suspend : bool)
    (now : Z) : kprog (result kerr Z) :=
  _ ← match dh_Reset (ds_Home (d_Spec d)) with
      | Some reset =>
          let retain := if dhr_RetainOldClaims reset <=? 0 then 1 else dhr_RetainOldClaims reset in
          _ ← enforceHomeRetention d labels active retain; mret tt
      | None => mret tt
      end;
  mret (match dt_LastActiveAt (d_Status d) with
        | Some t =>
            let dur := time_sub (t + seconds (ds_IdleTimeoutSeconds (d_Spec d))) now in
            if negb suspend && (0 <? ds_IdleTimeoutSeconds (d_Spec d)) && (0 <? dur)
            then Ok dur else Ok 0
        | None => Ok 0
        end).

(** The secret, the volume, the pod and the service, in this order. *)
Definition provision (r : DesktopReconciler) (d : Desktop) (labels : gmap string string)
    (active sha : string) (suspend : bool) (now : Z) : kprog (result kerr Z) :=
  let ns := m_Namespace (d_Meta d) in
  w ← own KSecret d (authkeys_name d)
        {| sec_Meta := new_meta ns (authkeys_name d); sec_Type := ""; sec_Data := ∅ |}
        (authkeys_secret d labels);
  match w with
  | Err e => mret (Err e)
  | Ok _ =>
      p ← ensureHomePVC d labels active (dt_HomeRevision (d_Status d)) "";
      match p with
      | Err errHomeSeedNotReady => mret (Ok (10 * second))
      | Err errNoSnapshotSource => mret (Err (OtherErr (Errorf "no_snapshot_source_configured" [])))
      | Err (HomeErr e) => mret (Err e)
      | Ok _ =>
          w ← own KDeployment d (deploy_name d) (fresh_deployment ns (deploy_name d))
                (desktop_deployment r d labels active sha (if suspend then 0 else 1));
          match w with
          | Err e => mret (Err e)
          | Ok _ =>
              w ← own KService d (ssh_name d)
                    {| svc_Meta := new_meta ns (ssh_name d); svc_Selector := ∅; svc_Ports := [] |}
                    (desktop_service labels);
              match w with
              | Err e => mret (Err e)
              | Ok _ =>
                  d ← report_phase d suspend;
                  finish d labels active suspend now
              end
          end
      end
  end.

(** The relay token and the home claim in use, after a reset if one is pending,
    or ([Err]) what the reconcile returns. *)
Definition settle (r : DesktopReconciler) (d : Desktop) (labels : gmap string string)
    : kprog (result (result kerr Z) (Desktop * string * string)) :=
  '(d, relay) ← setup_relay r d labels;
  match relay with
  | Err e => mret (Err (Err e))
  | Ok sha =>
      let active := active_home d in
      d ← record_home d;
      step ← handle_reset d labels active;
      mret (match step with Err out => Err out | Ok (d, active) => Ok (d, active, sha) end)
  end.

(** [Reconcile]: the requeue delay (0 for none) or the error. *)
Definition Reconcile (r : DesktopReconciler) (ns name : string) : kprog (result kerr Z) :=
  got ← trigger (Get KDesktop ns name);
  match got with
  | Err NotFound => mret (Ok 0)
  | Err e => mret (Err e)
  | Ok d =>
      if decide (ds_User (d_Spec d) = "") then mret (Ok 0) else
      now ← trigger Now;
      let lastActive := last_active d in
      d ← record_activity d lastActive;
      let suspend := should_suspend d lastActive now in
      let labels := desktop_labels d in
      step ← settle r d labels;
      match step with
      | Err out => mret out
      | Ok (d, active, sha) => provision r d labels active sha suspend now
      end
  end.
End controller.

(** * Retention *)

Definition newest_first (a b : string * Z) : Prop := b.2 <= a.2.
Definition sort_law (sort : list (string * Z) -> list (string * Z)) : Prop :=
  forall l, sort l ≡ₚ l /\ StronglySorted newest_first (sort l).

Lemma keep_claims_sub active n all : forall keep, keep ⊆ keep_claims active n all keep.
Proof.
  induction all as [|[m t] all IH]; intros keep; cbn; [done|].
  case_decide; [apply IH|]. destruct (_ <=? _); [done|]. etransitivity; [|apply IH]. set_solver.
Qed.

(** A claim that is not kept comes after enough kept ones. *)
Lemma keep_claims_spec active k all n t : 0 <= k -> StronglySorted newest_first all ->
  forall keep, active ∈ keep -> Z.of_nat (size keep) - 1 <= k ->
  (n, t) ∈ all -> n ∉ keep_claims active k all keep ->
  Z.of_nat (size (keep_claims active k all keep)) = k + 1
  /\ forall m, m ∈ keep_claims active k all keep -> m ∈ keep \/ exists t', (m, t') ∈ all /\ t <= t'.
Proof.
  intros Hk Hs. induction Hs as [|[m u] all Hs IH Hall]; intros keep Ha Hsz Hin Hn.
  { by apply not_elem_of_nil in Hin. }
  rewrite list.Forall_forall in Hall. cbn in Hn |- *.
  assert (Hne : n <> active).
  { intros ->. apply Hn. case_decide; [by apply keep_claims_sub|].
    destruct (_ <=? _); [done|]. apply keep_claims_sub. set_solver. }
  assert (Hlift : forall (S S' : gset string), (forall x, x ∈ S -> x ∈ S' \/ exists t', (x, t') ∈ all /\ t <= t') ->
    forall x, x ∈ S -> x ∈ S' \/ exists t', (x, t') ∈ (m, u) :: all /\ t <= t').
  { intros S S' HS x Hx. destruct (HS x Hx) as [?|(t' & ? & ?)]; [by left | right].
    exists t'. split; [by right | done]. }
  case_decide as Hm.
  - apply elem_of_cons in Hin as [[= -> ->]|Hin]; [done|].
    destruct (IH keep) as [H1 H2]; [done..|]. split; [done | by apply Hlift].
  - destruct (Z.leb_spec k (Z.of_nat (size keep) - 1)); [split; [lia | by left]|].
    assert (Hsz' : Z.of_nat (size ({[m]} ∪ keep)) - 1 <= k).
    { pose proof (size_union_alt {[m]} keep) as Hu. rewrite size_singleton in Hu.
      pose proof (subseteq_size (keep ∖ {[m]}) keep ltac:(set_solver)). lia. }
    assert (Hin' : (n, t) ∈ all).
    { apply elem_of_cons in Hin as [[= -> ->]|Hin]; [|done].
      destruct Hn. apply keep_claims_sub. set_solver. }
    destruct (IH ({[m]} ∪ keep)) as [H1 H2]; [set_solver | done..|]. split; [done|].
    intros x Hx. destruct (H2 x Hx) as [[->%elem_of_singleton|?]%elem_of_union|(t' & ? & ?)].
    + right. exists u. split; [by left|]. by apply (Hall _ Hin').
    + by left.
    + right. exists t'. split; [by right | done].
Qed.

(** * What a reconcile does *)

(** The claims of a desktop, with their ages. *)
Definition claims (d : Desktop) (items : list PVC) : list (string * Z) :=
  (fun p => (m_Name (pvc_Meta p), m_CreationTimestamp (pvc_Meta p)))
  <$> filter (fun p => HasPrefix (m_Name (pvc_Meta p)) (home_base d) = true) items.

Definition retained (d : Desktop) : Z :=
  match dh_Reset (ds_Home (d_Spec d)) with
  | Some reset => if dhr_RetainOldClaims reset <=? 0 then 1 else dhr_RetainOldClaims reset
  | None => 1
  end.

(** A claim that may go: not the one in use, an hour old, and none of the
    [retained] newer ones that are spared beside the one in use. *)
Definition removable (d : Desktop) (active : string) (spared : list PVC -> gset string)
    (tr : list kobs) (n : string) : Prop :=
  n <> active /\ exists items t now,
    Ok items ∈ omap (listed KPVC) tr /\ (n, t) ∈ claims d items
    /\ now ∈ omap time_read tr /\ hour <= time_sub now t
    /\ (n ∉ spared items) /\ (active ∉ spared items) /\ Z.of_nat (size (spared items)) = retained d
    /\ forall m, m ∈ spared items -> exists t', (m, t') ∈ claims d items /\ t <= t'.

Definition hardened (c : Container) : Prop :=
  exists sc, ct_SecurityContext c = Some sc /\ sc_AllowPrivilegeEscalation sc = Some false
    /\ sc_DropCapabilities sc = ["ALL"] /\ sc_Seccomp sc = "RuntimeDefault".

(** The deployment of a desktop whose home is the claim [active]. *)
Definition runs_desktop (d : Desktop) (active : string) (tr : list kobs) (dep : Deployment) : Prop :=
  (exists now, now ∈ omap time_read tr
     /\ dep_Replicas dep = Some (if should_suspend d (last_active d) now then 0 else 1))
  /\ dep_Strategy dep = "Recreate"
  /\ dep_Selector dep = Some (desktop_labels d) /\ dep_TemplateLabels dep = desktop_labels d
  /\ pod_AutomountServiceAccountToken (dep_Pod dep) = Some false
  /\ pod_EnableServiceLinks (dep_Pod dep) = Some false
  /\ pod_Volumes (dep_Pod dep) = desktop_volumes d active
  /\ Forall hardened (pod_Containers (dep_Pod dep)).

(** Nobody else writes the desktop meanwhile; [SetControllerReference] only adds
    an owner. *)
Definition desktop_kept (k : kind) : obj k -> obj k -> Prop :=
  match k with
  | KDesktop => fun d d' => d_Spec d' = d_Spec d /\ m_Namespace (d_Meta d') = m_Namespace (d_Meta d)
                            /\ m_Name (d_Meta d') = m_Name (d_Meta d)
  | KDeployment => fun x x' => x' = Build_Deployment (dep_Meta x') (dep_Replicas x) (dep_Strategy x)
      (dep_Selector x) (dep_TemplateLabels x) (dep_TemplateAnnotations x) (dep_Pod x) (dep_AvailableReplicas x)
  | KService => fun s s' => svc_Selector s' = svc_Selector s
  | KSecret => fun s s' => sec_Data s' = sec_Data s
  | _ => fun _ _ => True
  end.
Notation same_desktop d d' := (desktop_kept KDesktop d d').

(** One call of a reconcile of [d] with the home [active], in the trace [tr]. *)
Definition call_ok (d : Desktop) (active : string) (spared : list PVC -> gset string)
    (tr : list kobs) (o : kobs) : Prop :=
  (forall dep, written KDeployment o = Some dep -> runs_desktop d active tr dep)
  /\ (forall svc, written KService o = Some svc -> svc_Selector svc = desktop_labels d)
  /\ (forall ns n, deleted KPVC o = Some (ns, n) -> removable d active spared tr n).

(** A call that none of this concerns. *)
Definition neutral (o : kobs) : Prop :=
  written KDeployment o = None /\ written KService o = None /\ deleted KPVC o = None.
Lemma neutral_ok d active spared tr o : neutral o -> call_ok d active spared tr o.
Proof. intros (H1 & H2 & H3). unfold call_ok. rewrite H1, H2, H3. done. Qed.

(** The claims beside the one in use that the retention spares. *)
Definition spared_claims (sort : list (string * Z) -> list (string * Z)) (d : Desktop)
    (active : string) (items : list PVC) : gset string :=
  keep_claims active (retained d) (sort (claims d items)) {[active]} ∖ {[active]}.

Section proofs.
Context (sort : list (string * Z) -> list (string * Z)) (Hsort : sort_law sort).
Context (d0 : Desktop) (active : string) (tr0 : list kobs).
Notation K := (fun o => kept_obs desktop_kept o /\ o ∈ tr0).
Notation Q := (call_ok d0 active (spared_claims sort d0 active) tr0).
Notation safe := (safe K Q).

Lemma safe_quiet {X} (e : eff X) (R : X -> Prop) :
  (forall x, neutral (Obs e x)) -> (forall x, K (Obs e x) -> R x) -> safe (trigger e) R.
Proof using Type. intros Hn HR. apply safe_trigger. intros x HK. split; [by apply neutral_ok | by apply HR]. Qed.

Lemma safe_patch d b : safe (patch_desktop d b) (fun d' => same_desktop d d').
Proof using Type.
  unfold patch_desktop. eapply safe_bind; [apply (safe_quiet _ (fun r => forall d', r = Ok d' -> same_desktop d d'))|].
  - done.
  - intros x [Hk _]. exact Hk.
  - intros [d'|e] Hr; apply safe_ret; [by apply Hr | done].
Qed.

Lemma claim_time (o : kobs) x : o ∈ tr0 -> time_read o = Some x -> x ∈ omap time_read tr0.
Proof using Type. intros Ho Hx. apply list_elem_of_omap. eauto. Qed.

Lemma retention_safe d labels : same_desktop d0 d -> dh_Reset (ds_Home (d_Spec d)) <> None ->
  safe (enforceHomeRetention sort d labels active (retained d0)) (fun _ => True).
Proof using Hsort.
  intros (Hsp & Hns & Hnm) Hr. unfold enforceHomeRetention.
  assert (Hret : 0 < retained d0).
  { unfold retained. destruct (dh_Reset (ds_Home (d_Spec d0))) as [r|]; [|lia].
    destruct (Z.leb_spec (dhr_RetainOldClaims r) 0); lia. }
  destruct (Z.ltb_spec (retained d0) 0); [lia|].
  eapply safe_bind.
  { apply (safe_quiet _ (fun r => forall items, r = Ok items -> Ok items ∈ omap (listed KPVC) tr0)); [done|].
    intros x [_ Hin] items ->. apply list_elem_of_omap. eexists. split; [exact Hin | done]. }
  intros [items|e] Hl; [|by apply safe_ret]. specialize (Hl _ eq_refl).
  change ("desktop-" +:+ m_Name (d_Meta d) +:+ "-home") with (home_base d).
  assert (home_base d = home_base d0) as -> by (unfold home_base; by rewrite Hnm).
  fold (claims d0 items).
  destruct (Z.leb_spec (Z.of_nat (length (claims d0 items))) (retained d0 + 1)); [by apply safe_ret|].
  destruct (Hsort (claims d0 items)) as [Hp Hs].
  eapply (safe_bind _ _ _ _ (fun _ => True)); [|intros ? _; by apply safe_ret].
  apply safe_foldP; [done|]. intros _ [n t] Hin _. cbn [fst snd].
  case_decide as Hk; [by apply safe_ret|].
  eapply safe_bind.
  { apply (safe_quiet _ (fun now => now ∈ omap time_read tr0)); [done|].
    intros now [_ Ho]. by eapply claim_time. }
  intros now Hnow. destruct (Z.ltb_spec (time_sub now t) hour); [by apply safe_ret|].
  apply (safe_bind _ _ _ _ (fun _ => True)); [|intros ? _; by apply safe_ret].
  apply safe_trigger. intros x _. split; [|done]. split; [done|]. split; [done|].
  intros ns n' [= <- <-].
  destruct (keep_claims_spec active (retained d0) (sort (claims d0 items)) n t ltac:(lia) Hs {[active]})
    as [Hsz Hnew]; [set_solver | rewrite size_singleton; lia | done | done|].
  split.
  { intros ->. apply Hk. apply keep_claims_sub. set_solver. }
  exists items, t, now. unfold spared_claims.
  split; [done|]. split; [by rewrite <- Hp|]. split; [done|]. split; [done|].
  split; [by intros [? _]%elem_of_difference|]. split; [set_solver|]. split.
  - rewrite size_difference by (apply singleton_subseteq_l, keep_claims_sub; set_solver).
    rewrite size_singleton. lia.
  - intros m [Hm Hma]%elem_of_difference. destruct (Hnew m Hm) as [?|(t' & Hin' & ?)]; [done|].
    exists t'. by rewrite <- Hp.
Qed.
Context (SSC : list Condition -> Condition -> list Condition) (PQ : string -> result error string)
        (sign : string -> string -> Z -> Z -> result error string).

(** Goes through a program whose calls are all neutral. *)
Ltac calm :=
  repeat (cbv zeta; match goal with
  | |- Prelude.safe _ _ (mret _) _ => apply safe_ret
  | |- Prelude.safe _ _ (trigger _) _ => apply (safe_quiet _ (fun _ => True)); [done | done]
  | |- Prelude.safe _ _ (trigger _ ≫= _) _ =>
      eapply safe_bind; [apply (safe_quiet _ (fun _ => True)); [done | done] | intros ? _]
  | |- Prelude.safe _ _ (match ?x with _ => _ end) _ => destruct x
  | |- True => exact I
  end).

Lemma ready_safe ns n : safe (volumeSnapshotReady ns n) (fun _ => True).
Proof using Type. unfold volumeSnapshotReady. by calm. Qed.

Lemma resolve_safe d t s : safe (resolveDesktopHomeSnapshot d t s) (fun _ => True).
Proof using Type. unfold resolveDesktopHomeSnapshot. by calm. Qed.

Lemma seed_safe d creating s : safe (seed_snapshot d creating s) (fun _ => True).
Proof using Type.
  unfold seed_snapshot. cbv zeta. calm; try done.
  eapply safe_bind; [apply resolve_safe|]. intros r _. calm; try done.
  eapply safe_bind; [apply ready_safe|]. intros x _. by calm.
Qed.

Lemma ensure_safe d labels n rev s : safe (ensureHomePVC PQ d labels n rev s) (fun _ => True).
Proof using Type.
  unfold ensureHomePVC, CreateOrUpdateWith. cbv zeta. calm; try done.
  apply (safe_bind _ _ _ _ (fun _ => True)); [|intros m _; by calm]. cbv beta.
  eapply safe_bind; [apply seed_safe|]. intros x _. by calm.
Qed.

Lemma relay_secret_safe r d labels key now s : safe (relay_secret sign r d labels key now s) (fun _ => True).
Proof using Type.
  unfold relay_secret, mintDesktopRelayJWT. cbv zeta. calm; try done.
  apply (safe_bind _ _ _ _ (fun _ => True)); [by calm|]. intros x _. by calm.
Qed.

Lemma ensure_secret_safe r d labels key :
  safe (ensureDesktopRelaySecret sign r d labels key) (fun _ => True).
Proof using Type.
  unfold ensureDesktopRelaySecret, CreateOrUpdateWith. calm.
  apply (safe_bind _ _ _ _ (fun _ => True)); [|intros m _; by calm]. calm; try done.
  eapply safe_bind; [apply relay_secret_safe|]. intros x _. by calm.
Qed.

Lemma condition_safe d ok reason msg :
  safe (setDesktopRelayCondition SSC d ok reason msg) (fun d' => same_desktop d d').
Proof using Type.
  unfold setDesktopRelayCondition. calm; [done|].
  eapply safe_weaken; [apply safe_patch|]. done.
Qed.

Lemma setup_relay_safe r d labels : safe (setup_relay SSC sign r d labels) (fun p => same_desktop d p.1).
Proof using Type.
  unfold setup_relay. destruct (want_relay d); [destruct (negb _)|].
  - eapply safe_bind; [apply condition_safe|]. intros d' Hd. by calm.
  - eapply safe_bind; [apply ensure_secret_safe|]. intros [sha|e] _;
      (eapply safe_bind; [apply condition_safe|]; intros d' Hd; by calm).
  - eapply safe_bind.
    + unfold clearDesktopRelayCondition. calm; [by instantiate (1 := fun d' => same_desktop d d')|].
      eapply safe_weaken; [apply safe_patch|]. done.
    + intros d' Hd. unfold deleteDesktopRelaySecret. eapply (safe_bind _ _ _ _ (fun _ => True)); [by calm|].
      intros ? _. by calm.
Qed.

Lemma reset_safe d labels a : safe (handle_reset PQ d labels a)
  (fun res => forall d' n, res = Ok (d', n) -> same_desktop d d').
Proof using Type.
  unfold handle_reset. destruct (pending_reset d) as [[reset req]|]; [|calm; by intros ?? [= <- <-]].
  eapply safe_bind; [apply resolve_safe|]. intros [sn|[| |e]] _; [|by calm..].
  eapply safe_bind; [apply ready_safe|]. intros [[]|e] _; [|by calm..].
  eapply safe_bind; [apply ensure_safe|]. intros [u|[| |e]] _; [|by calm..].
  eapply safe_bind; [apply safe_patch|]. intros d' Hd. calm. intros ?? [= <- <-]. done.
Qed.
Lemma own_safe k d name fresh edit (P : obj k -> Prop) :
  (forall o o', desktop_kept k (edit o) o' -> P o') ->
  (forall o x, P o -> Q (Obs (Write k o) x)) -> safe (own k d name fresh edit) (fun _ => True).
Proof using Type.
  intros HP HQ. unfold own, CreateOrUpdate.
  eapply safe_bind; [apply (safe_quiet _ (fun _ => True)); done|]. intros [cur|e] _; [|by calm].
  eapply safe_bind.
  { apply (safe_quiet _ (fun r => forall o', r = Ok o' -> P o')); [done|].
    intros r [Hk _] o' ->. eapply HP. by apply Hk. }
  intros [o|e] Ho; [|by calm]. apply safe_trigger. intros x _. split; [|done]. apply HQ. by apply Ho.
Qed.

Lemma phase_safe d b : safe (report_phase d b) (fun d' => same_desktop d d').
Proof using Type.
  unfold report_phase. calm; try done. eapply safe_weaken; [apply safe_patch|]. done.
Qed.

Lemma finish_safe d labels b now : same_desktop d0 d -> safe (finish sort d labels active b now) (fun _ => True).
Proof using Hsort.
  intros Hd. unfold finish. pose proof (retention_safe d labels Hd) as Hret.
  pose proof (proj1 Hd) as Hsp. eapply (safe_bind _ _ _ _ (fun _ => True)); [|intros ? _; by calm].
  destruct (dh_Reset (ds_Home (d_Spec d))) as [reset|] eqn:Hr; [|by calm].
  unfold retained in Hret. rewrite <- Hsp, Hr in Hret.
  eapply safe_bind; [by apply Hret|]. intros ? _. by calm.
Qed.

Lemma hardened_containers r d sha dep : Forall hardened
  (pod_Containers (dep_Pod (desktop_deployment r d (desktop_labels d0) active sha 0 dep))).
Proof using Type.
  cbn. constructor; [by eexists|]. destruct (_ && _); [|constructor]. constructor; [by eexists | constructor].
Qed.

Lemma provision_safe r d sha now : same_desktop d0 d -> now ∈ omap time_read tr0 ->
  safe (provision PQ sort r d (desktop_labels d0) active sha (should_suspend d0 (last_active d0) now) now)
    (fun _ => True).
Proof using Hsort.
  intros Hd Hnow. unfold provision.
  eapply safe_bind; [by apply (own_safe KSecret _ _ _ _ (fun _ => True))|].
  intros [s|e] _; [|by calm].
  eapply safe_bind; [apply ensure_safe|]. intros [u|[| |e]] _; [|by calm..].
  eapply safe_bind.
  { apply (own_safe KDeployment _ _ _ _ (runs_desktop d0 active tr0)).
    - intros o o' ->. destruct Hd as (Hsp & Hns & Hnm).
      split; [exists now; split; [done|]; by destruct (should_suspend _ _ _)|].
      split; [done|]. split; [done|]. split; [done|]. split; [done|]. split; [done|]. split.
      + cbn. unfold desktop_volumes, authkeys_name. by rewrite Hnm.
      + apply hardened_containers.
    - intros o x Ho. split; [by intros ? [= <-]|]. done. }
  intros [dep|e] _; [|by calm].
  eapply safe_bind.
  { apply (own_safe KService _ _ _ _ (fun s => svc_Selector s = desktop_labels d0)).
    - intros o o' ->. done.
    - intros o x Ho. split; [done|]. split; [by intros ? [= <-] | done]. }
  intros [svc|e] _; [|by calm].
  eapply safe_bind; [apply phase_safe|]. intros d' Hd'. apply finish_safe.
  destruct Hd as (H1 & H2 & H3), Hd' as (H4 & H5 & H6). split; [congruence|]. split; congruence.
Qed.
End proofs.

Lemma same_desktop_trans d1 d2 d3 : same_desktop d1 d2 -> same_desktop d2 d3 -> same_desktop d1 d3.
Proof. intros (H1 & H2 & H3) (H4 & H5 & H6). split; [congruence|]. split; congruence. Qed.

Lemma safe_kept {A} d active spared tr0 (p : kprog A) R tr a :
  safe (fun o => kept_obs desktop_kept o /\ o ∈ tr0) (call_ok d active spared tr0) p R ->
  exec p tr a -> kept desktop_kept tr -> tr ⊆ tr0 -> Forall (call_ok d active spared tr0) tr /\ R a.
Proof.
  intros Hs H Hk Hsub. apply (Hs tr a H). apply list.Forall_forall. intros o Ho.
  split; [|by apply Hsub]. rewrite list.Forall_forall in Hk. by apply Hk.
Qed.

Section reconcile.
Context (SSC : list Condition -> Condition -> list Condition) (PQ : string -> result error string)
        (sign : string -> string -> Z -> Z -> result error string)
        (sort : list (string * Z) -> list (string * Z)) (Hsort : sort_law sort).

Lemma same_suspend d d' l now : same_desktop d d' -> should_suspend d' l now = should_suspend d l now.
Proof using Type. intros (Hs & _). unfold should_suspend. by rewrite Hs. Qed.
Lemma same_labels d d' : same_desktop d d' -> desktop_labels d' = desktop_labels d.
Proof using Type. intros (Hs & _ & Hn). unfold desktop_labels. by rewrite Hs, Hn. Qed.

Lemma activity_safe d0 active tr0 d l :
  safe (fun o => kept_obs desktop_kept o /\ o ∈ tr0) (call_ok d0 active (spared_claims sort d0 active) tr0) (record_activity d l)
    (fun d' => same_desktop d d').
Proof using Type.
  unfold record_activity. destruct (sameTimePtr _ _); [by apply safe_ret|].
  eapply safe_weaken; [apply safe_patch|]. done.
Qed.
Lemma home_safe d0 active tr0 d :
  safe (fun o => kept_obs desktop_kept o /\ o ∈ tr0) (call_ok d0 active (spared_claims sort d0 active) tr0) (record_home d)
    (fun d' => same_desktop d d').
Proof using Type.
  unfold record_home. case_decide; [by apply safe_ret|]. eapply safe_weaken; [apply safe_patch|]. done.
Qed.

Lemma settle_safe d0 active tr0 r d labels :
  safe (fun o => kept_obs desktop_kept o /\ o ∈ tr0) (call_ok d0 active (spared_claims sort d0 active) tr0)
    (settle SSC PQ sign r d labels)
    (fun res => forall d' a sha, res = Ok (d', a, sha) -> same_desktop d d').
Proof using Type.
  unfold settle. eapply safe_bind; [apply setup_relay_safe|].
  intros [d2 [sha|e]] H2; [|by apply safe_ret]. cbn [fst] in H2. cbv zeta.
  eapply safe_bind; [apply home_safe|]. intros d3 H3.
  eapply safe_bind; [apply reset_safe|].
  intros [[d4 a]|out] H4; apply safe_ret; [|done]. intros ??? [= <- <- <-].
  eapply same_desktop_trans; [exact H2|]. eapply same_desktop_trans; [exact H3 | by eapply H4].
Qed.

Lemma Reconcile_calls r ns name d tr out :
  exec (Reconcile SSC PQ sign sort r ns name) tr out ->
  head (omap (got KDesktop) tr) = Some (Ok d) -> kept desktop_kept tr ->
  exists active, Forall (call_ok d active (spared_claims sort d active) tr) tr.
Proof using Hsort.
  intros H Hd Hk. unfold Reconcile in H.
  apply exec_bind in H as (t0 & t1 & ans & Htr & H0%exec_trigger & H). subst t0.
  rewrite Htr in Hd. cbn in Hd. injection Hd as ->.
  case_decide; [destruct H as [-> _]; exists ""; rewrite Htr at 2; by repeat constructor|].
  apply exec_bind in H as (t2 & t3 & now & -> & H2%exec_trigger & H). subst t2.
  assert (Hnow : now ∈ omap time_read tr) by (rewrite Htr, !omap_app; cbn; set_solver).
  apply exec_bind in H as (t4 & t5 & d1 & -> & H4 & H).
  apply exec_bind in H as (t6 & t7 & step & -> & H6 & H).
  rewrite Htr, !list.Forall_app in Hk. destruct Hk as (_ & _ & Hk4 & Hk6 & Hk7).
  assert (Hs4 : t4 ⊆ tr) by (rewrite Htr; set_solver).
  assert (Hs6 : t6 ⊆ tr) by (rewrite Htr; set_solver).
  assert (Hs7 : t7 ⊆ tr) by (rewrite Htr; set_solver).
  assert (Hpre : forall active, Forall (call_ok d active (spared_claims sort d active) tr) (t4 ++ t6) /\ same_desktop d d1
    /\ forall d' a sha, step = Ok (d', a, sha) -> same_desktop d d').
  { intros active. eapply (safe_kept d active _ tr) in H4 as [HQ4 Hd1]; [|apply activity_safe | done | done].
    eapply (safe_kept d active _ tr) in H6 as [HQ6 Hd2]; [|apply settle_safe | done | done].
    rewrite list.Forall_app. split; [done|]. split; [done|]. intros ??? ->.
    eapply same_desktop_trans; [exact Hd1 | by eapply Hd2]. }
  assert (Hrest : exists active, Forall (call_ok d active (spared_claims sort d active) tr) t7).
  { destruct (Hpre "") as (_ & Hd1 & Hd2). rewrite (same_labels _ _ Hd1), (same_suspend _ _ _ _ Hd1) in H.
    destruct step as [[[d2 active] sha]|out']; [|destruct H as [-> _]; exists ""; constructor].
    exists active. eapply (safe_kept d active _ tr) in H as [HQ _]; [exact HQ | | done | done].
    apply (provision_safe sort Hsort); [by eapply Hd2 | done]. }
  destruct Hrest as [active Hrest]. exists active. rewrite Htr at 2.
  rewrite (assoc_L (++) t4), !list.Forall_app. split; [by repeat constructor|].
  split; [by repeat constructor|]. split; [apply list.Forall_app, Hpre | done].
Qed.
End reconcile.

(** C22: what a reconcile may do to the cluster.  In every reconcile that nobody
    interferes with, for the desktop [d] it fetched there is one home claim such
    that: every Deployment it writes mounts that claim and the keys and nothing
    else, runs zero replicas exactly when the desktop is suspended or idle for
    its timeout by the clock, replaces pods rather than overlapping them, mounts
    no service account token, and has only containers without privilege
    escalation, without capabilities and with the default seccomp profile; every
    Service selects the labels of those pods; and a claim is deleted only when
    it is another one and at least an hour old, and as many others as are to be
    retained, none older than it, are spared: for each list of claims these are
    fixed, so none of them is deleted. *)
Theorem desktop_reconcile_safe SSC PQ sign sort r ns name d tr out :
  sort_law sort -> exec (Reconcile SSC PQ sign sort r ns name) tr out ->
  head (omap (got KDesktop) tr) = Some (Ok d) -> kept desktop_kept tr ->
  exists home (spared : list PVC -> gset string),
    (forall dep, dep ∈ omap (written KDeployment) tr -> runs_desktop d home tr dep)
    /\ (forall svc, svc ∈ omap (written KService) tr -> svc_Selector svc = desktop_labels d)
    /\ (forall ns n, (ns, n) ∈ omap (deleted KPVC) tr -> removable d home spared tr n).
Proof.
  intros Hsort H Hd Hk. destruct (Reconcile_calls _ _ _ _ Hsort _ _ _ _ _ _ H Hd Hk) as [home HQ].
  exists home, (spared_claims sort d home). rewrite list.Forall_forall in HQ.
  split; [|split].
  - intros dep (o & Ho & Hw)%list_elem_of_omap. by apply (HQ o Ho).
  - intros svc (o & Ho & Hw)%list_elem_of_omap. by apply (HQ o Ho).
  - intros ns' n (o & Ho & Hw)%list_elem_of_omap. by eapply (HQ o Ho).
Qed.

(** * A run *)

Definition demo_meta (ns n : string) (labels annots : gmap string string) (created : Z) : ObjectMeta := {|
  m_Namespace := ns; m_Name := n; m_GenerateName := ""; m_Labels := labels; m_Annotations := annots;
  m_CreationTimestamp := created; m_Generation := 1; m_UID := "" |}.
Definition demo_desktop (mode : string) (timeout : Z) (annots : gmap string string)
    (last : option Z) : Desktop := {|
  d_Meta := demo_meta "ws" "alice" ∅ annots 1;
  d_Spec := {| ds_User := "alice"; ds_Image := ""; ds_AuthorizedKeys := [" ssh-ed25519 AAAA "];
    ds_ConnectivityMode := mode;
    ds_Home := {| dh_StorageClassName := None; dh_Size := ""; dh_Seed := None;
      dh_Reset := Some {| dhr_RequestedAt := Some 5; dhr_TemplateRef := None;
        dhr_SnapshotName := Some "snap"; dhr_RetainOldClaims := 0 |} |};
    ds_Resources := VObj []; ds_NodeSelector := ∅; ds_Tolerations := []; ds_SecurityProfile := "";
    ds_Suspended := false; ds_IdleTimeoutSeconds := timeout |};
  d_Status := {| dt_Phase := ""; dt_Suspended := false; dt_ServiceName := ""; dt_LastActiveAt := last;
    dt_HomeClaimName := "desktop-alice-home-r4"; dt_HomeRevision := 4; dt_LastResetAt := Some 5;
    dt_Conditions := [] |} |}.
Definition demo_claim (n : string) (t : Z) : PVC := {|
  pvc_Meta := demo_meta "ws" n ∅ ∅ t; pvc_AccessModes := []; pvc_Storage := "";
  pvc_StorageClassName := None; pvc_DataSource := None |}.
Definition demo_reconciler : DesktopReconciler := {|
  dr_DefaultDesktopImage := "desktop:1"; dr_DesktopRelayAgentImage := "agent:1";
  dr_DesktopRelaydControlAddr := "relay:1"; dr_DesktopRelaydDataAddr := "relay:2";
  dr_DesktopRelayJWTSecret := "s3cret"; dr_DesktopRelayJWTTTL := 0 |}.
Definition demo_sign (secret sub : string) (iat exp : Z) : result error string :=
  Ok (hex_encode (hmac_sha256 (s2l secret) (s2l (sub +:+ Itoa exp)))).

Definition desktop_world (now : Z) (d : Desktop) : forall X, eff X -> unit -> X * unit :=
  echo_world now
    (fun k _ _ => match k as k return result kerr (obj k) with
                  | KDesktop => Ok d | _ => Err NotFound end)
    (fun k => match k as k return list (obj k) with
              | KPVC => [demo_claim "desktop-alice-home" hour; demo_claim "desktop-alice-home-r2" (2 * hour);
                         demo_claim "desktop-alice-home-r3" (3 * hour);
                         demo_claim "desktop-alice-home-r4" (4 * hour); demo_claim "other" 0]
              | _ => [] end) (fun _ => Err (Errorf "" [])).
#[global] Instance newest_first_dec a b : Decision (newest_first a b) := Z_le_dec _ _.
Definition desktop_run (now : Z) (d : Desktop) : result kerr Z * list kobs :=
  (run (desktop_world now d) (Reconcile (fun l c => l ++ [c]) (fun s => Ok s) demo_sign
     (merge_sort newest_first) demo_reconciler "ws" "alice") tt).1.

Lemma merge_claims_law : sort_law (merge_sort newest_first).
Proof.
  intros l. split; [apply merge_sort_Permutation|].
  assert (Transitive newest_first) by (intros ???; unfold newest_first; lia).
  assert (Total newest_first) by (intros a b; unfold newest_first; lia).
  apply StronglySorted_merge_sort; exact _.
Qed.

Lemma desktop_reconcile_safe_witness :
  let d := demo_desktop "" 0 ∅ None in
  omap (deleted KPVC) (desktop_run (9 * hour) d).2
    = [("ws", "desktop-alice-home-r2"); ("ws", "desktop-alice-home")]
  /\ length (omap (written KDeployment) (desktop_run (9 * hour) d).2) = 1%nat
  /\ exists home, forall dep, dep ∈ omap (written KDeployment) (desktop_run (9 * hour) d).2 ->
       runs_desktop d home (desktop_run (9 * hour) d).2 dep.
Proof.
  intros d. split; [by vm_compute|]. split; [by vm_compute|].
  pose proof (desktop_reconcile_safe (fun l c => l ++ [c]) (fun s => Ok s) demo_sign
    (merge_sort newest_first) demo_reconciler "ws" "alice" d (desktop_run (9 * hour) d).2
    (desktop_run (9 * hour) d).1 merge_claims_law) as H.
  destruct H as (home & spared & H & _).
  - apply run_is_exec.
  - vm_compute. reflexivity.
  - apply echo_kept. intros []; try done. by intros [].
  - by exists home.
Defined.

(** * Resets *)

(** Nobody else writes the desktop meanwhile; an owner leaves the source of a
    claim alone. *)
Definition reset_kept (k : kind) : obj k -> obj k -> Prop :=
  match k with
  | KDesktop => fun d d' => d_Spec d' = d_Spec d /\ d_Status d' = d_Status d
  | KPVC => fun p p' => pvc_DataSource p' = pvc_DataSource p
  | _ => fun _ _ => True
  end.

Definition snapshot_source (sn : string) : option (string * string * string) :=
  Some ("snapshot.storage.k8s.io", "VolumeSnapshot", sn).

(** The claim [n] was written: from the snapshot [sn] if it did not exist, with
    the source it had otherwise. *)
Definition claim_from (ns n sn : string) (tr : list kobs) : Prop :=
  exists cur pvc w, Obs (Fetch KPVC ns n) (Ok cur) ∈ tr /\ Obs (Write KPVC pvc) (Ok w) ∈ tr
    /\ pvc_DataSource pvc = match cur with
         | Some old => if IsZero (m_CreationTimestamp (pvc_Meta old)) then snapshot_source sn
                       else pvc_DataSource old
         | None => snapshot_source sn
         end.

(** The snapshot a request names: its own, or else the latest one of its template. *)
Definition asked_snapshot (ns : string) (templateRef snapshotName : option string) (sn : string)
    (tr : list kobs) : Prop :=
  if decide (trimmed snapshotName <> "") then sn = trimmed snapshotName else
  exists ht, Obs (Get KHomeTemplate ns (trimmed templateRef)) (Ok ht) ∈ tr
    /\ sn = TrimSpace (htt_LatestSnapshot (ht_Status ht)).

Lemma asked_snapshot_app ns t s sn t1 t2 : asked_snapshot ns t s sn t1 -> asked_snapshot ns t s sn (t1 ++ t2).
Proof.
  unfold asked_snapshot. case_decide; [done|]. intros (ht & Hg & ->). exists ht.
  by rewrite elem_of_app; split; [left|].
Qed.

(** The reset is in the status handed to the API server, over [d] as it was. *)
Definition records_reset (d p : Desktop) (n : string) (rev requestedAt : Z) : Prop :=
  d_Spec p = d_Spec d /\ d_Meta p = d_Meta d /\ dt_HomeClaimName (d_Status p) = n
  /\ dt_HomeRevision (d_Status p) = rev /\ dt_LastResetAt (d_Status p) = Some requestedAt.

Lemma records_reset_done d p d' n rev reset t : pending_reset d = Some (reset, t) ->
  records_reset d p n rev t -> d_Spec d' = d_Spec p -> d_Status d' = d_Status p -> pending_reset d' = None.
Proof.
  intros Hp (Hsp & _ & _ & _ & Hl) Hsp' Hst'. revert Hp. unfold pending_reset. rewrite Hsp', Hst', Hsp, Hl.
  destruct (dh_Reset _) as [rs|]; [|done]. destruct (dhr_RequestedAt rs) as [u|]; [|done].
  destruct (sameTimePtr _ _); [done|]. intros [= -> ->]. unfold sameTimePtr. by rewrite bool_decide_true.
Qed.

Lemma patch_exec x b tr d : exec (patch_desktop x b) tr d -> kept reset_kept tr ->
  d_Spec d = d_Spec x /\ d_Status d = d_Status x
  /\ exists ans, tr = [Obs (StatusPatch KDesktop x b) ans] /\ d = match ans with Ok d' => d' | Err _ => x end.
Proof.
  unfold patch_desktop. intros H Hk. walk H. apply list.Forall_cons in Hk as [Hk _]. cbn in Hk.
  destruct ans as [d'|e]; [destruct (Hk d' eq_refl) | ]; split_and!; try done; by eexists.
Qed.

Section resets.
Context (PQ : string -> result error string).

Lemma resolve_exec d t s tr sn : exec (resolveDesktopHomeSnapshot d t s) tr (Ok sn) ->
  TrimSpace sn = sn /\ sn <> "" /\ asked_snapshot (m_Namespace (d_Meta d)) t s sn tr.
Proof using Type.
  unfold resolveDesktopHomeSnapshot, asked_snapshot. intros H.
  case_decide as Hs; [|case_decide as Ht].
  - destruct H as [_ [= ->]]. split; [|by destruct s]. unfold trimmed in *. destruct s as [s|]; [|done].
    cbn in *. by rewrite TrimSpace_idemp.
  - walk H. destruct ans as [ht|e]; [|done]. revert H. case_decide; [done|].
    intros [= ->]. rewrite TrimSpace_idemp. split; [done|]. split; [done|]. exists ht. split; [by left | done].
  - by destruct H as [_ ?].
Qed.

Lemma ready_exec ns n tr : exec (volumeSnapshotReady ns n) tr (Ok true) ->
  exists vs, tr = [Obs (Get KVolumeSnapshot ns (TrimSpace n)) (Ok vs)] /\ vs_ReadyToUse vs = Ok (Some true).
Proof using Type.
  unfold volumeSnapshotReady. cbv zeta. case_decide; intros Hx; [by destruct Hx|].
  walk Hx. destruct ans as [vs|e]; [|done]. exists vs. split; [done|].
  by destruct (vs_ReadyToUse vs) as [[[]|]|].
Qed.

Lemma ensure_exec d labels n rev sn tr : TrimSpace sn = sn -> sn <> "" ->
  exec (ensureHomePVC PQ d labels n rev sn) tr (Ok tt) -> kept reset_kept tr ->
  claim_from (m_Namespace (d_Meta d)) n sn tr /\ omap (status_patched KDesktop) tr = [].
Proof using Type.
  intros Ht Hne H Hk. unfold ensureHomePVC in H. cbv zeta in H. destruct (PQ _) as [qty|e]; [|by destruct H].
  unfold CreateOrUpdateWith in H.
  apply exec_bind in H as (t1 & t2 & cur & -> & H1%exec_trigger & H). subst t1.
  destruct cur as [cur|e]; [|by destruct H].
  apply exec_bind in H as (t3 & t4 & m & -> & H3 & H).
  assert (Hseed : forall c, seed_snapshot d c sn = mret (Ok sn)).
  { intros c. unfold seed_snapshot. rewrite Ht. destruct (dh_Seed _); [|done].
    rewrite bool_decide_false by done. by rewrite andb_false_r. }
  rewrite Hseed in H3. walk H3. destruct ans as [a|e]; [|by destruct H].
  walk H. destruct ans as [a0|e]; [|done]. cbn in Hk. rewrite !list.Forall_cons in Hk. destruct Hk as (_ & Hk & _ & _).
  cbn in Hk. split; [|done].
  exists cur, a, a0. split; [cbn; set_solver|]. split; [cbn; set_solver|]. rewrite (Hk _ eq_refl).
  destruct cur as [old|]; cbn [default pvc_Meta pvc_DataSource home_claim];
    [destruct (IsZero _); [|done]|]; cbn; by rewrite bool_decide_true.
Qed.
End resets.

(** C23: a reset is done once, and only from a snapshot that is ready.  For a
    desktop with no pending reset [handle_reset] does nothing.  Otherwise, in a
    step nobody interferes with: when it goes on, with the home claim [n], the
    snapshot the request names (or the latest of the template it names) was found
    ready, [n] was written with that snapshot as its source (unless a claim of
    that name existed, whose source stays), and the last call patches the status
    with [n], the next revision and the request, so that the reset is no longer
    pending for the desktop it goes on with, which is the API server's answer
    when the patch succeeds; when it stops, no status was written, so the reset
    stays pending. *)
Theorem reset_from_ready_snapshot PQ d labels a tr res :
  exec (handle_reset PQ d labels a) tr res -> kept reset_kept tr ->
  match pending_reset d with
  | None => res = Ok (d, a) /\ tr = []
  | Some (reset, requestedAt) =>
      match res with
      | Ok (d', n) =>
          let rev := wrap64 (dt_HomeRevision (d_Status d) + 1) in
          n = reset_name d rev
          /\ (exists sn vs, asked_snapshot (m_Namespace (d_Meta d)) (dhr_TemplateRef reset)
                   (dhr_SnapshotName reset) sn tr
                /\ Obs (Get KVolumeSnapshot (m_Namespace (d_Meta d)) sn) (Ok vs) ∈ tr
                /\ vs_ReadyToUse vs = Ok (Some true) /\ claim_from (m_Namespace (d_Meta d)) n sn tr)
          /\ (exists p ans, list.last tr = Some (Obs (StatusPatch KDesktop p d) ans)
                /\ records_reset d p n rev requestedAt
                /\ d' = match ans with Ok stored => stored | Err _ => p end)
          /\ dt_HomeClaimName (d_Status d') = n /\ dt_HomeRevision (d_Status d') = rev
          /\ pending_reset d' = None
      | Err _ => omap (status_patched KDesktop) tr = []
      end
  end.
Proof.
  intros H Hk. unfold handle_reset in H.
  destruct (pending_reset d) as [[reset requestedAt]|] eqn:Hp; [|by destruct H].
  apply exec_bind in H as (t1 & t2 & snap & -> & H1 & H).
  assert (Hs1 : omap (status_patched KDesktop) t1 = []).
  { eapply safe_omap_nil; [|exact H1]. unfold resolveDesktopHomeSnapshot. calls. }
  apply list.Forall_app in Hk as [_ Hk].
  destruct snap as [sn|e]; cycle 1.
  { destruct e; destruct H as [-> ->]; by rewrite app_nil_r. }
  apply resolve_exec in H1 as (Ht & Hne & Hask).
  apply exec_bind in H as (t3 & t4 & ready & -> & H3 & H). apply list.Forall_app in Hk as [_ Hk].
  assert (Hs3 : omap (status_patched KDesktop) t3 = []).
  { eapply safe_omap_nil; [|exact H3]. unfold volumeSnapshotReady. calls. }
  rewrite !omap_app, Hs1, Hs3.
  destruct ready as [[]|e]; [|by destruct H as [-> ->]..].
  apply ready_exec in H3 as (vs & -> & Hr). rewrite Ht.
  apply exec_bind in H as (t5 & t6 & u & -> & H5 & H). apply list.Forall_app in Hk as [Hk5 Hk6].
  destruct u as [[]|e]; cycle 1.
  { assert (Hs5 : omap (status_patched KDesktop) t5 = []) by (eapply safe_omap_nil; [|exact H5];
      unfold ensureHomePVC, CreateOrUpdateWith, seed_snapshot, resolveDesktopHomeSnapshot,
        volumeSnapshotReady; calls).
    rewrite omap_app, Hs5. by destruct e; destruct H as [-> ->]. }
  apply (ensure_exec PQ) in H5 as [Hc _]; [|done..].
  apply exec_bind in H as (t7 & t8 & d1 & -> & H7 & H).
  destruct H as [-> ->]. rewrite app_nil_r in *. apply patch_exec in H7 as Hd1; [|done].
  destruct Hd1 as (Hsp & Hst & ans & -> & Hans). cbv zeta.
  assert (Hrec : records_reset d (set_Home (reset_name d (wrap64 (dt_HomeRevision (d_Status d) + 1)))
    (wrap64 (dt_HomeRevision (d_Status d) + 1)) (Some requestedAt) d)
    (reset_name d (wrap64 (dt_HomeRevision (d_Status d) + 1)))
    (wrap64 (dt_HomeRevision (d_Status d) + 1)) requestedAt) by done.
  split; [done|]. split; [|split; [|split; [by rewrite Hst|split; [by rewrite Hst|]]]].
  - exists sn, vs. split; [by apply asked_snapshot_app|].
    split; [rewrite !elem_of_app; right; left; by left|]. split; [done|].
    destruct Hc as (cur & pvc & w & Hf & Hw & Hsrc). exists cur, pvc, w.
    split; [rewrite !elem_of_app; tauto|]. split; [rewrite !elem_of_app; tauto | done].
  - eexists _, ans. split; [|split; [exact Hrec | exact Hans]].
    by rewrite !(assoc_L (++)), list.last_snoc.
  - by eapply records_reset_done.
Qed.

(** The only claim that [settle] writes for a desktop with a long name is the
    one it has: the revision is cut off its name. *)
Lemma long_name_reset d r1 r2 : (48 <= String.length (m_Name (d_Meta d)))%nat ->
  reset_name d r1 = reset_name d r2.
Proof.
  intros Hl. assert (Hn : forall r, reset_name d r = l2s (take 63 (s2l (home_base d +:+ "-r")))).
  { intros r. unfold reset_name, str_take.
    assert (Hb : (63 <= length (s2l (home_base d +:+ "-r")))%nat).
    { unfold home_base. rewrite s2l_length, !str_length_app. cbn [String.length]. lia. }
    assert (Heq : s2l (home_base d +:+ "-r" +:+ Itoa r) = s2l (home_base d +:+ "-r") ++ s2l (Itoa r))
      by (by rewrite !s2l_app, (assoc_L (++))).
    destruct (Itoa_shape r) as (sg & ds & Hds & _ & _ & Hne & _).
    assert (Hi : (1 <= length (s2l (Itoa r)))%nat).
    { rewrite Hds, length_app. destruct ds; cbn; [done | lia]. }
    rewrite <- s2l_length, Heq, length_app.
    destruct (Nat.ltb_spec 63 (length (s2l (home_base d +:+ "-r")) + length (s2l (Itoa r)))); [|lia].
    by rewrite take_app_le. }
  by rewrite !Hn.
Qed.

(** A reset of the demo desktop, requested at 6. *)
Definition reset_desktop : Desktop :=
  set_Home "desktop-alice-home-r4" 4 None (demo_desktop "" 0 ∅ None).
Definition reset_world : forall X, eff X -> unit -> X * unit :=
  echo_world 1 (fun k _ _ => match k as k return result kerr (obj k) with
     | KVolumeSnapshot => Ok {| vs_Meta := demo_meta "ws" "snap" ∅ ∅ 1; vs_Spec := VObj [];
                                vs_ReadyToUse := Ok (Some true) |}
     | _ => Err NotFound end) (fun _ => []) (fun _ => Err (Errorf "" [])).
Definition reset_run := run reset_world (handle_reset (fun s => Ok s) reset_desktop ∅ "desktop-alice-home-r4") tt.

Lemma reset_from_ready_snapshot_witness :
  exists d', reset_run.1.1 = Ok (d', "desktop-alice-home-r5") /\ dt_HomeRevision (d_Status d') = 5
    /\ pending_reset d' = None.
Proof.
  pose proof (reset_from_ready_snapshot (fun s => Ok s) reset_desktop ∅ "desktop-alice-home-r4"
    reset_run.1.2 reset_run.1.1 (run_is_exec _ _ _)) as H.
  destruct reset_run.1.1 as [[d' n]|e] eqn:He; cycle 1.
  { exfalso. revert He. vm_compute. discriminate. }
  assert (Hk : kept reset_kept reset_run.1.2) by (apply echo_kept; by intros []).
  destruct (H Hk) as (-> & _ & _ & _ & Hrev & Hp). exists d'. split; [|split; [exact Hrev | exact Hp]].
  reflexivity.
Defined.

(** * Relay tokens *)

Definition relay_kept (k : kind) : obj k -> obj k -> Prop :=
  match k with KSecret => fun s s' => sec_Data s' = sec_Data s | _ => fun _ _ => True end.
Definition relay_ttl (r : DesktopReconciler) : Z :=
  if dr_DesktopRelayJWTTTL r <=? 0 then 24 * hour else dr_DesktopRelayJWTTTL r.

Lemma valid_token_key data key now : valid_token (<["key" := key]> data) now = valid_token data now.
Proof. unfold valid_token. by rewrite !lookup_insert_ne. Qed.

Lemma valid_token_fresh data tok exp now : TrimSpace tok = tok -> tok <> "" ->
  0 <= exp < four_digit_years -> now + 10 * minute < exp ->
  valid_token (<["expires_at" := format_rfc3339nano exp]> (<["token" := tok]> data)) now = Some tok.
Proof.
  intros Ht Hne He Hn. unfold valid_token.
  rewrite lookup_insert_eq, lookup_insert_ne, lookup_insert_eq by done. cbn [from_option]. unfold id.
  rewrite format_trimmed, Ht, parse_format by done. rewrite decide_False.
  - unfold After. by rewrite (proj2 (Z.ltb_lt _ _)).
  - intros [?|Hf]; [done|]. pose proof (parse_format exp He) as Hp. rewrite Hf in Hp. done.
Qed.

(** Tokens are non-empty and without blanks. *)
Definition token_law (sign : string -> string -> Z -> Z -> result error string) : Prop :=
  forall sec sub iat exp tok, sign sec sub iat exp = Ok tok -> TrimSpace tok = tok /\ tok <> "".

(** The token is the stored one, or a new one signed for the desktop. *)
Definition token_chosen (sign : string -> string -> Z -> Z -> result error string) (r : DesktopReconciler) (key : string) (now : Z) (tr : list kobs)
    (old new : gmap string string) (tok : string) : Prop :=
  valid_token old now = Some tok /\ new = <["key" := key]> old
  \/ valid_token old now = None
     /\ exists n, n ∈ omap time_read tr
          /\ sign (dr_DesktopRelayJWTSecret r) (TrimSpace key) n (n + relay_ttl r) = Ok tok
          /\ new = <["expires_at" := format_rfc3339nano (n + relay_ttl r)]>
                     (<["token" := tok]> (<["key" := key]> old)).

Lemma relay_secret_data sign r d labels key now s tr s' tok :
  exec (relay_secret sign r d labels key now s) tr (Ok (s', tok)) -> kept relay_kept tr ->
  token_chosen sign r key now tr (sec_Data s) (sec_Data s') tok.
Proof.
  intros H Hk. unfold relay_secret in H. cbv zeta in H. cbn [sec_Data] in H.
  rewrite valid_token_key in H. unfold token_chosen.
  destruct (valid_token (sec_Data s) now) as [old|] eqn:Hv; [left | right; split; [done|]].
  - walk H. destruct ans as [s1|e]; [|done]. injection H as -> ->.
    apply list.Forall_cons in Hk as [Hk _]. cbn in Hk. by rewrite (Hk _ eq_refl).
  - apply exec_bind in H as (t1 & t2 & m & -> & H1 & H). unfold mintDesktopRelayJWT in H1.
    apply exec_bind in H1 as (t3 & t4 & n & -> & H3%exec_trigger & [-> ->]). subst t3.
    fold (relay_ttl r) in H.
    assert (Hpos : 0 < relay_ttl r).
    { unfold relay_ttl. destruct (Z.leb_spec (dr_DesktopRelayJWTTTL r) 0); [done | lia]. }
    destruct (Z.leb_spec (relay_ttl r) 0); [lia|].
    destruct (sign _ _ _ _) as [tok0|e] eqn:Hs; [|by destruct H].
    walk H. destruct ans as [s1|e]; [|done]. injection H as -> ->.
    apply list.Forall_app in Hk as [_ Hk]. apply list.Forall_cons in Hk as [Hk _]. cbn in Hk.
    exists n. split; [cbn; by left|]. split; [done|]. by rewrite (Hk _ eq_refl).
Qed.

(** What a successful [ensureDesktopRelaySecret] wrote. *)
Lemma ensure_relay_data sign r d labels key tr sha now :
  exec (ensureDesktopRelaySecret sign r d labels key) tr (Ok sha) -> kept relay_kept tr ->
  head (omap time_read tr) = Some now ->
  exists cur s s' w tok,
    Obs (Fetch KSecret (m_Namespace (d_Meta d)) (relay_secret_name d)) (Ok cur) ∈ tr
    /\ sec_Data s = from_option sec_Data ∅ cur
    /\ Obs (Write KSecret s') (Ok w) ∈ tr /\ sha = sha256Hex tok
    /\ token_chosen sign r key now tr (sec_Data s) (sec_Data s') tok.
Proof.
  intros H Hk Hnow. unfold ensureDesktopRelaySecret, CreateOrUpdateWith in H.
  apply exec_bind in H as (t1 & t2 & n0 & -> & H1%exec_trigger & H). subst t1.
  cbn in Hnow. injection Hnow as ->.
  apply exec_bind in H as (t3 & t4 & res & -> & H3 & [-> Hres]). rewrite app_nil_r in *.
  destruct res as [tok|e]; [|done]. injection Hres as ->.
  apply exec_bind in H3 as (t5 & t6 & cur & -> & H5%exec_trigger & H6). subst t5.
  destruct cur as [cur|e]; [|by destruct H6].
  apply exec_bind in H6 as (t7 & t8 & m & -> & H7 & H8).
  destruct m as [[s' tok']|e]; [|by destruct H8]. walk H8. destruct ans as [w|e]; [|done].
  injection H8 as <-. rewrite !list.Forall_app in Hk. destruct Hk as (_ & _ & Hk & _).
  apply relay_secret_data in H7; [|done].
  eexists cur, _, s', w, tok. split; [set_solver|]. split; [|split; [set_solver|]; split; [done|]].
  2: { destruct H7 as [H7|(Hn & n & Hin & Hs & Hd)]; [left; exact H7 | right].
       split; [exact Hn|]. exists n. split; [rewrite !omap_app; set_solver | done]. }
  by destruct cur.
Qed.

(** The secret of a desktop's reverse tunnel always holds a usable token: its
    recorded expiry is more than ten minutes away, and a stored token that is
    still good for ten minutes is kept as it is. *)
Lemma relay_token_usable sign r key now tr old new tok :
  token_law sign -> token_chosen sign r key now tr old new tok -> 10 * minute < relay_ttl r ->
  (forall n, n ∈ omap time_read tr -> now <= n /\ 0 <= n /\ n + relay_ttl r < four_digit_years) ->
  valid_token new now = Some tok /\ new !! "key" = Some key
  /\ forall kept, valid_token old now = Some kept -> new = <["key" := key]> old.
Proof.
  intros Hsign [[Hv ->]|(Hv & n & Hin & Hs & ->)] Httl Htime.
  - split_and!; [by rewrite valid_token_key | apply lookup_insert_eq | done].
  - apply Hsign in Hs as [Ht Hne]. destruct (Htime n Hin) as (Hn1 & Hn0 & Hn2).
    assert (Hm : 0 < minute) by done. split_and!; [apply valid_token_fresh; [done | done | lia | lia]| |congruence].
    by rewrite lookup_insert_ne, lookup_insert_ne, lookup_insert_eq.
Qed.

(** * Where the idle suspension stops *)

(** The API server keeps times to the second. *)
Definition truncating_world (now : Z) (d : Desktop) (X : Type) (e : eff X) (u : unit) : X * unit :=
  match e in eff T return T * unit -> T * unit with
  | StatusPatch k o _ =>
      match k as k return obj k -> result kerr (obj k) * unit -> result kerr (obj k) * unit with
      | KDesktop => fun o _ =>
          (Ok (set_LastActiveAt ((fun t => t / second * second) <$> dt_LastActiveAt (d_Status o)) o), tt)
      | _ => fun _ r => r
      end o
  | _ => fun r => r
  end (desktop_world now d X e u).

(** Idle since 0.5 s past the second, with a timeout of a minute: the reconcile at
    the deadline of the recorded (truncated) time neither suspends the desktop
    nor asks to be called again. *)
Example idle_desktop_not_requeued :
  let active := 1000 * day + second / 2 in
  let d := demo_desktop "" 60 {[annotationLastActiveAt := format_rfc3339nano active]}
             (Some (1000 * day)) in
  let now := 1000 * day + 60 * second + 1000000 in
  let '(out, tr, _) := run (truncating_world now d)
    (Reconcile (fun l c => l ++ [c]) (fun s => Ok s) demo_sign (merge_sort newest_first)
       demo_reconciler "ws" "alice") tt in
  out = Ok 0 /\ dep_Replicas <$> omap (written KDeployment) tr = [Some 1].
Proof. vm_compute. done. Qed.
