(* ===== verification/AgentPod.v ===== *)
(** The pod of an agent job (src/internal/controller/agentjob_controller.go): its
    containers, volumes and environment.

    The environments are Go slices that share their arrays, and the pod that is
    written is the one the arrays hold in the end: [append] writes in place when
    there is room.  The model has the arrays, in a heap. *)
From S2P Require Export Effects.
From stdpp Require Import options.

(** * Slices of environment variables *)

Notation heap := (list (list EnvVar)).
Notation M A := (heap -> A * heap).

(** A slice from the start of an array; its capacity is the array's length. *)
Record slice := { sl_arr : nat; sl_len : nat }.

Definition ret {A} (a : A) : M A := fun h => (a, h).
Definition bnd {A B} (m : M A) (f : A -> M B) : M B := fun h => let '(a, h') := m h in f a h'.
Notation "'let*' x := m 'in' k" := (bnd m (fun x => k)) (at level 10, x name, m at level 200, k at level 200).

Definition zero_env : EnvVar := env_val "" "".

Definition arr (h : heap) (s : slice) : list EnvVar := h !!! sl_arr s.
Definition cap (h : heap) (s : slice) : nat := length (arr h s).
Definition read (h : heap) (s : slice) : list EnvVar := take (sl_len s) (arr h s).

Definition write_at (n : nat) (l a : list EnvVar) : list EnvVar := take n a ++ l ++ drop (n + length l) a.

(** A composite literal. *)
Definition literal (l : list EnvVar) : M slice :=
  fun h => ({| sl_arr := length h; sl_len := length l |}, h ++ [l]).

(** [env[i] = v] *)
Definition set_at (s : slice) (i : nat) (v : EnvVar) : M unit :=
  fun h => (tt, <[sl_arr s := write_at i [v] (arr h s)]> h).

Section pod.
(** The capacity of the array the runtime allocates for [need] elements when one
    of capacity [old] is full: at least [need]. *)
Context (grow : nat -> nat -> nat).

Definition append (s : slice) (l : list EnvVar) : M slice := fun h =>
  let need := (sl_len s + length l)%nat in
  if (need <=? cap h s)%nat then
    ({| sl_arr := sl_arr s; sl_len := need |}, <[sl_arr s := write_at (sl_len s) l (arr h s)]> h)
  else
    ({| sl_arr := length h; sl_len := need |},
     h ++ [read h s ++ l ++ replicate (grow (cap h s) need - need) zero_env]).

(** The index of the last variable of each name. *)
Definition env_index (env : list EnvVar) : gmap string nat :=
  (fold_left (fun '(m, i) v => (<[ev_Name v := i]> m, S i)) env (∅, 0%nat)).1.

Fixpoint upsert_loop (env : slice) (index : gmap string nat) (add : list EnvVar) : M slice :=
  match add with
  | [] => ret env
  | v :: add' =>
      if decide (ev_Name v = "") then upsert_loop env index add' else
      match index !! ev_Name v with
      | Some i => let* _ := set_at env i v in upsert_loop env index add'
      | None =>
          let* env' := append env [v] in
          upsert_loop env' (<[ev_Name v := (sl_len env' - 1)%nat]> index) add'
      end
  end.
Definition upsertEnv (env : slice) (add : list EnvVar) : M slice := fun h =>
  if decide (add = []) then (env, h) else upsert_loop env (env_index (read h env)) add h.

(** * The job *)

Record AgentJobReconciler := {
  ajr_DefaultAgentRuntimeClass : string;
  ajr_AgentEgressProxyURL : string;
  ajr_AgentNoProxy : string;
}.

Definition policy_profile (aj : AgentJob) : string :=
  let p := TrimSpace (ajs_PolicyProfile (aj_Spec aj)) in
  if decide (p = "") then "restricted" else p.
Definition agent_labels (aj : AgentJob) : gmap string string :=
  {[labelApp := "agent"; labelAgentJob := m_Name (aj_Meta aj); labelPolicy := policy_profile aj]}.
Definition job_name (aj : AgentJob) : string := "agentjob-" +:+ m_Name (aj_Meta aj).
Definition runtime_class (r : AgentJobReconciler) (aj : AgentJob) : string :=
  match ajs_RuntimeClassName (aj_Spec aj) with
  | Some c => if decide (c = "") then ajr_DefaultAgentRuntimeClass r else c
  | None => ajr_DefaultAgentRuntimeClass r
  end.
Definition job_ttl (aj : AgentJob) : Z := default 3600%Z (ajs_TTLSecondsAfterFinished (aj_Spec aj)).

Definition proxy_env (r : AgentJobReconciler) : list EnvVar :=
  let proxyURL := TrimSpace (ajr_AgentEgressProxyURL r) in
  let noProxy := TrimSpace (ajr_AgentNoProxy r) in
  let noProxy := if decide (noProxy = "") then "localhost,127.0.0.1,.svc,.cluster.local" else noProxy in
  [env_val "HTTP_PROXY" proxyURL; env_val "HTTPS_PROXY" proxyURL; env_val "ALL_PROXY" proxyURL;
   env_val "NO_PROXY" noProxy; env_val "http_proxy" proxyURL; env_val "https_proxy" proxyURL;
   env_val "all_proxy" proxyURL; env_val "no_proxy" noProxy].

Definition workspace_env (r : AgentJobReconciler) (aj : AgentJob) : M slice :=
  let* s := literal [env_val "WORKSPACE" "/workspace";
                     env_val "WORKSPACES_POLICY_PROFILE" (policy_profile aj)] in
  let* s := append s (ajs_Env (aj_Spec aj)) in
  if decide (TrimSpace (ajr_AgentEgressProxyURL r) = "") then ret s else upsertEnv s (proxy_env r).

Definition secret_env (name secret key : string) (optional : option bool) : EnvVar := {|
  ev_Name := name; ev_Value := "";
  ev_ValueFrom := Some {| skr_Name := secret; skr_Key := key; skr_Optional := optional |} |}.

Definition broker_env (aj : AgentJob) : list EnvVar :=
  [env_val "WORKSPACES_BROKER_URL" "http://capability-broker.workspaces-system.svc.cluster.local:8080";
   secret_env "WORKSPACES_BROKER_JOB_TOKEN" ("agentjob-" +:+ m_Name (aj_Meta aj) +:+ "-broker") "token"
     (Some true)].

Definition github_env (g : AgentJobGitHubSpec) : list EnvVar :=
  [env_val "WORKSPACES_GITHUB_REPO" (TrimSpace (ajg_Repo g));
   env_val "WORKSPACES_GITHUB_PR_NUMBER" (Itoa (ajg_PullNumber g));
   env_val "WORKSPACES_GITHUB_HEAD_SHA" (TrimSpace (ajg_HeadSHA g))].
Definition github_token_env (aj : AgentJob) : EnvVar :=
  secret_env "WORKSPACES_GITHUB_TOKEN" ("agentjob-" +:+ m_Name (aj_Meta aj) +:+ "-github") "token" None.

Definition agent_workdir (aj : AgentJob) : string :=
  let workdir := TrimSpace (ajs_Workdir (aj_Spec aj)) in
  if decide (workdir = "") then
    match ajs_GitHub (aj_Spec aj) with Some _ => "/workspace/repo" | None => "/workspace" end
  else workdir.

Definition task_env (aj : AgentJob) : list EnvVar :=
  [env_val "WORKSPACES_TASK_SCRIPT" (TrimSpace (ajs_Script (aj_Spec aj)));
   env_val "WORKSPACES_WORKDIR" (agent_workdir aj);
   env_val "WORKSPACES_REPO_DIR" "/workspace/repo"].

Definition agent_security : SecurityContext := {|
  sc_AllowPrivilegeEscalation := Some false; sc_DropCapabilities := ["ALL"];
  sc_ReadOnlyRootFilesystem := Some true; sc_RunAsNonRoot := Some true; sc_RunAsUser := Some 1000%Z;
  sc_Seccomp := "RuntimeDefault" |}.

Definition dev_shm (aj : AgentJob) : bool := bool_decide (policy_profile aj = "browser-automation").
Definition agent_mounts (aj : AgentJob) : list VolumeMount :=
  [{| vm_Name := "workspace"; vm_MountPath := "/workspace"; vm_ReadOnly := false |};
   {| vm_Name := "tmp"; vm_MountPath := "/tmp"; vm_ReadOnly := false |}]
  ++ if dev_shm aj then [{| vm_Name := "dshm"; vm_MountPath := "/dev/shm"; vm_ReadOnly := false |}] else [].
Definition agent_volumes (aj : AgentJob) : list Volume :=
  [{| vol_Name := "workspace"; vol_Source := VObj [("emptyDir", VObj [])] |};
   {| vol_Name := "tmp"; vol_Source := VObj [("emptyDir", VObj [])] |}]
  ++ if dev_shm aj then
       [{| vol_Name := "dshm";
           vol_Source := VObj [("emptyDir", VObj [("medium", VStr "Memory"); ("sizeLimit", VStr "256Mi")])] |}]
     else [].

(** The checkout script ([~] stands for a double quote). *)
Definition quotes (s : string) : string :=
  l2s ((fun c => if decide (c = byte 126) then byte 34 else c) <$> s2l s).
Definition checkout_script : string := quotes "set -euo pipefail
: ~${WORKSPACES_GITHUB_REPO:?missing}~
: ~${WORKSPACES_GITHUB_PR_NUMBER:?missing}~
dest=~${WORKSPACE}/repo~
rm -rf ~$dest~
mkdir -p ~$dest~
cat > /tmp/askpass.sh <<'EOF'
#!/bin/sh
echo ~$WORKSPACES_GITHUB_TOKEN~
EOF
chmod 0700 /tmp/askpass.sh
export GIT_ASKPASS=/tmp/askpass.sh
export GIT_TERMINAL_PROMPT=0
git -C ~$dest~ init
git -C ~$dest~ remote add origin ~https://x-access-token@github.com/${WORKSPACES_GITHUB_REPO}.git~
git -C ~$dest~ fetch --depth 1 origin ~refs/pull/${WORKSPACES_GITHUB_PR_NUMBER}/head:pr~
git -C ~$dest~ checkout --force pr
if [ -n ~${WORKSPACES_GITHUB_HEAD_SHA:-}~ ]; then
  got=~$(git -C ~$dest~ rev-parse HEAD)~
  if [ ~$got~ != ~$WORKSPACES_GITHUB_HEAD_SHA~ ]; then
    echo ~head sha mismatch: $got~ >&2
    exit 1
  fi
fi
".

Definition checkout_container (aj : AgentJob) (env : list EnvVar) : Container := {|
  ct_Name := "checkout"; ct_Image := ajs_Image (aj_Spec aj);
  ct_Command := ["/bin/bash"; "-lc"]; ct_Args := [checkout_script]; ct_WorkingDir := ""; ct_Ports := [];
  ct_Env := env; ct_Resources := VObj []; ct_VolumeMounts := agent_mounts aj;
  ct_SecurityContext := Some agent_security |}.

Definition script_container (aj : AgentJob) (env : list EnvVar) : Container := {|
  ct_Name := "agent"; ct_Image := ajs_Image (aj_Spec aj);
  ct_Command := ["/usr/local/bin/workspaces-agent-runner"]; ct_Args := [];
  ct_WorkingDir := agent_workdir aj; ct_Ports := []; ct_Env := env;
  ct_Resources := ajs_Resources (aj_Spec aj); ct_VolumeMounts := agent_mounts aj;
  ct_SecurityContext := Some agent_security |}.

Definition direct_container (aj : AgentJob) (env : list EnvVar) : Container := {|
  ct_Name := "agent"; ct_Image := ajs_Image (aj_Spec aj);
  ct_Command := ajs_Command (aj_Spec aj); ct_Args := ajs_Args (aj_Spec aj);
  ct_WorkingDir := ""; ct_Ports := []; ct_Env := env;
  ct_Resources := ajs_Resources (aj_Spec aj); ct_VolumeMounts := agent_mounts aj;
  ct_SecurityContext := Some agent_security |}.

Definition script_mode (aj : AgentJob) : bool :=
  bool_decide (TrimSpace (ajs_Script (aj_Spec aj)) <> "").

(** The environments of the checkout container, if any, and of the agent. *)
Definition agent_envs (r : AgentJobReconciler) (aj : AgentJob) : M (option slice * slice) :=
  let* ws := workspace_env r aj in
  if script_mode aj then
    let* checkout := (match ajs_GitHub (aj_Spec aj) with
                      | Some g => let* s := append ws (github_env g ++ [github_token_env aj]) in ret (Some s)
                      | None => ret None
                      end) in
    let* main := append ws (task_env aj) in
    let* main := append main (broker_env aj) in
    let* main := (match ajs_GitHub (aj_Spec aj) with
                  | Some g => append main (github_env g)
                  | None => ret main
                  end) in
    ret (checkout, main)
  else
    let* main := append ws (broker_env aj) in ret (None, main).

(** The pod, once its environments are the ones of the heap. *)
Definition pod_of (r : AgentJobReconciler) (aj : AgentJob) (checkout : option (list EnvVar))
    (main : list EnvVar) : PodSpec := {|
  pod_RestartPolicy := "Never";
  pod_RuntimeClassName := Some (runtime_class r aj);
  pod_AutomountServiceAccountToken := Some false;
  pod_EnableServiceLinks := Some false;
  pod_NodeSelector := ajs_NodeSelector (aj_Spec aj);
  pod_Tolerations := ajs_Tolerations (aj_Spec aj);
  pod_Volumes := agent_volumes aj;
  pod_InitContainers := match checkout with Some env => [checkout_container aj env] | None => [] end;
  pod_Containers := [if script_mode aj then script_container aj main else direct_container aj main] |}.

Definition agent_pod (r : AgentJobReconciler) (aj : AgentJob) : PodSpec :=
  let '((checkout, main), h) := agent_envs r aj [] in
  pod_of r aj (read h <$> checkout) (read h main).
End pod.

(** The growth of the Go runtime for arrays this small: twice the capacity, or
    what is needed when that is more. *)
Definition doubling (old need : nat) : nat := if (2 * old <? need)%nat then need else (2 * old)%nat.

Example env_in_place :
  let '(_, h) := (let* s := append doubling {| sl_arr := 0; sl_len := 1 |} [env_val "B" ""] in
                  let* t := append doubling {| sl_arr := 0; sl_len := 1 |} [env_val "C" ""] in ret (s, t))
                 [[env_val "A" ""; zero_env]] in
  h = [[env_val "A" ""; env_val "C" ""]].
Proof. done. Qed.

(** * Slices *)

Definition valid (h : heap) (s : slice) : Prop :=
  (sl_arr s < length h)%nat /\ (sl_len s <= cap h s)%nat.

Lemma write_at_length n l a : (n + length l <= length a)%nat -> length (write_at n l a) = length a.
Proof. intros H. unfold write_at. rewrite !length_app, length_take, length_drop. lia. Qed.

Lemma take_write_at n l a k : (n + length l <= length a)%nat -> (k <= n)%nat ->
  take k (write_at n l a) = take k a.
Proof.
  intros H Hk. unfold write_at. rewrite take_app_le by (rewrite length_take; lia).
  by rewrite take_take, Nat.min_l.
Qed.

Lemma take_write_at_full n l a : (n + length l <= length a)%nat ->
  take (n + length l) (write_at n l a) = take n a ++ l.
Proof.
  intros H. unfold write_at. rewrite (assoc_L (++)). apply take_app_length'.
  rewrite length_app, length_take. lia.
Qed.

Lemma arr_insert_eq (h : heap) (s t : slice) a : sl_arr s = sl_arr t -> (sl_arr s < length h)%nat ->
  arr (<[sl_arr s := a]> h) t = a.
Proof. intros Heq H. unfold arr. rewrite <- Heq. by rewrite list_lookup_total_insert_eq. Qed.

Lemma arr_insert_ne (h : heap) (s t : slice) a : sl_arr t <> sl_arr s ->
  arr (<[sl_arr s := a]> h) t = arr h t.
Proof. intros H. unfold arr. by rewrite list_lookup_total_insert_ne. Qed.

Lemma arr_app (h l : heap) s : (sl_arr s < length h)%nat -> arr (h ++ l) s = arr h s.
Proof. intros H. unfold arr. by rewrite lookup_total_app_l. Qed.

Lemma arr_new (h : heap) a n : arr (h ++ [a]) {| sl_arr := length h; sl_len := n |} = a.
Proof. unfold arr. cbn. by rewrite lookup_total_app_r, Nat.sub_diag by lia. Qed.

Section appending.
Context (grow : nat -> nat -> nat).
Notation append := (append grow).

(** [append] without room: a new array, the old ones as they were. *)
Lemma append_full h s l : valid h s -> (cap h s < sl_len s + length l)%nat ->
  exists h' s', append s l h = (s', h') /\ valid h' s' /\ read h' s' = read h s ++ l
    /\ sl_arr s' = length h /\ (length h < length h')%nat
    /\ forall t, (sl_arr t < length h)%nat -> arr h' t = arr h t.
Proof.
  intros [Ha Hl] Hc. unfold append. destruct (Nat.leb_spec (sl_len s + length l) (cap h s)); [lia|].
  eexists _, _. split; [reflexivity|].
  assert (Hr : length (read h s) = sl_len s) by (unfold read, cap in *; rewrite length_take; lia).
  split; [|split; [|split; [done|split; [rewrite length_app; cbn; lia|]]]].
  - split; cbn [sl_arr sl_len]; [rewrite length_app; cbn; lia|]. unfold cap. rewrite arr_new, !length_app. lia.
  - unfold read at 1. cbn [sl_len]. rewrite arr_new, (assoc_L (++)). apply take_app_length'.
    rewrite length_app. lia.
  - intros t Ht. by apply arr_app.
Qed.

(** [append] with room: the array is written after the slice. *)
Lemma append_room h s l : valid h s -> (sl_len s + length l <= cap h s)%nat ->
  exists h' s', append s l h = (s', h') /\ valid h' s' /\ read h' s' = read h s ++ l
    /\ sl_arr s' = sl_arr s /\ sl_len s' = (sl_len s + length l)%nat /\ length h' = length h
    /\ arr h' s = write_at (sl_len s) l (arr h s)
    /\ forall t, sl_arr t <> sl_arr s -> arr h' t = arr h t.
Proof.
  intros [Ha Hl] Hc. unfold append. destruct (Nat.leb_spec (sl_len s + length l) (cap h s)); [|lia].
  eexists _, _. split; [reflexivity|]. unfold cap in *.
  split; [|split; [|split; [done|split; [done|split; [by rewrite length_insert|split]]]]].
  - split; cbn [sl_arr sl_len]; [by rewrite length_insert|].
    unfold cap. rewrite arr_insert_eq by done. rewrite write_at_length; lia.
  - unfold read. cbn [sl_len]. rewrite arr_insert_eq by done. by apply take_write_at_full.
  - by rewrite arr_insert_eq.
  - intros t Ht. by apply arr_insert_ne.
Qed.

Lemma append_any h s l : valid h s -> exists h' s', append s l h = (s', h') /\ valid h' s'
  /\ read h' s' = read h s ++ l /\ (length h <= length h')%nat
  /\ forall t, (sl_arr t < length h)%nat -> sl_arr t <> sl_arr s -> arr h' t = arr h t.
Proof.
  intros Hv. destruct (decide (sl_len s + length l <= cap h s)%nat).
  - destruct (append_room h s l Hv) as (h' & s' & ? & ? & ? & ? & ? & Hln & ? & Hne); [done|].
    exists h', s'. split_and!; try done; [lia|]. intros; by apply Hne.
  - destruct (append_full h s l Hv) as (h' & s' & ? & ? & ? & ? & ? & Hne); [lia|].
    exists h', s'. split_and!; try done; try lia; intros; by apply Hne.
Qed.
End appending.

(** * Effective environments *)

(** Of several variables of one name the last one counts. *)
Fixpoint last_index (n : string) (env : list EnvVar) : option nat :=
  match env with
  | [] => None
  | v :: env' =>
      match last_index n env' with
      | Some i => Some (S i)
      | None => if decide (ev_Name v = n) then Some 0%nat else None
      end
  end.
Definition env_lookup (n : string) (env : list EnvVar) : option EnvVar :=
  i ← last_index n env; env !! i.

Lemma env_last_index_app n l1 l2 : last_index n (l1 ++ l2) =
  match last_index n l2 with
  | Some i => Some (length l1 + i)%nat
  | None => last_index n l1
  end.
Proof.
  induction l1 as [|v l1 IH]; cbn; [by destruct (last_index n l2)|]. rewrite IH.
  by destruct (last_index n l2).
Qed.

Lemma last_index_spec n env i : last_index n env = Some i -> exists v, env !! i = Some v /\ ev_Name v = n.
Proof.
  revert i. induction env as [|v env IH]; intros i; cbn; [done|].
  destruct (last_index n env) as [j|].
  - intros [= <-]. by apply IH.
  - case_decide; [|done]. intros [= <-]. by exists v.
Qed.

Lemma last_index_names n env env' : ev_Name <$> env = ev_Name <$> env' -> last_index n env = last_index n env'.
Proof.
  revert env'. induction env as [|v env IH]; intros [|v' env'] H; try done. cbn in H.
  injection H as Hv H. cbn. by rewrite (IH _ H), Hv.
Qed.

Lemma env_lookup_app n l1 l2 : env_lookup n (l1 ++ l2) =
  match env_lookup n l2 with Some v => Some v | None => env_lookup n l1 end.
Proof.
  unfold env_lookup. rewrite env_last_index_app. destruct (last_index n l2) as [i|] eqn:Hi; cbn.
  - destruct (last_index_spec _ _ _ Hi) as (v & Hv & _).
    rewrite lookup_app_r by lia. replace (length l1 + i - length l1)%nat with i by lia. by rewrite Hv.
  - destruct (last_index n l1) as [j|] eqn:Hj; cbn; [|done].
    destruct (last_index_spec _ _ _ Hj) as (v & Hv & _). by rewrite (lookup_app_l_Some _ _ _ _ Hv), Hv.
Qed.

Lemma env_lookup_none n env : n ∉ ev_Name <$> env -> env_lookup n env = None.
Proof.
  intros H. unfold env_lookup. destruct (last_index n env) as [i|] eqn:Hi; [|done].
  destruct (last_index_spec _ _ _ Hi) as (v & Hv & <-). destruct H.
  apply list_elem_of_fmap. exists v. split; [done|]. by apply list_elem_of_lookup_2 in Hv.
Qed.

(** [upsertEnv] on lists. *)
Definition upsert1 (env : list EnvVar) (v : EnvVar) : list EnvVar :=
  if decide (ev_Name v = "") then env else
  match last_index (ev_Name v) env with
  | Some i => <[i := v]> env
  | None => env ++ [v]
  end.

Lemma upsert1_names env v : ev_Name v <> "" ->
  match last_index (ev_Name v) env with
  | Some i => ev_Name <$> upsert1 env v = ev_Name <$> env
  | None => upsert1 env v = env ++ [v]
  end.
Proof.
  intros Hn. unfold upsert1. rewrite decide_False by done.
  destruct (last_index (ev_Name v) env) as [i|] eqn:Hi; [|done].
  destruct (last_index_spec _ _ _ Hi) as (w & Hw & Hnw).
  rewrite list_fmap_insert. apply list_insert_id. by rewrite list_lookup_fmap, Hw, <- Hnw.
Qed.

Lemma upsert1_lookup env v n : ev_Name v <> "" ->
  env_lookup n (upsert1 env v) = if decide (n = ev_Name v) then Some v else env_lookup n env.
Proof.
  intros Hn. pose proof (upsert1_names env v Hn) as Hnames. revert Hnames.
  unfold upsert1. rewrite decide_False by done. case_decide as He.
  - subst n. destruct (last_index (ev_Name v) env) as [i|] eqn:Hi; intros Hnames.
    + unfold env_lookup. rewrite (last_index_names _ _ _ Hnames), Hi. cbn.
      destruct (last_index_spec _ _ _ Hi) as (w & Hw & _). apply list_lookup_insert_eq.
      by apply lookup_lt_Some in Hw.
    + rewrite env_lookup_app. unfold env_lookup at 1. cbn. by rewrite decide_True.
  - destruct (last_index (ev_Name v) env) as [i|] eqn:Hi; intros Hnames.
    + unfold env_lookup. rewrite (last_index_names _ _ _ Hnames).
      destruct (last_index n env) as [j|] eqn:Hj; [|done]. cbn. apply list_lookup_insert_ne.
      intros ->. destruct (last_index_spec _ _ _ Hi) as (w & Hw & Hwn).
      destruct (last_index_spec _ _ _ Hj) as (w' & Hw' & Hwn'). congruence.
    + rewrite env_lookup_app, (env_lookup_none n [v]); [done|].
      intros Hin%list_elem_of_singleton. done.
Qed.

Lemma upsert_lookup add : forall env v, NoDup (ev_Name <$> add) -> Forall (fun w => ev_Name w <> "") add ->
  v ∈ add -> env_lookup (ev_Name v) (fold_left upsert1 add env) = Some v.
Proof.
  assert (Hkeep : forall l env n v, n ∉ ev_Name <$> l -> Forall (fun w => ev_Name w <> "") l ->
    env_lookup n env = Some v -> env_lookup n (fold_left upsert1 l env) = Some v).
  { induction l as [|w l IH]; intros env n v Hn Hf Hv; [exact Hv|]. cbn in *.
    apply list.Forall_cons in Hf as [Hw Hf]. apply not_elem_of_cons in Hn as [Hne Hn].
    apply IH; [done..|]. by rewrite upsert1_lookup, decide_False. }
  induction add as [|w add IH]; intros env v Hd Hf Hin; [by apply not_elem_of_nil in Hin|].
  cbn in Hd |- *. apply list.NoDup_cons in Hd as [Hn Hd]. apply list.Forall_cons in Hf as [Hw Hf].
  apply elem_of_cons in Hin as [->|Hin]; [|by apply IH].
  apply Hkeep; [done..|]. by rewrite upsert1_lookup, decide_True.
Qed.

(** [upsertEnv] on slices is [upsert1] on what they hold. *)
Definition index_ok (m : gmap string nat) (env : list EnvVar) : Prop :=
  forall n, m !! n = last_index n env.

Lemma env_index_ok env : index_ok (env_index env) env.
Proof.
  unfold env_index.
  assert (H : forall l1 l2 m, index_ok m l1 ->
    index_ok (fold_left (fun '(m, i) v => (<[ev_Name v := i]> m, S i)) l2 (m, length l1)).1 (l1 ++ l2)).
  { intros l1 l2. revert l1. induction l2 as [|v l2 IH]; intros l1 m Hm; cbn; [by rewrite app_nil_r|].
    rewrite cons_middle, (assoc_L (++)).
    replace (S (length l1)) with (length (l1 ++ [v])) by (rewrite length_app; cbn; lia).
    apply IH. intros n. rewrite env_last_index_app. cbn. case_decide as Hn.
    - by rewrite Hn, lookup_insert_eq, Nat.add_0_r.
    - rewrite lookup_insert_ne by done. apply Hm. }
  by apply (H [] env).
Qed.

Lemma set_at_spec h s i v : valid h s -> (i < sl_len s)%nat ->
  let h' := (set_at s i v h).2 in valid h' s /\ read h' s = <[i := v]> (read h s).
Proof.
  intros [Ha Hl] Hi. unfold set_at, cap in *. cbn.
  assert (Hw : write_at i [v] (arr h s) = <[i := v]> (arr h s)).
  { unfold write_at. cbn. replace (i + 1)%nat with (S i) by lia. by rewrite insert_take_drop by lia. }
  rewrite Hw. split.
  - split; [by rewrite length_insert|]. unfold cap. by rewrite arr_insert_eq, length_insert.
  - unfold read. rewrite arr_insert_eq by done. by rewrite take_insert_lt.
Qed.

Section workspace.
Context (grow : nat -> nat -> nat).

Lemma upsert_loop_spec add : forall h env index, valid h env -> index_ok index (read h env) ->
  exists h' env', upsert_loop grow env index add h = (env', h') /\ valid h' env'
    /\ read h' env' = fold_left upsert1 add (read h env).
Proof.
  induction add as [|v add IH]; intros h env index Hv Hi; cbn.
  { exists h, env. done. }
  case_decide as Hn.
  { destruct (IH h env index Hv Hi) as (h' & env' & ? & ? & Hr). exists h', env'.
    split_and!; [done..|]. rewrite Hr. unfold upsert1 at 3. by rewrite decide_True. }
  pose proof (upsert1_names (read h env) v Hn) as Hnames. pose proof (Hi (ev_Name v)) as Hiv.
  destruct (index !! ev_Name v) as [i|]; rewrite <- Hiv in Hnames.
  - destruct (last_index_spec _ _ _ (eq_sym Hiv)) as (w & Hw & _).
    assert (Hlt : (i < sl_len env)%nat).
    { apply lookup_lt_Some in Hw. unfold read in Hw. rewrite length_take in Hw. lia. }
    destruct (set_at_spec h env i v Hv Hlt) as [Hv' Hr']. unfold bnd. cbn [set_at] in *.
    assert (Hup : upsert1 (read h env) v = <[i := v]> (read h env)).
    { unfold upsert1. by rewrite decide_False, <- Hiv. }
    rewrite Hup in *. destruct (IH _ env index Hv') as (h' & env' & ? & ? & Hr).
    { intros n. rewrite Hr', (last_index_names _ _ _ Hnames). apply Hi. }
    exists h', env'. rewrite Hr, Hr'. done.
  - unfold bnd. destruct (append_any grow h env [v] Hv) as (h1 & env1 & Hap & Hv1 & Hr1 & _ & _).
    rewrite Hap. assert (Hup : upsert1 (read h env) v = read h env ++ [v]).
    { unfold upsert1. by rewrite decide_False, <- Hiv. }
    assert (Hlen : sl_len env1 = S (length (read h env))).
    { apply (f_equal length) in Hr1. rewrite length_app in Hr1. cbn in Hr1.
      destruct Hv1 as [_ Hl]. unfold read, cap in *. rewrite length_take in Hr1. lia. }
    destruct (IH h1 env1 (<[ev_Name v := (sl_len env1 - 1)%nat]> index) Hv1) as (h' & env' & ? & ? & Hr).
    { intros n. rewrite Hr1, env_last_index_app. cbn. case_decide as Hne.
      - rewrite Hne, lookup_insert_eq, Hlen. f_equal. lia.
      - rewrite lookup_insert_ne by done. apply Hi. }
    exists h', env'. rewrite Hr, Hr1, Hup. done.
Qed.
(** The environment all containers start from. *)
Definition base_env (r : AgentJobReconciler) (aj : AgentJob) : list EnvVar :=
  let e := [env_val "WORKSPACE" "/workspace"; env_val "WORKSPACES_POLICY_PROFILE" (policy_profile aj)]
           ++ ajs_Env (aj_Spec aj) in
  if decide (TrimSpace (ajr_AgentEgressProxyURL r) = "") then e else fold_left upsert1 (proxy_env r) e.

Lemma workspace_env_spec r aj : exists h ws, workspace_env grow r aj [] = (ws, h) /\ valid h ws
  /\ read h ws = base_env r aj.
Proof.
  unfold workspace_env, base_env, bnd, literal. cbv zeta.
  set (two := [_; _]). assert (Hv : valid [two] {| sl_arr := 0; sl_len := 2 |}) by (split; cbn; lia).
  cbn [length app]. destruct (append_any grow [two] _ (ajs_Env (aj_Spec aj)) Hv)
    as (h1 & s1 & Hap & Hv1 & Hr1 & _ & _).
  change (length two) with 2%nat. rewrite Hap. case_decide.
  - exists h1, s1. done.
  - unfold upsertEnv. rewrite decide_False by done.
    destruct (upsert_loop_spec (proxy_env r) h1 s1 (env_index (read h1 s1)) Hv1 (env_index_ok _))
      as (h2 & s2 & Hu & Hv2 & Hr2).
    exists h2, s2. rewrite Hu, Hr2, Hr1. done.
Qed.

(** Several [append]s in a row: those that fit are written to the array one after
    the other, from the first that does not the array is left alone. *)
Fixpoint append_list (s : slice) (ls : list (list EnvVar)) : M slice :=
  match ls with
  | [] => ret s
  | l :: ls' => let* s' := append grow s l in append_list s' ls'
  end.

Lemma write_at_nil n a : write_at n [] a = a.
Proof. unfold write_at. cbn. rewrite Nat.add_0_r. apply take_drop. Qed.

Lemma write_at_app n l1 l2 a : (n + length l1 + length l2 <= length a)%nat ->
  write_at (n + length l1) l2 (write_at n l1 a) = write_at n (l1 ++ l2) a.
Proof.
  intros H. unfold write_at at 1. rewrite take_write_at_full by lia. unfold write_at.
  rewrite (assoc_L (++) (take n a)), drop_app_ge by (rewrite length_app, length_take; lia).
  rewrite !length_app, length_take, drop_drop, <- !(assoc_L (++)). do 4 f_equal. lia.
Qed.

Lemma append_list_spec ls : forall h s, valid h s -> exists h' s', append_list s ls h = (s', h')
  /\ valid h' s' /\ read h' s' = read h s ++ concat ls /\ (length h <= length h')%nat
  /\ (forall t, (sl_arr t < length h)%nat -> sl_arr t <> sl_arr s -> arr h' t = arr h t)
  /\ exists l1 l2, ls = l1 ++ l2 /\ (sl_len s + length (concat l1) <= cap h s)%nat
       /\ arr h' s = write_at (sl_len s) (concat l1) (arr h s)
       /\ match l2 with
          | [] => True
          | x :: _ => (cap h s < sl_len s + length (concat l1) + length x)%nat
          end.
Proof.
  induction ls as [|l ls IH]; intros h s Hv; cbn [append_list concat].
  { exists h, s. rewrite app_nil_r. split_and!; try done. exists [], []. cbn. rewrite write_at_nil.
    destruct Hv. split_and!; (done || lia). }
  unfold bnd. destruct (decide (sl_len s + length l <= cap h s)%nat) as [Hroom|Hfull].
  - destruct (append_room grow h s l Hv Hroom) as (h1 & s1 & -> & Hv1 & Hr1 & Ha1 & Hl1 & Hln & Hw & Hne).
    destruct (IH h1 s1 Hv1) as (h' & s' & -> & Hv' & Hr' & Hle & Hoth & l1 & l2 & -> & Hfit & Hw' & Hend).
    assert (Hc : cap h1 s1 = cap h s).
    { unfold cap, arr in *. rewrite Ha1, Hw. apply write_at_length. done. }
    assert (Has : arr h' s1 = arr h' s) by (unfold arr; by rewrite Ha1).
    assert (Has1 : arr h1 s1 = arr h1 s) by (unfold arr; by rewrite Ha1).
    rewrite Hc, Hl1 in *. exists h', s'. split_and!; [done|done| |lia| |].
    + by rewrite Hr', Hr1, (assoc_L (++)).
    + intros t Ht Hn. rewrite Hoth; [by apply Hne | lia | by rewrite Ha1].
    + exists (l :: l1), l2. cbn [concat app]. rewrite length_app. split; [done|]. split; [lia|]. split.
      * rewrite <- Has, Hw', Has1, Hw. apply write_at_app. unfold cap in *. lia.
      * destruct l2; [done | lia].
  - destruct (append_full grow h s l Hv) as (h1 & s1 & -> & Hv1 & Hr1 & Ha1 & Hln & Hold); [lia|].
    destruct (IH h1 s1 Hv1) as (h' & s' & -> & Hv' & Hr' & Hle & Hoth & _).
    exists h', s'. split_and!; [done|done| |lia| |].
    + by rewrite Hr', Hr1, (assoc_L (++)).
    + intros t Ht Hn. rewrite Hoth; [by apply Hold | lia | lia].
    + exists [], (l :: ls). cbn. rewrite write_at_nil. destruct Hv as [Hs Hl]. split; [done|].
      split; [lia|]. split; [|lia]. rewrite Hoth; [by apply Hold | lia | lia].
Qed.

(** The room left in the array of that environment. *)
Definition spare_of (r : AgentJobReconciler) (aj : AgentJob) : nat :=
  let '(ws, h) := workspace_env grow r aj [] in cap h ws - sl_len ws.

(** What the checkout container gets: its own variables, or those of the agent
    that were written over them. *)
Definition checkout_rest (aj : AgentJob) (g : AgentJobGitHubSpec) (spare : nat) : list EnvVar :=
  if (spare <? 4)%nat then github_env g ++ [github_token_env aj]
  else if (spare =? 4)%nat then task_env aj ++ [github_token_env aj]
  else task_env aj ++ take 1 (broker_env aj).

Definition agent_rest (aj : AgentJob) : list (list EnvVar) :=
  [task_env aj; broker_env aj]
  ++ match ajs_GitHub (aj_Spec aj) with Some g => [github_env g] | None => [] end.

Lemma agent_rest_append {B} aj ws (k : slice -> M B) h :
  (let* main := append grow ws (task_env aj) in
   let* main := append grow main (broker_env aj) in
   let* main := (match ajs_GitHub (aj_Spec aj) with
                 | Some g => append grow main (github_env g) | None => ret main end) in
   k main) h = let '(main, h') := append_list ws (agent_rest aj) h in k main h'.
Proof.
  unfold agent_rest, bnd, ret. cbn [append_list app]. unfold bnd.
  destruct (append grow ws (task_env aj) h) as [m1 h1].
  destruct (append grow m1 (broker_env aj) h1) as [m2 h2].
  destruct (ajs_GitHub (aj_Spec aj)); cbn [append_list]; unfold bnd, ret; [|done].
  by destruct (append grow m2 _ h2).
Qed.

Lemma read_same h h' s : arr h' s = arr h s -> read h' s = read h s.
Proof. intros H. unfold read. by rewrite H. Qed.

Lemma read_write_at n k l a : (n <= length a)%nat ->
  take (n + k) (write_at n l a) = take n a ++ take k (l ++ drop (n + length l) a).
Proof.
  intros Hn. unfold write_at. rewrite take_app, length_take, Nat.min_l, take_take, Nat.min_r by lia.
  do 2 f_equal. lia.
Qed.
Lemma drop_write_at n k l a : (n <= length a)%nat ->
  drop (n + k) (write_at n l a) = drop k (l ++ drop (n + length l) a).
Proof.
  intros Hn. unfold write_at. rewrite drop_app, length_take, Nat.min_l by lia.
  rewrite drop_ge by (rewrite length_take; lia). cbn. f_equal. lia.
Qed.

(** The checkout's four variables, after the agent's were appended behind them. *)
Lemma clobbered_env aj g (a : list EnvVar) n l1 l2 : agent_rest aj = l1 ++ l2 ->
  (n + 4 <= length a)%nat ->
  (n + length (concat l1) <= length a)%nat ->
  match l2 with [] => True | x :: _ => (length a < n + length (concat l1) + length x)%nat end ->
  take (n + 4) (write_at n (concat l1) (write_at n (github_env g ++ [github_token_env aj]) a))
  = take n a ++ checkout_rest aj g (length a - n).
Proof.
  intros Hl Hn Hfit Hend.
  assert (Hlen : length (write_at n (github_env g ++ [github_token_env aj]) a) = length a)
    by (apply write_at_length; cbn; lia).
  rewrite read_write_at by lia. rewrite take_write_at by (cbn; lia). rewrite drop_write_at by lia.
  f_equal. unfold checkout_rest. destruct (Nat.ltb_spec (length a - n) 4); [lia|].
  unfold agent_rest in Hl. destruct l1 as [|x l1]; cbn in Hl.
  { subst l2. cbn in Hend. lia. }
  injection Hl as <- Hl. destruct l1 as [|y l1].
  - cbn in Hl. subst l2. cbn in Hend. destruct (Nat.eqb_spec (length a - n) 4); [done | lia].
  - injection Hl as <- _. cbn in Hfit.
    destruct (Nat.eqb_spec (length a - n) 4); [lia | done].
Qed.

(** C26: what environments the containers of an agent job run with.  For every
    growth of arrays: the agent container has the variables of the job and the
    proxy, then its own; and the checkout container of a GitHub job has its own
    four behind the same ones exactly when the shared array had room for fewer
    than four more; otherwise they are overwritten by the agent's, so that it
    has no repository, pull request or commit to check out, nor, with room for
    five, a token. *)
Theorem agent_environments r aj :
  agent_pod grow r aj = pod_of r aj
    (if script_mode aj
     then (fun g => base_env r aj ++ checkout_rest aj g (spare_of r aj)) <$> ajs_GitHub (aj_Spec aj)
     else None)
    (base_env r aj ++ if script_mode aj then concat (agent_rest aj) else broker_env aj).
Proof.
  destruct (workspace_env_spec r aj) as (h & ws & Hws & Hv & Hr).
  unfold agent_pod, agent_envs, spare_of. unfold bnd at 1. rewrite Hws.
  destruct (script_mode aj) eqn:Hmode; cycle 1.
  { destruct (append_any grow h ws (broker_env aj) Hv) as (h1 & m & Hap & _ & Hrm & _).
    unfold bnd, ret. by rewrite Hap, Hrm, Hr. }
  destruct (ajs_GitHub (aj_Spec aj)) as [g|] eqn:Hg; cbn [fmap option_fmap option_map].
  - set (co4 := github_env g ++ [github_token_env aj]).
    assert (Hco : exists h1 co, append grow ws co4 h = (co, h1) /\ valid h1 ws /\ read h1 ws = read h ws
      /\ forall main h', append_list ws (agent_rest aj) h1 = (main, h') ->
           read h' co = base_env r aj ++ checkout_rest aj g (cap h ws - sl_len ws)).
    { destruct (decide (sl_len ws + length co4 <= cap h ws)%nat) as [Hroom|Hfull].
      - destruct (append_room grow h ws co4 Hv Hroom)
          as (h1 & co & Hap & Hv1 & _ & Ha & Hl & Hln & Hw & _). exists h1, co.
        destruct Hv as [Hv0 Hvl]. split; [done|].
        assert (Hc : cap h1 ws = cap h ws) by (unfold cap; rewrite Hw; by apply write_at_length).
        assert (Hv1' : valid h1 ws) by (split; [lia | by rewrite Hc]). split; [done|]. split.
        { unfold read. rewrite Hw. by apply take_write_at. }
        intros main h' Hm. destruct (append_list_spec (agent_rest aj) h1 ws Hv1')
          as (h2 & s2 & Hm2 & _ & _ & _ & _ & l1 & l2 & Hl12 & Hfit & Hw2 & Hend).
        rewrite Hm in Hm2. injection Hm2 as <- <-. unfold read, arr in *. rewrite Ha, Hl, Hw2, Hw.
        cbn [length app github_env co4] in Hroom |- *. rewrite Hc in *. unfold cap, arr in *.
        rewrite <- Hr. by apply (clobbered_env aj g _ _ l1 l2).
      - destruct (append_full grow h ws co4 Hv) as (h1 & co & Hap & Hv1 & Hr1 & Ha & Hln & Hold); [lia|].
        exists h1, co. destruct Hv as [Hv0 Hvl]. split; [done|].
        assert (Hc : arr h1 ws = arr h ws) by by apply Hold.
        assert (Hv1' : valid h1 ws) by (split; [lia | unfold cap; by rewrite Hc]). split; [done|].
        split; [by apply read_same|]. intros main h' Hm.
        destruct (append_list_spec (agent_rest aj) h1 ws Hv1') as (h2 & s2 & Hm2 & _ & _ & _ & Hoth & _).
        rewrite Hm in Hm2. injection Hm2 as <- <-.
        rewrite (read_same h1) by (apply Hoth; lia). rewrite Hr1, Hr. unfold checkout_rest.
        cbn in Hfull. destruct (Nat.ltb_spec (cap h ws - sl_len ws) 4); [done | lia]. }
    destruct Hco as (h1 & co & Hap & Hv1 & Hr1 & Hread). unfold bnd at 1 2. rewrite Hap. cbn [ret].
    destruct (append_list_spec (agent_rest aj) h1 ws Hv1) as (h' & main & Hm & _ & Hrm & _).
    pose proof (agent_rest_append aj ws (fun main => ret (Some co, main)) h1) as Hchain.
    rewrite Hg in Hchain. rewrite Hchain, Hm. cbn [ret fmap option_fmap option_map].
    by rewrite (Hread _ _ Hm), Hrm, Hr1, Hr.
  - unfold bnd at 1. cbn [ret].
    destruct (append_list_spec (agent_rest aj) h ws Hv) as (h' & main & Hm & _ & Hrm & _).
    pose proof (agent_rest_append aj ws (fun main => ret (@None slice, main)) h) as Hchain.
    rewrite Hg in Hchain. rewrite Hchain, Hm. cbn [ret fmap option_fmap option_map].
    by rewrite Hrm, Hr.
Qed.
End workspace.

(** A container confined to the proxy: no privileges, and every proxy variable
    as configured, whatever the job's own environment says. *)
Definition confined (r : AgentJobReconciler) (c : Container) : Prop :=
  ct_SecurityContext c = Some agent_security
  /\ (TrimSpace (ajr_AgentEgressProxyURL r) <> "" ->
      forall v, v ∈ proxy_env r -> env_lookup (ev_Name v) (ct_Env c) = Some v).

Lemma base_env_proxy r aj v : TrimSpace (ajr_AgentEgressProxyURL r) <> "" -> v ∈ proxy_env r ->
  env_lookup (ev_Name v) (base_env r aj) = Some v.
Proof.
  intros Hp Hv. unfold base_env. cbv zeta. rewrite decide_False by done.
  apply upsert_lookup; [|by repeat constructor|done].
  unfold proxy_env. cbn. repeat (apply list.NoDup_cons; split; [set_solver|]). apply list.NoDup_nil. done.
Qed.

(** The names of the proxy variables, and of those appended behind them. *)
Definition proxy_names : gset string :=
  {["HTTP_PROXY"; "HTTPS_PROXY"; "ALL_PROXY"; "NO_PROXY"; "http_proxy"; "https_proxy"; "all_proxy"; "no_proxy"]}.
Lemma proxy_env_names r v : v ∈ proxy_env r -> ev_Name v ∈ proxy_names.
Proof.
  unfold proxy_env, proxy_names. cbv zeta. rewrite !elem_of_cons, elem_of_nil.
  intros H. repeat destruct H as [->|H]; cbn; set_solver.
Qed.

Lemma own_env_proxy r v env own : v ∈ proxy_env r -> Forall (fun w => ev_Name w ∉ proxy_names) own ->
  env_lookup (ev_Name v) env = Some v -> env_lookup (ev_Name v) (env ++ own) = Some v.
Proof.
  intros Hv Hown He. rewrite env_lookup_app, env_lookup_none; [done|].
  intros (w & Hw & Hin)%list_elem_of_fmap. rewrite list.Forall_forall in Hown.
  apply (Hown w Hin). rewrite <- Hw. by eapply proxy_env_names.
Qed.

Lemma own_env_names aj g : 
  Forall (fun w => ev_Name w ∉ proxy_names) (concat (agent_rest aj))
  /\ Forall (fun w => ev_Name w ∉ proxy_names) (broker_env aj)
  /\ forall n, Forall (fun w => ev_Name w ∉ proxy_names) (checkout_rest aj g n).
Proof.
  assert (Hd : forall l, forallb (fun w => bool_decide (ev_Name w ∉ proxy_names)) l = true ->
    Forall (fun w => ev_Name w ∉ proxy_names) l).
  { intros l Hl. apply list.Forall_forall. intros w Hw. rewrite forallb_elem_of in Hl.
    by apply Hl, bool_decide_eq_true in Hw. }
  split; [|split; [|intros n]]; apply Hd.
  - unfold agent_rest. by destruct (ajs_GitHub (aj_Spec aj)).
  - done.
  - unfold checkout_rest. destruct (_ <? _)%nat; [done|]. by destruct (_ =? _)%nat.
Qed.

Lemma agent_pod_confined grow r aj :
  Forall (confined r) (pod_InitContainers (agent_pod grow r aj) ++ pod_Containers (agent_pod grow r aj)).
Proof.
  rewrite agent_environments. apply list.Forall_app. split.
  - cbn. destruct (script_mode aj); [|constructor].
    destruct (ajs_GitHub (aj_Spec aj)) as [g|]; constructor; [|constructor].
    split; [done|]. intros Hp v Hv. apply (own_env_proxy r); [done| |by apply base_env_proxy].
    by apply own_env_names.
  - cbn. constructor; [|constructor]. destruct (own_env_names aj {| ajg_Repo := ""; ajg_PullNumber := 0; ajg_HeadSHA := "" |})
      as (H1 & H2 & _).
    destruct (script_mode aj); (split; [done|]; intros Hp v Hv;
      apply (own_env_proxy r); [done|done|by apply base_env_proxy]).
Qed.

(** * The checkout of a proxied job *)

Definition github_job : AgentJob := {|
  aj_Meta := new_meta "agents" "fix-1";
  aj_Spec := {| ajs_Image := "agent:1"; ajs_Command := []; ajs_Args := []; ajs_Script := "make test";
    ajs_Workdir := ""; ajs_GitHub := Some {| ajg_Repo := "o/r"; ajg_PullNumber := 7; ajg_HeadSHA := "" |};
    ajs_Env := []; ajs_Resources := VObj []; ajs_NodeSelector := ∅; ajs_Tolerations := [];
    ajs_RuntimeClassName := None; ajs_TTLSecondsAfterFinished := None; ajs_PolicyProfile := "" |};
  aj_Status := zero_ajstatus |}.
Definition proxied : AgentJobReconciler := {|
  ajr_DefaultAgentRuntimeClass := "gvisor"; ajr_AgentEgressProxyURL := "http://egress-proxy:3128";
  ajr_AgentNoProxy := "" |}.

(** The jobs the broker creates have no environment of their own.  With a proxy
    the eight variables leave room for six more, and the checkout script, which
    exits when [WORKSPACES_GITHUB_REPO] is unset, finds it unset. *)
Example proxied_checkout_has_no_repo :
  spare_of doubling proxied github_job = 6%nat
  /\ (env_lookup "WORKSPACES_GITHUB_REPO" <$> (ct_Env <$> pod_InitContainers (agent_pod doubling proxied github_job)))
     = [None]
  /\ (env_lookup "WORKSPACES_GITHUB_TOKEN" <$> (ct_Env <$> pod_InitContainers (agent_pod doubling proxied github_job)))
     = [None].
Proof. vm_compute. done. Qed.
