(* ===== verification/AgentJobs.v ===== *)
(** The AgentJob controller (src/internal/controller/agentjob_controller.go): the
    Kubernetes job of an agent job, its status, and the clean-up of its secrets
    and grants. *)
From S2P Require Export AgentPod.
From stdpp Require Import options.
Open Scope Z_scope.

Definition aj_with_status (aj : AgentJob) (s : AgentJobStatus) : AgentJob :=
  {| aj_Meta := aj_Meta aj; aj_Spec := aj_Spec aj; aj_Status := s |}.

(** * The job *)

Definition agent_job (grow : nat -> nat -> nat) (r : AgentJobReconciler) (aj : AgentJob) (job : Job) : Job := {|
  job_Meta := with_labels (job_Meta job) (agent_labels aj ∪ m_Labels (job_Meta job));
  job_BackoffLimit := Some 0;
  job_TTLSecondsAfterFinished := Some (job_ttl aj);
  job_TemplateLabels := agent_labels aj;
  job_Pod := agent_pod grow r aj;
  job_Conditions := job_Conditions job;
  job_StartTime := job_StartTime job;
  job_CompletionTime := job_CompletionTime job |}.

Definition fresh_job (ns name : string) : Job := {|
  job_Meta := new_meta ns name; job_BackoffLimit := None; job_TTLSecondsAfterFinished := None;
  job_TemplateLabels := ∅;
  job_Pod := {| pod_RestartPolicy := ""; pod_RuntimeClassName := None;
    pod_AutomountServiceAccountToken := None; pod_EnableServiceLinks := None; pod_NodeSelector := ∅;
    pod_Tolerations := []; pod_Volumes := []; pod_InitContainers := []; pod_Containers := [] |};
  job_Conditions := []; job_StartTime := None; job_CompletionTime := None |}.

(** * Status *)

(** The first condition that tells the end. *)
Fixpoint job_phase (conds : list (string * string)) : string :=
  match conds with
  | [] => "Running"
  | (t, s) :: conds' =>
      if decide (t = "Complete" /\ s = "True") then "Succeeded"
      else if decide (t = "Failed" /\ s = "True") then "Failed"
      else job_phase conds'
  end.

Definition pod_rank (p : Pod) : Z :=
  if decide (p_Phase p = "Succeeded" \/ p_Phase p = "Failed") then 2
  else if decide (p_Phase p = "Running") then 1 else 0.

(** The pod to report: the furthest, and of those the newest (the first one of
    them in the list). *)
Definition select_pod (pods : list Pod) : option Pod :=
  fold_left (fun sel p =>
    match sel with
    | None => Some p
    | Some b =>
        if (pod_rank b <? pod_rank p)
           || ((pod_rank p =? pod_rank b)
               && After (m_CreationTimestamp (p_Meta p)) (m_CreationTimestamp (p_Meta b)))
        then Some p else Some b
    end) pods None.

(** The exit code and reason of the terminated agent container. *)
Fixpoint agent_exit (cs : list ContainerStatus) : option Z * string :=
  match cs with
  | [] => (None, "")
  | c :: cs' =>
      match cs_Terminated c with
      | Some t =>
          if decide (cs_Name c = "agent") then
            let reason := TrimSpace (tm_Reason t) in
            (Some (wrap32 (tm_ExitCode t)), if decide (reason = "") then TrimSpace (tm_Message t) else reason)
          else agent_exit cs'
      | None => agent_exit cs'
      end
  end.

Definition report (pods : list Pod) : string * option Z * string :=
  match select_pod pods with
  | Some p => let '(ec, reason) := agent_exit (p_ContainerStatuses p) in (m_Name (p_Meta p), ec, reason)
  | None => ("", None, "")
  end.

Definition observed_status (aj : AgentJob) (phase pod : string) (started completed ec : option Z)
    (reason : string) : AgentJobStatus := {|
  ajt_Phase := phase; ajt_JobName := job_name aj; ajt_PodName := pod; ajt_StartedAt := started;
  ajt_CompletedAt := completed; ajt_ExitCode := ec; ajt_ExitReason := reason;
  ajt_Conditions := ajt_Conditions (aj_Status aj) |}.

Definition record_status (aj : AgentJob) (phase pod : string) (started completed ec : option Z)
    (reason : string) : kprog AgentJob :=
  let s := aj_Status aj in
  if decide (ajt_Phase s = phase /\ ajt_JobName s = job_name aj /\ ajt_PodName s = pod
             /\ ajt_StartedAt s = started /\ ajt_CompletedAt s = completed /\ ajt_ExitCode s = ec
             /\ TrimSpace (ajt_ExitReason s) = reason)
  then mret aj
  else
    let aj' := aj_with_status aj (observed_status aj phase pod started completed ec reason) in
    r ← trigger (StatusPatch KAgentJob aj' aj);
    mret (match r with Ok x => x | Err _ => aj' end).

(** The secrets and the grant that go when the job is over. *)
Definition clean_up (aj : AgentJob) : kprog unit :=
  let ns := m_Namespace (aj_Meta aj) in
  let n := m_Name (aj_Meta aj) in
  _ ← trigger (DeleteObj KSecret ns ("agentjob-" +:+ n +:+ "-github"));
  _ ← trigger (DeleteObj KSecret ns ("agentjob-" +:+ n +:+ "-broker"));
  _ ← trigger (DeleteObj KNetworkGrant ns ("autogrant-" +:+ n +:+ "-github"));
  mret tt.

Definition Reconcile (grow : nat -> nat -> nat) (r : AgentJobReconciler) (ns name : string)
    : kprog (result kerr Z) :=
  got ← trigger (Get KAgentJob ns name);
  match got with
  | Err NotFound => mret (Ok 0)
  | Err e => mret (Err e)
  | Ok aj =>
      let ns := m_Namespace (aj_Meta aj) in
      w ← CreateOrUpdate KJob ns (job_name aj) (fresh_job ns (job_name aj))
            (fun job => trigger (SetControllerReference KJob (aj_Meta aj) (agent_job grow r aj job)));
      match w with
      | Err e => mret (Err e)
      | Ok job =>
          let phase := job_phase (job_Conditions job) in
          pods ← trigger (ListNS KPod ns {["job-name" := job_name aj]});
          let '(pod, ec, reason) := match pods with Ok l => report l | Err _ => ("", None, "") end in
          aj ← record_status aj phase pod (job_StartTime job) (job_CompletionTime job) ec reason;
          _ ← (if decide (phase = "Succeeded" \/ phase = "Failed") then clean_up aj else mret tt);
          mret (Ok 0)
      end
  end.

(** * Which pod is reported *)

Definition better (q p : Pod) : Prop :=
  pod_rank q < pod_rank p
  \/ (pod_rank q = pod_rank p /\ m_CreationTimestamp (p_Meta q) <= m_CreationTimestamp (p_Meta p)).
(** A pod as far as any and, among those, as new as any. *)
Definition best_pod (pods : list Pod) (p : Pod) : Prop :=
  p ∈ pods /\ forall q, q ∈ pods -> better q p.

Lemma better_trans p1 p2 p3 : better p1 p2 -> better p2 p3 -> better p1 p3.
Proof. unfold better. lia. Qed.

Lemma select_pod_spec pods :
  match select_pod pods with Some p => best_pod pods p | None => pods = [] end.
Proof.
  unfold select_pod. induction pods as [|x pods IH] using rev_ind; [done|].
  rewrite fold_left_app. cbn [fold_left]. destruct (fold_left _ pods None) as [b|]; cycle 1.
  { subst pods. split; [by left|]. intros q ->%list_elem_of_singleton. right. lia. }
  destruct IH as [Hin Hb]. unfold After.
  destruct (Z.ltb_spec (pod_rank b) (pod_rank x)) as [Hr|Hr]; cbn [orb].
  { split; [set_solver|]. intros q [Hq | ->%list_elem_of_singleton]%elem_of_app; [|right; lia].
    eapply better_trans; [by apply Hb | by left]. }
  destruct (Z.eqb_spec (pod_rank x) (pod_rank b)), (Z.ltb_spec (m_CreationTimestamp (p_Meta b))
    (m_CreationTimestamp (p_Meta x))); cbn [andb];
    (split; [set_solver|]; intros q [Hq | ->%list_elem_of_singleton]%elem_of_app; [|unfold better; lia]).
  2-4: by apply Hb.
  eapply better_trans; [by apply Hb | right; lia].
Qed.

(** * Reconciles *)

Definition job_kept (k : kind) : obj k -> obj k -> Prop :=
  match k with
  | KAgentJob => fun a a' => m_Name (aj_Meta a') = m_Name (aj_Meta a)
                             /\ m_Namespace (aj_Meta a') = m_Namespace (aj_Meta a)
  | KJob => fun j j' => j' = Build_Job (job_Meta j') (job_BackoffLimit j) (job_TTLSecondsAfterFinished j)
      (job_TemplateLabels j) (job_Pod j) (job_Conditions j) (job_StartTime j) (job_CompletionTime j)
  | _ => fun _ _ => True
  end.

(** The job of an agent job: it is tried once, its pods carry the labels that
    policies select, and they are confined. *)
Definition runs_agent (r : AgentJobReconciler) (aj : AgentJob) (j : Job) : Prop :=
  job_BackoffLimit j = Some 0
  /\ job_TemplateLabels j = agent_labels aj
  /\ Forall (confined r) (pod_InitContainers (job_Pod j) ++ pod_Containers (job_Pod j))
  /\ pod_AutomountServiceAccountToken (job_Pod j) = Some false
  /\ pod_EnableServiceLinks (job_Pod j) = Some false
  /\ pod_RuntimeClassName (job_Pod j) = Some (runtime_class r aj)
  /\ Forall (fun v => exists o, vol_Source v = VObj [("emptyDir", VObj o)]) (pod_Volumes (job_Pod j)).

Lemma agent_job_runs grow r aj j j' : job_kept KJob (agent_job grow r aj j) j' -> runs_agent r aj j'.
Proof.
  intros ->. unfold runs_agent, agent_job. cbn [job_BackoffLimit job_TemplateLabels job_Pod].
  split; [done|]. split; [done|]. split; [apply agent_pod_confined|].
  rewrite agent_environments. cbn. split_and!; [done..|].
  unfold agent_volumes. constructor; [by eexists|]. constructor; [by eexists|].
  destruct (dev_shm aj); [constructor; [by eexists | constructor] | constructor].
Qed.

(** * What is recorded *)

(** A condition that tells the end, and the phase it tells. *)
Definition tells_end (c : string * string) (phase : string) : Prop :=
  (c = ("Complete", "True") /\ phase = "Succeeded") \/ (c = ("Failed", "True") /\ phase = "Failed").
(** The phase the conditions of a job stand for: that of the first one that tells
    the end. *)
Definition phase_told (conds : list (string * string)) (phase : string) : Prop :=
  (phase = "Running" /\ forall c q, c ∈ conds -> ~ tells_end c q)
  \/ exists before c after, conds = before ++ c :: after /\ tells_end c phase
       /\ forall c' q, c' ∈ before -> ~ tells_end c' q.

Lemma job_phase_told conds : phase_told conds (job_phase conds).
Proof.
  induction conds as [|[t s] conds IH]; [left; split; [done|]; by intros c q ?%not_elem_of_nil|].
  cbn [job_phase]. case_decide as H1; [|case_decide as H2].
  - destruct H1 as [-> ->]. right. exists [], ("Complete", "True"), conds.
    split; [done|]. split; [by left|]. by intros c q ?%not_elem_of_nil.
  - destruct H2 as [-> ->]. right. exists [], ("Failed", "True"), conds.
    split; [done|]. split; [by right|]. by intros c q ?%not_elem_of_nil.
  - assert (Hn : forall q, ~ tells_end (t, s) q) by (intros q [[[= -> ->] _]|[[= -> ->] _]]; tauto).
    destruct IH as [[Hp Hc]|(before & c & after & -> & Hc & Hb)].
    + left. split; [done|]. intros c q [->|Hin]%elem_of_cons; [apply Hn | by apply Hc].
    + right. exists ((t, s) :: before), c, after. split; [done|]. split; [done|].
      intros c' q [->|Hin]%elem_of_cons; [apply Hn | by apply Hb].
Qed.

Lemma phase_told_final conds phase : phase_told conds phase ->
  (phase = "Succeeded" \/ phase = "Failed") <-> phase <> "Running".
Proof.
  intros [[-> _]|(before & c & after & _ & [[_ ->]|[_ ->]] & _)]; split; try done; try tauto.
  by intros [?|?].
Qed.

(** How the agent of a pod ended: the exit code and the reason, or else the
    message, of the first container called [agent] that has terminated. *)
Definition agent_ended (cs : list ContainerStatus) (ec : option Z) (reason : string) : Prop :=
  let over c := cs_Name c = "agent" /\ cs_Terminated c <> None in
  (ec = None /\ reason = "" /\ forall c, c ∈ cs -> ~ over c)
  \/ exists before c after t, cs = before ++ c :: after /\ cs_Name c = "agent"
       /\ cs_Terminated c = Some t /\ (forall c', c' ∈ before -> ~ over c')
       /\ ec = Some (wrap32 (tm_ExitCode t))
       /\ (TrimSpace (tm_Reason t) <> "" -> reason = TrimSpace (tm_Reason t))
       /\ (TrimSpace (tm_Reason t) = "" -> reason = TrimSpace (tm_Message t)).

Lemma agent_exit_ended cs : agent_ended cs (agent_exit cs).1 (agent_exit cs).2.
Proof.
  induction cs as [|c cs IH]; [left; split_and!; [done..|]; by intros c ?%not_elem_of_nil|].
  assert (Hskip : ~ (cs_Name c = "agent" /\ cs_Terminated c <> None) -> agent_exit (c :: cs) = agent_exit cs ->
    agent_ended (c :: cs) (agent_exit (c :: cs)).1 (agent_exit (c :: cs)).2).
  { intros Hn ->. destruct IH as [(H1 & H2 & Hc)|(before & c0 & after & t & -> & H1 & H2 & Hb & H3)].
    - left. split; [done|]. split; [done|]. intros c' [->|Hin]%elem_of_cons; [done | by apply Hc].
    - right. exists (c :: before), c0, after, t. split; [done|]. split; [done|]. split; [done|].
      split; [|done]. intros c' [->|Hin]%elem_of_cons; [done | by apply Hb]. }
  cbn [agent_exit] in *. destruct (cs_Terminated c) as [t|] eqn:Ht; [|apply Hskip; [by intros [_ ?] | done]].
  case_decide as Hn; [|apply Hskip; [by intros [? _] | done]]. clear Hskip IH.
  right. exists [], c, cs, t. split; [done|]. split; [done|]. split; [done|].
  split; [by intros ? ?%not_elem_of_nil|]. split; [done|]. cbn. by case_decide.
Qed.

(** The status says what was observed. *)
Definition shows (s t : AgentJobStatus) : Prop :=
  ajt_Phase s = ajt_Phase t /\ ajt_JobName s = ajt_JobName t /\ ajt_PodName s = ajt_PodName t
  /\ ajt_StartedAt s = ajt_StartedAt t /\ ajt_CompletedAt s = ajt_CompletedAt t
  /\ ajt_ExitCode s = ajt_ExitCode t /\ TrimSpace (ajt_ExitReason s) = ajt_ExitReason t.
#[global] Instance shows_dec s t : Decision (shows s t).
Proof. unfold shows. apply _. Defined.

(** What is reported of the pods listed. *)
Definition reported (pods : result kerr (list Pod)) (pod reason : string) (ec : option Z) : Prop :=
  match pods with
  | Ok [] | Err _ => pod = "" /\ ec = None /\ reason = ""
  | Ok l => exists p, best_pod l p /\ pod = m_Name (p_Meta p)
                      /\ agent_ended (p_ContainerStatuses p) ec reason
  end.

Lemma report_reported pods pod ec reason :
  match pods with Ok l => report l | Err _ => ("", None, "") end = (pod, ec, reason) ->
  reported pods pod reason ec.
Proof.
  destruct pods as [l|e]; [|by intros [= <- <- <-]]. unfold report.
  pose proof (select_pod_spec l) as H. destruct (select_pod l) as [p|].
  - destruct (agent_exit _) as [ec' re'] eqn:He. intros [= <- <- <-]. unfold reported.
    destruct l as [|x l]; [by destruct H as [?%not_elem_of_nil _]|]. exists p.
    pose proof (agent_exit_ended (p_ContainerStatuses p)) as Hend. by rewrite He in Hend.
  - subst l. by intros [= <- <- <-].
Qed.

(** The objects that go with a finished job. *)
Definition leftovers (aj : AgentJob) (over : bool) : list (string * string) * list (string * string) :=
  let ns := m_Namespace (aj_Meta aj) in
  let n := m_Name (aj_Meta aj) in
  if over then ([(ns, "agentjob-" +:+ n +:+ "-github"); (ns, "agentjob-" +:+ n +:+ "-broker")],
                [(ns, "autogrant-" +:+ n +:+ "-github")])
  else ([], []).

Definition no_leftovers (tr : list kobs) : Prop :=
  omap (deleted KSecret) tr = [] /\ omap (deleted KNetworkGrant) tr = [].

Lemma record_status_exec aj phase pod st co ec reason tr aj' :
  exec (record_status aj phase pod st co ec reason) tr aj' ->
  no_leftovers tr /\ omap (written KJob) tr = []
  /\ (kept job_kept tr -> job_kept KAgentJob aj aj')
  /\ omap (status_patched KAgentJob) tr =
       (let s := observed_status aj phase pod st co ec reason in
        if decide (shows (aj_Status aj) s) then [] else [aj_with_status aj s]).
Proof.
  unfold record_status. cbv zeta. destruct (decide (_ /\ _)) as [Hd|Hd]; intros Hx.
  - destruct Hx as [-> ->]. rewrite decide_True by done. done.
  - walk Hx. rewrite decide_False by done. split_and!; try done.
    intros Hk. apply list.Forall_cons in Hk as [Hk _]. cbn in Hk. destruct ans; [by apply Hk | done].
Qed.

Section reconcile.
Context (grow : nat -> nat -> nat) (r : AgentJobReconciler).

Lemma write_job_exec aj tr w :
  exec (CreateOrUpdate KJob (m_Namespace (aj_Meta aj)) (job_name aj)
          (fresh_job (m_Namespace (aj_Meta aj)) (job_name aj))
          (fun job => trigger (SetControllerReference KJob (aj_Meta aj) (agent_job grow r aj job)))) tr w ->
  no_leftovers tr /\ omap (status_patched KAgentJob) tr = []
  /\ (kept job_kept tr -> forall j, j ∈ omap (written KJob) tr -> runs_agent r aj j)
  /\ forall job, w = Ok job -> exists j, Obs (Write KJob j) (Ok job) ∈ tr.
Proof using Type.
  unfold CreateOrUpdate. intros H. walk H; split_and!; try done.
  - intros Hk j. cbn. intros ->%list_elem_of_singleton.
    apply list.Forall_cons in Hk as [_ Hk]. apply list.Forall_cons in Hk as [Hk _]. cbn in Hk.
    eapply agent_job_runs. by apply Hk.
  - intros job ->. eexists. right. right. by left.
  - intros Hk j. cbn. by intros ?%not_elem_of_nil.
  - intros Hk j. cbn. by intros ?%not_elem_of_nil.
Qed.

(** The steps of a reconcile that found the agent job [aj]. *)
Lemma Reconcile_steps ns name aj tr out :
  exec (Reconcile grow r ns name) tr out -> head (omap (got KAgentJob) tr) = Some (Ok aj) ->
  exists t1 t2 w,
    tr = [Obs (Get KAgentJob ns name) (Ok aj)] ++ t1 ++ t2
    /\ exec (CreateOrUpdate KJob (m_Namespace (aj_Meta aj)) (job_name aj)
          (fresh_job (m_Namespace (aj_Meta aj)) (job_name aj))
          (fun job => trigger (SetControllerReference KJob (aj_Meta aj) (agent_job grow r aj job)))) t1 w
    /\ match w with
       | Err e => t2 = [] /\ out = Err e
       | Ok job => out = Ok 0 /\ exists pods pod ec reason t3 t4 aj',
           t2 = [Obs (ListNS KPod (m_Namespace (aj_Meta aj)) {["job-name" := job_name aj]}) pods] ++ t3 ++ t4
           /\ reported pods pod reason ec
           /\ exec (record_status aj (job_phase (job_Conditions job)) pod (job_StartTime job)
                     (job_CompletionTime job) ec reason) t3 aj'
           /\ exec (if decide (job_phase (job_Conditions job) = "Succeeded"
                              \/ job_phase (job_Conditions job) = "Failed")
                    then clean_up aj' else mret tt) t4 tt
       end.
Proof using Type.
  intros H Haj. unfold Reconcile in H.
  apply exec_bind in H as (t0 & t1 & got & -> & H0%exec_trigger & H). subst t0.
  cbn in Haj. injection Haj as ->. cbv zeta in H.
  apply exec_bind in H as (t2 & t3 & w & -> & H2 & H). exists t2, t3, w.
  split; [done|]. split; [done|]. destruct w as [job|e]; [|by destruct H].
  apply exec_bind in H as (t4 & t5 & pods & -> & H4%exec_trigger & H). subst t4.
  destruct (match pods with Ok l => report l | Err _ => _ end) as [[pod ec] reason] eqn:Hrep.
  apply exec_bind in H as (t6 & t7 & aj' & -> & H6 & H).
  apply exec_bind in H as (t8 & t9 & [] & -> & H8 & [-> ->]). split; [done|].
  exists pods, pod, ec, reason, t6, t8, aj'. rewrite app_nil_r. split; [done|].
  split; [by apply report_reported|]. done.
Qed.

Lemma clean_up_exec (P : Prop) `{Decision P} aj tr :
  exec (if decide P then clean_up aj else mret tt) tr tt ->
  omap (written KJob) tr = [] /\ omap (status_patched KAgentJob) tr = []
  /\ (omap (deleted KSecret) tr, omap (deleted KNetworkGrant) tr) = leftovers aj (bool_decide P).
Proof using Type.
  unfold clean_up. destruct (decide P) as [HP|HP]; intros Hx.
  - rewrite bool_decide_true by done. by walk Hx.
  - rewrite bool_decide_false by done. by walk Hx.
Qed.
End reconcile.

(** C25: agents run confined.  In every reconcile that nobody interferes with, for
    the agent job [aj] it fetched, each Kubernetes job it writes is tried once,
    labels its pods with [aj]'s name and policy profile, runs them in the
    runtime class asked for or the default one without a service account token,
    mounts empty volumes only, and has only containers that run as user 1000
    with no capabilities, a read-only root and the default seccomp profile, and
    whose effective proxy variables are the configured ones, whatever
    environment [aj] brings. *)
Theorem agent_job_confined grow r ns name aj tr out :
  exec (Reconcile grow r ns name) tr out -> head (omap (got KAgentJob) tr) = Some (Ok aj) ->
  kept job_kept tr -> forall j, j ∈ omap (written KJob) tr -> runs_agent r aj j.
Proof.
  intros H Haj Hk j Hj. destruct (Reconcile_steps grow r _ _ _ _ _ H Haj) as (t1 & t2 & w & -> & H1 & H2).
  apply list.Forall_app in Hk as [_ Hk]. apply list.Forall_app in Hk as [Hk1 _].
  apply write_job_exec in H1 as (_ & _ & Hw & _). rewrite !omap_app, !elem_of_app in Hj.
  destruct Hj as [Hj|[Hj|Hj]]; [by apply not_elem_of_nil in Hj | by apply Hw|]. exfalso. revert Hj.
  destruct w as [job|e]; [|destruct H2 as [-> _]; apply not_elem_of_nil].
  destruct H2 as (_ & pods & pod & ec & reason & t3 & t4 & aj' & -> & _ & H3 & H4).
  apply record_status_exec in H3 as (_ & Hw3 & _). apply clean_up_exec in H4 as (Hw4 & _).
  rewrite !omap_app, Hw3, Hw4. apply not_elem_of_nil.
Qed.

(** C27: the end of an agent job.  In every reconcile that nobody interferes with
    and that wrote the job, for the answer [job] of that write: the phase is the
    one [job]'s conditions tell; unless the status of the agent job shows it
    already, with the times of [job] and the name and the exit of a pod that got
    furthest and is the newest of those, one patch records exactly this, and
    otherwise none is made; and when the phase is final, and only then, it
    deletes the job's two secrets and its automatic grant, and nothing else of
    these kinds; a reconcile that could not write the job records and deletes
    nothing. *)
Theorem agent_job_completion grow r ns name aj tr out :
  exec (Reconcile grow r ns name) tr out -> head (omap (got KAgentJob) tr) = Some (Ok aj) ->
  kept job_kept tr ->
  match out with
  | Ok _ => exists j job pods phase pod ec reason,
      Obs (Write KJob j) (Ok job) ∈ tr /\ pods ∈ omap (listed KPod) tr
      /\ phase_told (job_Conditions job) phase /\ reported pods pod reason ec
      /\ omap (status_patched KAgentJob) tr =
           (let s := observed_status aj phase pod (job_StartTime job) (job_CompletionTime job) ec reason in
            if decide (shows (aj_Status aj) s) then [] else [aj_with_status aj s])
      /\ (omap (deleted KSecret) tr, omap (deleted KNetworkGrant) tr)
         = leftovers aj (bool_decide (phase <> "Running"))
  | Err _ => no_leftovers tr /\ omap (status_patched KAgentJob) tr = []
  end.
Proof.
  intros H Haj Hk. destruct (Reconcile_steps grow r _ _ _ _ _ H Haj) as (t1 & t2 & w & -> & H1 & H2).
  apply write_job_exec in H1 as ((Hs1 & Hg1) & Hp1 & _ & Hw).
  destruct w as [job|e]; cycle 1.
  { destruct H2 as [-> ->]. unfold no_leftovers. rewrite !omap_app, Hs1, Hg1, Hp1. done. }
  destruct H2 as (-> & pods & pod & ec & reason & t3 & t4 & aj' & -> & Hrep & H3 & H4).
  rewrite !list.Forall_app in Hk. destruct Hk as (_ & _ & _ & Hk3 & _).
  apply record_status_exec in H3 as ([Hs3 Hg3] & _ & Hid & Hst). destruct (Hid Hk3) as [Hn Hns].
  apply clean_up_exec in H4 as (_ & Hp4 & Hdel). destruct (Hw job eq_refl) as [j Hj].
  pose proof (job_phase_told (job_Conditions job)) as Htold.
  exists j, job, pods, (job_phase (job_Conditions job)), pod, ec, reason.
  rewrite !omap_app, Hs1, Hg1, Hs3, Hg3, Hp1, Hp4, Hst, app_nil_r.
  split; [rewrite !elem_of_app; by right; left|].
  split; [rewrite !elem_of_app; right; right; left; by left|]. do 3 (split; [done|]).
  rewrite (bool_decide_ext _ _ (phase_told_final _ _ Htold)) in Hdel.
  revert Hdel. unfold leftovers. rewrite Hn, Hns. done.
Qed.

(** * A run *)

Definition job_world (job : Job) : forall X, eff X -> unit -> X * unit := fun X e u =>
  match e in eff T return T * unit -> T * unit with
  | Write k _ =>
      match k as k return result kerr (obj k) * unit -> result kerr (obj k) * unit with
      | KJob => fun _ => (Ok job, tt) | _ => fun r => r
      end
  | _ => fun r => r
  end (echo_world 0 (fun k _ _ => match k as k return result kerr (obj k) with
         | KAgentJob => Ok github_job | _ => Err NotFound end) (fun _ => [])
         (fun _ => Err (Errorf "" [])) X e u).
Definition done_job : Job := {|
  job_Meta := new_meta "agents" "agentjob-fix-1"; job_BackoffLimit := Some 0;
  job_TTLSecondsAfterFinished := None; job_TemplateLabels := ∅;
  job_Pod := job_Pod (fresh_job "" ""); job_Conditions := [("Failed", "True")];
  job_StartTime := None; job_CompletionTime := None |}.
Definition job_run := run (job_world done_job) (Reconcile doubling proxied "agents" "fix-1") tt.

Lemma job_run_kept : kept job_kept job_run.1.2.
Proof.
  apply run_forall. intros X e w. destruct e; try exact I; intros ? [= <-];
    match goal with k : kind |- _ => destruct k end; try done;
    match goal with o : obj KJob |- _ => by destruct o end.
Qed.

Lemma agent_job_confined_witness :
  length (omap (written KJob) job_run.1.2) = 1%nat
  /\ forall j, j ∈ omap (written KJob) job_run.1.2 -> runs_agent proxied github_job j.
Proof.
  split; [by vm_compute|].
  refine (agent_job_confined doubling proxied "agents" "fix-1" github_job job_run.1.2 job_run.1.1 _ _ job_run_kept).
  - apply run_is_exec.
  - reflexivity.
Defined.

Lemma agent_job_completion_witness :
  job_run.1.1 = Ok 0
  /\ omap (deleted KSecret) job_run.1.2
     = [("agents", "agentjob-fix-1-github"); ("agents", "agentjob-fix-1-broker")]
  /\ exists job phase pod ec reason, phase_told (job_Conditions job) phase
     /\ omap (status_patched KAgentJob) job_run.1.2 =
           (let s := observed_status github_job phase pod (job_StartTime job) (job_CompletionTime job) ec reason in
            if decide (shows (aj_Status github_job) s) then [] else [aj_with_status github_job s]).
Proof.
  split; [by vm_compute|]. split; [by vm_compute|].
  pose proof (agent_job_completion doubling proxied "agents" "fix-1" github_job job_run.1.2 (Ok 0)) as H.
  destruct H as (j & job & pods & phase & pod & ec & reason & _ & _ & Hph & _ & Hst & _).
  - assert (He : job_run.1.1 = Ok 0) by (vm_compute; reflexivity). rewrite <- He. apply run_is_exec.
  - vm_compute. reflexivity.
  - apply job_run_kept.
  - exists job, phase, pod, ec, reason. split; [exact Hph | exact Hst].
Defined.
