(* ===== verification/Services.v ===== *)
(** The start of the services: the capability broker
    (src/cmd/capability-broker/main.go) and the egress proxy
    (src/cmd/egress-proxy/main.go), from their environments to the servers whose
    handlers the other files model; and the background loops of both. *)
From S2P Require Export CheckRuns EgressProxy.
From stdpp Require Import options.
Open Scope Z_scope.

(** * Calls *)

Inductive booteff : Type -> Type :=
(* auditpkg.NewFromEnv *)
| NewAudit (component : string) : booteff (result error unit)
(* the clients of the Kubernetes API *)
| NewClient (what : string) : booteff (result error unit)
| BootLog (fmt : string) (args : list value) : booteff unit
| BootFatal (fmt : string) (args : list value) : booteff unit
(* ListenAndServe, with the state of the server; [reporter] runs beside it *)
| ServeBroker (listenAddr : string) (s : server) (store : option S3Store) (maps : pheap)
    (reporter : option githubService) : booteff error
| ServeProxy (listenAddr : string) (s : pserver) (refresh dialTimeout dnsTimeout : Z) : booteff error.

Notation bootprog := (prog booteff).

(** [log.Fatalf] *)
Definition boot_fatal (fmt : string) (args : list value) : bootprog Z :=
  _ ← trigger (BootFatal fmt args); mret 1.
Definition or_boot_fatal {A} (r : result error A) (fmt : string) (k : A -> bootprog Z) : bootprog Z :=
  match r with
  | Ok a => k a
  | Err e => boot_fatal fmt [err_value e]
  end.

(** * The broker *)

Section broker.
Context (env : string -> string).
Context (ReadFile : string -> result error string) (parse_key : string -> result error unit).
Context (decode_overrides : string -> result error (list (string * networkGrantProfileOverride))).
Context (url_Parse : string -> result error unit) (LoadDefaultConfig : S3Config -> result error unit).

(** A bad configuration of the artifact store only disables it. *)
Definition artifact_store : bootprog (option S3Store) :=
  if decide (TrimSpace (env "ARTIFACT_S3_ENDPOINT") <> "" \/ TrimSpace (env "ARTIFACT_S3_BUCKET") <> "") then
    match NewS3FromEnv url_Parse LoadDefaultConfig env with
    | Err e => _ ← trigger (BootLog "artifact store disabled: %v" [err_value e]); mret None
    | Ok st => _ ← trigger (BootLog "artifact store enabled" []); mret (Some st)
    end
  else mret None.

(** So does one of the GitHub integration. *)
Definition github_service : bootprog (option githubService) :=
  match newGitHubServiceFromEnv env ReadFile parse_key with
  | Err e => _ ← trigger (BootLog "github integration disabled: %v" [err_value e]); mret None
  | Ok g => mret (Some g)
  end.

(** The exit code. *)
Definition broker_main : bootprog Z :=
  let jobJWTSecret := TrimSpace (env "BROKER_JOB_JWT_SECRET") in
  if decide (jobJWTSecret = "")
  then boot_fatal "BROKER_JOB_JWT_SECRET is required (per-job auth for agent endpoints)" [] else
  a ← trigger (NewAudit "capability-broker"); or_boot_fatal a "audit: %v" (fun _ =>
  c ← trigger (NewClient "k8s client"); or_boot_fatal c "k8s client: %v" (fun _ =>
  c ← trigger (NewClient "k8s clientset"); or_boot_fatal c "k8s clientset: %v" (fun _ =>
  artifactStore ← artifact_store;
  ghSvc ← github_service;
  or_boot_fatal (newNetworkGrantPolicyFromEnv decode_overrides env empty_heap) "network policy: %v"
    (fun '(netPolicy, maps) =>
  let s := {| s_audit := true; s_jobJWTSecret := jobJWTSecret;
              s_adminToken := env "BROKER_ADMIN_TOKEN"; s_webhookToken := env "BROKER_WEBHOOK_TOKEN";
              s_gh := ghSvc; s_netPolicy := netPolicy; s_artifacts := bool_decide (is_Some artifactStore);
              s_kube := true; s_redact := Some (RedactString NewDefault); s_env := env |} in
  let listenAddr := getenv env "LISTEN_ADDR" ":8080" in
  _ ← trigger (BootLog "capability-broker listening on %s" [VStr listenAddr]);
  e ← trigger (ServeBroker listenAddr s artifactStore maps (startCheckRunReporter s));
  boot_fatal "%v" [err_value e])))).
End broker.

(** ** What a broker that serves has *)

Definition served (o : obs booteff) : option server :=
  match o with Obs e _ => match e with ServeBroker _ s _ _ _ => Some s | _ => None end end.

Lemma new_policy_sane decode env h pol h' :
  newNetworkGrantPolicyFromEnv decode env h = Ok (pol, h') ->
  (pol_publicEgressMode pol = "deny" \/ pol_publicEgressMode pol = "allow")
  /\ pol_internalSuffixAllowlist pol <> [] /\ 0 <= pol_maxGrantsPerJob pol
  /\ pol_nonAdminAllowNon443 pol = false.
Proof.
  unfold newNetworkGrantPolicyFromEnv. intros H.
  apply bind_ok_inv in H as (u & Hm%guard_err_ok & H). apply bind_ok_inv in H as (n & Hn & H).
  apply bind_ok_inv in H as (ov & _ & H). injection H as <- <-. cbn [pol_publicEgressMode pol_internalSuffixAllowlist
    pol_maxGrantsPerJob pol_nonAdminAllowNon443].
  apply bool_decide_eq_false in Hm. split.
  { match goal with |- ?x = "deny" \/ _ => destruct (decide (x = "deny")), (decide (x = "allow")); tauto end. }
  split; [match goal with |- context [decide (?x = [])] => by destruct (decide (x = [])) end|]. split; [|done].
  case_decide; [by injection Hn as <-|]. destruct (Atoi _) as [m|]; [|done].
  destruct (Z.ltb_spec m 0); [done|]. by injection Hn as <-.
Qed.

Lemma env_limit_range env name def dflt bad e n (P : Z -> Prop) :
  env_limit env name def dflt bad e = Ok n -> P dflt -> (forall m, bad m = false -> P m) -> P n.
Proof.
  unfold env_limit. intros H Hd HP. cbv zeta in H. case_decide; [by injection H as <-|].
  destruct (Atoi _) as [m|]; [|done]. destruct (bad m) eqn:Hb; [done|]. injection H as <-. by apply HP.
Qed.

Lemma new_github_sane env ReadFile parse_key g : newGitHubServiceFromEnv env ReadFile parse_key = Ok g ->
  gh_repoAllowlist g <> ∅ /\ gh_allowedBases g <> ∅ /\ 0 < gh_maxFilesChanged g /\ 0 <= gh_maxPatchBytes g.
Proof.
  unfold newGitHubServiceFromEnv. intros H.
  apply bind_ok_inv in H as ([app|] & _ & H); [|done].
  apply bind_ok_inv in H as ([inst|] & _ & H); [|done].
  apply bind_ok_inv in H as (key & _ & H). apply bind_ok_inv in H as (u & _ & H).
  apply bind_ok_inv in H as (u1 & Hr%guard_err_ok%bool_decide_eq_false & H).
  apply bind_ok_inv in H as (u2 & Hb%guard_err_ok%bool_decide_eq_false & H).
  apply bind_ok_inv in H as (files & Hf & H). apply bind_ok_inv in H as (bytes & Hp & H).
  injection H as <-. cbn. split; [done|]. split; [done|].
  apply (env_limit_range _ _ _ _ _ _ _ (fun n => 0 < n)) in Hf; [|done | intros n; by rewrite Z.leb_gt].
  apply (env_limit_range _ _ _ _ _ _ _ (fun n => 0 <= n)) in Hp; [done | done | intros n; by rewrite Z.ltb_ge].
Qed.

Lemma boot_fatal_exec fmt args tr code : exec (boot_fatal fmt args) tr code -> omap served tr = [].
Proof. intros (t1 & t2 & x & -> & H1%exec_trigger & [-> _])%exec_bind. by subst t1. Qed.

Lemma or_boot_fatal_exec {A} (r : result error A) fmt k tr code : exec (or_boot_fatal r fmt k) tr code ->
  (exists a, r = Ok a /\ exec (k a) tr code) \/ omap served tr = [].
Proof.
  destruct r as [a|e]; cbn [or_boot_fatal]; [left; by exists a | right; by eapply boot_fatal_exec].
Qed.

Lemma artifact_store_exec env url_Parse load tr r :
  exec (artifact_store env url_Parse load) tr r -> omap served tr = [].
Proof.
  unfold artifact_store. intros H. case_decide; [|by destruct H as [-> _]].
  destruct (NewS3FromEnv _ _ _); apply exec_bind in H as (t1 & t2 & x & -> & H1%exec_trigger & [-> _]); by subst t1.
Qed.

Lemma github_service_exec env ReadFile parse_key tr r :
  exec (github_service env ReadFile parse_key) tr r ->
  omap served tr = [] /\ forall g, r = Some g -> newGitHubServiceFromEnv env ReadFile parse_key = Ok g.
Proof.
  unfold github_service. intros H. destruct (newGitHubServiceFromEnv _ _ _) as [g|e].
  - destruct H as [-> ->]. split; [done|]. by intros ? [= ->].
  - apply exec_bind in H as (t1 & t2 & x & -> & H1%exec_trigger & [-> ->]). by subst t1.
Qed.

(** One call before the server, then what follows it. *)
Ltac boot_call H Hs :=
  let t1 := fresh "t" in let t2 := fresh "t" in let x := fresh "x" in let H1 := fresh "H" in
  apply exec_bind in H as (t1 & t2 & x & -> & H1%exec_trigger & H); subst t1;
  rewrite omap_app in Hs; cbn in Hs;
  try (apply or_boot_fatal_exec in H as [(?u & _ & H)|Hn]; [|by rewrite Hn in Hs; apply not_elem_of_nil in Hs]).

(** A broker that serves requests checks job tokens with a secret that is not
    blank; its network policy denies or allows public destinations, and nothing
    in between; and its GitHub integration, if any, is confined to a non-empty
    list of repositories and of base branches. *)
Lemma broker_serves_configured env ReadFile parse_key decode url_Parse load tr code s :
  exec (broker_main env ReadFile parse_key decode url_Parse load) tr code -> s ∈ omap served tr ->
  s_jobJWTSecret s = TrimSpace (env "BROKER_JOB_JWT_SECRET") /\ s_jobJWTSecret s <> ""
  /\ (pol_publicEgressMode (s_netPolicy s) = "deny" \/ pol_publicEgressMode (s_netPolicy s) = "allow")
  /\ (forall g, s_gh s = Some g -> gh_repoAllowlist g <> ∅ /\ gh_allowedBases g <> ∅)
  /\ s_audit s = true.
Proof.
  unfold broker_main. cbv zeta. case_decide as Hsec; intros H Hs.
  { apply boot_fatal_exec in H. rewrite H in Hs. by apply not_elem_of_nil in Hs. }
  do 3 boot_call H Hs.
  apply exec_bind in H as (t5 & t6 & store & -> & Ha%artifact_store_exec & H).
  apply exec_bind in H as (t7 & t8 & gh & -> & [Hg Hgh]%github_service_exec & H).
  rewrite !omap_app, Ha, Hg in Hs. cbn in Hs.
  apply or_boot_fatal_exec in H as [([pol maps] & Hpol & H)|Hn]; [|by rewrite Hn in Hs; apply not_elem_of_nil in Hs].
  do 2 boot_call H Hs.
  apply boot_fatal_exec in H. rewrite H in Hs. apply list_elem_of_singleton in Hs as ->. cbn.
  apply new_policy_sane in Hpol as (Hmode & _). split_and!; try done.
  intros g Hsome%Hgh%new_github_sane. tauto.
Qed.

(** * The egress proxy *)

Definition proxy_intFromEnv (env : string -> string) (k : string) (def : Z) : Z :=
  let raw := TrimSpace (env k) in
  if decide (raw = "") then def else
  match Atoi raw with
  | None => def
  | Some n => n
  end.

(** A setting in seconds, [def] unless it is positive. *)
Definition positive_seconds (env : string -> string) (k : string) (def : Z) : Z :=
  let n := proxy_intFromEnv env k def in
  if n <=? 0 then def else n.

(** The exit code. *)
Definition proxy_main (env : string -> string) : bootprog Z :=
  let listenAddr := getenv env "LISTEN_ADDR" ":8080" in
  let refreshSeconds := positive_seconds env "REFRESH_SECONDS" 5 in
  let dialTimeoutSeconds := positive_seconds env "DIAL_TIMEOUT_SECONDS" 10 in
  let dnsTimeoutSeconds := positive_seconds env "DNS_TIMEOUT_SECONDS" 2 in
  let allowPrivateIPs := EqualFold (TrimSpace (getenv env "ALLOW_PRIVATE_IPS" "false")) "true" in
  a ← trigger (NewAudit "egress-proxy"); or_boot_fatal a "audit: %v" (fun _ =>
  c ← trigger (NewClient "k8s client"); or_boot_fatal c "k8s client: %v" (fun _ =>
  _ ← trigger (BootLog "egress-proxy listening on %s" [VStr listenAddr]);
  e ← trigger (ServeProxy listenAddr {| psv_allowPrivateIPs := allowPrivateIPs |}
                 (seconds refreshSeconds) (seconds dialTimeoutSeconds) (seconds dnsTimeoutSeconds));
  boot_fatal "%v" [err_value e])).

(** The background loops until their context ends, after [n] ticks. *)
Fixpoint ticks (once : pprog unit) (n : nat) : pprog unit :=
  match n with
  | O => once
  | S n => _ ← once; ticks once n
  end.
Definition refreshPodsLoop (n : nat) : pprog unit := ticks refreshPodsOnce n.
Definition refreshGrantsLoop (n : nat) : pprog unit := ticks refreshGrantsOnce n.
