(* ===== verification/CliEnv.v ===== *)
(** The calls of the command-line programs (src/cmd/wsctl, src/cmd/ws-proxy), and
    the functions of [path/filepath] they use.

    A command is a program that returns its exit code; it is given the values of
    its flags (WsctlMain.v parses them). *)
From S2P Require Export Effects.
From stdpp Require Import options.
Open Scope Z_scope.

Inductive ceff : Type -> Type :=
| CBase {X} (e : eff X) : ceff X
| COut (s : string) : ceff unit                                   (* stdout *)
| CErr (s : string) : ceff unit                                   (* stderr *)
| COutError (e : error) : ceff unit                               (* an error on stderr *)
(* the rendered answer of the API server: json.MarshalIndent on stdout *)
| CShow (k : kind) (o : obj k) : ceff unit
(* the connection to the API server *)
| CConnect : ceff (result error unit)
(* a file with its permission bits; None when it does not exist *)
| CReadFile (path : string) : ceff (result error (option (list ascii * Z)))
| CWriteFile (path : string) (b : list ascii) (mode : Z) : ceff (result error unit)
| CMkdirAll (path : string) (mode : Z) : ceff (result error unit)
(* difflib: the difference of two texts, on stdout *)
| CShowDiff (path : string) (old new : list ascii) : ceff unit
(* a command with its arguments; its exit code, or the error of starting it *)
| CRun (args : list string) : ceff (result error Z).

Notation cprog := (prog ceff).
Notation cobs := (obs ceff).

Definition cbase {X} (e : eff X) : cprog X := trigger (CBase e).

(** [die(msg)] *)
Definition die (msg : string) : cprog Z := _ ← trigger (CErr msg); mret 1.
(** [dieIf(err)], and the rest of the command. *)
Definition or_die {A} (r : result error A) (k : A -> cprog Z) : cprog Z :=
  match r with
  | Ok a => k a
  | Err e => _ ← trigger (COutError e); mret 1
  end.
Definition kor_die {A} (r : result kerr A) (k : A -> cprog Z) : cprog Z :=
  match r with
  | Ok a => k a
  | Err e => _ ← trigger (COutError (kerr_error e)); mret 1
  end.
(** [usage(); os.Exit(2)] *)
Definition usage_exit : cprog Z := mret 2.

(** [newK8sClient()] before the command's own calls. *)
Definition with_client (k : cprog Z) : cprog Z :=
  r ← trigger CConnect; or_die r (fun _ => k).

(** * path/filepath *)

(** The elements of a path in the order of [filepath.Clean]: [rooted] paths lose
    leading [..]; [stack] is reversed. *)
Definition clean_step (rooted : bool) (stack : list string) (e : string) : list string :=
  if decide (e = "" \/ e = ".") then stack else
  if decide (e = "..") then
    match stack with
    | x :: stack' => if decide (x = "..") then ".." :: stack else stack'
    | [] => if rooted then [] else [".."]
    end
  else e :: stack.
Definition path_Clean (p : string) : string :=
  let rooted := HasPrefix p "/" in
  let elems := reverse (fold_left (clean_step rooted) (Split p (byte 47)) []) in
  if rooted then "/" +:+ Join elems "/"
  else match elems with [] => "." | _ => Join elems "/" end.

(** [filepath.Join(a, b)] *)
Definition path_Join (a b : string) : string :=
  match filter (fun x => x <> "") [a; b] with
  | [] => ""
  | parts => path_Clean (Join parts "/")
  end.

(** [filepath.Dir]: up to the last slash, cleaned. *)
Definition path_Dir (p : string) : string :=
  match last_index_byte (byte 47) (s2l p) with
  | Some i => path_Clean (str_take (S i) p)
  | None => "."
  end.

Example path_ex : (path_Clean "/a//b/../c/.", path_Clean "../a/..", path_Join "/home/u" ".ssh/config",
    path_Dir "/home/u/.ssh/config", path_Dir "config", path_Clean "/..", path_Join "" "")
  = ("/a/c", "..", "/home/u/.ssh/config", "/home/u/.ssh", ".", "/", "").
Proof. vm_compute. done. Qed.
