(* ===== verification/SshConfig.v ===== *)
(** [wsctl ssh-config] (src/cmd/wsctl/sshconfig.go): the section of the user's
    ssh configuration, and how it is put into the file.

    The file is a list of bytes.  Theorems: the section is replaced in place,
    twice is once, and the rest of the file is kept. *)
From stdpp Require Import sorting.
From S2P Require Export CliEnv.
From stdpp Require Import options.
Open Scope Z_scope.

Definition nl : string := l2s [byte 10].
Definition bt : string := l2s [byte 96].

Definition sshConfigSectionBegin : string := "# BEGIN workspaces-platform (managed by wsctl ssh-config)" +:+ nl.
Definition sshConfigSectionEnd : string := "# END workspaces-platform" +:+ nl.

Record sshConfigOptions := {
  so_FilePath : string; so_DryRun : bool; so_Mode : string; so_Connectivity : string;
  so_SkipGateway : bool; so_GatewayAlias : string; so_GatewayHost : string; so_GatewayUser : string;
  so_Namespace : string; so_HostPrefix : string; so_ClusterDomain : string; so_DesktopUser : string;
  so_WsctlBinary : string; so_ProxyCommand : string;
}.

(** * The text of the section *)

Definition normalizeClusterDomain (inp : string) : string := TrimSuffix (TrimPrefix (TrimSpace inp) ".") ".".

(** ' and '\'' *)
Definition shellWord (s : string) : string :=
  if decide (s = "") then "''" else
  if ContainsAny s (l2s [byte 32; byte 9; byte 13; byte 10]) then "'" +:+ ReplaceAll s "'" "'\''" +:+ "'" else s.

Definition gateway_lines (o : sshConfigOptions) : string :=
  if so_SkipGateway o then "" else
  "Host " +:+ so_GatewayAlias o +:+ nl +:+ "  HostName " +:+ so_GatewayHost o +:+ nl
  +:+ (if decide (TrimSpace (so_GatewayUser o) <> "") then "  User " +:+ TrimSpace (so_GatewayUser o) +:+ nl else "")
  +:+ nl.

(** [<svc>.<ns>], with the cluster's domain if it is set. *)
Definition ssh_host (cd : string) (d : Desktop) : string :=
  let host := "desktop-" +:+ m_Name (d_Meta d) +:+ "-ssh" +:+ "." +:+ m_Namespace (d_Meta d) in
  if decide (cd <> "") then host +:+ ".svc." +:+ cd else host.

Definition desktop_lines (o : sshConfigOptions) (d : Desktop) : string :=
  let user := TrimSpace (ds_User (d_Spec d)) in
  if decide (user = "") then "" else
  "Host " +:+ so_HostPrefix o +:+ m_Name (d_Meta d) +:+ nl
  +:+ "  HostName " +:+ ssh_host (normalizeClusterDomain (so_ClusterDomain o)) d +:+ nl
  +:+ "  User " +:+ user +:+ nl
  +:+ "  ProxyCommand " +:+ so_ProxyCommand o +:+ nl
  +:+ "  StrictHostKeyChecking accept-new" +:+ nl +:+ nl.

Definition host_lines (o : sshConfigOptions) (desktops : list Desktop) : result error string :=
  if decide (so_Mode o = "pattern") then
    Ok ("Host " +:+ so_HostPrefix o +:+ "*" +:+ nl
        +:+ "  User " +:+ TrimSpace (so_DesktopUser o) +:+ nl
        +:+ "  ProxyCommand " +:+ so_ProxyCommand o +:+ nl
        +:+ "  StrictHostKeyChecking accept-new" +:+ nl +:+ nl)
  else if decide (so_Mode o = "list") then
    Ok (fold_right (fun d acc => desktop_lines o d +:+ acc) "" desktops)
  else Err (Errorf "invalid mode %q" [VStr (so_Mode o)]).

Definition section_text (o : sshConfigOptions) (hosts : string) : string :=
  sshConfigSectionBegin
  +:+ "# This section is generated; re-run " +:+ bt +:+ "wsctl ssh-config" +:+ bt +:+ " to update." +:+ nl +:+ nl
  +:+ gateway_lines o +:+ hosts +:+ sshConfigSectionEnd.
Definition renderSSHConfigSection (o : sshConfigOptions) (desktops : list Desktop) : result error (list ascii) :=
  hosts ← host_lines o desktops;
  Ok (s2l (section_text o hosts)).

(** * The file *)

(** [strings.Index(s, sub)] *)
Fixpoint indexL (sub l : list ascii) : option nat :=
  if bool_decide (sub `prefix_of` l) then Some O
  else match l with [] => None | _ :: l' => S <$> indexL sub l' end.

Definition begin_mark : list ascii := s2l (TrimSuffix sshConfigSectionBegin nl).
Definition end_mark : list ascii := s2l (TrimSuffix sshConfigSectionEnd nl).

Record split_file := { sf_before : list ascii; sf_section : list ascii; sf_after : list ascii; sf_found : bool }.

Definition splitOnSSHConfigSection (s : list ascii) : result error split_file :=
  match indexL begin_mark s with
  | None => Ok {| sf_before := s; sf_section := []; sf_after := []; sf_found := false |}
  | Some beginIdx =>
      match indexL end_mark (drop beginIdx s) with
      | None => Err (Errorf "ssh config section begin marker found but end marker missing" [])
      | Some endIdx =>
          let endIdx := (beginIdx + endIdx + length end_mark)%nat in
          let endIdx := if bool_decide (s !! endIdx = Some (byte 10)) then S endIdx else endIdx in
          Ok {| sf_before := take beginIdx s; sf_section := drop beginIdx (take endIdx s);
                sf_after := drop endIdx s; sf_found := true |}
      end
  end.

(** A line break, if the text is there and has none. *)
Definition break_after (before : list ascii) : list ascii :=
  match list.last before with
  | None => []
  | Some c => if decide (c = byte 10) then [] else [byte 10]
  end.
Definition break_before (found : bool) (after : list ascii) : list ascii :=
  match after with
  | [] => []
  | c :: _ => if found && negb (bool_decide (c = byte 10)) then [byte 10] else []
  end.

Definition upsertSSHConfigSection (existing section : list ascii) : result error (list ascii * bool) :=
  sf ← splitOnSSHConfigSection existing;
  let out := sf_before sf ++ break_after (sf_before sf) ++ section
             ++ break_before (sf_found sf) (sf_after sf) ++ sf_after sf in
  Ok (out, negb (bool_decide (existing = out))).

(** * The command *)

Section command.
Context (env : string -> string) (Executable : option string) (UserHomeDir : result error string).

Definition expandHomePath (p : string) : string :=
  let p := TrimSpace p in
  if decide (p = "") then p else
  if bool_decide (p = "~") || HasPrefix p "~/" then
    match UserHomeDir with
    | Err _ => p
    | Ok home => if decide (p = "~") then home else path_Join home (str_drop 2 p)
    end
  else p.

(** The options of the flags, normalized; an error is the message of [die]. *)
Definition trimmed_options (f : sshConfigOptions) : sshConfigOptions := {|
  so_FilePath := TrimSpace (so_FilePath f); so_DryRun := so_DryRun f;
  so_Mode := ToLower (TrimSpace (so_Mode f)); so_Connectivity := ToLower (TrimSpace (so_Connectivity f));
  so_SkipGateway := so_SkipGateway f; so_GatewayAlias := TrimSpace (so_GatewayAlias f);
  so_GatewayHost := TrimSpace (so_GatewayHost f); so_GatewayUser := TrimSpace (so_GatewayUser f);
  so_Namespace := TrimSpace (so_Namespace f); so_HostPrefix := TrimSpace (so_HostPrefix f);
  so_ClusterDomain := TrimSpace (so_ClusterDomain f); so_DesktopUser := TrimSpace (so_DesktopUser f);
  so_WsctlBinary := TrimSpace (so_WsctlBinary f); so_ProxyCommand := TrimSpace (so_ProxyCommand f) |}.

Definition set_proxy (o : sshConfigOptions) (path wsctl cmd : string) : sshConfigOptions := {|
  so_FilePath := path; so_DryRun := so_DryRun o; so_Mode := so_Mode o; so_Connectivity := so_Connectivity o;
  so_SkipGateway := so_SkipGateway o; so_GatewayAlias := so_GatewayAlias o; so_GatewayHost := so_GatewayHost o;
  so_GatewayUser := so_GatewayUser o; so_Namespace := so_Namespace o; so_HostPrefix := so_HostPrefix o;
  so_ClusterDomain := so_ClusterDomain o; so_DesktopUser := so_DesktopUser o;
  so_WsctlBinary := wsctl; so_ProxyCommand := cmd |}.

Definition wsctl_binary (o : sshConfigOptions) : string :=
  if decide (so_WsctlBinary o <> "") then so_WsctlBinary o else
  match Executable with
  | Some exe => if decide (TrimSpace exe <> "") then exe else "wsctl"
  | None => "wsctl"
  end.

(** The ProxyCommand of pattern mode, and the binary it names. *)
Definition pattern_proxy (o : sshConfigOptions) : string * string :=
  if decide (so_Connectivity o = "relay") then
    (so_WsctlBinary o, "ssh " +:+ shellWord (so_GatewayAlias o) +:+ " -- ws-relay proxy --namespace "
     +:+ shellWord (so_Namespace o) +:+ " --host-prefix " +:+ shellWord (so_HostPrefix o) +:+ " %h %p")
  else
    (wsctl_binary o, shellWord (wsctl_binary o) +:+ " proxy --gateway " +:+ shellWord (so_GatewayAlias o)
     +:+ " --namespace " +:+ shellWord (so_Namespace o) +:+ " --host-prefix " +:+ shellWord (so_HostPrefix o) +:+ " %h %p").

Definition check_options (f : sshConfigOptions) : result string sshConfigOptions :=
  let o := trimmed_options f in
  _ ← guard_err (bool_decide (so_FilePath o = "")) "missing --file";
  let path := expandHomePath (so_FilePath o) in
  _ ← guard_err (negb (bool_decide (so_Mode o = "pattern" \/ so_Mode o = "list")))
        "invalid --mode (expected pattern|list)";
  _ ← guard_err (negb (bool_decide (so_Connectivity o = "" \/ so_Connectivity o = "portforward" \/ so_Connectivity o = "relay")))
        "invalid --connectivity (expected portforward|relay)";
  _ ← guard_err (bool_decide (so_GatewayAlias o = "") && negb (so_SkipGateway o)) "missing --gateway-alias";
  _ ← guard_err (bool_decide (so_Namespace o = "")) "missing --namespace";
  _ ← guard_err (negb (so_SkipGateway o) && bool_decide (so_GatewayHost o = ""))
        "missing --gateway-hostname (or set --skip-gateway)";
  if decide (so_ProxyCommand o <> "") then Ok (set_proxy o path (so_WsctlBinary o) (so_ProxyCommand o))
  else if decide (so_Mode o = "list") then
    Ok (set_proxy o path (so_WsctlBinary o) ("ssh " +:+ so_GatewayAlias o +:+ " -- ws-proxy %h %p"))
  else
    _ ← guard_err (bool_decide (so_HostPrefix o = "")) "pattern mode requires --host-prefix (e.g. desk-)";
    _ ← guard_err (bool_decide (so_DesktopUser o = "")) "pattern mode requires --desktop-user (or set USER)";
    Ok (set_proxy o path (pattern_proxy o).1 (pattern_proxy o).2).

Definition name_le (a b : Desktop) : Prop := str_le (m_Name (d_Meta a)) (m_Name (d_Meta b)).
#[local] Instance name_le_dec a b : Decision (name_le a b) := str_le_dec _ _.

(** [readSSHConfigFile]: no file is an empty one. *)
Definition readSSHConfigFile (path : string) : cprog (result error (list ascii * Z)) :=
  r ← trigger (CReadFile path);
  mret (match r with Ok (Some f) => Ok f | Ok None => Ok ([], 384) | Err e => Err e end).
Definition writeSSHConfigFile (path : string) (b : list ascii) (mode : Z) : cprog (result error unit) :=
  r ← trigger (CMkdirAll (path_Dir path) 448);
  match r with
  | Err e => mret (Err e)
  | Ok _ => trigger (CWriteFile path b (if mode =? 0 then 384 else mode))
  end.

(** The file is read, the section replaced, and the result shown or written. *)
Definition update_file (o : sshConfigOptions) (section : list ascii) : cprog Z :=
  old ← readSSHConfigFile (so_FilePath o);
  or_die old (fun '(oldBytes, oldMode) =>
  or_die (upsertSSHConfigSection oldBytes section) (fun '(newBytes, changed) =>
  if negb changed then _ ← trigger (COut ("no changes to " +:+ so_FilePath o +:+ nl)); mret 0 else
  if so_DryRun o then _ ← trigger (CShowDiff (so_FilePath o) oldBytes newBytes); mret 0 else
  _ ← (match oldBytes with
       | [] => mret tt
       | _ => _ ← trigger (CWriteFile (so_FilePath o +:+ ".workspaces-platform.bak") oldBytes oldMode); mret tt
       end);
  w ← writeSSHConfigFile (so_FilePath o) newBytes oldMode;
  or_die w (fun _ => _ ← trigger (COut ("updated " +:+ so_FilePath o +:+ nl)); mret 0))).

Definition cmdSSHConfig (flags : sshConfigOptions) : cprog Z :=
  match check_options flags with
  | Err msg => die msg
  | Ok o =>
      if decide (so_Mode o = "list") then
        with_client (
          r ← cbase (ListNS KDesktop (so_Namespace o) ∅);
          kor_die r (fun l => or_die (renderSSHConfigSection o (merge_sort name_le l)) (update_file o)))
      else or_die (renderSSHConfigSection o []) (update_file o)
  end.
End command.

Example upsert_ex :
  let sec := sshConfigSectionBegin +:+ "Host a" +:+ nl +:+ sshConfigSectionEnd in
  let old := sshConfigSectionBegin +:+ "Host old" +:+ nl +:+ sshConfigSectionEnd in
  upsertSSHConfigSection (s2l ("Host foo" +:+ nl +:+ old +:+ "Host bar")) (s2l sec)
    = Ok (s2l ("Host foo" +:+ nl +:+ sec +:+ nl +:+ "Host bar"), true)
  /\ upsertSSHConfigSection (s2l "Host foo") (s2l sec) = Ok (s2l ("Host foo" +:+ nl +:+ sec), true).
Proof. vm_compute. done. Qed.

(** * Where the marks are *)

Lemma indexL_cons m c l : indexL m (c :: l) = if bool_decide (m `prefix_of` c :: l) then Some O else S <$> indexL m l.
Proof. done. Qed.

Lemma indexL_length m : forall l n, indexL m l = Some n -> (n + length m <= length l)%nat.
Proof.
  induction l as [|c l IH]; intros n; cbn [indexL]; case_bool_decide as Hp.
  - intros [= <-]. apply prefix_length in Hp. done.
  - done.
  - intros [= <-]. by apply prefix_length in Hp.
  - intros (k & Hk & ->)%fmap_Some. apply IH in Hk. cbn. lia.
Qed.

(** What follows a text does not move the first mark in it. *)
Lemma indexL_app_l m : forall l r n, indexL m l = Some n -> indexL m (l ++ r) = Some n.
Proof.
  induction l as [|c l IH]; intros r n; cbn [indexL app]; case_bool_decide as Hp.
  - intros [= <-]. apply prefix_nil_inv in Hp as ->. destruct r; cbn [indexL]; by rewrite bool_decide_true by apply prefix_nil.
  - done.
  - intros [= <-]. rewrite bool_decide_true; [done|]. change (c :: l ++ r) with ((c :: l) ++ r). by apply prefix_app_r.
  - intros (k & Hk & ->)%fmap_Some. pose proof (indexL_length _ _ _ Hk) as Hlen. rewrite bool_decide_false.
    + by rewrite (IH r k Hk).
    + intros [z Hz]. apply Hp. exists (drop (length m) (c :: l)).
      apply (f_equal (take (length m))) in Hz. rewrite take_app_length in Hz.
      change (c :: l ++ r) with ((c :: l) ++ r) in Hz. rewrite take_app_le in Hz by (cbn; lia).
      transitivity (take (length m) (c :: l) ++ drop (length m) (c :: l)); [by rewrite take_drop | by rewrite Hz].
Qed.

(** A one-line mark at the beginning of a line is found there, when there is none before. *)
Lemma indexL_line m b r : byte 10 ∉ m -> m <> [] -> indexL m b = None ->
  (b = [] \/ list.last b = Some (byte 10)) -> indexL m (b ++ m ++ r) = Some (length b).
Proof.
  intros Hnl Hm. induction b as [|c b IH]; intros Hno Hb.
  { destruct m as [|x m]; [done|]. cbn [app indexL]. rewrite bool_decide_true; [done|]. by exists r. }
  cbn [app length]. rewrite indexL_cons in *. case_bool_decide as Hp; [done|].
  apply fmap_None in Hno. rewrite bool_decide_false.
  - rewrite IH; [done..|]. destruct Hb as [?|Hb]; [done|]. destruct b as [|d b]; [by left | right; done].
  - intros [z Hz]. destruct Hb as [?|Hb]; [done|].
    destruct (decide (length m <= length (c :: b))%nat) as [Hle|Hgt].
    + apply Hp. exists (drop (length m) (c :: b)). apply (f_equal (take (length m))) in Hz.
      change (c :: b ++ m ++ r) with ((c :: b) ++ m ++ r) in Hz.
      rewrite take_app_length, take_app_le in Hz by done.
      transitivity (take (length m) (c :: b) ++ drop (length m) (c :: b)); [by rewrite take_drop | by rewrite Hz].
    + apply Hnl. rewrite last_lookup in Hb. change (c :: b ++ m ++ r) with ((c :: b) ++ m ++ r) in Hz.
      apply (f_equal (fun l => l !! pred (length (c :: b)))) in Hz.
      rewrite (lookup_app_l (c :: b)) in Hz by (cbn; lia). rewrite Hb, lookup_app_l in Hz by (cbn in *; lia).
      symmetry in Hz. by eapply list_elem_of_lookup_2.
Qed.

Lemma indexL_prefix_none m b r : indexL m (b ++ m ++ r) = Some (length b) -> m <> [] -> indexL m b = None.
Proof.
  intros H Hm. destruct (indexL m b) as [n|] eqn:Hb; [|done]. exfalso.
  pose proof (indexL_length _ _ _ Hb). rewrite (indexL_app_l _ _ _ _ Hb) in H. injection H as ->.
  destruct m; [done|]. cbn in *. lia.
Qed.

(** The first mark cuts the text. *)
Lemma indexL_cut m : forall l n, indexL m l = Some n -> exists r, l = take n l ++ m ++ r /\ (m <> [] -> indexL m (take n l) = None).
Proof.
  induction l as [|c l IH]; intros n; cbn [indexL]; case_bool_decide as Hp.
  - intros [= <-]. destruct Hp as [r Hr]. exists r. split; [done|]. intros Hm. cbn. rewrite bool_decide_false; [done|].
    intros ->%prefix_nil_inv. done.
  - done.
  - intros [= <-]. destruct Hp as [r Hr]. exists r. split; [done|]. intros Hm. cbn. rewrite bool_decide_false; [done|].
    intros ->%prefix_nil_inv. done.
  - intros (k & Hk & ->)%fmap_Some. destruct (IH k Hk) as (r & Hr & Hno). exists r. cbn [take app].
    split; [by f_equal|]. intros Hm. rewrite indexL_cons, bool_decide_false, Hno; [done..|].
    intros [z Hz]. apply Hp. exists (z ++ drop k l). change (c :: l = m ++ z ++ drop k l).
    rewrite app_assoc, <- Hz. cbn. by rewrite take_drop.
Qed.

Definition section_ok (sec : list ascii) : Prop := exists body,
  sec = begin_mark ++ body ++ end_mark ++ [byte 10]
  /\ indexL end_mark sec = Some (length (begin_mark ++ body)).

Lemma begin_mark_line : (byte 10 ∉ begin_mark) /\ begin_mark <> [].
Proof. split; [by apply (bool_decide_unpack _) | done]. Qed.

(** The line break after the end mark. *)
Definition lead (q : list ascii) : list ascii :=
  if bool_decide (head q = Some (byte 10)) then [byte 10] else [].

Lemma split_at before A q :
  indexL begin_mark (before ++ A ++ end_mark ++ q) = Some (length before) ->
  indexL end_mark (A ++ end_mark ++ q) = Some (length A) ->
  splitOnSSHConfigSection (before ++ A ++ end_mark ++ q)
    = Ok {| sf_before := before; sf_section := A ++ end_mark ++ lead q; sf_after := drop (length (lead q)) q;
            sf_found := true |}.
Proof.
  intros Hb He. unfold splitOnSSHConfigSection. rewrite Hb, drop_app_length, He.
  assert (Hnl : (before ++ A ++ end_mark ++ q) !! (length before + length A + length end_mark)%nat = head q).
  { rewrite !app_assoc, lookup_app_r by (rewrite !length_app; lia). rewrite !length_app, Nat.sub_diag. by destruct q. }
  rewrite Hnl. set (e := if bool_decide _ then _ else _).
  assert (Heq : before ++ A ++ end_mark ++ q = (before ++ A ++ end_mark ++ lead q) ++ drop (length (lead q)) q
    /\ e = length (before ++ A ++ end_mark ++ lead q)).
  { unfold e, lead. case_bool_decide as Hq.
    - destruct q as [|c q]; [done|]. injection Hq as ->. split; [by rewrite <- !app_assoc|].
      rewrite !length_app. cbn [length]. lia.
    - rewrite app_nil_r. split; [by rewrite <- !app_assoc|]. rewrite !length_app. lia. }
  destruct Heq as [Heq ->]. rewrite Heq, take_app_length, drop_app_length. f_equal. f_equal.
  - by rewrite <- !app_assoc, take_app_length.
  - by rewrite drop_app_length.
Qed.

(** A file whose section is well formed is cut at the section. *)
Lemma split_section before sec after : section_ok sec -> indexL begin_mark before = None ->
  (before = [] \/ list.last before = Some (byte 10)) ->
  splitOnSSHConfigSection (before ++ sec ++ after)
    = Ok {| sf_before := before; sf_section := sec; sf_after := after; sf_found := true |}.
Proof.
  intros (body & -> & Hend) Hno Hline.
  assert (Heq : (begin_mark ++ body ++ end_mark ++ [byte 10]) ++ after = (begin_mark ++ body) ++ end_mark ++ byte 10 :: after)
    by by rewrite <- !app_assoc.
  rewrite Heq, split_at.
  - unfold lead. cbn [head]. rewrite bool_decide_true by done. by rewrite <- !app_assoc.
  - rewrite <- !app_assoc. apply indexL_line; [apply begin_mark_line.. | done | done].
  - rewrite <- Heq. by apply indexL_app_l.
Qed.

Lemma break_after_line b : (b ++ break_after b = []) \/ list.last (b ++ break_after b) = Some (byte 10).
Proof.
  unfold break_after. destruct (list.last b) as [c|] eqn:Hl.
  - right. case_decide as Hc; [subst c; by rewrite app_nil_r | by rewrite last_snoc].
  - left. apply last_None in Hl. by subst b.
Qed.

Lemma indexL_found m a r : indexL m (a ++ m ++ r) <> None.
Proof.
  induction a as [|c a IH]; cbn [app].
  - assert (Hp : m `prefix_of` m ++ r) by by exists r.
    destruct (m ++ r) as [|x l]; cbn [indexL]; by rewrite bool_decide_true.
  - rewrite indexL_cons. case_bool_decide; [done|]. by intros ?%fmap_None.
Qed.

Lemma indexL_break b : indexL begin_mark b = None -> indexL begin_mark (b ++ break_after b) = None.
Proof.
  intros Hb. destruct (indexL begin_mark (b ++ break_after b)) as [n|] eqn:Hn; [|done]. exfalso.
  unfold break_after in Hn. destruct (list.last b) as [c|] eqn:Hl; [|by rewrite app_nil_r, Hb in Hn].
  case_decide; [by rewrite app_nil_r, Hb in Hn|].
  apply indexL_cut in Hn as (r & Hr & _). destruct r as [|x r _] using rev_ind.
  - rewrite app_nil_r in Hr. apply (f_equal list.last) in Hr. rewrite last_snoc, last_app in Hr. vm_compute in Hr. done.
  - rewrite !app_assoc in Hr. apply app_inj_tail in Hr as [Hr _]. rewrite <- app_assoc in Hr.
    rewrite Hr in Hb. by apply indexL_found in Hb.
Qed.

(** The text [old], before [after], ends with the first end mark of the two and
    the line break that follows it, if any. *)
Definition ends_first (old after : list ascii) : Prop :=
  exists A, indexL end_mark (old ++ after) = Some (length A) /\ indexL end_mark A = None
    /\ (old = A ++ end_mark /\ head after <> Some (byte 10) \/ old = A ++ end_mark ++ [byte 10]).

(** What the cut of a file is. *)
Lemma split_spec existing :
  match splitOnSSHConfigSection existing with
  | Ok sf => existing = sf_before sf ++ sf_section sf ++ sf_after sf /\ indexL begin_mark (sf_before sf) = None
      /\ if sf_found sf then (begin_mark `prefix_of` sf_section sf ++ sf_after sf)
           /\ ends_first (sf_section sf) (sf_after sf)
         else sf_section sf = [] /\ sf_after sf = []
  | Err _ => exists n, indexL begin_mark existing = Some n /\ indexL end_mark (drop n existing) = None
  end.
Proof.
  destruct (indexL begin_mark existing) as [n|] eqn:Hb.
  2:{ unfold splitOnSSHConfigSection. rewrite Hb. cbn. by rewrite app_nil_r. }
  destruct (indexL end_mark (drop n existing)) as [k|] eqn:He.
  2:{ unfold splitOnSSHConfigSection. rewrite Hb, He. by exists n. }
  pose proof (indexL_length _ _ _ He) as Hlen. pose proof (indexL_length _ _ _ Hb) as Hlen'. rewrite length_drop in Hlen.
  pose proof Hb as (r & Hr & Hno)%indexL_cut. pose proof He as (q & Hq & HnoA)%indexL_cut.
  set (b := take n existing) in *. set (A := take k (drop n existing)) in *.
  assert (Hn : length b = n) by (unfold b; rewrite length_take; lia).
  assert (Hk : length A = k) by (unfold A; rewrite length_take, length_drop; lia).
  assert (Hex : existing = b ++ A ++ end_mark ++ q) by by rewrite <- Hq; unfold b; rewrite take_drop.
  assert (Hdrop : drop n existing = begin_mark ++ r) by (rewrite Hr, <- Hn; apply drop_app_length).
  rewrite Hex. rewrite split_at; [|by rewrite <- Hex, Hn | by rewrite <- Hq, Hk]. cbn [sf_before sf_section sf_after sf_found].
  assert (Hlead : end_mark ++ q = (end_mark ++ lead q) ++ drop (length (lead q)) q).
  { unfold lead. case_bool_decide as Hh; [|by rewrite app_nil_r]. destruct q as [|c q]; [done|]. injection Hh as ->. by rewrite <- app_assoc. }
  split_and!.
  - rewrite Hlead at 1. by rewrite <- !app_assoc.
  - apply Hno, begin_mark_line.
  - rewrite <- app_assoc, <- Hlead, <- Hq, Hdrop. by exists r.
  - exists A. rewrite <- app_assoc, <- Hlead, <- Hq, He. split; [by rewrite Hk|]. split; [by apply HnoA|].
    unfold lead. case_bool_decide as Hh; [by right | left; by rewrite app_nil_r].
Qed.

(** * Replacing the section *)

Lemma upsert_eq existing sec sf : splitOnSSHConfigSection existing = Ok sf ->
  upsertSSHConfigSection existing sec =
    let out := (sf_before sf ++ break_after (sf_before sf)) ++ sec
               ++ break_before (sf_found sf) (sf_after sf) ++ sf_after sf in
    Ok (out, negb (bool_decide (existing = out))).
Proof. intros Hs. unfold upsertSSHConfigSection. rewrite Hs. cbn. by rewrite <- !app_assoc. Qed.

Lemma breaks_before_once found after : (found = false -> after = []) ->
  break_before true (break_before found after ++ after) = [].
Proof.
  intros Hf. unfold break_before at 2. destruct after as [|c after]; [done|].
  destruct found; [|by specialize (Hf eq_refl)]. cbn [andb]. case_bool_decide as Hc; cbn; [|by rewrite bool_decide_true].
  by rewrite Hc, bool_decide_true.
Qed.

Lemma breaks_after_once b : break_after (b ++ break_after b) = [].
Proof.
  destruct (break_after_line b) as [Hb|Hb]; unfold break_after at 1; rewrite Hb; [done|]. by rewrite decide_True.
Qed.

(** The file after an update is cut at the new section. *)
Lemma split_upserted existing sec out changed : section_ok sec -> upsertSSHConfigSection existing sec = Ok (out, changed) ->
  exists sf, splitOnSSHConfigSection existing = Ok sf
    /\ splitOnSSHConfigSection out = Ok {| sf_before := sf_before sf ++ break_after (sf_before sf); sf_section := sec;
         sf_after := break_before (sf_found sf) (sf_after sf) ++ sf_after sf; sf_found := true |}.
Proof.
  intros Hok Hu. pose proof (split_spec existing) as Hs. unfold upsertSSHConfigSection in Hu.
  destruct (splitOnSSHConfigSection existing) as [sf|e]; [|done]. cbn in Hu. injection Hu as <- _.
  exists sf. split; [done|]. destruct Hs as (_ & Hno & _). rewrite app_assoc.
  apply split_section; [done | by apply indexL_break | apply break_after_line].
Qed.

(** The new contents. *)
Definition new_file (existing sec : list ascii) : result error (list ascii) :=
  '(out, _) ← upsertSSHConfigSection existing sec; Ok out.

Lemma upsert_again existing sec sec2 out changed : section_ok sec -> upsertSSHConfigSection existing sec = Ok (out, changed) ->
  new_file out sec2 = new_file existing sec2.
Proof.
  intros Hok Hu. destruct (split_upserted _ _ _ _ Hok Hu) as (sf & Hsf & Hsf').
  pose proof (split_spec existing) as Hs. rewrite Hsf in Hs. destruct Hs as (_ & _ & Hf).
  unfold new_file. rewrite (upsert_eq _ _ _ Hsf), (upsert_eq _ _ _ Hsf'). cbn. f_equal.
  rewrite breaks_after_once, app_nil_r, breaks_before_once; [done|].
  destruct (sf_found sf); [done | by destruct Hf].
Qed.

Lemma upsert_idem existing sec out changed : section_ok sec -> upsertSSHConfigSection existing sec = Ok (out, changed) ->
  upsertSSHConfigSection out sec = Ok (out, false).
Proof.
  intros Hok Hu. pose proof (upsert_again _ _ sec _ _ Hok Hu) as Ha. unfold new_file in Ha. rewrite Hu in Ha. cbn in Ha.
  destruct (upsertSSHConfigSection out sec) as [[out2 ch]|] eqn:H2; [|done]. cbn in Ha. injection Ha as ->.
  unfold upsertSSHConfigSection in H2. destruct (splitOnSSHConfigSection out) as [sf|]; [|done]. cbn in H2.
  injection H2 as Ho <-. rewrite Ho, bool_decide_true by done. done.
Qed.

(** ** Rendered sections *)

Lemma indexL_skip c m l r : c ∉ l -> indexL (c :: m) (l ++ r) = Nat.add (length l) <$> indexL (c :: m) r.
Proof.
  induction l as [|x l IH]; intros Hc; cbn [app length].
  - by destruct (indexL (c :: m) r).
  - apply not_elem_of_cons in Hc as [Hx Hc]. rewrite indexL_cons, bool_decide_false, IH by (done || by intros [? [= ? _]]).
    by destruct (indexL (c :: m) r).
Qed.

Lemma indexL_next m c l k a b : m !! k = Some a -> (c :: l) !! k = Some b -> a <> b ->
  indexL m (c :: l) = S <$> indexL m l.
Proof.
  intros Ha Hb Hne. rewrite indexL_cons, bool_decide_false; [done|]. intros Hp.
  eapply prefix_lookup_Some in Hp; [|exact Ha]. congruence.
Qed.

(** No [#] among the values. *)
Definition hash_free (o : sshConfigOptions) (ds : list Desktop) : Prop :=
  (byte 35 ∉ s2l (gateway_lines o)) /\ forall h, host_lines o ds = Ok h -> byte 35 ∉ s2l h.

Lemma rendered_ok o ds sec : hash_free o ds -> renderSSHConfigSection o ds = Ok sec -> section_ok sec.
Proof.
  intros [Hg Hh] Hr. unfold renderSSHConfigSection in Hr. destruct (host_lines o ds) as [h|] eqn:Hhost; [|done].
  cbn [mbind result_bind] in Hr. assert (sec = s2l (section_text o h)) as -> by congruence. specialize (Hh h eq_refl).
  set (intro := nl +:+ "# This section is generated; re-run " +:+ bt +:+ "wsctl ssh-config" +:+ bt +:+ " to update." +:+ nl +:+ nl).
  assert (Heq : s2l (section_text o h)
    = begin_mark ++ (s2l intro ++ s2l (gateway_lines o) ++ s2l h) ++ end_mark ++ [byte 10]).
  { unfold intro, section_text, sshConfigSectionBegin. rewrite !s2l_app, <- !app_assoc. reflexivity. }
  rewrite Heq. eexists. split; [done|].
  change end_mark with (byte 35 :: tail end_mark) at 1.
  rewrite <- !app_assoc. set (tl := s2l (gateway_lines o) ++ s2l h ++ end_mark ++ [byte 10]).
  change (begin_mark ++ s2l intro ++ tl)
    with (byte 35 :: (tail begin_mark ++ [byte 10]) ++ byte 35 :: tail (tail (s2l intro)) ++ tl).
  rewrite (indexL_next _ _ _ 2 (Ascii.ascii_of_nat 69) (Ascii.ascii_of_nat 66)) by (done || reflexivity).
  rewrite indexL_skip by (by apply (bool_decide_unpack _)).
  rewrite (indexL_next _ _ _ 2 (Ascii.ascii_of_nat 69) (Ascii.ascii_of_nat 84)) by (done || reflexivity).
  rewrite indexL_skip by (by apply (bool_decide_unpack _)). unfold tl.
  rewrite !indexL_skip by done. change (byte 35 :: tail end_mark) with end_mark.
  replace (indexL end_mark (end_mark ++ [byte 10])) with (Some O) by by vm_compute.
  cbn [fmap option_fmap option_map]. f_equal. rewrite !length_app. cbn [length].
  change (length (s2l intro)) with (2 + length (tail (tail (s2l intro))))%nat.
  change (length begin_mark) with (1 + length (tail begin_mark))%nat. lia.
Qed.

Definition at_most_a_break (b : list ascii) : Prop := b = [] \/ b = [byte 10].

(** C36: The section in the user's ssh configuration, for values without #.  An
    update fails only on a file with a begin mark and no end mark after it.
    Otherwise it cuts the file at the first section, which ends with the first end
    mark after its begin mark (at the end of the file when there is none), puts the
    new section there, and keeps the rest but for a line break before and after; it
    says that nothing changed exactly when the file stays the same.  Doing it again
    changes nothing, and a later update makes the same file as if this one had not
    been done. *)
Theorem ssh_section_replaced o ds sec existing :
  renderSSHConfigSection o ds = Ok sec -> hash_free o ds ->
  match upsertSSHConfigSection existing sec with
  | Err _ => exists n, indexL begin_mark existing = Some n /\ indexL end_mark (drop n existing) = None
  | Ok (out, changed) =>
      (exists before old after b1 b2, existing = before ++ old ++ after
         /\ out = before ++ b1 ++ sec ++ b2 ++ after /\ at_most_a_break b1 /\ at_most_a_break b2
         /\ indexL begin_mark before = None
         /\ (old = [] /\ after = []
             \/ (begin_mark `prefix_of` old ++ after) /\ ends_first old after))
      /\ (changed = false <-> out = existing)
      /\ upsertSSHConfigSection out sec = Ok (out, false)
      /\ forall sec2, new_file out sec2 = new_file existing sec2
  end.
Proof.
  intros Hr Hh. pose proof (rendered_ok _ _ _ Hh Hr) as Hok. pose proof (split_spec existing) as Hs.
  destruct (splitOnSSHConfigSection existing) as [sf|e] eqn:Hsf.
  2:{ unfold upsertSSHConfigSection. by rewrite Hsf. }
  destruct (upsertSSHConfigSection existing sec) as [[out changed]|e] eqn:Hu; cycle 1.
  { by rewrite (upsert_eq _ _ _ Hsf) in Hu. }
  split_and!; [| |by eapply upsert_idem | intros sec2; by eapply upsert_again].
  - rewrite (upsert_eq _ _ _ Hsf) in Hu. cbv zeta in Hu. injection Hu as <- _. destruct Hs as (Heq & Hno & Hf).
    exists (sf_before sf), (sf_section sf), (sf_after sf), (break_after (sf_before sf)), (break_before (sf_found sf) (sf_after sf)).
    split_and!; [done | by rewrite <- !app_assoc | | | done | destruct (sf_found sf); [by right | by left]].
    + unfold break_after, at_most_a_break. destruct (list.last _); [case_decide|]; auto.
    + unfold break_before, at_most_a_break. destruct (sf_after sf); [|destruct (_ && _)]; auto.
  - rewrite (upsert_eq _ _ _ Hsf) in Hu. cbv zeta in Hu. injection Hu as Ho <-.
    rewrite Ho, negb_false_iff, bool_decide_eq_true. done.
Qed.

Definition demo_options : sshConfigOptions := {|
  so_FilePath := "/home/u/.ssh/config"; so_DryRun := false; so_Mode := "pattern"; so_Connectivity := "";
  so_SkipGateway := false; so_GatewayAlias := "ws-gateway"; so_GatewayHost := "gw.example.com"; so_GatewayUser := "";
  so_Namespace := "desktops"; so_HostPrefix := "desk-"; so_ClusterDomain := ""; so_DesktopUser := "u";
  so_WsctlBinary := "wsctl"; so_ProxyCommand := "wsctl proxy --gateway ws-gateway %h %p" |}.
Definition demo_section : list ascii :=
  match renderSSHConfigSection demo_options [] with Ok s => s | Err _ => [] end.

Lemma ssh_section_replaced_witness :
  upsertSSHConfigSection (s2l "Host foo" ++ [byte 10] ++ demo_section) demo_section
    = Ok (s2l "Host foo" ++ [byte 10] ++ demo_section, false).
Proof.
  pose proof (ssh_section_replaced demo_options [] demo_section (s2l "Host foo") eq_refl) as H.
  destruct H as (_ & _ & Hi & _); [|exact Hi].
  split; [by apply (bool_decide_unpack _) | intros h [= <-]; by apply (bool_decide_unpack _)].
Defined.

(** The user name of a Desktop, which its creator chooses, is a line of the file of
    everybody who runs [wsctl ssh-config --mode list]: with a line break in it, it
    can hold a ProxyCommand, which ssh takes instead of the one that follows. *)
Lemma user_injects_proxy_command d o :
  ds_User (d_Spec d) = "x" +:+ nl +:+ "  ProxyCommand evil" -> exists a b,
  desktop_lines o d = a +:+ nl +:+ "  ProxyCommand evil" +:+ nl +:+ "  ProxyCommand " +:+ so_ProxyCommand o +:+ b.
Proof.
  intros Hu. unfold desktop_lines. rewrite Hu.
  change (TrimSpace ("x" +:+ nl +:+ "  ProxyCommand evil")) with ("x" +:+ nl +:+ "  ProxyCommand evil").
  rewrite decide_False by done.
  exists ("Host " +:+ so_HostPrefix o +:+ m_Name (d_Meta d) +:+ nl +:+ "  HostName "
    +:+ ssh_host (normalizeClusterDomain (so_ClusterDomain o)) d +:+ nl +:+ "  User x"),
    (nl +:+ "  StrictHostKeyChecking accept-new" +:+ nl +:+ nl).
  apply s2l_inj. rewrite !s2l_app. by rewrite <- !app_assoc.
Qed.
