(* ===== verification/WsProxy.v ===== *)
(** Reaching a desktop over SSH: [wsctl proxy] on the user's machine
    (src/cmd/wsctl/proxy.go) and [ws-proxy] on the gateway
    (src/cmd/ws-proxy/main.go).

    Flags are given as values.  The API server, the port-forward library and the
    copied streams are the outside world's; contexts and deadlines only show as
    their errors. *)
From stdpp Require Import sorting.
From S2P Require Export SshConfig NetUtil.
From stdpp Require Import options.
Open Scope Z_scope.

(** * wsctl proxy *)

Definition is_service_name (s : string) : bool := HasPrefix s "desktop-" && HasSuffix s "-ssh".

(** The name of the desktop in the first part of a host. *)
Definition friendly_name (first hostPrefix : string) : string :=
  let name := if bool_decide (hostPrefix <> "") && HasPrefix first hostPrefix then TrimPrefix first hostPrefix else first in
  Trim name (byte 46).

Definition checked_host (what out : string) : result error string :=
  match ValidateExactHostname out with
  | Ok _ => Ok out
  | Err e => Err (Errorf (what +:+ " %q: %w") [VStr out; err_value e])
  end.
Definition with_domain (out cd : string) : string := if decide (cd <> "") then out +:+ ".svc." +:+ cd else out.

Definition resolveDesktopServiceHost (host defaultNamespace hostPrefix clusterDomain : string) : result error string :=
  let h := TrimSpace host in
  if decide (h = "") then Err (Errorf "empty host" []) else
  if ContainsAny h (l2s [byte 32; byte 9; byte 13; byte 10]) then Err (Errorf "host contains whitespace" []) else
  let defNS := TrimSpace defaultNamespace in
  let defNS := if decide (defNS = "") then "desktops" else defNS in
  let cd := normalizeClusterDomain clusterDomain in
  let parts := Split h (byte 46) in
  let first := default "" (parts !! 0%nat) in
  let ns := default "" (parts !! 1%nat) in
  if decide ((2 <= length parts)%nat /\ first <> "" /\ ns <> "") then
    if is_service_name first then checked_host "invalid service host" (with_domain (first +:+ "." +:+ ns) cd) else
    let name := friendly_name first hostPrefix in
    if decide (name = "") then Err (Errorf "empty desktop name" []) else
    checked_host "invalid computed service host" (with_domain ("desktop-" +:+ name +:+ "-ssh" +:+ "." +:+ ns) cd)
  else
    let name := friendly_name first hostPrefix in
    if decide (name = "") then Err (Errorf "empty desktop name" []) else
    let svc := if is_service_name name then name else "desktop-" +:+ name +:+ "-ssh" in
    checked_host "invalid computed service host" (with_domain (svc +:+ "." +:+ defNS) cd).

Record proxy_flags := { pf_gateway : string; pf_namespace : string; pf_hostPrefix : string; pf_clusterDomain : string }.

Definition bad_port (s : string) : bool :=
  match Atoi s with Some p => (p <=? 0) || (65535 <? p) | None => true end.

Definition cmdProxy (f : proxy_flags) (args : list string) : cprog Z :=
  match args with
  | host :: port :: _ =>
      let targetHost := TrimSpace host in
      let targetPort := TrimSpace port in
      if decide (targetHost = "" \/ targetPort = "")
      then _ ← trigger (CErr "proxy: host/port required"); mret 2 else
      if bad_port targetPort then _ ← trigger (CErr "proxy: invalid port"); mret 2 else
      match resolveDesktopServiceHost targetHost (TrimSpace (pf_namespace f)) (TrimSpace (pf_hostPrefix f))
              (TrimSpace (pf_clusterDomain f)) with
      | Err e => _ ← trigger (COutError e); mret 1
      | Ok serviceHost =>
          r ← trigger (CRun ["ssh"; "-T"; "-o"; "BatchMode=yes"; TrimSpace (pf_gateway f); "--"; "ws-proxy";
                             serviceHost; targetPort]);
          match r with
          | Ok code => mret code
          | Err e => _ ← trigger (COutError e); mret 1
          end
      end
  | _ => _ ← trigger (CErr "usage: wsctl proxy"); mret 2
  end.

(** * ws-proxy *)

(** A Service with its ports (port, IntVal and StrVal of the target), a Pod with
    its conditions and the named ports of its containers. *)
Record kservice := {
  ks_Labels : gmap string string; ks_Selector : gmap string string; ks_Ports : list (Z * Z * string);
}.
Record kpod := {
  kp_Name : string; kp_Deleting : bool; kp_Phase : string; kp_Conditions : list (string * string);
  kp_Ports : list (list (string * Z));
}.

Definition parseServiceHost (host : string) : result error (string * string) :=
  match Split host (byte 46) with
  | service :: namespace :: _ => Ok (service, namespace)
  | _ => Err (Errorf "expected <service>.<namespace>[...], got %q" [VStr host])
  end.

Definition isPodReady (p : kpod) : bool :=
  existsb (fun '(t, s) => bool_decide (t = "Ready" /\ s = "True")) (kp_Conditions p).

Definition pod_name_le (a b : kpod) : Prop := str_le (kp_Name a) (kp_Name b).
#[local] Instance pod_name_le_dec a b : Decision (pod_name_le a b) := str_le_dec _ _.

Definition pod_usable (p : kpod) : bool :=
  negb (kp_Deleting p) && bool_decide (kp_Phase p = "Running") && isPodReady p.
Definition pickReadyPod (pods : list kpod) : result error kpod :=
  match pods with
  | [] => Err (Errorf "no pods" [])
  | _ =>
      match head (filter (fun p => pod_usable p) (merge_sort pod_name_le pods)) with
      | Some p => Ok p
      | None => Err (Errorf "no running ready pod found" [])
      end
  end.

(** The first named port of the pod's containers that is not 0. *)
Definition named_port (name : string) (p : kpod) : option Z :=
  snd <$> head (filter (fun x => x.1 = name /\ x.2 <> 0) (concat (kp_Ports p))).

Definition resolveServiceTargetPort (svc : kservice) (servicePort : Z) (pod : kpod) : result error Z :=
  match head (filter (fun sp => sp.1.1 = servicePort) (ks_Ports svc)) with
  | None => Ok servicePort
  | Some (port, intVal, strVal) =>
      if decide (intVal = 0 /\ strVal = "") then Ok port else
      if decide (intVal <> 0) then Ok intVal else
      match named_port strVal pod with
      | Some p => Ok p
      | None => Err (Errorf "service targetPort %q not found on pod %s" [VStr strVal; VStr (kp_Name pod)])
      end
  end.

(** How the port-forward comes up. *)
Inductive forward_start := FReady | FExited (e : option error) | FDeadline.

Inductive peff : Type -> Type :=
| PErr (msg : string) : peff unit
| PLoadConfig : peff (result error unit)
| PNewClient : peff (result error unit)
| PGetService (ns name : string) : peff (result error kservice)
| PListPods (ns : string) (selector : gmap string string) : peff (result error (list kpod))
| PDynamic : peff bool                                          (* dynamic.NewForConfig made a client; it fails only when kubernetes.NewForConfig did *)
| PNow : peff Z
| PPatchDesktop (ns name : string) (ts : string) : peff (result error unit)
| PDialer : peff (result error unit)                            (* spdy and portforward.NewOnAddresses *)
| PForward (ns pod : string) (port : Z) : peff forward_start
| PGetPorts : peff (result error (list Z))                      (* the local ports *)
| PDial (port : Z) : peff (result error unit)
| PCopy (heartbeat : option Z) : peff nat                       (* ticks until one direction ends *)
| PStop : peff unit.
Notation pprog := (prog peff).
Notation pobs := (obs peff).

(** The desktop of a service: its label, or its name. *)
Definition service_desktop (serviceName : string) (svc : option kservice) : string :=
  let deskName := match svc with
                  | Some s => TrimSpace (default "" (ks_Labels s !! "workspaces.platform.dev/desktop"))
                  | None => ""
                  end in
  if decide (deskName <> "") then deskName else
  if HasPrefix serviceName "desktop-" && HasSuffix serviceName "-ssh" && (12 <? String.length serviceName)%nat
  then str_take (String.length serviceName - 4 - 8) (str_drop 8 serviceName) else "".

Definition touchDesktop (dyn : bool) (namespace serviceName : string) (svc : option kservice)
    : pprog (result error unit) :=
  if negb dyn then mret (Ok tt) else
  let deskName := service_desktop serviceName svc in
  if decide (deskName = "") then mret (Err (Errorf "unable to resolve desktop name from service %q" [VStr serviceName])) else
  now ← trigger PNow;
  trigger (PPatchDesktop namespace deskName (format_rfc3339nano now)).

(** [n] heartbeats; their errors are ignored. *)
Fixpoint heartbeats (beat : pprog (result error unit)) (n : nat) : pprog unit :=
  match n with
  | O => mret tt
  | S n' => _ ← beat; heartbeats beat n'
  end.

Definition proxyOnce (namespace podName : string) (remotePort heartbeatEvery : Z)
    (heartbeat : pprog (result error unit)) : pprog (result error unit) :=
  d ← trigger PDialer;
  match d with
  | Err e => mret (Err e)
  | Ok _ =>
      st ← trigger (PForward namespace podName remotePort);
      match st with
      | FExited None => mret (Err (Errorf "port-forward unexpectedly exited" []))
      | FExited (Some e) => mret (Err e)
      | FDeadline => _ ← trigger PStop; mret (Err (Errorf "context deadline exceeded" []))
      | FReady =>
          ports ← trigger PGetPorts;
          match ports with
          | Ok [local] =>
              if local =? 0 then _ ← trigger PStop; mret (Err (Errorf "unexpected forwarded ports: %+v" [])) else
              conn ← trigger (PDial local);
              match conn with
              | Err e => _ ← trigger PStop; mret (Err e)
              | Ok _ =>
                  ticks ← trigger (PCopy (if 0 <? heartbeatEvery then Some heartbeatEvery else None));
                  _ ← (if 0 <? heartbeatEvery then heartbeats heartbeat ticks else mret tt);
                  _ ← trigger PStop;
                  mret (Ok tt)
              end
          | Ok _ => _ ← trigger PStop; mret (Err (Errorf "unexpected forwarded ports: %+v" []))
          | Err e => _ ← trigger PStop; mret (Err e)
          end
      end
  end.

Record wsproxy_flags := { wf_namespace : string; wf_service : string; wf_targetPort : Z }.

(** A bad setting keeps five minutes. *)
Definition heartbeat_every (env : string -> string) : Z :=
  let raw := TrimSpace (env "WORKSPACES_HEARTBEAT_SECONDS") in
  match Atoi raw with
  | Some n => if decide (raw <> "" /\ 0 < n) then seconds n else 5 * minute
  | None => 5 * minute
  end.

(** Service and namespace: from the flags, or from the host. *)
Definition target_service (f : wsproxy_flags) (host : string) : result error (string * string) :=
  if decide (wf_service f = "" \/ wf_namespace f = "") then
    '(svc, ns) ← parseServiceHost host;
    Ok (if decide (wf_service f = "") then svc else wf_service f,
        if decide (wf_namespace f = "") then ns else wf_namespace f)
  else Ok (wf_service f, wf_namespace f).

Definition pfail (code : Z) (msg : string) : pprog Z := _ ← trigger (PErr msg); mret code.

(** The session with the pod that was picked. *)
Definition proxy_session (env : string -> string) (f : wsproxy_flags) (namespace serviceName : string) (port : Z)
    (svc : kservice) (pod : kpod) : pprog Z :=
  dyn ← trigger PDynamic;
  _ ← touchDesktop dyn namespace serviceName (Some svc);
  match (if wf_targetPort f =? 0 then resolveServiceTargetPort svc (wrap32 port) pod else Ok (wf_targetPort f)) with
  | Err _ => pfail 1 "resolve target port:"
  | Ok remotePort =>
      r ← proxyOnce namespace (kp_Name pod) remotePort (heartbeat_every env)
            (touchDesktop dyn namespace serviceName (Some svc));
      match r with Err _ => pfail 1 "proxy failed:" | Ok _ => mret 0 end
  end.

Definition wsproxy_main (env : string -> string) (f : wsproxy_flags) (args : list string) : pprog Z :=
  match args with
  | [host; portStr] =>
      match Atoi portStr with
      | None => pfail 2 "invalid port:"
      | Some port =>
          if (port <=? 0) || (65535 <? port) then pfail 2 "invalid port:" else
          match target_service f host with
          | Err _ => pfail 2 "unable to parse host"
          | Ok (serviceName, namespace) =>
              cfg ← trigger PLoadConfig;
              match cfg with
              | Err _ => pfail 1 "kubeconfig:"
              | Ok _ =>
                  c ← trigger PNewClient;
                  match c with
                  | Err _ => pfail 1 "k8s client:"
                  | Ok _ =>
                      svc ← trigger (PGetService namespace serviceName);
                      match svc with
                      | Err _ => pfail 1 "get service"
                      | Ok svc =>
                          if decide (ks_Selector svc = ∅) then pfail 1 "service has no selector; cannot find backing pod" else
                          pods ← trigger (PListPods namespace (ks_Selector svc));
                          match pods with
                          | Err _ => pfail 1 "list pods"
                          | Ok pods =>
                              match pickReadyPod pods with
                              | Err _ => pfail 1 "no ready pod"
                              | Ok pod => proxy_session env f namespace serviceName port svc pod
                              end
                          end
                      end
                  end
              end
          end
      end
  | _ => pfail 2 "usage: ws-proxy [flags] <host> <port>"
  end.
