(* ===== verification/Wsctl.v ===== *)
(** The commands of [wsctl] that talk to the API server and to the broker
    (src/cmd/wsctl/main.go, portshare.go).

    A command is given the values of its flags (WsctlMain.v); what it prints on success is
    [COut] or, for whole objects, [CShow]. *)
From stdpp Require Import sorting.
From S2P Require Export SshConfig.
From S2P Require Broker Desktop.
From stdpp Require Import options.
Open Scope Z_scope.

Definition pool_selector (pool : string) : gmap string string := {["workspaces.platform.dev/pool" := pool]}.
Definition pool_toleration (pool : string) : Toleration :=
  {| tol_Key := "workspaces.platform.dev/pool"; tol_Operator := "Equal"; tol_Value := pool; tol_Effect := "NoSchedule" |}.

(** [os.ReadFile] *)
Definition read_file (path : string) : cprog (result error (list ascii)) :=
  r ← trigger (CReadFile path);
  mret (match r with
        | Ok (Some (b, _)) => Ok b
        | Ok None => Err (Errorf "open %s: no such file or directory" [VStr path])
        | Err e => Err e
        end).

(** * The commands of one object *)

(** get, delete and list, with what is printed. *)
Definition show_object (k : kind) (namespace name : string) : cprog Z :=
  with_client (
    r ← cbase (Get k namespace name);
    kor_die r (fun o => _ ← trigger (CShow k o); mret 0)).
Definition delete_object (k : kind) (what namespace name : string) : cprog Z :=
  with_client (
    r ← cbase (DeleteObj k namespace name);
    kor_die r (fun _ => _ ← trigger (COut ("deleted " +:+ what +:+ " " +:+ namespace +:+ "/" +:+ name)); mret 0)).
Definition list_objects (k : kind) (namespace : string) (order : list (obj k) -> list (obj k))
    (line : obj k -> string) : cprog Z :=
  with_client (
    r ← cbase (ListNS k namespace ∅);
    kor_die r (fun l => foldP (fun _ o => _ ← trigger (COut (line o)); mret 0) (order l) 0)).
Definition create_object (k : kind) (o : obj k) (line : string) : cprog Z :=
  with_client (
    r ← cbase (Create k o);
    kor_die r (fun _ => _ ← trigger (COut line); mret 0)).
(** A command that needs a name. *)
Definition named (name : string) (c : cprog Z) : cprog Z := if decide (TrimSpace name = "") then usage_exit else c.

(** * wsctl desktop *)

Record desktop_flags := {
  df_name : string; df_namespace : string; df_user : string; df_image : string; df_sshKeyFile : string;
  df_homeSize : string; df_storageClass : string; df_connectivity : string; df_idleTimeout : Z; df_suspended : bool;
}.

Definition new_desktop (f : desktop_flags) (conn pubKey : string) : Desktop := {|
  d_Meta := new_meta (TrimSpace (df_namespace f)) (TrimSpace (df_name f));
  d_Spec := {|
    ds_User := TrimSpace (df_user f); ds_Image := TrimSpace (df_image f); ds_AuthorizedKeys := [pubKey];
    ds_ConnectivityMode := conn;
    ds_Home := {| dh_StorageClassName := if decide (TrimSpace (df_storageClass f) <> "")
                                         then Some (TrimSpace (df_storageClass f)) else None;
                  dh_Size := TrimSpace (df_homeSize f); dh_Seed := None; dh_Reset := None |};
    ds_Resources := VObj []; ds_NodeSelector := pool_selector "desktops";
    ds_Tolerations := [pool_toleration "desktops"]; ds_SecurityProfile := "";
    ds_Suspended := df_suspended f; ds_IdleTimeoutSeconds := wrap32 (df_idleTimeout f) |};
  d_Status := {| dt_Phase := ""; dt_Suspended := false; dt_ServiceName := ""; dt_LastActiveAt := None;
    dt_HomeClaimName := ""; dt_HomeRevision := 0; dt_LastResetAt := None; dt_Conditions := [] |} |}.

Definition desktop_create (f : desktop_flags) : cprog Z :=
  if decide (TrimSpace (df_name f) = "" \/ TrimSpace (df_user f) = "" \/ TrimSpace (df_sshKeyFile f) = "")
  then usage_exit else
  if df_idleTimeout f <? 0 then die "idle-timeout must be >= 0" else
  let conn := ToLower (TrimSpace (df_connectivity f)) in
  let conn := if decide (conn = "") then "portforward" else conn in
  if decide (conn <> "portforward" /\ conn <> "relay") then die "invalid --connectivity (expected portforward|relay)" else
  keyBytes ← read_file (df_sshKeyFile f);
  or_die keyBytes (fun keyBytes =>
  let pubKey := TrimSpace (l2s keyBytes) in
  if decide (pubKey = "") then die "empty ssh public key" else
  create_object KDesktop (new_desktop f conn pubKey)
    ("created Desktop " +:+ TrimSpace (df_namespace f) +:+ "/" +:+ TrimSpace (df_name f))).

Definition desktop_get (name namespace : string) : cprog Z := named name (show_object KDesktop namespace name).
Definition desktop_delete (name namespace : string) : cprog Z :=
  named name (delete_object KDesktop "Desktop" namespace name).
Definition desktop_line (d : Desktop) : string :=
  let mode := TrimSpace (ds_ConnectivityMode (d_Spec d)) in
  m_Namespace (d_Meta d) +:+ "/" +:+ m_Name (d_Meta d) +:+ " phase=" +:+ dt_Phase (d_Status d)
  +:+ " connectivity=" +:+ (if decide (mode = "") then "portforward" else mode)
  +:+ " service=" +:+ dt_ServiceName (d_Status d).
Definition desktop_list (namespace : string) : cprog Z := list_objects KDesktop namespace (fun l => l) desktop_line.

(** The desktop with its suspension set; a resumed one has just been active. *)
Definition set_suspended (wantSuspend : bool) (now : Z) (d : Desktop) : Desktop := {|
  d_Meta := if wantSuspend then d_Meta d else
    with_annotations (d_Meta d)
      (<["workspaces.platform.dev/last-active-at" := format_rfc3339nano now]> (m_Annotations (d_Meta d)));
  d_Spec := {|
    ds_User := ds_User (d_Spec d); ds_Image := ds_Image (d_Spec d); ds_AuthorizedKeys := ds_AuthorizedKeys (d_Spec d);
    ds_ConnectivityMode := ds_ConnectivityMode (d_Spec d); ds_Home := ds_Home (d_Spec d);
    ds_Resources := ds_Resources (d_Spec d); ds_NodeSelector := ds_NodeSelector (d_Spec d);
    ds_Tolerations := ds_Tolerations (d_Spec d); ds_SecurityProfile := ds_SecurityProfile (d_Spec d);
    ds_Suspended := wantSuspend; ds_IdleTimeoutSeconds := ds_IdleTimeoutSeconds (d_Spec d) |};
  d_Status := d_Status d |}.

Definition desktop_suspend (wantSuspend : bool) (name namespace : string) : cprog Z :=
  named name (with_client (
    r ← cbase (Get KDesktop namespace name);
    kor_die r (fun desk =>
    now ← (if wantSuspend then mret 0 else cbase Now);
    p ← cbase (Patch KDesktop (set_suspended wantSuspend now desk) desk);
    kor_die p (fun desk =>
    _ ← trigger (COut ("updated Desktop " +:+ m_Namespace (d_Meta desk) +:+ "/" +:+ m_Name (d_Meta desk)
           +:+ " suspended=" +:+ if wantSuspend then "true" else "false"));
    mret 0)))).

(** * The broker *)

Definition brokerAuthForWebhookOrAdmin (env : string -> string) : string * string :=
  let w := TrimSpace (env "BROKER_WEBHOOK_TOKEN") in
  if decide (w <> "") then ("X-Broker-Webhook-Token", w) else
  let a := TrimSpace (env "BROKER_ADMIN_TOKEN") in
  if decide (a <> "") then ("X-Broker-Admin-Token", a) else ("", "").

Definition broker_post (url tokenHeader token : string) (payload : value) : HttpRequest := {|
  hr_Method := "POST"; hr_URL := url;
  hr_Headers := ("Content-Type", "application/json")
    :: if decide (tokenHeader <> "" /\ token <> "") then [(tokenHeader, token)] else [];
  hr_Body := Some payload |}.

Definition brokerPostJSON (url tokenHeader token : string) (payload : value) : cprog (result error string) :=
  resp ← cbase (HttpDo (broker_post url tokenHeader token payload));
  mret (resp ← resp;
        let body := str_take (Z.to_nat (5 * 2 ^ 20)) (hp_Body resp) in
        if (hp_Status resp <? 200) || (300 <=? hp_Status resp)
        then Err (Errorf "http %s: status=%d body=%s" [VStr url; VInt (hp_Status resp); VStr (TrimSpace body)])
        else Ok body).

(** * wsctl agent *)

Record agent_flags := {
  af_name : string; af_namespace : string; af_image : string; af_script : string; af_workdir : string;
  af_shell : string; af_profile : string; af_ttl : Z;
}.

Definition new_agentjob (f : agent_flags) : AgentJob :=
  let scriptText := TrimSpace (af_script f) in {|
  aj_Meta := new_meta (TrimSpace (af_namespace f)) (TrimSpace (af_name f));
  aj_Spec := {|
    ajs_Image := TrimSpace (af_image f);
    ajs_Command := if decide (scriptText = "") then ["/bin/bash"; "-lc"] else [];
    ajs_Args := if decide (scriptText = "") then [TrimSpace (af_shell f)] else [];
    ajs_Script := scriptText; ajs_Workdir := TrimSpace (af_workdir f); ajs_GitHub := None; ajs_Env := [];
    ajs_Resources := VObj []; ajs_NodeSelector := pool_selector "agents";
    ajs_Tolerations := [pool_toleration "agents"]; ajs_RuntimeClassName := Some "kata";
    ajs_TTLSecondsAfterFinished := Some (wrap32 (af_ttl f)); ajs_PolicyProfile := TrimSpace (af_profile f) |};
  aj_Status := zero_ajstatus |}.

Definition agent_create (f : agent_flags) : cprog Z :=
  named (af_name f) (create_object KAgentJob (new_agentjob f)
    ("created AgentJob " +:+ TrimSpace (af_namespace f) +:+ "/" +:+ TrimSpace (af_name f))).
Definition agent_get (name namespace : string) : cprog Z := named name (show_object KAgentJob namespace name).
Definition agent_delete (name namespace : string) : cprog Z :=
  named name (delete_object KAgentJob "AgentJob" namespace name).
Definition agent_line (j : AgentJob) : string :=
  m_Namespace (aj_Meta j) +:+ "/" +:+ m_Name (aj_Meta j) +:+ " phase=" +:+ ajt_Phase (aj_Status j)
  +:+ " job=" +:+ ajt_JobName (aj_Status j).
Definition agent_list (namespace : string) : cprog Z := list_objects KAgentJob namespace (fun l => l) agent_line.

(** The request of [run-pr]. *)
Definition run_pr_payload (repo : string) (pr : Z) (profile : string) (ttl : Z) : value :=
  VObj ([("github", VObj [("repo", VStr (TrimSpace repo)); ("pullNumber", VInt pr)])]
    ++ (if decide (TrimSpace profile <> "") then [("policyProfile", VStr (TrimSpace profile))] else [])
    ++ if 0 <? ttl then [("ttlSecondsAfterFinished", VInt ttl)] else []).

Definition agent_run_pr (env : string -> string) (repo : string) (pr : Z) (profile : string) (ttl : Z) (broker : string)
    : cprog Z :=
  if decide (TrimSpace repo = "" \/ pr <= 0) then usage_exit else
  let '(tokenHeader, token) := brokerAuthForWebhookOrAdmin env in
  if decide (token = "") then die "missing BROKER_WEBHOOK_TOKEN (preferred) or BROKER_ADMIN_TOKEN" else
  if decide (TrimSpace broker = "") then die "missing WORKSPACES_BROKER_URL (or --broker)" else
  r ← brokerPostJSON (broker +:+ "/v1/agent-jobs") tokenHeader token (run_pr_payload repo pr profile ttl);
  or_die r (fun _ =>
  _ ← trigger (COut ("requested agent job for " +:+ TrimSpace repo +:+ "#" +:+ Itoa pr)); mret 0).

(** * wsctl netgrant *)

(** [host[:port]] *)
Definition parse_egress (it : string) : result error (option (string * Z)) :=
  let host := TrimSpace it in
  if decide (host = "") then Ok None else
  if negb (Contains host ":") then Ok (Some (host, 443)) else
  match Split host (byte 58) with
  | [h; p] =>
      match Atoi (TrimSpace p) with
      | Some n =>
          if (n <=? 0) || (65535 <? n) then Err (Errorf "invalid port in egress %q" [VStr it])
          else Ok (Some (TrimSpace h, wrap32 n))
      | None => Err (Errorf "invalid port in egress %q" [VStr it])
      end
  | _ => Err (Errorf "invalid egress %q" [VStr it])
  end.
Definition add_egress (_ : nat) (it : string) (rules : list (string * Z)) : result error (list (string * Z)) :=
  r ← parse_egress it;
  Ok (rules ++ match r with Some r => [r] | None => [] end).
Definition parseEgressRules (items : list string) : result error (list (string * Z)) :=
  rules ← forE add_egress items [];
  match rules with [] => Err (Errorf "no valid egress rules" []) | _ => Ok rules end.
Definition rule_value (r : string * Z) : value := VObj [("host", VStr r.1); ("ports", VList [VInt r.2])].

Definition add_label (_ : nat) (part : string) (out : gmap string string) : result error (gmap string string) :=
  let part := TrimSpace part in
  if decide (part = "") then Ok out else
  let bad := Err (Errorf "invalid selector part %q (expected k=v)" [VStr part]) in
  match index_byte (byte 61) (s2l part) with
  | None => bad
  | Some i =>
      let k := TrimSpace (str_take i part) in
      let v := TrimSpace (str_drop (S i) part) in
      if decide (k = "" \/ v = "") then bad else Ok (<[k := v]> out)
  end.
Definition parseLabelMap (s : string) : result error (gmap string string) :=
  out ← forE add_label (Split s (byte 44)) ∅;
  if decide (out = ∅) then Err (Errorf "empty selector" []) else Ok out.

(** [strings.ToUpper] of the three modes is all that matters: other texts are refused. *)
Definition upper_byte (c : ascii) : ascii := if ((97 <=? code c) && (code c <=? 122))%nat then byte (code c - 32) else c.
Definition ToUpper (s : string) : string := l2s (upper_byte <$> s2l s).

Record request_flags := {
  rf_namespace : string; rf_agentJob : string; rf_purpose : string; rf_policyMode : string; rf_ttl : Z;
  rf_allowNon443 : bool; rf_egress : list string; rf_dnsAllow : list string; rf_broker : string;
  rf_ghRepo : string; rf_ghPR : Z;
}.

Definition request_payload (f : request_flags) (rules : list (string * Z)) (mode : option string) : value :=
  let dns := filter (fun s => s <> "") (TrimSpace <$> rf_dnsAllow f) in
  VObj ([("namespace", VStr (TrimSpace (rf_namespace f))); ("agentJob", VStr (TrimSpace (rf_agentJob f)));
         ("protocol", VStr "TCP"); ("purpose", VStr (TrimSpace (rf_purpose f)));
         ("egress", VList (rule_value <$> rules)); ("ttlSeconds", VInt (rf_ttl f));
         ("allowNon443", VBool (rf_allowNon443 f))]
    ++ match mode with Some m => [("policyMode", VStr m)] | None => [] end
    ++ (match dns with [] => [] | _ => [("dnsAllow", VList (VStr <$> dns))] end)
    ++ if decide (TrimSpace (rf_ghRepo f) <> "" /\ 0 < rf_ghPR f)
       then [("github", VObj [("repo", VStr (TrimSpace (rf_ghRepo f))); ("pullNumber", VInt (rf_ghPR f))])] else []).

Definition policy_mode (raw : string) : result string (option string) :=
  let pm := ToUpper (TrimSpace raw) in
  if decide (pm = "" \/ pm = "AUTO") then Ok None else
  if decide (pm <> "STRICT_FQDN" /\ pm <> "PROXY_CONNECT")
  then Err "invalid --policy-mode (expected AUTO|STRICT_FQDN|PROXY_CONNECT)" else Ok (Some pm).

Definition netgrant_request (env : string -> string) (f : request_flags) : cprog Z :=
  if decide (TrimSpace (rf_broker f) = "") then die "missing WORKSPACES_BROKER_URL (or --broker)" else
  if decide (TrimSpace (rf_agentJob f) = "" \/ TrimSpace (rf_purpose f) = "") then usage_exit else
  if decide (rf_egress f = []) then die "at least one --egress is required" else
  let adminToken := TrimSpace (env "BROKER_ADMIN_TOKEN") in
  if decide (adminToken = "") then die "missing BROKER_ADMIN_TOKEN" else
  or_die (parseEgressRules (rf_egress f)) (fun rules =>
  match policy_mode (rf_policyMode f) with
  | Err msg => die msg
  | Ok mode =>
      r ← brokerPostJSON (rf_broker f +:+ "/v1/network-grants") "X-Broker-Admin-Token" adminToken
            (request_payload f rules mode);
      or_die r (fun resp => _ ← trigger (COut resp); mret 0)
  end).

Definition approve_payload (approvedBy reason : string) (ttl : Z) : value :=
  VObj ([("approvedBy", VStr (TrimSpace approvedBy))]
    ++ (if decide (TrimSpace reason <> "") then [("reason", VStr (TrimSpace reason))] else [])
    ++ if 0 <? ttl then [("ttlSeconds", VInt ttl)] else []).

Definition netgrant_approve (env : string -> string) (namespace name approvedBy : string) (ttl : Z)
    (reason broker : string) : cprog Z :=
  if decide (TrimSpace broker = "" \/ TrimSpace name = "" \/ TrimSpace approvedBy = "") then usage_exit else
  let adminToken := TrimSpace (env "BROKER_ADMIN_TOKEN") in
  if decide (adminToken = "") then die "missing BROKER_ADMIN_TOKEN" else
  r ← brokerPostJSON (TrimSpace broker +:+ "/v1/network-grants/" +:+ TrimSpace namespace +:+ "/" +:+ TrimSpace name
        +:+ "/approve") "X-Broker-Admin-Token" adminToken (approve_payload approvedBy reason ttl);
  or_die r (fun resp => _ ← trigger (COut resp); mret 0).

(** * wsctl github open-pr *)

Definition open_pr_payload (repo title body patch base : string) : value :=
  VObj ([("repo", VStr (TrimSpace repo)); ("title", VStr (TrimSpace title)); ("body", VStr body); ("patch", VStr patch)]
    ++ if decide (TrimSpace base <> "") then [("base", VStr (TrimSpace base))] else []).

Definition github_open_pr (env : string -> string) (repo base title body patchFile broker : string) : cprog Z :=
  if decide (TrimSpace broker = "" \/ TrimSpace repo = "" \/ TrimSpace title = "" \/ TrimSpace patchFile = "")
  then usage_exit else
  let adminToken := TrimSpace (env "BROKER_ADMIN_TOKEN") in
  if decide (adminToken = "") then die "missing BROKER_ADMIN_TOKEN" else
  patch ← read_file patchFile;
  or_die patch (fun patch =>
  r ← brokerPostJSON (TrimSpace broker +:+ "/v1/github/open-pr") "X-Broker-Admin-Token" adminToken
        (open_pr_payload repo title body (l2s patch) base);
  or_die r (fun resp => _ ← trigger (COut resp); mret 0)).

(** * wsctl portshare *)

Record portshare_flags := {
  pf_name : string; pf_psnamespace : string; pf_desktop : string; pf_port : Z; pf_level : string; pf_proto : string;
  pf_ttl : Z;
}.

(** The given name, or one made of the desktop and the port, of at most 63 bytes. *)
Definition portshare_name (f : portshare_flags) : string :=
  let psName := TrimSpace (pf_name f) in
  if decide (psName <> "") then psName else
  let n := "ps-" +:+ TrimSpace (pf_desktop f) +:+ "-" +:+ Itoa (pf_port f) in
  if (63 <? String.length n)%nat then str_take 63 n else n.

Definition new_portshare (f : portshare_flags) : PortShare := {|
  ps_Meta := new_meta (TrimSpace (pf_psnamespace f)) (portshare_name f);
  ps_Spec := {| pss_DesktopRef := {| psr_Name := TrimSpace (pf_desktop f) |}; pss_RequestedAt := None;
    pss_Port := wrap32 (pf_port f); pss_ShareLevel := ToLower (TrimSpace (pf_level f));
    pss_Protocol := ToLower (TrimSpace (pf_proto f)); pss_TTLSeconds := wrap32 (pf_ttl f) |};
  ps_Status := {| pst_Active := false; pst_ServiceName := ""; pst_ExpiresAt := 0; pst_Conditions := [] |} |}.

Definition portshare_create (f : portshare_flags) : cprog Z :=
  if decide (TrimSpace (pf_desktop f) = "" \/ pf_port f <= 0 \/ 65535 < pf_port f) then usage_exit else
  if pf_ttl f <? 0 then die "ttl must be >= 0" else
  create_object KPortShare (new_portshare f)
    ("created PortShare " +:+ TrimSpace (pf_psnamespace f) +:+ "/" +:+ portshare_name f
     +:+ " desktop=" +:+ TrimSpace (pf_desktop f) +:+ " port=" +:+ Itoa (pf_port f)).

Definition portshare_get (name namespace : string) : cprog Z :=
  named name (show_object KPortShare (TrimSpace namespace) (TrimSpace name)).
Definition portshare_delete (name namespace : string) : cprog Z :=
  named name (delete_object KPortShare "PortShare" (TrimSpace namespace) (TrimSpace name)).

Definition share_le (a b : PortShare) : Prop := str_le (m_Name (ps_Meta a)) (m_Name (ps_Meta b)).
#[local] Instance share_le_dec a b : Decision (share_le a b) := str_le_dec _ _.
Definition portshare_line (ps : PortShare) : string :=
  let svc := TrimSpace (pst_ServiceName (ps_Status ps)) in
  m_Namespace (ps_Meta ps) +:+ "/" +:+ m_Name (ps_Meta ps)
  +:+ " desktop=" +:+ TrimSpace (psr_Name (pss_DesktopRef (ps_Spec ps))) +:+ " port=" +:+ Itoa (pss_Port (ps_Spec ps))
  +:+ " level=" +:+ TrimSpace (pss_ShareLevel (ps_Spec ps)) +:+ " proto=" +:+ TrimSpace (pss_Protocol (ps_Spec ps))
  +:+ " active=" +:+ (if pst_Active (ps_Status ps) then "true" else "false")
  +:+ " service=" +:+ (if decide (svc = "") then "-" else svc)
  +:+ if 0 <? pss_TTLSeconds (ps_Spec ps) then " ttl=" +:+ Itoa (pss_TTLSeconds (ps_Spec ps)) else "".
Definition portshare_list (namespace : string) : cprog Z :=
  list_objects KPortShare (TrimSpace namespace) (merge_sort share_le) portshare_line.
