(* ===== verification/Orders.v ===== *)
(** From a client's command to the broker's handler: the requests of [wsctl] (Wsctl)
    and of the GitHub webhook (Webhook) as the broker's HTTP interface (BrokerApi)
    takes them. *)
From S2P Require Export BrokerApi Webhook Wsctl.
From stdpp Require Import options.
Open Scope Z_scope.

(** * Paths *)

(** A text that is one segment of a path, and the base URL of a broker. *)
Definition segment (s : string) : Prop := byte 47 ∉ s2l s /\ byte 63 ∉ s2l s /\ byte 35 ∉ s2l s.
Definition base_url (b : string) : Prop :=
  exists scheme host, b = scheme +:+ "//" +:+ host /\ segment scheme /\ segment host.

#[global] Instance segment_dec s : Decision (segment s).
Proof. unfold segment. apply _. Defined.

Lemma before_query_app l1 l2 : byte 63 ∉ l1 -> byte 35 ∉ l1 -> before_query (l1 ++ l2) = l1 ++ before_query l2.
Proof.
  induction l1 as [|c l1 IH]; [done|]. rewrite !not_elem_of_cons. intros [Ha Hb] [Hc Hd]. cbn [app before_query].
  rewrite decide_False by (intros [->| ->]; congruence). by rewrite IH.
Qed.

(** The segments of a path. *)
Fixpoint path_of (segs : list string) : string :=
  match segs with [] => "" | s :: segs' => "/" +:+ s +:+ path_of segs' end.

Lemma before_query_path segs : Forall segment segs -> before_query (s2l (path_of segs)) = s2l (path_of segs).
Proof.
  induction 1 as [|s segs (_ & Hq & Hh) _ IH]; [done|]. cbn [path_of]. rewrite !s2l_app.
  rewrite !before_query_app, IH; [done | done | done | |]; by vm_compute; intros ?%list_elem_of_singleton.
Qed.

Lemma Split_path s segs : Forall segment segs -> byte 47 ∉ s2l s -> Split (s +:+ path_of segs) (byte 47) = s :: segs.
Proof.
  intros Hs. revert s. induction Hs as [|x segs (Hx & _) _ IH]; intros s Hn; cbn [path_of].
  - replace (s +:+ "") with s by (apply s2l_inj; by rewrite s2l_app, app_nil_r). by apply Split_none.
  - change ("/" +:+ x +:+ path_of segs) with (String (byte 47) (x +:+ path_of segs)). by rewrite Split_app, IH.
Qed.

Lemma url_of_path b segs : base_url b -> Forall segment segs -> url_segments (b +:+ path_of segs) = Some segs.
Proof.
  intros (scheme & host & -> & Hs & Hh) Hsegs. unfold url_segments.
  assert (Hall : Forall segment ("" :: host :: segs)) by (constructor; [by apply (bool_decide_unpack _) | by constructor]).
  replace ((scheme +:+ "//" +:+ host) +:+ path_of segs) with (scheme +:+ path_of ("" :: host :: segs))
    by (apply s2l_inj; cbn [path_of]; rewrite !s2l_app; cbn; by rewrite <- !app_assoc).
  rewrite s2l_app, before_query_app by apply Hs. rewrite before_query_path by done.
  rewrite <- s2l_app, l2s_s2l, Split_path by (done || apply Hs). by rewrite decide_True.
Qed.

(** * Bodies *)

Lemma members_hit tag k v l : ToLower k = ToLower tag -> members tag ((k, v) :: l) = v :: members tag l.
Proof. intros H. unfold members. by rewrite filter_cons_True. Qed.
Lemma members_miss tag k v l : ToLower k <> ToLower tag -> members tag ((k, v) :: l) = members tag l.
Proof. intros H. unfold members. by rewrite filter_cons_False. Qed.

Lemma field_members {A} (d : value -> option A) tag zero l vs : members tag l = vs ->
  field d tag zero l = (xs ← mapM d vs; Some (default zero (list.last xs))).
Proof. by intros <-. Qed.

Ltac find_members :=
  repeat first [ rewrite members_hit by (vm_compute; reflexivity) | rewrite members_miss by (vm_compute; discriminate) ];
  reflexivity.
(** Reads the fields of a body whose names are literals. *)
Ltac read_fields :=
  repeat match goal with
  | |- context [field ?d ?tag ?zero ?l] => erewrite (field_members d tag zero l) by find_members
  end.

Lemma d_int_ok w z : - 2 ^ (w - 1) <= z < 2 ^ (w - 1) -> d_int w (VInt z) = Some z.
Proof.
  intros H. unfold d_int. rewrite (proj2 (Z.leb_le _ _)), (proj2 (Z.ltb_lt _ _)) by lia. done.
Qed.

Definition in32 (z : Z) : Prop := - 2 ^ 31 <= z < 2 ^ 31.
Definition in64 (z : Z) : Prop := - 2 ^ 63 <= z < 2 ^ 63.

(** ** Texts on the way *)

(** What a request says once [encoding/json] has passed its texts on. *)
Definition json_rule (r : NetworkGrantEgressRule) : NetworkGrantEgressRule :=
  {| er_Host := json_text (er_Host r); er_Ports := er_Ports r |}.
Definition json_ref (r : github_ref) : github_ref := {|
  gr_Repo := json_text (gr_Repo r); gr_PullNumber := gr_PullNumber r; gr_Actor := json_text (gr_Actor r);
  gr_CommentURL := json_text (gr_CommentURL r) |}.
Definition json_grant (g : createNetworkGrantRequest) : createNetworkGrantRequest := {|
  cg_Namespace := json_text (cg_Namespace g); cg_Name := json_text (cg_Name g); cg_AgentJob := json_text (cg_AgentJob g);
  cg_PolicyMode := json_text (cg_PolicyMode g); cg_Protocol := json_text (cg_Protocol g);
  cg_Purpose := json_text (cg_Purpose g); cg_Egress := json_rule <$> cg_Egress g; cg_DNSAllow := json_text <$> cg_DNSAllow g;
  cg_AllowNon443 := cg_AllowNon443 g; cg_TTLSeconds := cg_TTLSeconds g; cg_Reason := json_text (cg_Reason g);
  cg_GitHub := json_ref <$> cg_GitHub g |}.
Definition json_approval (a : approveNetworkGrantRequest) : approveNetworkGrantRequest := {|
  ap_ApprovedBy := json_text (ap_ApprovedBy a); ap_Reason := json_text (ap_Reason a); ap_TTLSeconds := ap_TTLSeconds a |}.
Definition json_job (j : createAgentJobRequest) : createAgentJobRequest := {|
  cj_Namespace := json_text (cj_Namespace j); cj_Name := json_text (cj_Name j); cj_PolicyProfile := json_text (cj_PolicyProfile j);
  cj_TTLSecondsAfterFinished := cj_TTLSecondsAfterFinished j; cj_GitHub := json_ref <$> cj_GitHub j |}.
Definition json_pr (r : githubOpenPRRequest) : githubOpenPRRequest := {|
  op_Repo := json_text (op_Repo r); op_Base := json_text (op_Base r); op_Title := json_text (op_Title r);
  op_Body := json_text (op_Body r); op_Patch := json_text (op_Patch r); op_CommitMessage := json_text (op_CommitMessage r);
  op_Branch := json_text (op_Branch r); op_Draft := op_Draft r |}.

(** A decoder [d] reads the passed value as [g] of what it reads in the given one. *)
Definition passes {A} (g : A -> A) (d : value -> option A) : Prop := forall v, d (json_sent v) = g <$> d v.

Lemma mapM_passes {A} (g : A -> A) d l : passes g d -> mapM d (map json_sent l) = fmap g <$> mapM d l.
Proof.
  intros Hd. induction l as [|v l IH]; [done|]. cbn [map mapM]. rewrite Hd, IH. by destruct (d v), (mapM d l).
Qed.

Lemma field_passes {A} (g : A -> A) d tag zero l : passes g d -> g zero = zero ->
  field d tag zero (map (fun kv => (kv.1, json_sent kv.2)) l) = g <$> field d tag zero l.
Proof.
  intros Hd Hz. unfold field.
  assert (Hm : members tag (map (fun kv => (kv.1, json_sent kv.2)) l) = map json_sent (members tag l)).
  { unfold members. induction l as [|kv l IH]; [done|]. cbn [map]. rewrite !filter_cons. cbn [fst].
    destruct (decide (ToLower kv.1 = ToLower tag)); [by rewrite !fmap_cons, IH | exact IH]. }
  rewrite Hm, (mapM_passes g) by done. destruct (mapM d (members tag l)) as [xs|]; [|done].
  cbn [fmap option_fmap option_map mbind option_bind]. f_equal. rewrite fmap_last. by destruct (list.last xs).
Qed.

Lemma passes_string : passes json_text d_string. Proof. by intros []. Qed.
Lemma passes_bool : passes id d_bool. Proof. by intros []. Qed.
Lemma passes_ints w : passes id (d_list (d_int w)).
Proof.
  intros []; try done. cbn [json_sent d_list]. rewrite (mapM_passes id).
  - destruct (mapM (d_int w) l); [|done]. cbn. by rewrite list_fmap_id.
  - intros []; try done. cbn. by destruct (_ && _).
Qed.
Lemma passes_int w : passes id (d_int w). Proof. intros []; try done. cbn. by destruct (_ && _). Qed.
Lemma passes_opt_int w : passes id (d_pointer (d_int w)).
Proof. intros v. unfold d_pointer. rewrite passes_int. by destruct (d_int w v). Qed.
Lemma passes_list {A} (g : A -> A) d : passes g d -> passes (fmap g) (d_list d).
Proof. intros Hd []; try done. cbn [json_sent d_list]. by apply mapM_passes. Qed.
Lemma passes_pointer {A} (g : A -> A) d : passes g d -> passes (fmap g) (d_pointer d).
Proof. intros Hd v. unfold d_pointer. rewrite Hd. by destruct (d v). Qed.
#[local] Hint Resolve passes_string passes_bool passes_int passes_ints passes_opt_int | 0 : passes.
#[local] Hint Resolve passes_list passes_pointer | 5 : passes.

(** Every field of a structure is read as it was passed. *)
Ltac passes_fields :=
  let l := fresh "l" in
  intros [| | | |l| |]; try done; cbn [json_sent];
  match goal with |- ?d (VObj ?m) = ?g <$> ?d (VObj l) => unfold d; cbn [d_object] end;
  repeat (match goal with
    | |- context [field ?d ?tag ?zero (map _ l)] =>
        erewrite (field_passes _ d tag zero l) by first [ solve [eauto with passes] | reflexivity ]
    end);
  repeat (match goal with
    | |- context [field ?d ?tag ?zero l] => destruct (field d tag zero l); [|done]
    end);
  reflexivity.

Lemma passes_rule : passes json_rule decode_rule. Proof. passes_fields. Qed.
Lemma passes_pull_ref : passes json_ref decode_pull_ref. Proof. passes_fields. Qed.
Lemma passes_job_ref : passes json_ref decode_job_ref. Proof. passes_fields. Qed.
#[local] Hint Resolve passes_rule passes_pull_ref passes_job_ref : passes.
Lemma passes_grant : passes json_grant decode_grant_request. Proof. passes_fields. Qed.
Lemma passes_approval : passes json_approval decode_approval. Proof. passes_fields. Qed.
Lemma passes_job : passes json_job decode_job_request. Proof. passes_fields. Qed.
Lemma passes_pr : passes json_pr decode_pr_request. Proof. passes_fields. Qed.

(** ** The grant a user asks for *)

Definition meant_rule (r : string * Z) : NetworkGrantEgressRule := {| er_Host := r.1; er_Ports := [r.2] |}.
Definition meant_pull (repo : string) (pr : Z) : option github_ref :=
  if decide (TrimSpace repo <> "" /\ 0 < pr)
  then Some {| gr_Repo := TrimSpace repo; gr_PullNumber := pr; gr_Actor := ""; gr_CommentURL := "" |} else None.
Definition meant_grant (f : request_flags) (rules : list (string * Z)) (mode : option string) : createNetworkGrantRequest := {|
  cg_Namespace := TrimSpace (rf_namespace f); cg_Name := ""; cg_AgentJob := TrimSpace (rf_agentJob f);
  cg_PolicyMode := default "" mode; cg_Protocol := "TCP"; cg_Purpose := TrimSpace (rf_purpose f);
  cg_Egress := meant_rule <$> rules; cg_DNSAllow := filter (fun s => s <> "") (TrimSpace <$> rf_dnsAllow f);
  cg_AllowNon443 := rf_allowNon443 f; cg_TTLSeconds := rf_ttl f; cg_Reason := "";
  cg_GitHub := meant_pull (rf_ghRepo f) (rf_ghPR f) |}.

Lemma mapM_rules rules : Forall (fun r : string * Z => in32 r.2) rules ->
  mapM decode_rule (rule_value <$> rules) = Some (meant_rule <$> rules).
Proof.
  induction 1 as [|r rules Hr _ IH]; [done|]. cbn [fmap list_fmap mapM]. rewrite IH.
  replace (decode_rule (rule_value r)) with (Some (meant_rule r)); [done|].
  unfold decode_rule, rule_value. cbn [d_object]. read_fields. cbn [mapM d_string mbind option_bind d_list].
  by rewrite d_int_ok.
Qed.

Lemma mapM_strings l : mapM d_string (VStr <$> l) = Some l.
Proof. induction l as [|s l IH]; [done|]. cbn [fmap list_fmap mapM]. by rewrite IH. Qed.

Lemma decode_request f rules mode : in32 (rf_ttl f) -> in64 (rf_ghPR f) -> Forall (fun r : string * Z => in32 r.2) rules ->
  decode_grant_request (request_payload f rules mode) = Some (meant_grant f rules mode).
Proof.
  intros Ht Hp Hr. unfold decode_grant_request, request_payload, meant_grant, meant_pull. cbn [d_object].
  destruct mode as [mode|], (filter (fun s => s <> "") (TrimSpace <$> rf_dnsAllow f)) as [|h dns] eqn:Hdns,
    (decide (TrimSpace (rf_ghRepo f) <> "" /\ 0 < rf_ghPR f)); cbn [app]; read_fields.
  all: cbn [mapM d_string d_bool d_list mbind option_bind list.last from_option default id]; rewrite mapM_rules, d_int_ok by done;
    cbn [mbind option_bind].
  all: try (change (VStr h :: (VStr <$> dns)) with (VStr <$> (h :: dns)); rewrite mapM_strings; cbn [mbind option_bind]).
  all: try (unfold d_pointer, decode_pull_ref; cbn [d_object]; read_fields;
    cbn [mapM d_string mbind option_bind]; rewrite d_int_ok by done).
  all: reflexivity.
Qed.

(** ** Approvals, runs and pull requests *)

Definition positive_opt (ttl : Z) : option Z := if 0 <? ttl then Some ttl else None.

Lemma decode_approve who reason ttl : in32 ttl ->
  decode_approval (approve_payload who reason ttl)
  = Some {| ap_ApprovedBy := TrimSpace who; ap_Reason := TrimSpace reason; ap_TTLSeconds := positive_opt ttl |}.
Proof.
  intros Ht. unfold decode_approval, approve_payload, positive_opt. cbn [d_object].
  destruct (decide (TrimSpace reason <> "")) as [Hr|Hr%dec_stable], (0 <? ttl); cbn [app]; read_fields.
  all: cbn [mapM d_string mbind option_bind list.last from_option default id]; unfold d_pointer.
  all: rewrite ?d_int_ok by done; try rewrite Hr; reflexivity.
Qed.

Lemma decode_hook_approve who reason ttl : (forall n, ttl = Some n -> in32 n) ->
  decode_approval (VObj ([("approvedBy", VStr who); ("reason", VStr reason)]
    ++ match ttl with Some t => [("ttlSeconds", VInt t)] | None => [] end))
  = Some {| ap_ApprovedBy := who; ap_Reason := reason; ap_TTLSeconds := ttl |}.
Proof.
  intros Ht. unfold decode_approval. cbn [d_object]. destruct ttl as [n|]; cbn [app]; read_fields;
    cbn [mapM d_string mbind option_bind list.last from_option default id]; [|done].
  unfold d_pointer. by rewrite d_int_ok by by apply Ht.
Qed.

Definition meant_job (profile : string) (ttl : Z) (ref : github_ref) : createAgentJobRequest := {|
  cj_Namespace := ""; cj_Name := ""; cj_PolicyProfile := profile; cj_TTLSecondsAfterFinished := ttl; cj_GitHub := Some ref |}.

Lemma decode_run_pr repo pr profile ttl : in64 pr -> in32 ttl ->
  decode_job_request (run_pr_payload repo pr profile ttl)
  = Some (meant_job (TrimSpace profile) (if 0 <? ttl then ttl else 0)
            {| gr_Repo := TrimSpace repo; gr_PullNumber := pr; gr_Actor := ""; gr_CommentURL := "" |}).
Proof.
  intros Hp Ht. unfold decode_job_request, run_pr_payload, meant_job. cbn [d_object].
  destruct (decide (TrimSpace profile <> "")) as [Hr|Hr%dec_stable], (0 <? ttl); cbn [app]; read_fields.
  all: cbn [mapM d_string mbind option_bind list.last from_option default id]; rewrite ?(d_int_ok 32) by done; cbn [mbind option_bind].
  all: unfold d_pointer, decode_job_ref; cbn [d_object]; read_fields; cbn [mapM d_string mbind option_bind]; rewrite d_int_ok by done.
  all: try rewrite Hr; reflexivity.
Qed.

Lemma decode_hook_job repo pr actor url cmd : in64 pr -> (forall n, rc_TTL cmd = Some n -> in32 n) ->
  decode_job_request (VObj ([("github", VObj [("repo", VStr repo); ("pullNumber", VInt pr);
      ("actor", VStr actor); ("commentUrl", VStr url)])]
    ++ (if decide (TrimSpace (rc_PolicyProfile cmd) <> "")
        then [("policyProfile", VStr (TrimSpace (rc_PolicyProfile cmd)))] else [])
    ++ match rc_TTL cmd with Some t => [("ttlSecondsAfterFinished", VInt t)] | None => [] end))
  = Some (meant_job (TrimSpace (rc_PolicyProfile cmd)) (default 0 (rc_TTL cmd))
            {| gr_Repo := repo; gr_PullNumber := pr; gr_Actor := actor; gr_CommentURL := url |}).
Proof.
  intros Hp Ht. unfold decode_job_request, meant_job. cbn [d_object].
  destruct (decide (TrimSpace (rc_PolicyProfile cmd) <> "")) as [Hr|Hr%dec_stable], (rc_TTL cmd) as [n|]; cbn [app]; read_fields.
  all: cbn [mapM d_string mbind option_bind list.last from_option default id]; rewrite ?(d_int_ok 32) by by apply Ht.
  all: cbn [mbind option_bind list.last from_option default id].
  all: unfold d_pointer, decode_job_ref; cbn [d_object]; read_fields; cbn [mapM d_string mbind option_bind]; rewrite d_int_ok by done.
  all: try rewrite Hr; reflexivity.
Qed.

Lemma decode_open_pr repo title body patch base :
  decode_pr_request (open_pr_payload repo title body patch base)
  = Some {| op_Repo := TrimSpace repo; op_Base := TrimSpace base; op_Title := TrimSpace title; op_Body := body;
            op_Patch := patch; op_CommitMessage := ""; op_Branch := ""; op_Draft := false |}.
Proof.
  unfold decode_pr_request, open_pr_payload. cbn [d_object].
  destruct (decide (TrimSpace base <> "")) as [Hb|Hb%dec_stable]; cbn [app]; read_fields; try rewrite Hb; reflexivity.
Qed.

Lemma parse_rules items rules : parseEgressRules items = Ok rules ->
  rules <> [] /\ Forall (fun r : string * Z => 1 <= r.2 <= 65535) rules.
Proof.
  unfold parseEgressRules. intros (rs & Hf & Hr)%bind_ok_inv. assert (Heq : rs = rules /\ rules <> []) by (destruct rs; [done | injection Hr as <-; done]).
  destruct Heq as [-> Hne]. split; [done|].
  refine (proj1 (forE_from_inv (fun rs => Forall (fun r : string * Z => 1 <= r.2 <= 65535) rs) (fun _ => True) _ _ _ _ _ _ _ Hf)); [constructor|].
  intros i it b b' (r & Hp & [= <-])%bind_ok_inv Hb. split; [|done]. apply list.Forall_app. split; [done|].
  destruct r as [[h p]|]; [|constructor]. constructor; [|constructor]. cbn [snd]. unfold parse_egress in Hp.
  case_decide; [done|]. destruct (negb _); [injection Hp as _ <-; lia|].
  destruct (Split _ _) as [|? [|? []]]; try done. destruct (Atoi _) as [n|]; [|done].
  destruct ((n <=? 0) || (65535 <? n)) eqn:Hn; [done|]. injection Hp as _ <-. apply orb_false_iff in Hn as [H1%Z.leb_gt H2%Z.ltb_ge].
  rewrite wrap32_id; [lia|]. unfold int32_range. lia.
Qed.

Lemma parse_ttl_range raw n : parse_ttl raw = Some n -> 1 <= n <= 86400.
Proof.
  unfold parse_ttl. destruct (ParseInt raw 32) as [m|]; [|done]. cbn [mbind option_bind].
  destruct ((m <=? 0) || (86400 <? m)) eqn:H; [done|]. intros [= <-]. apply orb_false_iff in H as [?%Z.leb_gt ?%Z.ltb_ge]. lia.
Qed.

Lemma netgrant_options_ttl parts : forall ttl out n, (forall n, ttl = Some n -> 1 <= n <= 86400) ->
  netgrant_options parts ttl = Some out -> out = Some n -> 1 <= n <= 86400.
Proof.
  induction parts as [|p parts IH]; intros ttl out n Ht; cbn [netgrant_options]; [intros [= <-] ->; by apply Ht|].
  destruct (HasPrefix p "ttl="); [|by apply IH]. destruct (parse_ttl _) as [m|] eqn:Hm; [|done]. cbn [mbind option_bind].
  apply IH. intros ? [= <-]. by eapply parse_ttl_range.
Qed.

Lemma approve_ttl body cmd n : parseNetgrantApproveCommand body = Some cmd -> nc_TTL cmd = Some n -> in32 n.
Proof.
  unfold parseNetgrantApproveCommand. destruct (findCommandLine _ _) as [line|]; [|done]. cbn [mbind option_bind].
  destruct (Fields line) as [|p0 [|p1 [|p2 rest]]]; try done. case_decide; [done|]. cbv zeta. case_decide; [done|].
  destruct (netgrant_target _) as [[ns name]|]; [|done]. cbn [mbind option_bind].
  destruct (netgrant_options rest None) as [ttl|] eqn:Ho; [|done]. cbn [mbind option_bind]. intros [= <-] Hn. cbn [nc_TTL] in Hn.
  assert (1 <= n <= 86400) by (refine (netgrant_options_ttl _ _ _ _ _ Ho Hn); done). unfold in32. lia.
Qed.

Lemma run_options_ttl parts : forall c out n, (forall n, rc_TTL c = Some n -> 1 <= n <= 86400) ->
  run_options parts c = Some out -> rc_TTL out = Some n -> 1 <= n <= 86400.
Proof.
  induction parts as [|p parts IH]; intros c out n Ht; cbn [run_options]; [intros [= <-]; by apply Ht|].
  destruct (_ || _); [by apply IH|]. destruct (HasPrefix p "ttl="); [|by apply IH].
  destruct (parse_ttl _) as [m|] eqn:Hm; [|done]. cbn [mbind option_bind]. apply IH. intros ? [= <-]. by eapply parse_ttl_range.
Qed.

Lemma run_ttl body cmd n : parseAgentRunCommand body = Some cmd -> rc_TTL cmd = Some n -> in32 n.
Proof.
  unfold parseAgentRunCommand. destruct (findCommandLine _ _) as [line|]; [|done]. cbn [mbind option_bind].
  destruct (Fields line) as [|p0 [|p1 rest]]; try done. case_decide; [done|]. intros Ho Hn.
  assert (1 <= n <= 86400) by (refine (run_options_ttl _ _ _ _ _ Ho Hn); done). unfold in32. lia.
Qed.

(** * Orders *)

(** What a client tells the broker to do. *)
Inductive order :=
| OGrant (req : createNetworkGrantRequest)
| OApprove (ns name : string) (body : approveNetworkGrantRequest)
| OApproveGitHub (ns name : string) (body : approveNetworkGrantRequest)
| OJob (req : createAgentJobRequest)
| OPull (req : githubOpenPRRequest).

Definition endpoint_of (o : order) : endpoint :=
  match o with
  | OGrant _ => ECreateGrant | OApprove ns name _ => EApprove ns name | OApproveGitHub ns name _ => EApproveGitHub ns name
  | OJob _ => ECreateJob | OPull _ => EOpenPR
  end.

(** The order as the broker gets it: [encoding/json] replaces what is not UTF-8 in the
    texts of its body. *)
Definition json_order (o : order) : order :=
  match o with
  | OGrant req => OGrant (json_grant req)
  | OApprove ns name body => OApprove ns name (json_approval body)
  | OApproveGitHub ns name body => OApproveGitHub ns name (json_approval body)
  | OJob req => OJob (json_job req)
  | OPull req => OPull (json_pr req)
  end.

Lemma endpoint_of_json o : endpoint_of (json_order o) = endpoint_of o.
Proof. by destruct o. Qed.

(** The requests a client of the broker knows the tokens for. *)
Definition knows_tokens (env : string -> string) (s : server) : Prop :=
  (TrimSpace (env "BROKER_ADMIN_TOKEN") = "" \/ TrimSpace (env "BROKER_ADMIN_TOKEN") = s_adminToken s)
  /\ (TrimSpace (env "BROKER_WEBHOOK_TOKEN") = "" \/ TrimSpace (env "BROKER_WEBHOOK_TOKEN") = s_webhookToken s).

Definition cposted (o : cobs) : option HttpRequest :=
  match o with Obs (CBase (HttpDo q)) _ => Some q | _ => None end.

Section orders.
Context (jwt_sign : string -> jobTokenClaims -> result error string).
Context (jwt_parse : string -> string -> Z -> result error jobTokenClaims).
Context (decode_token : string -> result error (string * string)).
Context (decode_pr : string -> result error (Z * string)).
Context (decode_comment : string -> result error string).
Context (decode_pull : string -> result error string).
Context (decode_check_run : string -> result error (Z * string)).
Context (time_Parse : string -> result error Z).
Context (app_sign : string -> Z -> Z -> result error string).
Context (json_length : value -> Z).

Notation broker_serves := (serve jwt_sign jwt_parse decode_token decode_pr decode_comment decode_pull decode_check_run
  time_Parse app_sign json_length).

(** The handler of an order, on its decoded body. *)
Definition handle (s : server) (o : order) (r : HttpReq) : bprog served :=
  match o with
  | OGrant req =>
      rep ← handleCreateNetworkGrant jwt_parse decode_token decode_comment time_Parse app_sign s r (Some req);
      mret (SReply rep)
  | OApprove _ _ body => rep ← handleApproveNetworkGrant s r (Some body); mret (SReply rep)
  | OApproveGitHub _ _ body => rep ← handleApproveNetworkGrantGitHub s r (Some body); mret (SReply rep)
  | OJob req =>
      rep ← handleCreateAgentJob jwt_sign decode_token decode_comment decode_pull decode_check_run time_Parse app_sign s r (Some req);
      mret (SReply rep)
  | OPull req =>
      rep ← handleGitHubOpenPR decode_token decode_pr time_Parse app_sign (fun s => sha256 (s2l s)) jwt_parse s r (Some req);
      mret (match rep with inl rep => SReply rep | inr resp => SOpened resp end)
  end.

(** The handler does not refuse the caller. *)
Definition entitled (s : server) (o : order) (r : HttpReq) : Prop :=
  match o with
  | OGrant req => forall job, requireJobOrAdmin jwt_parse s r job = mret (Ok tt)
  | OPull req => forall repo, requireRepoWrite jwt_parse s r repo = mret (Ok tt)
  | OApprove _ _ _ => requireAdmin s r = Ok tt
  | OApproveGitHub _ _ _ | OJob _ => requireWebhook s r = Ok tt
  end.

(** The broker carries the request out as this order, as far as JSON can say it. *)
Definition reaches (s : server) (q : HttpRequest) (o : order) : Prop := forall addr id,
  let r := request_of q (endpoint_of o) addr id in
  broker_serves s q addr id = handle s (json_order o) r /\ entitled s (json_order o) r.

(** ** One request *)

Definition body_of (o : order) (v : value) : Prop :=
  match o with
  | OGrant req => decode_grant_request v = Some req
  | OApprove _ _ body | OApproveGitHub _ _ body => decode_approval v = Some body
  | OJob req => decode_job_request v = Some req
  | OPull req => decode_pr_request v = Some req /\ json_length v <= 5 * 2 ^ 20
  end.

Lemma request_served s q b segs v o addr id :
  hr_Method q = "POST" -> hr_URL q = b +:+ path_of segs -> base_url b -> Forall segment segs ->
  route segs = Some ("POST", endpoint_of o) -> hr_Body q = Some v -> body_of o v ->
  broker_serves s q addr id = handle s (json_order o) (request_of q (endpoint_of o) addr id).
Proof using Type.
  intros Hm Hu Hb Hs Hr Hv Ho. unfold BrokerApi.serve. rewrite Hu, url_of_path by done. cbn [mbind option_bind].
  rewrite Hr, Hm, decide_False by (intros H; by apply H). cbv zeta. rewrite Hv.
  destruct o; cbn [endpoint_of handle body_of json_order] in *; unfold limited; cbn [mbind option_bind fmap option_fmap option_map].
  5:{ destruct Ho as [Ho Hl]. rewrite (proj2 (Z.leb_le _ _)) by done. cbn [mbind option_bind fmap option_fmap option_map].
      by rewrite passes_pr, Ho. }
  all: by rewrite ?passes_grant, ?passes_approval, ?passes_job, Ho.
Qed.

Lemma admin_entitled s o r : s_adminToken s <> "" -> TrimSpace (hq_Header r "X-Broker-Admin-Token") = s_adminToken s ->
  entitled s o r.
Proof using Type.
  intros Hne Ht. assert (Ha : admin_header s r = true) by (by apply bool_decide_eq_true).
  destruct o; cbn [entitled]; unfold requireJobOrAdmin, requireRepoWrite, requireWebhook, requireAdmin; rewrite ?Ha; try done.
  rewrite Ht, decide_False by done. cbv zeta. rewrite decide_False; [done | intros [?|?]; congruence].
Qed.

Lemma webhook_entitled s r : s_webhookToken s <> "" -> TrimSpace (hq_Header r "X-Broker-Webhook-Token") = s_webhookToken s ->
  requireWebhook s r = Ok tt.
Proof using Type.
  intros Hne Ht. unfold requireWebhook. destruct (admin_header s r); [done|]. rewrite Ht, decide_False by done. cbv zeta.
  rewrite decide_False; [done | intros [?|?]; congruence].
Qed.

(** ** Runs of wsctl *)

Definition only_posts (P : HttpRequest -> Prop) (o : cobs) : Prop :=
  match cposted o with Some q => P q | None => True end.
Notation posts t P p := (safe (fun o => o ∈ t) (only_posts P) p (fun _ => True)).

Lemma post_json (t : list cobs) P url h tok v : P (broker_post url h tok v) -> posts t P (brokerPostJSON url h tok v).
Proof using Type.
  intros HP. unfold brokerPostJSON, cbase. apply (safe_bind _ _ _ _ (fun _ => True)); [|intros ? _; by apply safe_ret].
  by apply safe_trigger.
Qed.

Lemma post_answer (t : list cobs) P url h tok v k : P (broker_post url h tok v) -> (forall a, posts t P (k a)) ->
  posts t P (r ← brokerPostJSON url h tok v; or_die r k).
Proof using Type.
  intros HP Hk. apply (safe_bind _ _ _ _ (fun _ => True)); [by apply post_json|]. intros r _. unfold or_die.
  destruct r; [apply Hk|]. by calls.
Qed.

Lemma posts_only P (p : cprog Z) t code : posts t P p -> exec p t code -> Forall P (omap cposted t).
Proof using Type.
  intros Hp Hx. destruct (Hp t code Hx) as [HQ _]; [by apply list.Forall_forall|].
  apply list.Forall_forall. intros q (o & Hin & Ho)%list_elem_of_omap. 
  pose proof (proj1 (list.Forall_forall _ _) HQ o Hin) as H. unfold only_posts in H. by rewrite Ho in H.
Qed.

Lemma header_second k v tok : ToLower "Content-Type" <> ToLower k -> header_get [("Content-Type", v); (k, tok)] k = tok.
Proof using Type.
  intros Hk. unfold header_get. rewrite filter_cons_False by done. by rewrite filter_cons_True.
Qed.

(** An order under the token of its header. *)
Lemma posted_order s q b segs v o h tok addr id :
  hr_Method q = "POST" -> hr_URL q = b +:+ path_of segs -> base_url b -> Forall segment segs ->
  route segs = Some ("POST", endpoint_of o) -> hr_Body q = Some v -> body_of o v ->
  hr_Headers q = [("Content-Type", "application/json"); (h, tok)] -> tok <> "" -> TrimSpace tok = tok ->
  (h = "X-Broker-Admin-Token" /\ tok = s_adminToken s
   \/ h = "X-Broker-Webhook-Token" /\ tok = s_webhookToken s
      /\ match o with OApproveGitHub _ _ _ | OJob _ => True | _ => False end) ->
  broker_serves s q addr id = handle s (json_order o) (request_of q (endpoint_of o) addr id)
  /\ entitled s (json_order o) (request_of q (endpoint_of o) addr id).
Proof using Type.
  intros Hm Hu Hb Hs Hr Hv Ho Hh Hne Ht Hc. split; [by eapply request_served|].
  assert (Hget : hq_Header (request_of q (endpoint_of o) addr id) h = tok).
  { cbn [request_of hq_Header]. rewrite Hh. apply header_second. destruct Hc as [[-> _]|[-> _]]; by vm_compute. }
  destruct Hc as [[-> Htok]|(-> & Htok & Hk)].
  - apply admin_entitled; [congruence|]. by rewrite Hget, Ht.
  - assert (Hw : requireWebhook s (request_of q (endpoint_of o) addr id) = Ok tt).
    { apply webhook_entitled; [congruence|]. by rewrite Hget, Ht. }
    by destruct o.
Qed.


Lemma request_orders env s f t code q :
  knows_tokens env s -> exec (netgrant_request env f) t code -> base_url (rf_broker f) -> in32 (rf_ttl f) -> in64 (rf_ghPR f) ->
  q ∈ omap cposted t -> exists rules mode, parseEgressRules (rf_egress f) = Ok rules /\ policy_mode (rf_policyMode f) = Ok mode
    /\ reaches s q (OGrant (meant_grant f rules mode)).
Proof using Type.
  intros [Ha _] Hx Hb Ht Hp Hin. revert q Hin. apply list.Forall_forall. eapply posts_only, Hx. clear Hx. unfold netgrant_request, die, usage_exit.
  case_decide; [by calls|]. case_decide; [by calls|]. case_decide; [by calls|]. cbv zeta.
  case_decide as Htok; [by calls|].
  destruct (parseEgressRules (rf_egress f)) as [rules|e] eqn:Hr; unfold or_die at 1; [|by calls].
  destruct (policy_mode _) as [mode|msg] eqn:Hm; [|by calls].
  apply post_answer; [|intros a; by calls]. exists rules, mode. split; [done|]. split; [done|]. intros addr id.
  destruct Ha as [?|Ha]; [done|]. destruct (parse_rules _ _ Hr) as [_ Hports].
  eapply (posted_order s _ (rf_broker f) ["v1"; "network-grants"]); try done.
  - by repeat (constructor; [by apply (bool_decide_unpack _)|]).
  - apply decode_request; [done..|]. eapply list.Forall_impl; [exact Hports|]. unfold in32. intros; lia.
  - unfold broker_post. cbn [hr_Headers]. by rewrite decide_True.
  - apply TrimSpace_idemp.
  - by left.
Qed.

Lemma approve_path b ns name action :
  b +:+ "/v1/network-grants/" +:+ ns +:+ "/" +:+ name +:+ "/" +:+ action
  = b +:+ path_of ["v1"; "network-grants"; ns; name; action].
Proof using Type. apply s2l_inj. cbn [path_of]. rewrite !s2l_app. by rewrite app_nil_r. Qed.

Lemma approve_segments ns name action : segment ns -> segment name -> action = "approve" \/ action = "approve-github" ->
  Forall segment ["v1"; "network-grants"; ns; name; action].
Proof using Type.
  intros Hns Hn Ha. do 2 (constructor; [by apply (bool_decide_unpack _)|]). constructor; [done|]. constructor; [done|].
  constructor; [|done]. destruct Ha as [->| ->]; by apply (bool_decide_unpack _).
Qed.

Definition approval (who reason : string) (ttl : option Z) : approveNetworkGrantRequest :=
  {| ap_ApprovedBy := who; ap_Reason := reason; ap_TTLSeconds := ttl |}.

Lemma approve_orders env s ns name who ttl reason broker t code q :
  knows_tokens env s -> exec (netgrant_approve env ns name who ttl reason broker) t code -> base_url (TrimSpace broker) ->
  segment (TrimSpace ns) -> segment (TrimSpace name) -> in32 ttl -> q ∈ omap cposted t ->
  reaches s q (OApprove (TrimSpace ns) (TrimSpace name) (approval (TrimSpace who) (TrimSpace reason) (positive_opt ttl))).
Proof using Type.
  intros [Ha _] Hx Hb Hns Hn Ht Hin. revert q Hin. apply list.Forall_forall. eapply posts_only, Hx. clear Hx.
  unfold netgrant_approve, die, usage_exit. case_decide; [by calls|]. cbv zeta. case_decide as Htok; [by calls|].
  apply post_answer; [|intros a; by calls]. intros addr id. destruct Ha as [?|Ha]; [done|].
  eapply (posted_order s _ (TrimSpace broker) ["v1"; "network-grants"; TrimSpace ns; TrimSpace name; "approve"]); try done.
  - apply approve_segments; auto.
  - by apply decode_approve.
  - unfold broker_post. cbn [hr_Headers]. by rewrite decide_True.
  - apply TrimSpace_idemp.
  - by left.
Qed.

Lemma run_orders env s repo pr profile ttl broker t code q :
  knows_tokens env s -> exec (agent_run_pr env repo pr profile ttl broker) t code -> base_url broker ->
  in64 pr -> in32 ttl -> q ∈ omap cposted t ->
  reaches s q (OJob (meant_job (TrimSpace profile) (if 0 <? ttl then ttl else 0)
    {| gr_Repo := TrimSpace repo; gr_PullNumber := pr; gr_Actor := ""; gr_CommentURL := "" |})).
Proof using Type.
  intros [Ha Hw] Hx Hb Hp Ht Hin. revert q Hin. apply list.Forall_forall. eapply posts_only, Hx. clear Hx.
  unfold agent_run_pr, die, usage_exit. case_decide; [by calls|].
  destruct (brokerAuthForWebhookOrAdmin env) as [h tok] eqn:Hauth. case_decide as Htok; [by calls|]. case_decide; [by calls|].
  apply post_answer; [|intros a; by calls]. intros addr id.
  assert (Hh : TrimSpace tok = tok /\ (h = "X-Broker-Admin-Token" /\ tok = s_adminToken s
      \/ h = "X-Broker-Webhook-Token" /\ tok = s_webhookToken s)).
  { unfold brokerAuthForWebhookOrAdmin in Hauth. cbv zeta in Hauth. case_decide; [|case_decide]; injection Hauth as <- <-; [| |done];
      (split; [apply TrimSpace_idemp|]); [right | left]; (split; [done|]); [by destruct Hw | by destruct Ha]. }
  destruct Hh as [Htr Hh].
  eapply (posted_order s _ broker ["v1"; "agent-jobs"] _ _ h tok); try done.
  - by repeat (constructor; [by apply (bool_decide_unpack _)|]).
  - by apply decode_run_pr.
  - unfold broker_post. cbn [hr_Headers]. rewrite decide_True; [done|]. split; [|done]. by destruct Hh as [[-> _]|[-> _]].
  - naive_solver.
Qed.

Lemma pull_orders env s repo base title body patchFile broker t code q :
  knows_tokens env s -> exec (github_open_pr env repo base title body patchFile broker) t code -> base_url (TrimSpace broker) ->
  q ∈ omap cposted t ->
  exists patch mode, Obs (CReadFile patchFile) (Ok (Some (patch, mode))) ∈ t
    /\ (json_length (open_pr_payload repo title body (l2s patch) base) <= 5 * 2 ^ 20 -> reaches s q (OPull {|
    op_Repo := TrimSpace repo; op_Base := TrimSpace base; op_Title := TrimSpace title; op_Body := body; op_Patch := l2s patch;
    op_CommitMessage := ""; op_Branch := ""; op_Draft := false |})).
Proof using Type.
  intros [Ha _] Hx Hb Hin. revert q Hin. apply list.Forall_forall. eapply posts_only, Hx. clear Hx.
  unfold github_open_pr, read_file, die, usage_exit. case_decide; [by calls|]. cbv zeta. case_decide as Htok; [by calls|].
  apply (safe_bind _ _ _ _ (fun r => forall b, r = Ok b -> exists mode, Obs (CReadFile patchFile) (Ok (Some (b, mode))) ∈ t)).
  { apply (safe_bind _ _ _ _ (fun r => Obs (CReadFile patchFile) r ∈ t)); [by apply safe_trigger|].
    intros [[[b mode]|]|e] Hin; apply safe_ret; [|done..]. intros ? [= <-]. eauto. }
  intros [patch|e] Hread; unfold or_die at 1; [|by calls]. destruct (Hread patch eq_refl) as [mode Hin].
  apply post_answer; [|intros a; by calls]. exists patch, mode. split; [done|]. intros Hl addr id. destruct Ha as [?|Ha]; [done|].
  eapply (posted_order s _ (TrimSpace broker) ["v1"; "github"; "open-pr"]); try done.
  - by repeat (constructor; [by apply (bool_decide_unpack _)|]).
  - split; [apply decode_open_pr | exact Hl].
  - unfold broker_post. cbn [hr_Headers]. by rewrite decide_True.
  - apply TrimSpace_idemp.
  - by left.
Qed.

(** ** Requests of the webhook *)

Lemma hook_tokens env h s : hook_config env = Ok h -> knows_tokens env s ->
  wh_brokerToken h <> "" /\ TrimSpace (wh_brokerToken h) = wh_brokerToken h
  /\ (wh_brokerHeader h = "X-Broker-Admin-Token" /\ wh_brokerToken h = s_adminToken s
      \/ wh_brokerHeader h = "X-Broker-Webhook-Token" /\ wh_brokerToken h = s_webhookToken s).
Proof using Type.
  unfold hook_config. cbv zeta. intros Hc [Ha Hw]. do 4 (case_decide; [done|]).
  case_decide as Hwt; [injection Hc as <-; cbn | case_decide as Hat; [injection Hc as <-; cbn | done]].
  - split; [done|]. split; [apply TrimSpace_idemp|]. right. split; [done|]. by destruct Hw.
  - split; [done|]. split; [apply TrimSpace_idemp|]. left. split; [done|]. by destruct Ha.
Qed.

Definition hook_approval (h : hookserver) (ns name : string) (body : approveNetworkGrantRequest) : order :=
  if decide (wh_brokerHeader h = "X-Broker-Webhook-Token") then OApproveGitHub ns name body else OApprove ns name body.

Lemma hook_approve_orders env h s ev cmd q :
  hook_config env = Ok h -> knows_tokens env s -> base_url (wh_brokerBaseURL h) ->
  parseNetgrantApproveCommand (ic_Body ev) = Some cmd -> segment (nc_Namespace cmd) -> segment (nc_Name cmd) ->
  approve_order h ev = Some q ->
  reaches s q (hook_approval h (nc_Namespace cmd) (nc_Name cmd) (approval (comment_actor ev) (comment_reason ev) (nc_TTL cmd))).
Proof using Type.
  intros Hc Hk Hb Hp Hns Hn. unfold approve_order. rewrite Hp. cbn [mbind option_bind]. case_decide; [|done].
  intros [= <-] addr id. destruct (hook_tokens _ _ _ Hc Hk) as (Hne & Htr & Hh).
  assert (Hd : decode_approval (VObj ([("approvedBy", VStr (comment_actor ev)); ("reason", VStr (comment_reason ev))]
    ++ match nc_TTL cmd with Some t => [("ttlSeconds", VInt t)] | None => [] end))
    = Some (approval (comment_actor ev) (comment_reason ev) (nc_TTL cmd))).
  { apply decode_hook_approve. intros n Hn'. by eapply approve_ttl. }
  unfold hook_approval, approve_request. case_decide as Hw.
  - eapply (posted_order s _ (wh_brokerBaseURL h) ["v1"; "network-grants"; nc_Namespace cmd; nc_Name cmd; "approve-github"] _ _ _ _ addr id);
      [done | apply (approve_path _ _ _ "approve-github") | done | apply approve_segments; auto | done | done | exact Hd | done | done | done|].
    destruct Hh as [[Hh ?]|[Hh ?]]; [congruence | by right].
  - eapply (posted_order s _ (wh_brokerBaseURL h) ["v1"; "network-grants"; nc_Namespace cmd; nc_Name cmd; "approve"] _ _ _ _ addr id);
      [done | apply (approve_path _ _ _ "approve") | done | apply approve_segments; auto | done | done | exact Hd | done | done | done|].
    destruct Hh as [[Hh ?]|[Hh ?]]; [by left | congruence].
Qed.

Lemma hook_run_orders env h s ev cmd q :
  hook_config env = Ok h -> knows_tokens env s -> base_url (wh_brokerBaseURL h) -> in64 (ic_Number ev) ->
  parseAgentRunCommand (ic_Body ev) = Some cmd -> run_order h ev = Some q ->
  reaches s q (OJob (meant_job (TrimSpace (rc_PolicyProfile cmd)) (default 0 (rc_TTL cmd))
    {| gr_Repo := comment_repo ev; gr_PullNumber := ic_Number ev; gr_Actor := comment_actor ev;
       gr_CommentURL := TrimSpace (ic_HTMLURL ev) |})).
Proof using Type.
  intros Hc Hk Hb Hi Hp. unfold run_order. rewrite Hp. cbn [mbind option_bind]. case_decide; [|done].
  intros [= <-] addr id. destruct (hook_tokens _ _ _ Hc Hk) as (Hne & Htr & Hh).
  eapply (posted_order s _ (wh_brokerBaseURL h) ["v1"; "agent-jobs"] _ _ (wh_brokerHeader h) (wh_brokerToken h)); try done.
  - by repeat (constructor; [by apply (bool_decide_unpack _)|]).
  - apply decode_hook_job; [done|]. intros n Hn. by eapply run_ttl.
  - naive_solver.
Qed.

(** C39: Orders arrive.  Let the clients of a broker know its tokens (or have none),
    and have an absolute base URL without a path; numbers of flags fit their fields, the
    namespace and the name of an approval have no slash, question mark or hash, and the
    body of a pull request has at most 5 MiB.  Then every request wsctl and the webhook
    send to the broker is routed to the handler of its order, which is given what the
    flags or the comment say and does not refuse the caller: a grant request with the
    parsed rules (one port from 1 to 65535 each), an approval of the named grant, a run
    on the named pull request, a pull request with the patch file.  The texts of a body
    arrive as JSON passes them ([json_order]): as they are where they are valid UTF-8,
    with U+FFFD for each byte that belongs to no encoding otherwise. *)
Theorem orders_reach_broker env s : knows_tokens env s ->
  (forall f t code q, exec (netgrant_request env f) t code -> base_url (rf_broker f) -> in32 (rf_ttl f) ->
     in64 (rf_ghPR f) -> q ∈ omap cposted t ->
     exists rules mode, parseEgressRules (rf_egress f) = Ok rules /\ policy_mode (rf_policyMode f) = Ok mode
       /\ Forall (fun r : string * Z => 1 <= r.2 <= 65535) rules /\ reaches s q (OGrant (meant_grant f rules mode)))
  /\ (forall ns name who ttl reason broker t code q, exec (netgrant_approve env ns name who ttl reason broker) t code ->
       base_url (TrimSpace broker) -> segment (TrimSpace ns) -> segment (TrimSpace name) -> in32 ttl -> q ∈ omap cposted t ->
       reaches s q (OApprove (TrimSpace ns) (TrimSpace name) (approval (TrimSpace who) (TrimSpace reason) (positive_opt ttl))))
  /\ (forall repo pr profile ttl broker t code q, exec (agent_run_pr env repo pr profile ttl broker) t code ->
       base_url broker -> in64 pr -> in32 ttl -> q ∈ omap cposted t ->
       reaches s q (OJob (meant_job (TrimSpace profile) (if 0 <? ttl then ttl else 0)
         {| gr_Repo := TrimSpace repo; gr_PullNumber := pr; gr_Actor := ""; gr_CommentURL := "" |})))
  /\ (forall repo base title body patchFile broker t code q, exec (github_open_pr env repo base title body patchFile broker) t code ->
       base_url (TrimSpace broker) -> q ∈ omap cposted t ->
       exists patch mode, Obs (CReadFile patchFile) (Ok (Some (patch, mode))) ∈ t
         /\ (json_length (open_pr_payload repo title body (l2s patch) base) <= 5 * 2 ^ 20 -> reaches s q (OPull {|
           op_Repo := TrimSpace repo; op_Base := TrimSpace base; op_Title := TrimSpace title; op_Body := body;
           op_Patch := l2s patch; op_CommitMessage := ""; op_Branch := ""; op_Draft := false |})))
  /\ forall h, hook_config env = Ok h -> base_url (wh_brokerBaseURL h) -> forall ev q,
       (forall cmd, parseNetgrantApproveCommand (ic_Body ev) = Some cmd -> segment (nc_Namespace cmd) -> segment (nc_Name cmd) ->
          approve_order h ev = Some q -> reaches s q (hook_approval h (nc_Namespace cmd) (nc_Name cmd)
            (approval (comment_actor ev) (comment_reason ev) (nc_TTL cmd))))
       /\ (forall cmd, in64 (ic_Number ev) -> parseAgentRunCommand (ic_Body ev) = Some cmd -> run_order h ev = Some q ->
          reaches s q (OJob (meant_job (TrimSpace (rc_PolicyProfile cmd)) (default 0 (rc_TTL cmd))
            {| gr_Repo := comment_repo ev; gr_PullNumber := ic_Number ev; gr_Actor := comment_actor ev;
               gr_CommentURL := TrimSpace (ic_HTMLURL ev) |}))).
Proof using Type.
  intros Hk. split_and!.
  - intros f t code q Hx Hb Ht Hp Hin.
    destruct (request_orders _ _ _ _ _ _ Hk Hx Hb Ht Hp Hin) as (rules & mode & Hr & Hm & Hq). exists rules, mode.
    split; [done|]. split; [done|]. split; [by eapply parse_rules | done].
  - intros. by eapply approve_orders.
  - intros. by eapply run_orders.
  - intros. by eapply pull_orders.
  - intros h Hc Hb ev q. split; [intros; by eapply hook_approve_orders | intros; by eapply hook_run_orders].
Qed.
End orders.

(** The broker trims the token of a request but not its own: with a blank around the
    value of BROKER_ADMIN_TOKEN or BROKER_WEBHOOK_TOKEN (a final line break, say)
    nobody is let in. *)
Lemma untrimmed_token_refused s r :
  TrimSpace (s_adminToken s) <> s_adminToken s -> TrimSpace (s_webhookToken s) <> s_webhookToken s ->
  requireAdmin s r <> Ok tt /\ requireWebhook s r <> Ok tt.
Proof.
  intros Ha Hw. assert (Hn : forall tok k, TrimSpace tok <> tok -> TrimSpace (hq_Header r k) <> tok).
  { intros tok k Ht <-. apply Ht, TrimSpace_idemp. }
  unfold requireAdmin, requireWebhook, admin_header. split.
  - case_decide; [done|]. cbv zeta. rewrite decide_True; [done|]. right. by apply Hn.
  - rewrite bool_decide_eq_false_2 by (intros [_ ?]; by eapply (Hn (s_adminToken s))).
    case_decide; [done|]. cbv zeta. rewrite decide_True; [done|]. right. by apply Hn.
Qed.

(** A patch of a file in another encoding does not arrive: [json.Marshal] replaces its
    bytes without a word, and the broker applies a different patch. *)
Lemma latin1_patch_altered : exists patch r,
  decode_pr_request (json_sent (open_pr_payload "o/r" "t" "" patch "")) = Some r /\ op_Patch r <> patch
  /\ String.length patch <> String.length (op_Patch r).
Proof.
  exists (l2s [byte 43; byte 99; byte 97; byte 102; byte 233]). eexists. split; [vm_compute; reflexivity|]. by vm_compute.
Qed.

(** * A request *)

Definition order_env (k : string) : string := if decide (k = "BROKER_ADMIN_TOKEN") then "admin" else "".
Definition order_flags : request_flags := {|
  rf_namespace := "agents"; rf_agentJob := "job-1"; rf_purpose := "fetch"; rf_policyMode := "auto"; rf_ttl := 600;
  rf_allowNon443 := false; rf_egress := ["api.example.com"; "x.example.com:8443"]; rf_dnsAllow := [" cdn.example.com "; ""];
  rf_broker := "http://broker:8080"; rf_ghRepo := "o/r"; rf_ghPR := 7 |}.
Definition order_server : server := {|
  s_audit := false; s_jobJWTSecret := "secret"; s_adminToken := "admin"; s_webhookToken := ""; s_gh := None;
  s_netPolicy := demo_policy; s_artifacts := false; s_kube := false; s_redact := None; s_env := fun _ => "" |}.
Definition order_world (X : Type) (e : ceff X) : unit -> X * unit :=
  match e in ceff T return unit -> T * unit with
  | CBase e => echo_world 0 (fun _ _ _ => Err NotFound) (fun _ => []) (fun _ => Ok {| hp_Status := 201; hp_Body := "{}" |}) _ e
  | COut _ | CErr _ | COutError _ | CShow _ _ | CShowDiff _ _ _ => fun u => (tt, u)
  | CConnect | CMkdirAll _ _ | CWriteFile _ _ _ => fun u => (Ok tt, u)
  | CReadFile _ => fun u => (Ok None, u)
  | CRun _ => fun u => (Ok 0, u)
  end.
Definition order_run : Z * list cobs * unit := run order_world (netgrant_request order_env order_flags) tt.
Definition order_sent : HttpRequest :=
  broker_post "http://broker:8080/v1/network-grants" "X-Broker-Admin-Token" "admin"
    (request_payload order_flags [("api.example.com", 443); ("x.example.com", 8443)] None).

Example order_sent_ex : order_run.1.1 = 0 /\ omap cposted order_run.1.2 = [order_sent].
Proof. vm_compute. done. Qed.

Lemma orders_reach_broker_witness : exists rules mode,
  reaches (fun _ _ => Err (Errorf "" [])) demo_parse (fun _ => Err (Errorf "" [])) (fun _ => Err (Errorf "" []))
    (fun _ => Err (Errorf "" [])) (fun _ => Err (Errorf "" [])) (fun _ => Err (Errorf "" [])) (fun _ => Err (Errorf "" []))
    (fun _ _ _ => Err (Errorf "" [])) (fun _ => 0) order_server order_sent (OGrant (meant_grant order_flags rules mode)).
Proof.
  destruct (orders_reach_broker (fun _ _ => Err (Errorf "" [])) demo_parse (fun _ => Err (Errorf "" [])) (fun _ => Err (Errorf "" []))
    (fun _ => Err (Errorf "" [])) (fun _ => Err (Errorf "" [])) (fun _ => Err (Errorf "" [])) (fun _ => Err (Errorf "" []))
    (fun _ _ _ => Err (Errorf "" [])) (fun _ => 0) order_env order_server) as (Hr & _).
  - split; right; reflexivity.
  - destruct (Hr order_flags order_run.1.2 order_run.1.1 order_sent) as (rules & mode & _ & _ & _ & H).
    + exact (run_is_exec order_world _ tt).
    + exists "http:", "broker:8080". split; [done|]. split; by apply (bool_decide_unpack _).
    + split; vm_compute; congruence.
    + split; vm_compute; congruence.
    + rewrite (proj2 order_sent_ex). by left.
    + by exists rules, mode.
Defined.
