(* ===== verification/Doctor.v ===== *)
(** [wsctl doctor] (src/cmd/wsctl/doctor.go): the checks of a cluster and the
    verdict.

    An answer of the API server is what the check reads of the object.  A check gives
    its details, its fix and its error; the per-check timeout only shows as errors of
    the calls.  Theorem: the exit code is 0 exactly when every required check of the
    mode passed, and what a passed check has seen. *)
From S2P Require Export CliEnv.
From S2P Require NetPolicy.
From stdpp Require Import options.
Open Scope Z_scope.

Inductive deff : Type -> Type :=
| DOut (s : string) : deff unit
| DDie (e : error) : deff unit                                     (* dieIf *)
(* newRestConfig, dynamic.NewForConfig and newK8sClientWithConfig; the host *)
| DConnect : deff (result error string)
(* objects of the dynamic client: the resource, the namespace and the name; its driver *)
| DGet (resource ns name : string) : deff (result error string)
| DListPolicies : deff (result error unit)                         (* validatingadmissionpolicies *)
| DNamespace (name : string) : deff (result error (gmap string string))          (* its labels *)
| DSecret (ns name : string) : deff (result error (gmap string string))
| DConfigMap (ns name : string) : deff (result error (gmap string string))
(* spec.replicas and status.availableReplicas *)
| DDeployment (ns name : string) : deff (result error (option Z * Z))
| DService (ns name : string) : deff (result error unit)
| DNodes : deff (result error (list (gmap string string)))        (* the labels of the nodes *)
| DStorageClass (name : string) : deff (result error string).      (* its provisioner *)
Notation dprog := (prog deff).
Notation dobs := (obs deff).

(** What a check returns: the details, the fix and the error. *)
Definition checked : Type := string * string * option error.
Record check := { ck_required : bool; ck_name : string; ck_run : dprog checked }.

Definition err_of {A} (r : result error A) : option error := match r with Ok _ => None | Err e => Some e end.

(** * The helpers *)

Definition getCRD (name : string) : dprog (result error string) := trigger (DGet "customresourcedefinitions" "" name).

Definition mustGetNamespace (name : string) : dprog (option error) :=
  if decide (TrimSpace name = "") then mret (Some (Errorf "empty namespace name" [])) else
  r ← trigger (DNamespace (TrimSpace name)); mret (err_of r).

Definition checkDeploymentReady (ns name fix_ : string) : dprog checked :=
  r ← trigger (DDeployment ns name);
  mret (match r with
        | Err e => ("", fix_, Some e)
        | Ok (replicas, avail) =>
            let desired := default 1 replicas in
            if desired =? 0 then ("replicas=0 available=" +:+ Itoa avail, fix_, Some (Errorf "scaled to 0" []))
            else if avail <? desired
            then ("available=" +:+ Itoa avail +:+ " desired=" +:+ Itoa desired, fix_, Some (Errorf "not ready" []))
            else ("available=" +:+ Itoa avail, "", None)
        end).

(** The first definition that is missing. *)
Fixpoint check_crds (names : list string) (fix_ : string) : dprog checked :=
  match names with
  | [] => mret ("", "", None)
  | n :: rest =>
      r ← getCRD n;
      match r with Err e => mret ("", fix_, Some e) | Ok _ => check_crds rest fix_ end
  end.

(** An object of the dynamic client that must be there. *)
Definition check_object (resource ns name fix_ details : string) : dprog checked :=
  r ← trigger (DGet resource ns name);
  mret (match r with Err e => ("", fix_, Some e) | Ok _ => (details, "", None) end).

Definition base_fix : string := "Apply the base manifests: `kubectl apply -k k8s`.".

(** * The checks *)

Section doctor.
Context (json_valid : string -> bool).     (* json.Unmarshal into any succeeds *)

Record doctor_flags := {
  dc_mode : string; dc_agentRuntime : string; dc_storageDriver : string; dc_snapshotClass : string;
  dc_systemNamespace : string; dc_agentsNamespace : string; dc_desktopsNS : string;
}.

Definition snapshot_crds : list string :=
  ["volumesnapshots.snapshot.storage.k8s.io"; "volumesnapshotclasses.snapshot.storage.k8s.io";
   "volumesnapshotcontents.snapshot.storage.k8s.io"].
Definition workspace_crds : list string :=
  ["desktops.workspaces.platform.dev"; "agentjobs.workspaces.platform.dev"; "hometemplates.workspaces.platform.dev";
   "networkgrants.workspaces.platform.dev"; "portshares.workspaces.platform.dev"].

Definition req (name : string) (p : dprog checked) : check := {| ck_required := true; ck_name := name; ck_run := p |}.
Definition opt (name : string) (p : dprog checked) : check := {| ck_required := false; ck_name := name; ck_run := p |}.

Definition preflight_checks (f : doctor_flags) : list check :=
  [ req "Cilium CRD (CiliumNetworkPolicy)" (
      r ← getCRD "ciliumnetworkpolicies.cilium.io";
      mret ("", "Install Cilium (required) and ensure the Cilium CRDs are registered.", err_of r));
    opt "ValidatingAdmissionPolicy support (optional)" (
      r ← trigger DListPolicies;
      mret (match r with Err e => ("", "If you want CEL admission guardrails, upgrade the cluster to a version that supports ValidatingAdmissionPolicy.", Some e) | Ok _ => ("supported", "", None) end));
    req "CSI snapshot CRDs (VolumeSnapshot*)" (check_crds snapshot_crds "Install the external-snapshotter CRDs + snapshot-controller (required for HomeTemplate snapshots).") ]
  ++ (let driverName := TrimSpace (dc_storageDriver f) in
      if decide (driverName <> "")
      then [req ("CSI driver " +:+ driverName) (check_object "csidrivers" "" driverName
             ("Install Longhorn (recommended) or configure your CSI driver; expected a CSIDriver named " +:+ driverName +:+ ".") "installed")] else [])
  ++ (let want := TrimSpace (dc_agentRuntime f) in
      if decide (want <> "")
      then [req ("RuntimeClass " +:+ want) (check_object "runtimeclasses" "" want
             ("Install Kata Containers and create a RuntimeClass named " +:+ want +:+ " (example: k8s/examples/runtimeclass-kata.yaml), or set DEFAULT_AGENT_RUNTIMECLASS.") "installed")] else []).

Definition check_namespace (ns : string) : check :=
  req ("Namespace " +:+ TrimSpace ns) (e ← mustGetNamespace (TrimSpace ns); mret ("", base_fix, e)).

Definition check_secret (sysNS : string) : check :=
  req "Secret capability-broker-secrets (job_jwt_secret)" (
    r ← trigger (DSecret sysNS "capability-broker-secrets");
    mret (match r with
          | Err e => ("", "Apply: `kubectl apply -f k8s/examples/capability-broker-secrets.yaml` (edit the placeholder values).", Some e)
          | Ok data => if decide (default "" (data !! "job_jwt_secret") = "")
                       then ("", "Ensure Secret workspaces-system/capability-broker-secrets contains a non-empty `job_jwt_secret` key.", Some (Errorf "missing job_jwt_secret key" []))
                       else ("present", "", None)
          end)).

(** The public egress mode of the broker's configuration, and its overrides. *)
Definition check_broker_config (data : gmap string string) : checked :=
  let raw_mode := default "" (data !! "broker_network_public_egress_mode") in
  let mode := ToLower (TrimSpace raw_mode) in
  let mode := if decide (mode = "") then "deny" else mode in
  if decide (mode <> "deny" /\ mode <> "allow")
  then ("", "Set capability-broker-config.data.broker_network_public_egress_mode to deny|allow.",
        Some (Errorf "invalid broker_network_public_egress_mode=%q" [VStr raw_mode])) else
  let raw := TrimSpace (default "" (data !! "broker_network_profile_overrides")) in
  if decide (raw <> "" /\ raw <> "{}" /\ json_valid raw = false)
  then ("", "Fix capability-broker-config.data.broker_network_profile_overrides to be valid JSON (or set it to '{}').",
        Some (Errorf "invalid broker_network_profile_overrides JSON" []))
  else ("mode=" +:+ mode, "", None).

Definition check_config (sysNS name : string) (look : gmap string string -> checked) : check :=
  req ("ConfigMap " +:+ name) (
    r ← trigger (DConfigMap sysNS name);
    mret (match r with Err e => ("", base_fix, Some e) | Ok data => look data end)).

Definition check_proxy_url (data : gmap string string) : checked :=
  let proxyURL := TrimSpace (default "" (data !! "agent_egress_proxy_url")) in
  if decide (proxyURL = "")
  then ("", "Set workspaces-operator-config.data.agent_egress_proxy_url to the egress-proxy Service URL (recommended).", Some (Errorf "agent_egress_proxy_url is empty" []))
  else ("agent_egress_proxy_url=" +:+ proxyURL, "", None).

Definition check_service (sysNS name : string) : check :=
  req ("Service " +:+ name) (
    r ← trigger (DService sysNS name);
    mret (match r with Err e => ("", base_fix, Some e) | Ok _ => ("port=8080", "", None) end)).

(** Nodes in a pool, by their labels. *)
Definition pool_count (pool : string) (nodes : list (gmap string string)) : Z :=
  Z.of_nat (length (filter (fun labels : gmap string string =>
    TrimSpace (default "" (labels !! "workspaces.platform.dev/pool")) = pool) nodes)).
Definition check_pools : check :=
  opt "Node pools labeled (workspaces.platform.dev/pool)" (
    r ← trigger DNodes;
    mret (match r with
          | Err e => ("", "", Some e)
          | Ok nodes =>
              let a := pool_count "agents" nodes in
              let d := pool_count "desktops" nodes in
              let text := "agents=" +:+ Itoa a +:+ " desktops=" +:+ Itoa d in
              if (a =? 0) || (d =? 0) then (text, "Label (and ideally taint) node pools for agents/desktops: workspaces.platform.dev/pool=agents|desktops (and taints matching the manifests).", Some (Errorf "missing one or more node pools" []))
              else (text, "", None)
          end)).

(** The namespaces without a pod security level; those that cannot be read are skipped. *)
Fixpoint missing_pss (names : list string) : dprog (list string) :=
  match names with
  | [] => mret []
  | n :: rest =>
      if decide (n = "") then missing_pss rest else
      r ← trigger (DNamespace n);
      missing ← missing_pss rest;
      mret (match r with
            | Ok labels => if decide (TrimSpace (default "" (labels !! "pod-security.kubernetes.io/enforce")) = "")
                           then n :: missing else missing
            | Err _ => missing
            end)
  end.

Definition installed_checks (f : doctor_flags) : list check :=
  let sysNS := TrimSpace (dc_systemNamespace f) in
  let agentsNS := TrimSpace (dc_agentsNamespace f) in
  let desktopsNS := TrimSpace (dc_desktopsNS f) in
  [ check_namespace sysNS; check_namespace agentsNS; check_namespace desktopsNS;
    req "CRDs (workspaces.platform.dev)" (check_crds workspace_crds base_fix);
    check_secret sysNS;
    check_config sysNS "capability-broker-config" check_broker_config;
    check_config sysNS "workspaces-operator-config" check_proxy_url;
    req "Deployment workspaces-operator" (checkDeploymentReady sysNS "workspaces-operator" base_fix);
    req "Deployment capability-broker" (checkDeploymentReady sysNS "capability-broker" base_fix);
    req "Deployment egress-proxy" (checkDeploymentReady sysNS "egress-proxy" base_fix);
    check_service sysNS "capability-broker"; check_service sysNS "egress-proxy";
    req "Cilium policy agents-default-deny"
      (check_object "ciliumnetworkpolicies" agentsNS "agents-default-deny" "Apply: `kubectl apply -f k8s/policies/agents-default-deny.yaml` (or `kubectl apply -k k8s`)." "present");
    req "Cilium policy agents-allow-internal-proxies"
      (check_object "ciliumnetworkpolicies" agentsNS "agents-allow-internal-proxies" "Apply: `kubectl apply -f k8s/policies/agents-allow-internal-proxies.yaml` (or `kubectl apply -k k8s`)." "present");
    req "Cilium policy egress-proxy-ingress"
      (check_object "ciliumnetworkpolicies" sysNS "egress-proxy-ingress" base_fix "present");
    check_pools;
    opt "StorageClass longhorn (recommended)" (
      r ← trigger (DStorageClass "longhorn");
      mret (match r with Err e => ("", "Install Longhorn and ensure a StorageClass named 'longhorn' exists (or adjust your Desktop/HomeTemplate specs).", Some e) | Ok p => ("provisioner=" +:+ TrimSpace p, "", None) end)) ]
  ++ (let className := TrimSpace (dc_snapshotClass f) in
      if decide (className <> "") then [opt ("VolumeSnapshotClass " +:+ className) (
        r ← trigger (DGet "volumesnapshotclasses" "" className);
        mret (match r with
              | Err e => ("", "Apply: `kubectl apply -f k8s/optional/storage/longhorn-volumesnapshotclass.yaml` (or `kubectl apply -k k8s-overlays/complete`).", Some e)
              | Ok driver => ("driver=" +:+ (if decide (driver = "") then "<unknown>" else driver), "", None)
              end))] else [])
  ++ [ opt "Hardened overlay (ValidatingAdmissionPolicy objects)"
         (check_object "validatingadmissionpolicies" "" "workspaces-agents-pod-hardening" "Apply: `kubectl apply -k k8s-overlays/hardened` (optional)." "present");
       opt "Pod Security Standards labels on namespaces" (
         missing ← missing_pss [sysNS; agentsNS; desktopsNS];
         mret (match missing with
               | [] => ("present", "", None)
               | _ => ("missing=" +:+ Join missing ",", "Apply: `kubectl apply -k k8s-overlays/hardened` (optional) to add namespace PSS labels.", Some (Errorf "missing PSS labels" []))
               end)) ].

(** * The run *)

(** What is printed of a check, its failures and warnings counted. *)
Definition run_check (counts : Z * Z) (c : check) : dprog (Z * Z) :=
  '(details, fix_, err) ← ck_run c;
  match err with
  | None =>
      _ ← trigger (DOut ("[PASS] " +:+ ck_name c
             +:+ if decide (TrimSpace details <> "") then " (" +:+ TrimSpace details +:+ ")" else ""));
      mret counts
  | Some e =>
      _ ← trigger (DOut ((if ck_required c then "[FAIL] " else "[WARN] ") +:+ ck_name c));
      _ ← (if decide (TrimSpace fix_ <> "") then trigger (DOut ("  Fix: " +:+ TrimSpace fix_)) else mret tt);
      mret (if ck_required c then (counts.1 + 1, counts.2) else (counts.1, counts.2 + 1))
  end.

Definition doctor_mode (raw : string) : option (bool * bool) :=
  let m := ToLower (TrimSpace raw) in
  if decide (m = "" \/ m = "all") then Some (true, true) else
  if decide (m = "preflight") then Some (true, false) else
  if decide (m = "installed") then Some (false, true) else None.

Definition cmdDoctor (f : doctor_flags) : dprog Z :=
  match doctor_mode (dc_mode f) with
  | None => _ ← trigger (DDie (Errorf "invalid --mode (expected preflight|installed|all)" [])); mret 1
  | Some mode =>
      c ← trigger DConnect;
      match c with
      | Err e => _ ← trigger (DDie e); mret 1
      | Ok host =>
          _ ← trigger (DOut ("wsctl doctor: api=" +:+ TrimSpace host));
          counts ← (if mode.1 then _ ← trigger (DOut "Preflight"); foldP run_check (preflight_checks f) (0, 0) else mret (0, 0));
          '(failures, warnings) ←
            (if mode.2 then _ ← trigger (DOut "Installed"); foldP run_check (installed_checks f) counts else mret counts);
          if failures =? 0 then
            _ ← trigger (DOut (if warnings =? 0 then "Result: OK" else "Result: OK (" +:+ Itoa warnings +:+ " warnings)"));
            mret 0
          else
            _ ← trigger (DOut ("Result: FAIL (" +:+ Itoa failures +:+ " failed, " +:+ Itoa warnings +:+ " warnings)"));
            mret 1
      end
  end.

(** * The verdict *)

(** The checks of a mode. *)
Definition doctor_checks (f : doctor_flags) (mode : bool * bool) : list check :=
  (if mode.1 then preflight_checks f else []) ++ (if mode.2 then installed_checks f else []).

(** The check was run, with this result, in some part of the trace. *)
Definition ran (t : list dobs) (c : check) (r : checked) : Prop :=
  exists t1 t2 t3, t = t1 ++ t2 ++ t3 /\ exec (ck_run c) t2 r.
Definition failed (c : check) (r : checked) : bool := ck_required c && bool_decide (is_Some r.2).
Definition failures (cs : list check) (rs : list checked) : Z :=
  Z.of_nat (length (filter (fun b : bool => b = true) (zip_with failed cs rs))).

Lemma ran_more t1 t2 t3 c r : ran t2 c r -> ran (t1 ++ t2 ++ t3) c r.
Proof using Type.
  intros (a & b & d & -> & Hx). exists (t1 ++ a), b, (d ++ t3). by rewrite <- !app_assoc.
Qed.

Lemma run_check_exec counts c t out : exec (run_check counts c) t out ->
  exists r, ran t c r /\ out.1 = counts.1 + (if failed c r then 1 else 0).
Proof using Type.
  unfold run_check. intros (t1 & t2 & [[details fix_] err] & -> & Hc & Hx)%exec_bind. exists (details, fix_, err). split.
  { by exists [], t1, t2. }
  unfold failed. cbn [snd]. destruct err as [e|].
  - apply exec_bind in Hx as (t3 & t4 & [] & -> & _ & Hx). apply exec_bind in Hx as (t5 & t6 & u & -> & _ & [_ ->]).
    destruct (ck_required c); cbn [andb fst]; rewrite ?bool_decide_true by eauto; lia.
  - apply exec_bind in Hx as (t3 & t4 & [] & -> & _ & [_ ->]). rewrite bool_decide_false by by intros [? ?].
    rewrite andb_false_r. lia.
Qed.

Lemma checks_exec cs : forall counts t out, exec (foldP run_check cs counts) t out ->
  exists rs, Forall2 (ran t) cs rs /\ out.1 = counts.1 + failures cs rs.
Proof using Type.
  induction cs as [|c cs IH]; intros counts t out; cbn [foldP].
  { intros [_ ->]. exists []. split; [constructor | unfold failures; cbn; lia]. }
  intros (t1 & t2 & mid & -> & Hc & Hx)%exec_bind. apply run_check_exec in Hc as (r & Hr & Hm).
  apply IH in Hx as (rs & Hrs & Ho). exists (r :: rs). split.
  - constructor; [by apply (ran_more [] t1) |]. eapply Forall2_impl; [|exact Hrs]. intros c' r' H.
    rewrite <- (app_nil_r t2). by apply ran_more.
  - unfold failures in *. cbn [zip_with]. rewrite filter_cons. rewrite Ho, Hm. destruct (failed c r).
    + rewrite decide_True by done. cbn [length]. lia.
    + rewrite decide_False by done. lia.
Qed.

(** What a passed check has read of the cluster. *)
Definition deployed (t : list dobs) (ns name : string) : Prop := exists replicas avail,
  Obs (DDeployment ns name) (Ok (replicas, avail)) ∈ t /\ default 1 replicas <> 0 /\ default 1 replicas <= avail.

Lemma deployment_passed t ns name fix_ r : exec (checkDeploymentReady ns name fix_) t r -> r.2 = None -> deployed t ns name.
Proof using Type.
  intros (x & t' & -> & -> & ->). destruct x as [[replicas avail]|e]; [|done].
  cbv zeta. destruct (default 1 replicas =? 0) eqn:Hz; [done|]. destruct (avail <? default 1 replicas) eqn:Hlt; [done|]. intros _.
  exists replicas, avail. split; [by left|]. split; [by apply Z.eqb_neq | by apply Z.ltb_ge].
Qed.

Lemma crds_passed names fix_ : forall t r, exec (check_crds names fix_) t r -> r.2 = None ->
  Forall (fun n => exists d, Obs (DGet "customresourcedefinitions" "" n) (Ok d) ∈ t) names.
Proof using Type.
  induction names as [|n names IH]; intros t r; cbn [check_crds]; [constructor|].
  intros (t1 & t2 & x & -> & ->%exec_trigger & Hx)%exec_bind Hr. destruct x as [d|e]; [|by destruct Hx as [_ ->]].
  constructor; [exists d; by left|]. eapply list.Forall_impl; [exact (IH _ _ Hx Hr)|]. intros m (d' & ?). exists d'. by right.
Qed.

Lemma all_passed cs rs : failures cs rs = 0 -> length cs = length rs ->
  Forall2 (fun c r => ck_required c = true -> r.2 = None) cs rs.
Proof using Type.
  revert rs. induction cs as [|c cs IH]; intros [|r rs] Hf Hl; try done.
  unfold failures in *. cbn [zip_with] in Hf. rewrite filter_cons in Hf.
  destruct (failed c r) eqn:Hc; [rewrite decide_True in Hf by done; cbn [length] in Hf; lia|].
  rewrite decide_False in Hf by done. constructor; [|apply IH; [done | cbn in Hl; lia]].
  intros Hreq. unfold failed in Hc. rewrite Hreq in Hc. apply bool_decide_eq_false in Hc. destruct r.2 eqn:E; [|done].
  exfalso. apply Hc. by eexists.
Qed.

(** A check that passed was run to the end without an error. *)
Definition passed (t : list dobs) (c : check) : Prop := exists r, ran t c r /\ r.2 = None.

(** The verdict: after a connection to the API server, doctor runs the checks of its
    mode and exits with 0 exactly if each required one passed, with 1 otherwise. *)
Lemma doctor_verdict f mode t code : exec (cmdDoctor f) t code -> doctor_mode (dc_mode f) = Some mode ->
  (code = 1 /\ exists e, Obs DConnect (Err e) ∈ t)
  \/ exists rs, Forall2 (ran t) (doctor_checks f mode) rs
       /\ code = (if failures (doctor_checks f mode) rs =? 0 then 0 else 1)
       /\ (code = 0 -> Forall (fun c => ck_required c = true -> passed t c) (doctor_checks f mode)).
Proof using Type.
  intros Hx Hm. unfold cmdDoctor in Hx. rewrite Hm in Hx. apply exec_bind in Hx as (t1 & t2 & c & -> & ->%exec_trigger & Hx).
  destruct c as [host|e]; cycle 1.
  { left. destruct Hx as ([] & ? & -> & -> & ->). split; [done|]. exists e. by left. }
  right. apply exec_bind in Hx as (t1 & t3 & [] & -> & ->%exec_trigger & Hx).
  apply exec_bind in Hx as (t1 & t4 & counts & -> & Hpre & Hx). apply exec_bind in Hx as (t5 & t6 & [fl wn] & -> & Hins & Hx).
  assert (Hphase : forall (b : bool) msg cs c0 tp out,
    exec (if b then _ ← trigger (DOut msg); foldP run_check cs c0 else mret c0) tp out ->
    exists rs, Forall2 (ran tp) (if b then cs else []) rs /\ out.1 = c0.1 + failures (if b then cs else []) rs).
  { intros [] msg cs c0 tp out Hp; [|destruct Hp as [_ ->]; exists []; split; [constructor | unfold failures; cbn; lia]].
    apply exec_bind in Hp as (s1 & s2 & [] & -> & _ & Hp). apply checks_exec in Hp as (rs & Hrs & Ho). exists rs. split; [|done].
    eapply Forall2_impl; [|exact Hrs]. intros c r H. rewrite <- (app_nil_r s2). by apply ran_more. }
  apply Hphase in Hpre as (rs1 & H1 & Hc1), Hins as (rs2 & H2 & Hc2). cbn [fst] in *.
  assert (Hrs : Forall2 (ran ([Obs DConnect (Ok host)] ++ [Obs (DOut ("wsctl doctor: api=" +:+ TrimSpace host)) tt] ++ t1 ++ t5 ++ t6))
    (doctor_checks f mode) (rs1 ++ rs2)).
  { unfold doctor_checks. apply Forall2_app; (eapply Forall2_impl; [|eassumption]); intros c r H.
    - rewrite (assoc_L (++)). by apply ran_more.
    - rewrite !(assoc_L (++)). rewrite <- (assoc_L (++) _ t5 t6). by apply ran_more. }
  assert (Hfl : fl = failures (doctor_checks f mode) (rs1 ++ rs2)).
  { rewrite Hc2, Hc1. unfold failures, doctor_checks. rewrite zip_with_app by (by eapply list.Forall2_length).
    rewrite list.filter_app, length_app. lia. }
  assert (Hcode : code = if fl =? 0 then 0 else 1).
  { destruct (fl =? 0); by destruct Hx as ([] & ? & -> & -> & ->). }
  exists (rs1 ++ rs2). split; [done|]. rewrite <- Hfl. split; [done|].
  intros Hz. assert (fl = 0) as Hf0 by (destruct (Z.eqb_spec fl 0); [done | congruence]).
  assert (Hp := all_passed _ _ (eq_trans (eq_sym Hfl) Hf0) (list.Forall2_length _ _ _ Hrs)).
  apply Forall_lookup. intros i c Hi Hreq. destruct (Forall2_lookup_l _ _ _ _ _ Hrs Hi) as (r & Hr & Hran).
  exists r. split; [done|]. exact (Forall2_lookup_lr _ _ _ _ _ _ Hp Hi Hr Hreq).
Qed.

Lemma passed_in t t0 (P : list dobs -> Prop) c : passed t c ->
  (forall t' r, exec (ck_run c) t' r -> r.2 = None -> P t') ->
  (forall t1 t2 t3, P t2 -> P (t1 ++ t2 ++ t3)) -> t = t0 -> P t0.
Proof using Type.
  intros (r & (t1 & t2 & t3 & -> & Hx) & Hr) HP Hmore <-. by apply Hmore, (HP _ _ Hx Hr).
Qed.

(** What a successful run in a mode with the installed checks has seen. *)
Lemma doctor_sees f mode t : mode.2 = true ->
  Forall (fun c => ck_required c = true -> passed t c) (doctor_checks f mode) ->
  let sys := TrimSpace (dc_systemNamespace f) in
  Forall (deployed t sys) ["workspaces-operator"; "capability-broker"; "egress-proxy"]
  /\ Forall (fun n => exists d, Obs (DGet "customresourcedefinitions" "" n) (Ok d) ∈ t) workspace_crds
  /\ (exists data, Obs (DSecret sys "capability-broker-secrets") (Ok data) ∈ t /\ default "" (data !! "job_jwt_secret") <> "")
  /\ (exists data, Obs (DConfigMap sys "capability-broker-config") (Ok data) ∈ t /\ (check_broker_config data).2 = None).
Proof using Type.
  intros Hm Hall sys. rewrite list.Forall_forall in Hall.
  assert (Hin : forall c, c ∈ installed_checks f -> ck_required c = true -> passed t c).
  { intros c Hc. apply Hall. unfold doctor_checks. rewrite Hm. apply elem_of_app. by right. }
  assert (Hdep : forall name c, c ∈ installed_checks f -> ck_required c = true ->
    ck_run c = checkDeploymentReady sys name base_fix -> deployed t sys name).
  { intros name c Hc Hr Hrun. eapply (passed_in t t (fun t => deployed t sys name) c); [by apply Hin| |
      intros t1 t2 t3 (a & b & ? & ?); exists a, b; split; [rewrite !elem_of_app; auto | done] | done].
    intros t' r Hx. rewrite Hrun in Hx. by eapply deployment_passed. }
  unfold installed_checks in Hin, Hdep. split_and!.
  - pose (ck := fun name => req ("Deployment " +:+ name) (checkDeploymentReady sys name base_fix)).
    constructor; [apply (Hdep _ (ck "workspaces-operator")); [apply elem_of_app; left; by do 7 right; left | done..]|].
    constructor; [apply (Hdep _ (ck "capability-broker")); [apply elem_of_app; left; by do 8 right; left | done..]|].
    constructor; [apply (Hdep _ (ck "egress-proxy")); [apply elem_of_app; left; by do 9 right; left | done..]|constructor].
  - eapply (passed_in t t (fun t => Forall (fun n => exists d, Obs (DGet "customresourcedefinitions" "" n) (Ok d) ∈ t) workspace_crds)
      (req "CRDs (workspaces.platform.dev)" (check_crds workspace_crds base_fix))); [apply Hin; [apply elem_of_app; left; by do 3 right; left | done]| | | done].
    + intros t' r Hx Hr. exact (crds_passed _ _ _ _ Hx Hr).
    + intros t1 t2 t3 HF. eapply list.Forall_impl; [exact HF|]. intros n [d ?]. exists d. rewrite !elem_of_app. auto.
  - eapply (passed_in t t (fun t => exists data, Obs (DSecret sys "capability-broker-secrets") (Ok data) ∈ t /\ default "" (data !! "job_jwt_secret") <> "")
      (check_secret sys)); [apply Hin; [apply elem_of_app; left; by do 4 right; left | done]| | | done].
    + intros t' r (x & ? & -> & -> & ->) Hr. destruct x as [data|e]; [|done]. exists data. split; [by left|].
      revert Hr. clear. case_decide as Hd; [done|]. intros _. exact Hd.
    + intros t1 t2 t3 (data & ? & ?). exists data. split; [rewrite !elem_of_app; auto | done].
  - eapply (passed_in t t (fun t => exists data, Obs (DConfigMap sys "capability-broker-config") (Ok data) ∈ t /\ (check_broker_config data).2 = None)
      (check_config sys "capability-broker-config" check_broker_config)); [apply Hin; [apply elem_of_app; left; by do 5 right; left | done]| | | done].
    + intros t' r (x & ? & -> & -> & ->) Hr. destruct x as [data|e]; [|done]. exists data. split; [by left | done].
    + intros t1 t2 t3 (data & ? & ?). exists data. split; [rewrite !elem_of_app; auto | done].
Qed.
End doctor.

(** The broker's own reading of the configuration is stricter: of a blank mode the
    check says that it is deny, and the broker does not start with it. *)
Lemma doctor_passes_blank_mode json_valid decode h :
  (check_broker_config json_valid {["broker_network_public_egress_mode" := " "]}).2 = None
  /\ is_ok (NetPolicy.newNetworkGrantPolicyFromEnv decode
       (fun k => if decide (k = "BROKER_NETWORK_PUBLIC_EGRESS_MODE") then " " else "") h) = false.
Proof. split; reflexivity. Qed.
