(* ===== verification/WsctlMain.v ===== *)
(** The command line of [wsctl] (src/cmd/wsctl): its commands, the flags of each
    with their defaults, and what is run ([flag] is modelled in GoFlag.v). *)
From S2P Require Import NetPolicy.
From S2P Require Export GoFlag SshConfig WsProxy Wsctl Doctor.
From stdpp Require Import options.
Open Scope Z_scope.

(** What a command line comes to: a program of the command-line calls, one of the
    calls of [doctor] (with the per-check timeout), or an exit with the usage. *)
Inductive wsctl_call :=
| Run (p : cprog Z)
| RunDoctor (timeout : Z) (p : dprog Z)
| Exit (code : Z).

(** [flag.ExitOnError] *)
Definition with_flags (defaults : flagset) (args : list string)
    (k : flagset -> list string -> wsctl_call) : wsctl_call :=
  match flag_parse defaults args with
  | Parsed fl rest => k fl rest
  | FlagHelp => Exit 0
  | FlagError => Exit 2
  end.

(** The flags of the commands that look an object up by its name. *)
Definition name_flags (namespace : string) : flagset :=
  {["name" := FString ""; "namespace" := FString namespace]}.
Definition name_command (namespace : string) (args : list string) (p : string -> string -> cprog Z) : wsctl_call :=
  with_flags (name_flags namespace) args (fun fl _ => Run (p (flag_string fl "name") (flag_string fl "namespace"))).
Definition list_flags (namespace : string) : flagset := {["namespace" := FString namespace]}.
Definition list_command (namespace : string) (args : list string) (p : string -> cprog Z) : wsctl_call :=
  with_flags (list_flags namespace) args (fun fl _ => Run (p (flag_string fl "namespace"))).

(** * desktop *)

Definition desktop_create_flags : flagset := {[
  "name" := FString ""; "namespace" := FString "desktops"; "user" := FString ""; "image" := FString "";
  "ssh-key-file" := FString ""; "home-size" := FString "50Gi"; "storage-class" := FString "";
  "connectivity" := FString "portforward"; "idle-timeout" := FInt 0; "suspended" := FBool false ]}.
Definition desktop_create_of (fl : flagset) : desktop_flags := {|
  df_name := flag_string fl "name"; df_namespace := flag_string fl "namespace"; df_user := flag_string fl "user";
  df_image := flag_string fl "image"; df_sshKeyFile := flag_string fl "ssh-key-file";
  df_homeSize := flag_string fl "home-size"; df_storageClass := flag_string fl "storage-class";
  df_connectivity := flag_string fl "connectivity"; df_idleTimeout := flag_int fl "idle-timeout";
  df_suspended := flag_bool fl "suspended" |}.

Definition cmdDesktop (args : list string) : wsctl_call :=
  match args with
  | [] => Exit 2
  | sub :: args =>
      if decide (sub = "create") then
        with_flags desktop_create_flags args (fun fl _ => Run (desktop_create (desktop_create_of fl)))
      else if decide (sub = "get") then name_command "desktops" args desktop_get
      else if decide (sub = "list") then list_command "desktops" args desktop_list
      else if decide (sub = "delete") then name_command "desktops" args desktop_delete
      else if decide (sub = "suspend" \/ sub = "resume") then
        name_command "desktops" args (desktop_suspend (bool_decide (sub = "suspend")))
      else Exit 2
  end.

(** * agent *)

Definition agent_create_flags : flagset := {[
  "name" := FString ""; "namespace" := FString "agents";
  "image" := FString "ghcr.io/haasonsaas/workspaces-agent-runner:latest"; "script" := FString "";
  "workdir" := FString ""; "shell" := FString "echo hello from agent";
  "policy-profile" := FString "restricted"; "ttl" := FInt 3600 ]}.
Definition agent_create_of (fl : flagset) : agent_flags := {|
  af_name := flag_string fl "name"; af_namespace := flag_string fl "namespace"; af_image := flag_string fl "image";
  af_script := flag_string fl "script"; af_workdir := flag_string fl "workdir"; af_shell := flag_string fl "shell";
  af_profile := flag_string fl "policy-profile"; af_ttl := flag_int fl "ttl" |}.
Definition run_pr_flags (env : string -> string) : flagset := {[
  "repo" := FString ""; "pr" := FInt 0; "policy-profile" := FString ""; "ttl" := FInt 0;
  "broker" := FString (getenv env "WORKSPACES_BROKER_URL" "") ]}.

Definition cmdAgent (env : string -> string) (args : list string) : wsctl_call :=
  match args with
  | [] => Exit 2
  | sub :: args =>
      if decide (sub = "create") then
        with_flags agent_create_flags args (fun fl _ => Run (agent_create (agent_create_of fl)))
      else if decide (sub = "run-pr") then
        with_flags (run_pr_flags env) args (fun fl _ =>
          Run (agent_run_pr env (flag_string fl "repo") (flag_int fl "pr") (flag_string fl "policy-profile")
                 (flag_int fl "ttl") (flag_string fl "broker")))
      else if decide (sub = "get") then name_command "agents" args agent_get
      else if decide (sub = "list") then list_command "agents" args agent_list
      else if decide (sub = "delete") then name_command "agents" args agent_delete
      else Exit 2
  end.

(** * netgrant *)

Definition netgrant_request_flags (env : string -> string) : flagset := {[
  "namespace" := FString "agents"; "agentjob" := FString ""; "purpose" := FString "";
  "policy-mode" := FString "AUTO"; "ttl" := FInt 1800; "allow-non-443" := FBool false;
  "broker" := FString (getenv env "WORKSPACES_BROKER_URL" ""); "github-repo" := FString "";
  "github-pr" := FInt 0; "egress" := FMulti []; "dns-allow" := FMulti [] ]}.
Definition netgrant_request_of (fl : flagset) : request_flags := {|
  rf_namespace := flag_string fl "namespace"; rf_agentJob := flag_string fl "agentjob";
  rf_purpose := flag_string fl "purpose"; rf_policyMode := flag_string fl "policy-mode"; rf_ttl := flag_int fl "ttl";
  rf_allowNon443 := flag_bool fl "allow-non-443"; rf_egress := flag_multi fl "egress";
  rf_dnsAllow := flag_multi fl "dns-allow"; rf_broker := flag_string fl "broker";
  rf_ghRepo := flag_string fl "github-repo"; rf_ghPR := flag_int fl "github-pr" |}.
Definition netgrant_approve_flags (env : string -> string) : flagset := {[
  "namespace" := FString "agents"; "name" := FString ""; "approved-by" := FString ""; "ttl" := FInt 0;
  "reason" := FString ""; "broker" := FString (getenv env "WORKSPACES_BROKER_URL" "") ]}.

Definition cmdNetgrant (env : string -> string) (args : list string) : wsctl_call :=
  match args with
  | [] => Exit 2
  | sub :: args =>
      if decide (sub = "request") then
        with_flags (netgrant_request_flags env) args (fun fl _ => Run (netgrant_request env (netgrant_request_of fl)))
      else if decide (sub = "approve") then
        with_flags (netgrant_approve_flags env) args (fun fl _ =>
          Run (netgrant_approve env (flag_string fl "namespace") (flag_string fl "name")
                 (flag_string fl "approved-by") (flag_int fl "ttl") (flag_string fl "reason") (flag_string fl "broker")))
      else Exit 2
  end.

(** * github *)

Definition open_pr_flags (env : string -> string) : flagset := {[
  "repo" := FString ""; "base" := FString ""; "title" := FString ""; "body" := FString "";
  "patch-file" := FString ""; "broker" := FString (getenv env "WORKSPACES_BROKER_URL" "") ]}.
Definition cmdGitHub (env : string -> string) (args : list string) : wsctl_call :=
  match args with
  | [] => Exit 2
  | sub :: args =>
      if decide (sub = "open-pr") then
        with_flags (open_pr_flags env) args (fun fl _ =>
          Run (github_open_pr env (flag_string fl "repo") (flag_string fl "base") (flag_string fl "title")
                 (flag_string fl "body") (flag_string fl "patch-file") (flag_string fl "broker")))
      else Exit 2
  end.

(** * portshare *)

Definition portshare_create_flags : flagset := {[
  "name" := FString ""; "namespace" := FString "desktops"; "desktop" := FString ""; "port" := FInt 0;
  "share-level" := FString "owner"; "protocol" := FString "http"; "ttl" := FInt 0 ]}.
Definition portshare_create_of (fl : flagset) : portshare_flags := {|
  pf_name := flag_string fl "name"; pf_psnamespace := flag_string fl "namespace"; pf_desktop := flag_string fl "desktop";
  pf_port := flag_int fl "port"; pf_level := flag_string fl "share-level"; pf_proto := flag_string fl "protocol";
  pf_ttl := flag_int fl "ttl" |}.
Definition cmdPortShare (args : list string) : wsctl_call :=
  match args with
  | [] => Exit 2
  | sub :: args =>
      if decide (sub = "create") then
        with_flags portshare_create_flags args (fun fl _ => Run (portshare_create (portshare_create_of fl)))
      else if decide (sub = "get") then name_command "desktops" args portshare_get
      else if decide (sub = "list") then list_command "desktops" args portshare_list
      else if decide (sub = "delete") then name_command "desktops" args portshare_delete
      else Exit 2
  end.

(** * ssh-config, proxy, doctor *)

Definition ssh_config_flags (env : string -> string) : flagset :=
  <["proxy-command" := FString ""]> (<["wsctl-binary" := FString ""]> {[
  "file" := FString "~/.ssh/config"; "dry-run" := FBool false; "mode" := FString "pattern";
  "connectivity" := FString "portforward"; "skip-gateway" := FBool false; "gateway-alias" := FString "ws-gateway";
  "gateway-hostname" := FString ""; "gateway-user" := FString ""; "namespace" := FString "desktops";
  "host-prefix" := FString "desk-"; "cluster-domain" := FString ""; "desktop-user" := FString (env "USER") ]}).
Definition ssh_config_of (fl : flagset) : sshConfigOptions := {|
  so_FilePath := flag_string fl "file"; so_DryRun := flag_bool fl "dry-run"; so_Mode := flag_string fl "mode";
  so_Connectivity := flag_string fl "connectivity"; so_SkipGateway := flag_bool fl "skip-gateway";
  so_GatewayAlias := flag_string fl "gateway-alias"; so_GatewayHost := flag_string fl "gateway-hostname";
  so_GatewayUser := flag_string fl "gateway-user"; so_Namespace := flag_string fl "namespace";
  so_HostPrefix := flag_string fl "host-prefix"; so_ClusterDomain := flag_string fl "cluster-domain";
  so_DesktopUser := flag_string fl "desktop-user"; so_WsctlBinary := flag_string fl "wsctl-binary";
  so_ProxyCommand := flag_string fl "proxy-command" |}.

Definition wsctl_proxy_flags : flagset := {[
  "gateway" := FString "ws-gateway"; "namespace" := FString "desktops"; "host-prefix" := FString "desk-";
  "cluster-domain" := FString "" ]}.
Definition wsctl_proxy_of (fl : flagset) : proxy_flags := {|
  pf_gateway := flag_string fl "gateway"; pf_namespace := flag_string fl "namespace";
  pf_hostPrefix := flag_string fl "host-prefix"; pf_clusterDomain := flag_string fl "cluster-domain" |}.

Definition wsctl_doctor_flags : flagset := {[
  "mode" := FString "all"; "timeout" := FDuration (10 * second); "agent-runtimeclass" := FString "kata";
  "storage-driver" := FString "driver.longhorn.io"; "snapshot-class" := FString "longhorn";
  "system-namespace" := FString "workspaces-system"; "agents-namespace" := FString "agents";
  "desktops-namespace" := FString "desktops" ]}.
Definition wsctl_doctor_of (fl : flagset) : doctor_flags := {|
  dc_mode := flag_string fl "mode"; dc_agentRuntime := flag_string fl "agent-runtimeclass";
  dc_storageDriver := flag_string fl "storage-driver"; dc_snapshotClass := flag_string fl "snapshot-class";
  dc_systemNamespace := flag_string fl "system-namespace"; dc_agentsNamespace := flag_string fl "agents-namespace";
  dc_desktopsNS := flag_string fl "desktops-namespace" |}.

(** * main *)

Section main.
Context (env : string -> string) (Executable : option string) (UserHomeDir : result error string).
Context (json_valid : string -> bool).     (* json.Unmarshal into any succeeds *)

(** [args]: the arguments after the name of the program. *)
Definition wsctl_main (args : list string) : wsctl_call :=
  match args with
  | [] => Exit 2
  | cmd :: args =>
      if decide (cmd = "doctor") then
        with_flags wsctl_doctor_flags args (fun fl _ =>
          RunDoctor (flag_duration fl "timeout") (cmdDoctor json_valid (wsctl_doctor_of fl)))
      else if decide (cmd = "desktop") then cmdDesktop args
      else if decide (cmd = "agent") then cmdAgent env args
      else if decide (cmd = "ssh-config") then
        with_flags (ssh_config_flags env) args (fun fl _ =>
          Run (cmdSSHConfig Executable UserHomeDir (ssh_config_of fl)))
      else if decide (cmd = "proxy") then
        with_flags wsctl_proxy_flags args (fun fl rest => Run (WsProxy.cmdProxy (wsctl_proxy_of fl) rest))
      else if decide (cmd = "portshare") then cmdPortShare args
      else if decide (cmd = "netgrant") then cmdNetgrant env args
      else if decide (cmd = "github") then cmdGitHub env args
      else if decide (cmd = "help" \/ cmd = "-h" \/ cmd = "--help") then Exit 0
      else Exit 2
  end.
End main.
