(* ===== verification/ProxyCommand.v ===== *)
(** The ProxyCommand that [wsctl ssh-config] writes in pattern mode, back through
    ssh and the user's shell into [wsctl proxy]: the words of [shellWord]
    (src/cmd/wsctl/sshconfig.go) keep their value, and the flags [wsctl] parses
    (WsctlMain.v) are the options of the section.

    ssh and the shell are not part of the program: they are parameters.  Of ssh the
    theorem uses what ssh_config(5) says of a ProxyCommand line (the command is the
    rest of the line, with [%h] and [%p] replaced, and runs by the exec directive of
    the user's shell), of the shell the quoting rules of POSIX (section 2.2 of its
    Shell Command Language).  The instances at the end satisfy both. *)
From S2P Require Export WsctlMain.
From stdpp Require Import options.
Open Scope Z_scope.

(** A closed decidable fact. *)
Ltac decided := apply (bool_decide_unpack _); vm_compute; exact I.

(** * Words of a shell *)

Definition quote_char : ascii := byte 39.
(** Letters, digits and % + , - . / : @ _ mean nothing to a shell. *)
Definition sh_plain (c : ascii) : bool :=
  let n := code c in
  ((97 <=? n) && (n <=? 122) || (65 <=? n) && (n <=? 90) || (48 <=? n) && (n <=? 57))%nat
  || bool_decide (n ∈ [37; 43; 44; 45; 46; 47; 58; 64; 95]%nat).

(** A part of a word: a plain character, one after a backslash, or a text between
    single quotes. *)
Inductive piece := Bare (c : ascii) | Escaped (c : ascii) | Quoted (w : list ascii).
Definition piece_ok (p : piece) : Prop :=
  match p with Bare c => sh_plain c = true | Escaped c => c <> byte 10 | Quoted w => quote_char ∉ w end.
Definition word_ok (w : list piece) : Prop := w <> [] /\ Forall piece_ok w.

Definition piece_text (p : piece) : list ascii :=
  match p with Bare c => [c] | Escaped c => [byte 92; c] | Quoted w => quote_char :: w ++ [quote_char] end.
Definition piece_value (p : piece) : list ascii :=
  match p with Bare c | Escaped c => [c] | Quoted w => w end.
Definition word_text (w : list piece) : list ascii := w ≫= piece_text.
Definition word_value (w : list piece) : string := l2s (w ≫= piece_value).
(** The words with a blank between them. *)
Fixpoint words_text (ws : list (list piece)) : list ascii :=
  match ws with [] => [] | [w] => word_text w | w :: ws' => word_text w ++ byte 32 :: words_text ws' end.

(** What [shellWord] can pass through a shell: any text with white space, which it
    quotes, and any other one of plain characters. *)
Definition shell_safe (w : string) : Prop :=
  ContainsAny w (l2s [byte 32; byte 9; byte 13; byte 10]) = true \/ Forall (fun c => sh_plain c = true) (s2l w).

(** [acc]: the text since the last quote, reversed. *)
Fixpoint quoted_pieces (acc l : list ascii) : list piece :=
  match l with
  | [] => [Quoted (reverse acc)]
  | c :: l' => if decide (c = quote_char) then Quoted (reverse acc) :: Escaped quote_char :: quoted_pieces [] l'
               else quoted_pieces (c :: acc) l'
  end.
Definition pieces_of (w : string) : list piece :=
  if decide (w = "") then [Quoted []] else
  if ContainsAny w (l2s [byte 32; byte 9; byte 13; byte 10]) then quoted_pieces [] (s2l w) else Bare <$> s2l w.

(** The text between the quotes: each quote closed, escaped and reopened. *)
Definition escaped_quote : list ascii := s2l "'\''".
Definition quotedL (w : list ascii) : list ascii := replaceL [quote_char] escaped_quote w 0.

Lemma quotedL_cons c w :
  quotedL (c :: w) = (if decide (c = quote_char) then escaped_quote else [c]) ++ quotedL w.
Proof.
  unfold quotedL. cbn [replaceL]. destruct (decide (c = quote_char)) as [->|Hne].
  - rewrite bool_decide_eq_true_2; [done|]. by eexists.
  - rewrite bool_decide_eq_false_2; [done|]. intros [k Hk]. cbn in Hk. by injection Hk.
Qed.

Lemma quoted_text l : forall acc,
  quoted_pieces acc l ≫= piece_text = quote_char :: reverse acc ++ quotedL l ++ [quote_char].
Proof.
  induction l as [|c l IH]; intros acc; [cbn; by rewrite app_nil_r|].
  cbn [quoted_pieces]. rewrite quotedL_cons. destruct (decide (c = quote_char)) as [->|Hne].
  - cbn [mbind list_bind piece_text]. rewrite IH. cbn. by rewrite <- !(assoc_L (++)).
  - rewrite IH, reverse_cons. by rewrite <- !(assoc_L (++)).
Qed.
Lemma quoted_value l : forall acc, quoted_pieces acc l ≫= piece_value = reverse acc ++ l.
Proof.
  induction l as [|c l IH]; intros acc; [cbn; by rewrite !app_nil_r|].
  cbn [quoted_pieces]. destruct (decide (c = quote_char)) as [->|Hne].
  - cbn [mbind list_bind piece_value]. by rewrite IH.
  - rewrite IH, reverse_cons. by rewrite <- (assoc_L (++)).
Qed.
Lemma quoted_ok l : forall acc, quote_char ∉ acc -> Forall piece_ok (quoted_pieces acc l).
Proof.
  induction l as [|c l IH]; intros acc Hacc; cbn [quoted_pieces].
  - constructor; [cbn; by rewrite elem_of_reverse | done].
  - destruct (decide (c = quote_char)) as [->|Hne].
    + constructor; [cbn; by rewrite elem_of_reverse|]. constructor; [done|]. apply IH, not_elem_of_nil.
    + apply IH. by apply not_elem_of_cons.
Qed.

Lemma bare_text l : (Bare <$> l) ≫= piece_text = l.
Proof. induction l as [|c l IH]; [done|]. rewrite fmap_cons. cbn. by f_equal. Qed.
Lemma bare_value l : (Bare <$> l) ≫= piece_value = l.
Proof. induction l as [|c l IH]; [done|]. rewrite fmap_cons. cbn. by f_equal. Qed.

(** [shellWord] writes a word of the same value. *)
Lemma shellWord_text w : s2l (shellWord w) = word_text (pieces_of w).
Proof.
  unfold shellWord, pieces_of, word_text. case_decide; [done|]. destruct (ContainsAny w _).
  - rewrite quoted_text, !s2l_app. unfold ReplaceAll. rewrite s2l_l2s. done.
  - by rewrite bare_text.
Qed.
Lemma pieces_value w : word_value (pieces_of w) = w.
Proof.
  unfold word_value, pieces_of. case_decide; [by subst|]. destruct (ContainsAny w _).
  - rewrite quoted_value. apply l2s_s2l.
  - rewrite bare_value. apply l2s_s2l.
Qed.
Lemma pieces_ok w : shell_safe w -> word_ok (pieces_of w).
Proof.
  unfold word_ok, pieces_of. intros Hw. case_decide as He.
  { split; [done|]. constructor; [apply not_elem_of_nil | done]. }
  destruct (ContainsAny w _) eqn:Hc.
  - split; [|apply quoted_ok, not_elem_of_nil]. destruct (s2l w) as [|c l] eqn:Hl; [by apply s2l_nil in Hl|].
    intros H%(f_equal (fun p => p ≫= piece_text)). by rewrite quoted_text in H.
  - destruct Hw as [Hw|Hw]; [congruence|]. split.
    + intros H%fmap_nil_inv. by apply s2l_nil in H.
    + apply list.Forall_fmap. eapply list.Forall_impl; [exact Hw|]. done.
Qed.

(** * The line of a configuration file *)

(** The text of a ProxyCommand: no per cent sign but the ones of [%h] and [%p]. *)
Inductive part := PText (l : list ascii) | PHost | PPort.
Definition part_text (p : part) : list ascii := match p with PText l => l | PHost => s2l "%h" | PPort => s2l "%p" end.
Definition part_value (host port : string) (p : part) : list ascii :=
  match p with PText l => l | PHost => s2l host | PPort => s2l port end.
Definition part_ok (p : part) : Prop :=
  match p with PText l => byte 37 ∉ l /\ Forall (fun c => c ∉ [byte 0; byte 10; byte 13]) l | _ => True end.

(** One line, which begins with neither a blank nor an equals sign, ends with no blank,
    and is not the word that turns a ProxyCommand off. *)
Definition config_value (ps : list part) : Prop :=
  Forall part_ok ps /\ ps ≫= part_text <> s2l "none"
  /\ (exists c l, ps ≫= part_text = c :: l /\ c ∉ byte <$> [9; 32; 61]%nat)
  /\ (exists c l, ps ≫= part_text = l ++ [c] /\ c ∉ byte <$> [9; 12; 32]%nat).

Definition line_safe (w : string) : Prop := Forall (fun c => c ∉ byte <$> [0; 10; 13; 37]%nat) (s2l w).
(** No line break and no per cent sign for ssh, and safe for the shell. *)
Definition command_safe (w : string) : Prop := shell_safe w /\ line_safe w.

(** A host name or a port on ssh's command line. *)
Definition ssh_word (w : string) : Prop := w <> "" /\ Forall (fun c => sh_plain c = true) (s2l w) /\ HasPrefix w "-" = false.

Definition bare (w : string) : list piece := Bare <$> s2l w.

Lemma bare_ok w : w <> "" -> Forall (fun c => sh_plain c = true) (s2l w) -> word_ok (bare w).
Proof.
  intros Hw Hs. split; [intros H%fmap_nil_inv; by apply s2l_nil in H|].
  apply list.Forall_fmap. eapply list.Forall_impl; [exact Hs|]. done.
Qed.
Lemma bare_word_value w : word_value (bare w) = w.
Proof. unfold word_value, bare. by rewrite bare_value, l2s_s2l. Qed.
Lemma bare_word_text w : word_text (bare w) = s2l w.
Proof. apply bare_text. Qed.

Lemma word_no_flag w : ssh_word w -> read_flag w = NotFlag.
Proof. intros (_ & _ & Hp). unfold read_flag. by rewrite Hp. Qed.

(** The characters of a word of [shellWord] are those of the text, or a quote or a
    backslash. *)
Lemma shellWord_line w : line_safe w -> line_safe (shellWord w).
Proof.
  unfold line_safe. intros Hw. unfold shellWord. case_decide; [decided|]. destruct (ContainsAny _ _); [|done].
  rewrite !s2l_app. unfold ReplaceAll. rewrite s2l_l2s.
  change (replaceL (s2l "'") (s2l "'\''") (s2l w) 0) with (quotedL (s2l w)).
  assert (Hq : Forall (fun c => c ∉ byte <$> [0; 10; 13; 37]%nat) (quotedL (s2l w))).
  { induction Hw as [|c l Hc _ IH]; [done|]. rewrite quotedL_cons. apply list.Forall_app. split; [|exact IH].
    destruct (decide (c = quote_char)); [decided | by constructor]. }
  rewrite !list.Forall_app. split_and!; [decided | done | decided].
Qed.

(** How the word begins: with the text's first character or with a quote. *)
Lemma shellWord_head w : shell_safe w -> exists c l, s2l (shellWord w) = c :: l /\ c ∉ byte <$> [9; 32; 61]%nat.
Proof.
  intros Hw. unfold shellWord. case_decide as He; [exists quote_char, [quote_char]; split; [done | decided]|].
  destruct (ContainsAny w _) eqn:Hc.
  - eexists quote_char, _. rewrite s2l_app. split; [reflexivity | decided].
  - destruct Hw as [Hw|Hw]; [congruence|]. destruct (s2l w) as [|c l] eqn:Hl; [by apply s2l_nil in Hl|].
    exists c, l. split; [done|]. apply list.Forall_cons in Hw as [Hp _]. intros Hin.
    repeat (apply elem_of_cons in Hin as [->|Hin]; [by vm_compute in Hp|]). by apply elem_of_nil in Hin.
Qed.

(** * From the section to the command *)

(** The lines of the section for all desktops, up to the ProxyCommand. *)
Definition pattern_block (o : sshConfigOptions) (line : string) : string :=
  "Host " +:+ so_HostPrefix o +:+ "*" +:+ nl +:+ "  User " +:+ TrimSpace (so_DesktopUser o) +:+ nl +:+ line +:+ nl.

Lemma section_block o ds sec : so_Mode o = "pattern" -> renderSSHConfigSection o ds = Ok sec ->
  exists before after, l2s sec = before +:+ pattern_block o ("  ProxyCommand " +:+ so_ProxyCommand o) +:+ after.
Proof.
  intros Hm. unfold renderSSHConfigSection, host_lines. rewrite decide_True by done. cbn [mbind result_bind]. intros Hs.
  apply (f_equal (fun r => match r with Ok x => x | Err _ => [] end)) in Hs. rewrite <- Hs.
  eexists (sshConfigSectionBegin +:+ "# This section is generated; re-run " +:+ bt +:+ "wsctl ssh-config" +:+ bt
    +:+ " to update." +:+ nl +:+ nl +:+ gateway_lines o),
    ("  StrictHostKeyChecking accept-new" +:+ nl +:+ nl +:+ sshConfigSectionEnd).
  rewrite l2s_s2l. apply s2l_inj. unfold section_text, pattern_block. rewrite !s2l_app. by rewrite <- ?(assoc_L (++)).
Qed.

Section command.
Context (env : string -> string) (Executable : option string) (UserHomeDir : result error string).
Context (json_valid : string -> bool).

(** The command ssh runs, by the exec directive of the user's shell, for a line of the
    configuration, a host and a port; and the words of that command. *)
Context (ssh_command : string -> string -> string -> option string).
Context (shell_exec : string -> option (list string)).
Hypothesis ssh_proxy_command : forall ps host port, config_value ps -> ssh_word host -> ssh_word port ->
  ssh_command ("  ProxyCommand " +:+ l2s (ps ≫= part_text)) host port = Some (l2s (ps ≫= part_value host port)).
Hypothesis shell_quoting : forall w ws, Forall word_ok (w :: ws) -> HasPrefix (word_value w) "-" = false ->
  shell_exec (l2s (words_text (w :: ws))) = Some (word_value <$> w :: ws).

(** The words of the command, and the parts of the line. *)
Definition command_words (b : string) (o : sshConfigOptions) (host port : string) : list (list piece) :=
  [pieces_of b; bare "proxy"; bare "--gateway"; pieces_of (so_GatewayAlias o); bare "--namespace";
   pieces_of (so_Namespace o); bare "--host-prefix"; pieces_of (so_HostPrefix o); bare host; bare port].
Definition command_text (b : string) (o : sshConfigOptions) : string :=
  shellWord b +:+ " proxy --gateway " +:+ shellWord (so_GatewayAlias o)
  +:+ " --namespace " +:+ shellWord (so_Namespace o) +:+ " --host-prefix " +:+ shellWord (so_HostPrefix o) +:+ " ".
Definition command_parts (b : string) (o : sshConfigOptions) : list part :=
  [PText (s2l (command_text b o)); PHost; PText (s2l " "); PPort].

Lemma command_words_text b o host port :
  words_text (command_words b o host port) = command_parts b o ≫= part_value host port.
Proof using Type.
  unfold command_words, command_parts, command_text. cbn [words_text].
  rewrite !bare_word_text, <- !shellWord_text. cbn [mbind list_bind part_value]. rewrite !s2l_app, app_nil_r.
  change (s2l " proxy --gateway ") with (byte 32 :: s2l "proxy" ++ byte 32 :: s2l "--gateway" ++ [byte 32]).
  change (s2l " --namespace ") with (byte 32 :: s2l "--namespace" ++ [byte 32]).
  change (s2l " --host-prefix ") with (byte 32 :: s2l "--host-prefix" ++ [byte 32]).
  change (s2l " ") with [byte 32]. by rewrite <- ?(assoc_L (++)); cbn [app]; rewrite <- ?(assoc_L (++)).
Qed.

Lemma pattern_proxy_parts o : so_Connectivity o <> "relay" ->
  (pattern_proxy Executable o).2 = l2s (command_parts (wsctl_binary Executable o) o ≫= part_text).
Proof using Type.
  intros Hc. unfold pattern_proxy. rewrite decide_False by done. cbn [snd]. apply s2l_inj. rewrite s2l_l2s.
  unfold command_parts, command_text. cbn [mbind list_bind part_text]. rewrite !s2l_app.
  by rewrite <- ?(assoc_L (++)).
Qed.

Lemma command_line_safe b o : line_safe b -> line_safe (so_GatewayAlias o) -> line_safe (so_Namespace o) ->
  line_safe (so_HostPrefix o) -> line_safe (command_text b o).
Proof using Type.
  intros Hb Hg Hn Hp. unfold line_safe, command_text. rewrite !s2l_app, !list.Forall_app.
  split_and!; first [by apply shellWord_line | decided].
Qed.
Lemma command_one_line b o : command_safe b -> command_safe (so_GatewayAlias o) -> command_safe (so_Namespace o) ->
  command_safe (so_HostPrefix o) -> byte 10 ∉ command_parts b o ≫= part_text.
Proof using Type.
  intros [_ Hb] [_ Hg] [_ Hn] [_ Hp]. unfold command_parts. cbn [mbind list_bind part_text]. rewrite app_nil_r.
  rewrite !not_elem_of_app. split_and!; [|decided..].
  intros Hin. eapply (proj1 (list.Forall_forall _ _) (command_line_safe b o Hb Hg Hn Hp)); [exact Hin | decided].
Qed.
Lemma command_parts_ok b o : command_safe b -> command_safe (so_GatewayAlias o) -> command_safe (so_Namespace o) ->
  command_safe (so_HostPrefix o) -> config_value (command_parts b o).
Proof using Type.
  intros [Hb Hbl] [_ Hg] [_ Hn] [_ Hp]. destruct (shellWord_head b Hb) as (c & l & Hc & Hok).
  pose proof (command_line_safe b o Hbl Hg Hn Hp) as Hl.
  assert (Hend : command_parts b o ≫= part_text = (s2l (command_text b o) ++ s2l "%h %") ++ [byte 112]).
  { unfold command_parts. cbn [mbind list_bind part_text]. by rewrite app_nil_r, <- !(assoc_L (++)). }
  unfold config_value. split_and!.
  - constructor; [|constructor; [done|]; constructor; [split; decided|]; by constructor]. split.
    + intros Hin. eapply (proj1 (list.Forall_forall _ _) Hl); [exact Hin | decided].
    + eapply list.Forall_impl; [exact Hl|]. intros d Hd Hin. apply Hd.
      repeat (apply elem_of_cons in Hin as [->|Hin]; [decided|]). by apply elem_of_nil in Hin.
  - rewrite Hend. intros H%(f_equal list.last). rewrite last_snoc in H. by vm_compute in H.
  - unfold command_parts. cbn [mbind list_bind part_text]. unfold command_text at 1. rewrite s2l_app, Hc.
    eexists c, _. split; [reflexivity | done].
  - rewrite Hend. eexists _, _. split; [reflexivity | decided].
Qed.

Lemma command_words_ok b o host port : command_safe b -> command_safe (so_GatewayAlias o) ->
  command_safe (so_Namespace o) -> command_safe (so_HostPrefix o) -> ssh_word host -> ssh_word port ->
  Forall word_ok (command_words b o host port).
Proof using Type.
  intros [Hb _] [Hg _] [Hn _] [Hp _] (Hh1 & Hh2 & _) (Hp1 & Hp2 & _). unfold command_words.
  repeat (constructor; [first [by apply pieces_ok | by apply bare_ok | apply bare_ok; [done | decided]]|]). constructor.
Qed.

Lemma command_words_values b o host port : word_value <$> command_words b o host port
  = b :: ["proxy"; "--gateway"; so_GatewayAlias o; "--namespace"; so_Namespace o; "--host-prefix"; so_HostPrefix o; host; port].
Proof using Type. unfold command_words. rewrite !fmap_cons, !pieces_value, !bare_word_value. done. Qed.

(** [wsctl] on the words after the binary. *)
Lemma wsctl_proxy_words gateway namespace prefix host port : ssh_word host ->
  wsctl_main env Executable UserHomeDir json_valid
    ["proxy"; "--gateway"; gateway; "--namespace"; namespace; "--host-prefix"; prefix; host; port]
  = Run (WsProxy.cmdProxy {| pf_gateway := gateway; pf_namespace := namespace;
                             pf_hostPrefix := prefix; pf_clusterDomain := "" |} [host; port]).
Proof using Type.
  intros Hhf%word_no_flag. unfold wsctl_main. rewrite !decide_False, decide_True by done. unfold with_flags.
  rewrite (flag_parse_string _ _ "gateway" "ws-gateway") by reflexivity.
  rewrite (flag_parse_string _ _ "namespace" "desktops") by reflexivity.
  rewrite (flag_parse_string _ _ "host-prefix" "desk-") by reflexivity.
  rewrite flag_parse_rest by done. unfold wsctl_proxy_of, flag_string.
  rewrite !(lookup_insert_ne _ _ _ (FString _)) by done. reflexivity.
Qed.

(** The command that runs is [wsctl proxy]. *)
Lemma line_runs o host port : so_Connectivity o <> "relay" ->
  command_safe (wsctl_binary Executable o) -> HasPrefix (wsctl_binary Executable o) "-" = false ->
  command_safe (so_GatewayAlias o) -> command_safe (so_Namespace o) -> command_safe (so_HostPrefix o) ->
  ssh_word host -> ssh_word port -> exists command,
    ssh_command ("  ProxyCommand " +:+ (pattern_proxy Executable o).2) host port = Some command
    /\ shell_exec command = Some (word_value <$> command_words (wsctl_binary Executable o) o host port).
Proof using ssh_proxy_command shell_quoting.
  intros Hc Hb Hf Hg Hn Hp Hh Hpo. eexists. rewrite pattern_proxy_parts by done. split.
  - apply ssh_proxy_command; [by apply command_parts_ok | done | done].
  - rewrite <- command_words_text. apply shell_quoting; [by apply command_words_ok|]. by rewrite pieces_value.
Qed.

Lemma check_options_pattern f o : check_options Executable UserHomeDir f = Ok o -> so_Mode o = "pattern" ->
  TrimSpace (so_ProxyCommand f) = "" -> so_ProxyCommand o = (pattern_proxy Executable (trimmed_options f)).2
  /\ so_WsctlBinary o = (pattern_proxy Executable (trimmed_options f)).1
  /\ so_Connectivity o = so_Connectivity (trimmed_options f) /\ so_GatewayAlias o = so_GatewayAlias (trimmed_options f)
  /\ so_Namespace o = so_Namespace (trimmed_options f) /\ so_HostPrefix o = so_HostPrefix (trimmed_options f).
Proof using Type.
  unfold check_options. intros Hc Hm Hp. cbv zeta in Hc.
  repeat (apply bind_ok_inv in Hc as (? & _ & Hc)). rewrite decide_False in Hc by (intros H; by apply H).
  destruct (decide (so_Mode (trimmed_options f) = "list")) as [Hl|_].
  - injection Hc as <-. cbn [set_proxy so_Mode] in Hm. congruence.
  - repeat (apply bind_ok_inv in Hc as (? & _ & Hc)). by injection Hc as <-.
Qed.

(** C40: the section that [wsctl ssh-config] writes in pattern mode (no ProxyCommand
    of the user's own, not over the relay) has, after the Host and User lines of the
    pattern of all desktops, a ProxyCommand line, and ssh, for a host and a port, runs
    with it [wsctl proxy] for this host and port with the gateway, the namespace and the prefix of the section:
    through ssh's reading of the line and its tokens and through the shell, the
    words that [shellWord] quotes keep their blanks, quotes and backslashes.  (The
    options have no line break and no per cent sign, which ssh would read, and those
    without white space consist of plain characters; the binary is no flag.) *)
Theorem proxy_command_reaches_proxy f o ds sec host port :
  check_options Executable UserHomeDir f = Ok o -> so_Mode o = "pattern" -> TrimSpace (so_ProxyCommand f) = "" ->
  so_Connectivity o <> "relay" -> renderSSHConfigSection o ds = Ok sec ->
  command_safe (so_WsctlBinary o) -> HasPrefix (so_WsctlBinary o) "-" = false -> command_safe (so_GatewayAlias o) ->
  command_safe (so_Namespace o) -> command_safe (so_HostPrefix o) -> ssh_word host -> ssh_word port ->
  exists before after line command args,
    l2s sec = before +:+ pattern_block o line +:+ after /\ byte 10 ∉ s2l line
    /\ ssh_command line host port = Some command /\ shell_exec command = Some (so_WsctlBinary o :: args)
    /\ wsctl_main env Executable UserHomeDir json_valid args
       = Run (WsProxy.cmdProxy {| pf_gateway := so_GatewayAlias o; pf_namespace := so_Namespace o;
                                  pf_hostPrefix := so_HostPrefix o; pf_clusterDomain := "" |} [host; port]).
Proof using ssh_proxy_command shell_quoting.
  intros Hc Hm Hu Hr Hs Hb Hf Hg Hn Hp Hh Hpo.
  destruct (check_options_pattern _ _ Hc Hm Hu) as (HP & HB & HC & HG & HN & HX).
  rewrite HC in Hr. unfold pattern_proxy in HB. rewrite decide_False in HB by done. cbn [fst] in HB.
  rewrite HB, HG, HN, HX in *.
  destruct (line_runs (trimmed_options f) host port) as (command & Hcmd & Hws); try done.
  destruct (section_block o ds sec Hm Hs) as (before & after & Hsec). rewrite HP in Hsec.
  eexists before, after, _, command, _. split; [exact Hsec|]. split; [|split; [exact Hcmd|]].
  - rewrite s2l_app, pattern_proxy_parts, s2l_l2s by done. apply not_elem_of_app. split; [decided|].
    by apply command_one_line.
  - rewrite Hws, command_words_values. split; [done|]. by apply wsctl_proxy_words.
Qed.
End command.

(** * A shell and an ssh *)

(** [cur]: the word begun, reversed; [q]: within single quotes. *)
Fixpoint demo_split (cur : option (list ascii)) (q : bool) (l : list ascii) : option (list string) :=
  match l with
  | [] => if q then None else Some match cur with Some w => [l2s (reverse w)] | None => [] end
  | c :: l' =>
      let here := default [] cur in
      if q then if decide (c = quote_char) then demo_split cur false l' else demo_split (Some (c :: here)) true l'
      else if decide (c = byte 32) then
        match cur with Some w => cons (l2s (reverse w)) <$> demo_split None false l' | None => demo_split None false l' end
      else if decide (c = quote_char) then demo_split (Some here) true l'
      else if decide (c = byte 92) then
        match l' with d :: l'' => if decide (d = byte 10) then None else demo_split (Some (d :: here)) false l'' | [] => None end
      else if sh_plain c then demo_split (Some (c :: here)) false l' else None
  end.
Definition demo_shell (s : string) : option (list string) := demo_split None false (s2l s).

Fixpoint demo_expand (host port l : list ascii) : option (list ascii) :=
  match l with
  | [] => Some []
  | c :: l' =>
      if decide (c = byte 37) then
        match l' with
        | d :: l'' => if decide (d = byte 104) then app host <$> demo_expand host port l''
                      else if decide (d = byte 112) then app port <$> demo_expand host port l'' else None
        | [] => None
        end
      else cons c <$> demo_expand host port l'
  end.
Definition demo_ssh (line host port : string) : option string :=
  l2s <$> demo_expand (s2l host) (s2l port) (s2l (str_drop 15 line)).

Lemma demo_quoted w l : forall cur, quote_char ∉ w ->
  demo_split (Some cur) true (w ++ quote_char :: l) = demo_split (Some (reverse w ++ cur)) false l.
Proof.
  induction w as [|c w IH]; intros cur Hw; [cbn; by rewrite decide_True|].
  apply not_elem_of_cons in Hw as [Hc Hw]. cbn [app demo_split]. rewrite decide_False by done. cbv zeta. cbn [default from_option].
  unfold id. rewrite IH by done. by rewrite reverse_cons, <- (assoc_L (++)).
Qed.

Lemma demo_piece p cur l : piece_ok p ->
  demo_split cur false (piece_text p ++ l) = demo_split (Some (reverse (piece_value p) ++ default [] cur)) false l.
Proof.
  destruct p as [c|c|w]; cbn [piece_ok piece_text piece_value]; intros Hp.
  - cbn [app demo_split]. rewrite !decide_False by (intros ->; by vm_compute in Hp). by rewrite Hp.
  - cbn [app demo_split]. rewrite !decide_False, decide_True by done. by rewrite decide_False.
  - change ((quote_char :: w ++ [quote_char]) ++ l) with (quote_char :: (w ++ [quote_char]) ++ l).
    rewrite <- (assoc_L (++)). cbn [demo_split]. rewrite decide_False, decide_True by done.
    cbn [app]. by rewrite demo_quoted.
Qed.

Lemma demo_word w l : forall cur, w <> [] -> Forall piece_ok w ->
  demo_split cur false (word_text w ++ l) = demo_split (Some (reverse (w ≫= piece_value) ++ default [] cur)) false l.
Proof.
  induction w as [|p w IH]; intros cur Hne Hw; [done|]. apply list.Forall_cons in Hw as [Hp Hw].
  unfold word_text. cbn [mbind list_bind]. rewrite <- (assoc_L (++)), demo_piece by done.
  destruct w as [|p' w]; [by rewrite reverse_app|].
  change ((p' :: w) ≫= piece_text) with (word_text (p' :: w)). rewrite IH by done. cbn [default from_option]. unfold id.
  by rewrite reverse_app, <- (assoc_L (++)).
Qed.

Lemma demo_shell_quoting w ws : Forall word_ok (w :: ws) -> HasPrefix (word_value w) "-" = false ->
  demo_shell (l2s (words_text (w :: ws))) = Some (word_value <$> w :: ws).
Proof.
  intros Hw _. unfold demo_shell. rewrite s2l_l2s. revert w Hw.
  induction ws as [|w' ws IH]; intros w Hw; apply list.Forall_cons in Hw as [[Hne Hok] Hws].
  - cbn [words_text]. rewrite <- (app_nil_r (word_text w)), demo_word by done. cbn. by rewrite app_nil_r, reverse_involutive.
  - change (words_text (w :: w' :: ws)) with (word_text w ++ byte 32 :: words_text (w' :: ws)).
    rewrite demo_word by done. cbn [demo_split]. rewrite decide_True by done. cbn [default from_option].
    rewrite IH by done. rewrite app_nil_r, reverse_involutive. done.
Qed.

Lemma demo_parts host port ps : Forall part_ok ps ->
  demo_expand host port (ps ≫= part_text) = Some (ps ≫= part_value (l2s host) (l2s port)).
Proof.
  induction 1 as [|p ps Hp _ IH]; [done|]. cbn [mbind list_bind] in *. revert IH.
  generalize (ps ≫= part_value (l2s host) (l2s port)). generalize (ps ≫= part_text). intros t v IH.
  destruct p as [l| |]; cbn [part_text part_value] in *.
  - destruct Hp as [Hp _]. induction l as [|c l IHl]; [exact IH|]. apply not_elem_of_cons in Hp as [Hc Hl].
    cbn [app demo_expand]. rewrite decide_False by done. by rewrite IHl.
  - cbn [app s2l demo_expand]. rewrite decide_True, decide_True by done. unfold s2l in *. rewrite IH, s2l_l2s. done.
  - cbn [app s2l demo_expand]. rewrite decide_True, decide_False, decide_True by done. rewrite IH, s2l_l2s. done.
Qed.

Lemma demo_ssh_line ps host port : config_value ps -> ssh_word host -> ssh_word port ->
  demo_ssh ("  ProxyCommand " +:+ l2s (ps ≫= part_text)) host port = Some (l2s (ps ≫= part_value host port)).
Proof.
  intros (Hps & _) _ _. unfold demo_ssh.
  assert (Hd : s2l (str_drop 15 ("  ProxyCommand " +:+ l2s (ps ≫= part_text))) = ps ≫= part_text).
  { unfold str_drop. rewrite s2l_l2s, s2l_app, s2l_l2s. done. }
  rewrite Hd, demo_parts by done. by rewrite !l2s_s2l.
Qed.

(** * Concrete inputs *)

(** [shellWord] leaves words without white space alone, whatever else is in them:
    an apostrophe opens a quote that nothing closes, and a semicolon ends the command. *)
Example shellWord_bare : shellWord "o'brien" = "o'brien" /\ shellWord "a;b" = "a;b" /\ demo_shell (shellWord "o'brien") = None
  /\ demo_shell (shellWord "o'brien's desk") = Some ["o'brien's desk"].
Proof. vm_compute. done. Qed.

Definition spaced_options : sshConfigOptions := {|
  so_FilePath := "/home/bob/.ssh/config"; so_DryRun := false; so_Mode := "pattern"; so_Connectivity := "portforward";
  so_SkipGateway := false; so_GatewayAlias := "bob's gateway; old"; so_GatewayHost := "gw.example.com";
  so_GatewayUser := ""; so_Namespace := "desktops"; so_HostPrefix := "desk-"; so_ClusterDomain := "";
  so_DesktopUser := "bob"; so_WsctlBinary := "/opt/My Tools/wsctl"; so_ProxyCommand := "" |}.
Definition spaced_checked : sshConfigOptions := set_proxy spaced_options "/home/bob/.ssh/config" "/opt/My Tools/wsctl"
  "'/opt/My Tools/wsctl' proxy --gateway 'bob'\''s gateway; old' --namespace desktops --host-prefix desk- %h %p".
Definition spaced_section : list ascii := Eval vm_compute in
  match renderSSHConfigSection spaced_checked [] with Ok sec => sec | Err _ => [] end.

(** A line break in an option is quoted for the shell, but it ends ssh's line. *)
Example line_break_splits_line :
  shellWord ("gate" +:+ nl +:+ "way") = "'gate" +:+ nl +:+ "way'" /\ byte 10 ∈ s2l (shellWord ("gate" +:+ nl +:+ "way")).
Proof. split; [by vm_compute | decided]. Qed.

Lemma proxy_command_reaches_proxy_witness : exists before after line command args,
  l2s spaced_section = before +:+ pattern_block spaced_checked line +:+ after /\ byte 10 ∉ s2l line
  /\ demo_ssh line "desk-alice" "22" = Some command /\ demo_shell command = Some ("/opt/My Tools/wsctl" :: args)
  /\ wsctl_main (fun _ => "") None (Ok "/home/bob") (fun _ => true) args
     = Run (WsProxy.cmdProxy {| pf_gateway := "bob's gateway; old"; pf_namespace := "desktops";
                                pf_hostPrefix := "desk-"; pf_clusterDomain := "" |} ["desk-alice"; "22"]).
Proof.
  apply (proxy_command_reaches_proxy (fun _ => "") None (Ok "/home/bob") (fun _ => true) demo_ssh demo_shell
           demo_ssh_line demo_shell_quoting spaced_options spaced_checked [] spaced_section "desk-alice" "22").
  - by vm_compute.
  - done.
  - by vm_compute.
  - done.
  - by vm_compute.
  - split; [by left | decided].
  - done.
  - split; [by left | decided].
  - split; [right; decided | decided].
  - split; [right; decided | decided].
  - split_and!; [done | decided | done].
  - split_and!; [done | decided | done].
Defined.
