(* ===== verification/Operator.v ===== *)
(** The operator's start-up (src/cmd/workspaces-operator/main.go): the values of
    its flags, the bounds put on them, and the reconcilers it starts with them.
    The command line is parsed by the standard library: [operator_main] is
    given the values of the flags, which are [default_flags] where a flag is not
    on the command line. *)
From S2P Require Export GrantController Desktop AgentPod NetPolicy.
From stdpp Require Import options.
Open Scope Z_scope.

(** [clampNonNegativeInt32]; an [int] has 64 bits. *)
Definition clampNonNegativeInt32 (n : Z) : Z :=
  if n <=? 0 then 0 else
  let maxInt32 := Z.shiftr (2 ^ 32 - 1) 1 in
  if maxInt32 <? n then maxInt32 else wrap32 n.

Definition operator_intFromEnv (env : string -> string) (k : string) (def : Z) : Z :=
  let raw := getenv env k "" in
  if decide (raw = "") then def else
  match Atoi raw with
  | None => def
  | Some n => n
  end.

Record operator_flags := {
  of_metricsAddr : string;
  of_probeAddr : string;
  of_enableLeaderElection : bool;
  of_leaderElectionID : string;
  of_defaultDesktopImage : string;
  of_desktopRelayAgentImage : string;
  of_desktopRelaydControlAddr : string;
  of_desktopRelaydDataAddr : string;
  of_desktopRelayJWTTTLSeconds : Z;
  of_defaultAgentRuntimeClass : string;
  of_agentEgressProxyURL : string;
  of_agentNoProxy : string;
  of_maxGrantTTLSeconds : Z;
  of_maxGrantEgressRules : Z;
  of_maxGrantDNSNames : Z;
}.

Definition default_flags (env : string -> string) : operator_flags := {|
  of_metricsAddr := ":8080";
  of_probeAddr := ":8081";
  of_enableLeaderElection := true;
  of_leaderElectionID := "workspaces-operator.workspaces.platform.dev";
  of_defaultDesktopImage :=
    getenv env "DEFAULT_DESKTOP_IMAGE" "ghcr.io/haasonsaas/workspaces-desktop:latest";
  of_desktopRelayAgentImage :=
    getenv env "DESKTOP_RELAY_AGENT_IMAGE" "ghcr.io/haasonsaas/workspaces-ws-desktop-agent:latest";
  of_desktopRelaydControlAddr := getenv env "DESKTOP_RELAYD_CONTROL_ADDR" "";
  of_desktopRelaydDataAddr := getenv env "DESKTOP_RELAYD_DATA_ADDR" "";
  of_desktopRelayJWTTTLSeconds := operator_intFromEnv env "DESKTOP_RELAY_JWT_TTL_SECONDS" 86400;
  of_defaultAgentRuntimeClass := getenv env "DEFAULT_AGENT_RUNTIMECLASS" "kata";
  of_agentEgressProxyURL := getenv env "AGENT_EGRESS_PROXY_URL" "";
  of_agentNoProxy := getenv env "AGENT_NO_PROXY" "";
  of_maxGrantTTLSeconds := operator_intFromEnv env "NETWORKGRANT_MAX_TTL_SECONDS" 7200;
  of_maxGrantEgressRules := operator_intFromEnv env "NETWORKGRANT_MAX_EGRESS_RULES" 20;
  of_maxGrantDNSNames := operator_intFromEnv env "NETWORKGRANT_MAX_DNS_NAMES" 50;
|}.

(** * The reconcilers *)

Definition relay_jwt_ttl (f : operator_flags) : Z :=
  let relayJWTTTL := seconds (of_desktopRelayJWTTTLSeconds f) in
  if relayJWTTTL <=? 0 then 24 * hour else relayJWTTTL.

Definition relay_jwt_secret (env : string -> string) : string :=
  TrimSpace (getenv env "DESKTOP_RELAY_JWT_SECRET" "").

Definition operator_desktop (env : string -> string) (f : operator_flags) : DesktopReconciler := {|
  dr_DefaultDesktopImage := of_defaultDesktopImage f;
  dr_DesktopRelayAgentImage := of_desktopRelayAgentImage f;
  dr_DesktopRelaydControlAddr := of_desktopRelaydControlAddr f;
  dr_DesktopRelaydDataAddr := of_desktopRelaydDataAddr f;
  dr_DesktopRelayJWTSecret := relay_jwt_secret env;
  dr_DesktopRelayJWTTTL := relay_jwt_ttl f;
|}.

Definition operator_agentjob (f : operator_flags) : AgentJobReconciler := {|
  ajr_DefaultAgentRuntimeClass := of_defaultAgentRuntimeClass f;
  ajr_AgentEgressProxyURL := of_agentEgressProxyURL f;
  ajr_AgentNoProxy := of_agentNoProxy f;
|}.

(** [if n < 0 { n = 0 }] *)
Definition non_negative (n : Z) : Z := if n <? 0 then 0 else n.

Definition operator_grant (f : operator_flags) : NetworkGrantReconciler := {|
  ngr_MaxTTLSeconds := clampNonNegativeInt32 (of_maxGrantTTLSeconds f);
  ngr_MaxEgressRules := non_negative (of_maxGrantEgressRules f);
  ngr_MaxDNSNames := non_negative (of_maxGrantDNSNames f);
|}.

(** * Start-up *)

(** A reconciler given to the manager. *)
Inductive reconciler :=
| RDesktop (r : DesktopReconciler)
| RAgentJob (r : AgentJobReconciler)
| RNetworkGrant (r : NetworkGrantReconciler)
| RHomeTemplate
| RPortShare.
Definition controller_name (r : reconciler) : string :=
  match r with
  | RDesktop _ => "Desktop"
  | RAgentJob _ => "AgentJob"
  | RNetworkGrant _ => "NetworkGrant"
  | RHomeTemplate => "HomeTemplate"
  | RPortShare => "PortShare"
  end.

Record manager_options := {
  mo_MetricsBindAddress : string;
  mo_HealthProbeBindAddress : string;
  mo_LeaderElection : bool;
  mo_LeaderElectionID : string;
}.

(** The calls of the manager library. *)
Inductive oeff : Type -> Type :=
| NewManager (o : manager_options) : oeff (result error unit)
| SetupWithManager (r : reconciler) : oeff (result error unit)
| AddHealthzCheck (name : string) : oeff (result error unit)
| AddReadyzCheck (name : string) : oeff (result error unit)
| StartManager : oeff (result error unit)
| LogInfo (msg : string) : oeff unit
| LogError (msg : string) (e : error) (fields : list (string * string)) : oeff unit.

Notation oprog := (prog oeff).

(** [if err := call; err != nil { ctrl.Log.Error(...); os.Exit(1) }] *)
Definition or_exit (call : oeff (result error unit)) (msg : string)
    (fields : list (string * string)) (k : oprog Z) : oprog Z :=
  r ← trigger call;
  match r with
  | Err e => _ ← trigger (LogError msg e fields); mret 1
  | Ok _ => k
  end.

Fixpoint setup_all (l : list reconciler) (k : oprog Z) : oprog Z :=
  match l with
  | [] => k
  | r :: l' => or_exit (SetupWithManager r) "unable to create controller"
                 [("controller", controller_name r)] (setup_all l' k)
  end.

(** The exit code. *)
Definition operator_main (env : string -> string) (f : operator_flags) : oprog Z :=
  or_exit (NewManager {| mo_MetricsBindAddress := of_metricsAddr f;
                         mo_HealthProbeBindAddress := of_probeAddr f;
                         mo_LeaderElection := of_enableLeaderElection f;
                         mo_LeaderElectionID := of_leaderElectionID f |})
    "unable to start manager" [] (
  setup_all [RDesktop (operator_desktop env f); RAgentJob (operator_agentjob f);
             RNetworkGrant (operator_grant f); RHomeTemplate; RPortShare] (
  or_exit (AddHealthzCheck "healthz") "unable to set up health check" [] (
  or_exit (AddReadyzCheck "readyz") "unable to set up ready check" [] (
  _ ← trigger (LogInfo "starting manager");
  or_exit StartManager "problem running manager" [] (mret 0))))).

(** * Bounds *)

(** The clamp is the nearest non-negative int32. *)
Lemma clamp_nearest n : clampNonNegativeInt32 n = Z.max 0 (Z.min n (2 ^ 31 - 1)).
Proof.
  unfold clampNonNegativeInt32. change (Z.shiftr (2 ^ 32 - 1) 1) with (2 ^ 31 - 1). cbv zeta.
  destruct (Z.leb_spec n 0); [lia|]. destruct (Z.ltb_spec (2 ^ 31 - 1) n); [lia|].
  unfold wrap32. rewrite Z.mod_small; lia.
Qed.

(** Whatever the environment and the flags, the caps of the grants are
    non-negative and the TTL cap fits its int32. *)
Lemma operator_caps f :
  0 <= ngr_MaxTTLSeconds (operator_grant f) < 2 ^ 31
  /\ 0 <= ngr_MaxEgressRules (operator_grant f) /\ 0 <= ngr_MaxDNSNames (operator_grant f).
Proof.
  cbn. unfold non_negative. rewrite clamp_nearest. split; [lia|].
  destruct (Z.ltb_spec (of_maxGrantEgressRules f) 0), (Z.ltb_spec (of_maxGrantDNSNames f) 0); lia.
Qed.

(** The lifetime of the relay's tokens is positive, and the one asked for
    unless the multiplication overflows. *)
Lemma relay_jwt_ttl_pos f : 0 < relay_jwt_ttl f.
Proof.
  unfold relay_jwt_ttl. cbv zeta. destruct (Z.leb_spec (seconds (of_desktopRelayJWTTTLSeconds f)) 0); [done|lia].
Qed.
Lemma relay_jwt_ttl_exact f :
  0 < of_desktopRelayJWTTTLSeconds f < 2 ^ 31 ->
  relay_jwt_ttl f = of_desktopRelayJWTTTLSeconds f * second.
Proof.
  intros H. unfold relay_jwt_ttl. rewrite seconds_int32 by (unfold int32_range; lia). cbv zeta.
  destruct (Z.leb_spec (of_desktopRelayJWTTTLSeconds f * second) 0); [unfold second in *; lia | done].
Qed.

(** A lifetime of 300 years in seconds overflows to less than the ten minutes
    before expiry in which tokens are renewed, or to a negative number. *)
Example relay_jwt_ttl_wraps :
  seconds 18446744074 = 290448384 /\ seconds 9460800000 < 0.
Proof. split; vm_compute; reflexivity. Qed.

(** Setting the TTL cap to a large number is not the same as disabling it. *)
Example clamp_ex :
  (clampNonNegativeInt32 (-5), clampNonNegativeInt32 7200, clampNonNegativeInt32 (2 ^ 40))
  = (0, 7200, 2147483647).
Proof. vm_compute. done. Qed.

(** * The order of the start-up *)

(** The reconcilers set up without an error. *)
Definition installed (o : obs oeff) : option reconciler :=
  match o with
  | Obs e x => match e in oeff X return X -> option reconciler with
               | SetupWithManager r => fun res => if is_ok res then Some r else None
               | _ => fun _ => None
               end x
  end.
Definition is_start (o : obs oeff) : Prop :=
  match o with Obs e _ => match e with StartManager => True | _ => False end end.

Lemma or_exit_exec call msg fields k tr code : exec (or_exit call msg fields k) tr code ->
  (exists tr', tr = Obs call (Ok tt) :: tr' /\ exec k tr' code)
  \/ (exists e, tr = [Obs call (Err e); Obs (LogError msg e fields) tt] /\ code = 1).
Proof.
  intros (t1 & t2 & r & -> & H1%exec_trigger & H)%exec_bind. subst t1. destruct r as [[]|e].
  - left. by exists t2.
  - right. exists e. walk H. by destruct ans.
Qed.

Lemma setup_all_exec l k tr code : exec (setup_all l k) tr code ->
  (exists tr', tr = ((fun r => Obs (SetupWithManager r) (Ok tt)) <$> l) ++ tr' /\ exec k tr' code)
  \/ (code = 1 /\ forall o, o ∈ tr -> ~ is_start o).
Proof.
  revert tr. induction l as [|r l IH]; intros tr H; [left; by exists tr|].
  apply or_exit_exec in H as [(tr' & -> & H)|(e & -> & ->)].
  - destruct (IH _ H) as [(tr2 & -> & H2)|[-> Hno]]; [left; by exists tr2 | right].
    split; [done|]. intros o [->|Ho]%elem_of_cons; [tauto | by apply Hno].
  - right. split; [done|]. intros o. rewrite !elem_of_cons, elem_of_nil. intros [->|[->|[]]]; tauto.
Qed.

(** The manager is started only once the five reconcilers are set up, with the
    values of the flags; a failed call exits with status 1. *)
Lemma operator_starts_complete env f tr code : exec (operator_main env f) tr code ->
  (exists o, o ∈ tr /\ is_start o) ->
  omap installed tr = [RDesktop (operator_desktop env f); RAgentJob (operator_agentjob f);
                       RNetworkGrant (operator_grant f); RHomeTemplate; RPortShare].
Proof.
  intros H (o & Ho & Hs). unfold operator_main in H.
  apply or_exit_exec in H as [(t1 & -> & H)|(e & -> & _)]; [|set_solver].
  apply elem_of_cons in Ho as [->|Ho]; [done|].
  apply setup_all_exec in H as [(t2 & -> & H)|[_ Hno]]; [|by destruct (Hno o)].
  cbn. repeat f_equal.
  apply or_exit_exec in H as [(t3 & -> & H)|(e & -> & _)]; [|done].
  apply or_exit_exec in H as [(t4 & -> & H)|(e & -> & _)]; [|done].
  walk H. apply or_exit_exec in H as [(t5 & -> & [-> _])|(e & -> & _)]; done.
Qed.
