(* ===== verification/Relayd.v ===== *)
(** The reverse-tunnel relay (src/cmd/ws-relayd/main.go): its data, the
    authentication of desktops, and the three connection handlers.

    A handler is one goroutine.  Each section it runs under [s.mu] is one call
    on the shared maps; the channel of a pending stream, made by the handler of
    the client connection [c], is named by [c].  [encoding/json] and the JWT
    library are parameters.  [io.Copy] and what peers send are the outside
    world's; the start is in RelayStart.v, logging is left out. *)
From S2P Require Export GoNum.
From stdpp Require Import options.
Open Scope Z_scope.

(** * Data *)

Notation conn := nat.

Record registerMsg := { rm_Key : string; rm_Token : string }.
Record openMsg := { om_Type : string; om_Stream : string; om_Port : Z }.
Record dataHello := { dh_Stream : string; dh_Key : string; dh_Token : string }.
Record dialReq := { dr_Key : string; dr_Port : Z }.
Record dialResp := { rs_OK : bool; rs_Error : string }.

Record agent := { ag_key : string; ag_conn : conn }.
Record authConfig := { ac_tokens : gmap string string; ac_jwtSecret : string }.
Record rserver := { sv_auth : authConfig; sv_allowedPorts : gset Z }.
(** [ps_ch]: the client connection whose handler made the channel. *)
Record pendingStream := { ps_key : string; ps_port : Z; ps_ch : conn }.
(** [connWithReadRest] *)
Record dataConn := { dc_conn : conn; dc_rest : list ascii }.

#[global] Instance agent_eq_dec : EqDecision agent.
Proof. solve_decision. Defined.
#[global] Instance pendingStream_eq_dec : EqDecision pendingStream.
Proof. solve_decision. Defined.

(** [c.Read(p)] for a buffer of [n] bytes: the bytes read with the hello come
    first; [None] stands for a read of the connection itself. *)
Definition read_rest (d : dataConn) (n : nat) : option (list ascii) * dataConn :=
  match dc_rest d with
  | [] => (None, d)
  | rest => (Some (take n rest), {| dc_conn := dc_conn d; dc_rest := drop n rest |})
  end.

(** * Calls *)

Inductive reff : Type -> Type :=
(* r.ReadBytes('\n'): the bytes up to the newline, and those left buffered *)
| ReadBytes (c : conn) : reff (result error (list ascii * list ascii))
| WriteResp (c : conn) (v : dialResp) : reff (result error unit)
| SendOpen (a : agent) (v : openMsg) : reff (result error unit)
| CloseConn (c : conn) : reff unit
(* io.Copy(io.Discard, r) *)
| Drain (c : conn) : reff unit
(* the two copies, until one of them ends *)
| Bridge (c : conn) (d : dataConn) : reff unit
| RTime : reff Z
| RRand (n : nat) : reff (option (list ascii))
(* under s.mu *)
| RegisterAgent (a : agent) : reff unit
| UnregisterAgent (a : agent) : reff unit
| LookupAgent (key : string) : reff (option agent)
| AddPending (stream : string) (p : pendingStream) : reff unit
| DropPending (stream : string) : reff unit
| TakePending (stream key : string) : reff (option pendingStream)
(* select { case p.ch <- conn: ...; default: ... } *)
| TrySend (ch : conn) (d : dataConn) : reff bool
(* select { case dataConn = <-p.ch: ...; case <-time.After(...): ... } *)
| Await (ch : conn) : reff (option dataConn).

Notation rprog := (prog reff).
Notation robs := (obs reff).

(** * The shared state *)

Record relay := {
  ry_agents : gmap string agent;
  ry_pending : gmap string pendingStream;
  ry_chan : gmap conn dataConn;         (* what the buffered channels hold *)
  ry_closed : gset conn;
}.

Definition set_agents (f : gmap string agent -> gmap string agent) (r : relay) : relay :=
  {| ry_agents := f (ry_agents r); ry_pending := ry_pending r;
     ry_chan := ry_chan r; ry_closed := ry_closed r |}.
Definition set_pending (f : gmap string pendingStream -> gmap string pendingStream) (r : relay) : relay :=
  {| ry_agents := ry_agents r; ry_pending := f (ry_pending r);
     ry_chan := ry_chan r; ry_closed := ry_closed r |}.
Definition set_chan (f : gmap conn dataConn -> gmap conn dataConn) (r : relay) : relay :=
  {| ry_agents := ry_agents r; ry_pending := ry_pending r;
     ry_chan := f (ry_chan r); ry_closed := ry_closed r |}.
Definition close (c : conn) (r : relay) : relay :=
  {| ry_agents := ry_agents r; ry_pending := ry_pending r;
     ry_chan := ry_chan r; ry_closed := {[c]} ∪ ry_closed r |}.

(** The section of handleControlConn that replaces an older agent. *)
Definition register (a : agent) (r : relay) : relay :=
  set_agents <[ag_key a := a]>
    (match ry_agents r !! ag_key a with Some old => close (ag_conn old) r | None => r end).

(** [if cur == a { delete(s.agents, key) }]: an agent is the pointer made by the
    handler of its connection. *)
Definition unregister (a : agent) (r : relay) : relay :=
  if decide (ry_agents r !! ag_key a = Some a) then set_agents (delete (ag_key a)) r else r.

(** The section of handleDataConn that takes the pending stream. *)
Definition take_pending (stream key : string) (r : relay) : option pendingStream * relay :=
  match ry_pending r !! stream with
  | Some p => if decide (ps_key p = key) then (Some p, set_pending (delete stream) r) else (None, r)
  | None => (None, r)
  end.

(** What a call may answer in a state, and the state after it. *)
Definition act {X} (e : reff X) : X -> relay -> relay -> Prop :=
  match e in reff X return X -> relay -> relay -> Prop with
  | CloseConn c => fun _ r r' => r' = close c r
  | RegisterAgent a => fun _ r r' => r' = register a r
  | UnregisterAgent a => fun _ r r' => r' = unregister a r
  | LookupAgent key => fun x r r' => x = ry_agents r !! key /\ r' = r
  | AddPending s p => fun _ r r' => r' = set_pending <[s := p]> r
  | DropPending s => fun _ r r' => r' = set_pending (delete s) r
  | TakePending s key => fun x r r' => (x, r') = take_pending s key r
  | TrySend ch d => fun ok r r' =>
      match ry_chan r !! ch with
      | None => ok = true /\ r' = set_chan <[ch := d]> r
      | Some _ => ok = false /\ r' = r
      end
  | Await ch => fun x r r' =>
      match x with
      | Some d => ry_chan r !! ch = Some d /\ r' = set_chan (delete ch) r
      | None => r' = r
      end
  | ReadBytes _ | WriteResp _ _ | SendOpen _ _ | Drain _ | Bridge _ _ | RTime | RRand _ =>
      fun _ r r' => r' = r
  end.

(** * Configuration *)

(** One element of a list of ports. *)
Definition allowed_port (_ : nat) (part : string) (out : gset Z) : result error (gset Z) :=
  let part := TrimSpace part in
  if decide (part = "") then Ok out else
  match Atoi part with
  | Some n => if (n <=? 0) || (65535 <? n) then Err (Errorf "invalid port %q" [VStr part])
              else Ok ({[n]} ∪ out)
  | None => Err (Errorf "invalid port %q" [VStr part])
  end.

Definition parseAllowedPorts (csv : string) : result error (gset Z) :=
  match forE allowed_port (Split csv (byte 44)) ∅ with
  | Err e => Err e
  | Ok out => if decide (out = ∅) then Err (Errorf "empty allowlist" []) else Ok out
  end.

(** [strconv.ParseUint(s, 8, 32)] *)
Fixpoint parse_octal (acc : Z) (l : list ascii) : option Z :=
  match l with
  | [] => Some acc
  | c :: l' =>
      if ((48 <=? code c) && (code c <? 56))%nat
      then let acc := acc * 8 + Z.of_nat (code c - 48) in
           if acc <? 2 ^ 32 then parse_octal acc l' else None
      else None
  end.

Definition parseSocketMode (raw : string) : result error Z :=
  let s := TrimSpace raw in
  if decide (s = "") then Err (Errorf "empty mode" []) else
  match parse_octal 0 (s2l s) with
  | None => Err (Errorf "invalid octal mode %q" [VStr s])
  | Some n => if 4095 <? n then Err (Errorf "mode out of range %q" [VStr s]) else Ok n
  end.

Definition parseOptionalGID (raw : string) : result error (option Z) :=
  let s := TrimSpace raw in
  if decide (s = "") then Ok None else
  match Atoi s with
  | Some n => if n <? 0 then Err (Errorf "invalid gid %q" [VStr s]) else Ok (Some n)
  | None => Err (Errorf "invalid gid %q" [VStr s])
  end.

(** One entry of the decoded table of tokens. *)
Definition normal_token (normalized : gmap string string) (kv : string * string) : gmap string string :=
  let key := TrimSpace kv.1 in
  let tok := TrimSpace kv.2 in
  if decide (key = "" \/ tok = "") then normalized else <[key := tok]> normalized.

Section config.
Context (read_file : string -> result error string).
Context (json_tokens : string -> result error (gmap string string)).
(** The order in which Go iterates over a map. *)
Context (iterate : gmap string string -> list (string * string)).

Definition loadTokens (tokensJSON tokensFile : string) : result error (gmap string string) :=
  let raw := TrimSpace tokensJSON in
  let raw := if decide (raw = "" /\ TrimSpace tokensFile <> "")
             then match read_file (TrimSpace tokensFile) with
                  | Ok b => Ok (TrimSpace b)
                  | Err e => Err e
                  end
             else Ok raw in
  match raw with
  | Err e => Err e
  | Ok raw =>
      if decide (raw = "") then Ok ∅ else
      match json_tokens raw with
      | Err e => Err e
      | Ok out => Ok (fold_left normal_token (iterate out) ∅)
      end
  end.
End config.

(** * Handlers *)

Section handlers.
(** [json.Unmarshal] into the three messages; [jwt.ParseWithClaims] with the
    program's key function, at a time: the subject and the expiry. *)
Context (json_register : string -> option registerMsg).
Context (json_hello : string -> option dataHello).
Context (json_dial : string -> option dialReq).
Context (jwt_parse : (string -> option string) -> string -> Z -> option (string * option Z)).

Definition tokenMatches (tokens : gmap string string) (key token : string) : bool :=
  let want := TrimSpace (default "" (tokens !! TrimSpace key)) in
  bool_decide (want <> "" /\ TrimSpace token = want).

(** The key function given to the library, by the algorithm of the token. *)
Definition jwt_key (secret alg : string) : option string :=
  if decide (alg = "HS256") then Some secret else None.

(** The time the library gives for [exp] counts from the year 1 like every other time
    here (GoNum), so [IsZero] is Go's and not the beginning of Unix time. *)
Definition validateJWT (secret key token : string) : rprog bool :=
  now ← trigger RTime;
  match jwt_parse (jwt_key secret) token now with
  | None => mret false
  | Some (subject, expiresAt) =>
      let sub := TrimSpace subject in
      if decide (sub = "" \/ sub <> TrimSpace key) then mret false else
      match expiresAt with
      | Some exp =>
          if IsZero exp then mret true else
          now ← trigger RTime;
          mret (negb (After now exp))
      | None => mret true
      end
  end.

Definition validate (a : authConfig) (key token : string) : rprog bool :=
  if decide (TrimSpace key = "" \/ TrimSpace token = "") then mret false else
  ok ← (if decide (ac_jwtSecret a = "") then mret false
        else validateJWT (ac_jwtSecret a) key token);
  if ok : bool then mret true else mret (tokenMatches (ac_tokens a) key token).

Definition readLineWithRest (c : conn) (maxBytes : Z)
    : rprog (result error (string * list ascii)) :=
  r ← trigger (ReadBytes c);
  mret (match r with
        | Err e => Err e
        | Ok (b, rest) =>
            if (0 <? maxBytes) && (maxBytes <? Z.of_nat (length b))
            then Err (Errorf "line too long" [])
            else Ok (TrimSpace (l2s b), rest)
        end).

Definition handleControlConn (s : rserver) (c : conn) : rprog unit :=
  r ← readLineWithRest c 65536;
  _ ← match r with
      | Err _ => mret tt
      | Ok (line, _) =>
          match json_register line with
          | None => mret tt
          | Some reg =>
              let key := TrimSpace (rm_Key reg) in
              let tok := TrimSpace (rm_Token reg) in
              if decide (key = "" \/ tok = "") then mret tt else
              ok ← validate (sv_auth s) key tok;
              if negb ok then mret tt else
              let a := {| ag_key := key; ag_conn := c |} in
              _ ← trigger (RegisterAgent a);
              _ ← trigger (Drain c);
              trigger (UnregisterAgent a)
          end
      end;
  trigger (CloseConn c).

Definition handleDataConn (s : rserver) (c : conn) : rprog unit :=
  r ← readLineWithRest c 65536;
  match r with
  | Err _ => trigger (CloseConn c)
  | Ok (line, rest) =>
      match json_hello line with
      | None => trigger (CloseConn c)
      | Some hello =>
          let stream := TrimSpace (dh_Stream hello) in
          let key := TrimSpace (dh_Key hello) in
          let tok := TrimSpace (dh_Token hello) in
          if decide (stream = "" \/ key = "" \/ tok = "") then trigger (CloseConn c) else
          ok ← validate (sv_auth s) key tok;
          if negb ok then trigger (CloseConn c) else
          p ← trigger (TakePending stream key);
          match p with
          | None => trigger (CloseConn c)
          | Some p =>
              sent ← trigger (TrySend (ps_ch p) {| dc_conn := c; dc_rest := rest |});
              if sent : bool then mret tt else trigger (CloseConn c)
          end
      end
  end.

Definition randomToken (n : Z) : rprog string :=
  let n := if n <=? 0 then 16 else n in
  b ← trigger (RRand (Z.to_nat n));
  match b with
  | Some b => mret (hex_encode b)
  | None => now ← trigger RTime; mret (hex_encode (s2l (format_rfc3339nano now)))
  end.

(** [writeJSONLine(c, dialResp{OK: false, Error: msg})] *)
Definition refuse (c : conn) (msg : string) : rprog unit :=
  _ ← trigger (WriteResp c {| rs_OK := false; rs_Error := msg |}); mret tt.

(** From the creation of the pending stream on; the deferred close of the data
    connection runs last. *)
Definition open_stream (c : conn) (a : agent) (key : string) (port : Z) : rprog unit :=
  stream ← randomToken 16;
  _ ← trigger (AddPending stream {| ps_key := key; ps_port := port; ps_ch := c |});
  sent ← trigger (SendOpen a {| om_Type := "open"; om_Stream := stream; om_Port := port |});
  match sent with
  | Err _ =>
      _ ← trigger (DropPending stream);
      refuse c "failed to contact desktop"
  | Ok _ =>
      dataConn ← trigger (Await c);
      match dataConn with
      | None =>
          _ ← trigger (DropPending stream);
          refuse c "timeout waiting for desktop stream"
      | Some d =>
          w ← trigger (WriteResp c {| rs_OK := true; rs_Error := "" |});
          _ ← match w with
              | Err _ => mret tt
              | Ok _ => trigger (Bridge c d)
              end;
          trigger (CloseConn (dc_conn d))
      end
  end.

Definition serve_dial (s : rserver) (c : conn) : rprog unit :=
  r ← readLineWithRest c 65536;
  match r with
  | Err _ => refuse c "invalid request"
  | Ok (line, _) =>
      match json_dial line with
      | None => refuse c "invalid json"
      | Some req =>
          let key := TrimSpace (dr_Key req) in
          let port := dr_Port req in
          if decide (key = "" \/ port <= 0 \/ 65535 < port) then refuse c "invalid key/port" else
          if decide (port ∉ sv_allowedPorts s) then refuse c "port not allowed" else
          a ← trigger (LookupAgent key);
          match a with
          | None => refuse c "desktop not connected"
          | Some a => open_stream c a key port
          end
      end
  end.

Definition handleDialConn (s : rserver) (c : conn) : rprog unit :=
  _ ← serve_dial s c;
  trigger (CloseConn c).

(** The connections, by the listener that accepted them. *)
Inductive role := Control | Data | Dial.
#[global] Instance role_eq_dec : EqDecision role.
Proof. solve_decision. Defined.

Definition handler (s : rserver) (k : role) (c : conn) : rprog unit :=
  match k with
  | Control => handleControlConn s c
  | Data => handleDataConn s c
  | Dial => handleDialConn s c
  end.

(** * The daemon *)

Inductive event :=
| EAccept (k : role) (c : conn)
| ECall (c : conn) (o : robs).

Record daemon := { dm_relay : relay; dm_pool : gmap conn (rprog unit) }.

Definition start : daemon :=
  {| dm_relay := {| ry_agents := ∅; ry_pending := ∅; ry_chan := ∅; ry_closed := ∅ |};
     dm_pool := ∅ |}.

(** A listener accepts a connection and starts its handler; or a handler makes
    its next call.  Calls of different handlers interleave in any order. *)
Inductive step (s : rserver) : daemon -> event -> daemon -> Prop :=
| step_accept k c m :
    dm_pool m !! c = None ->
    step s m (EAccept k c)
      {| dm_relay := dm_relay m; dm_pool := <[c := handler s k c]> (dm_pool m) |}
| step_call c X (e : reff X) cont x r' m :
    dm_pool m !! c = Some (Vis e cont) ->
    act e x (dm_relay m) r' ->
    step s m (ECall c (Obs e x)) {| dm_relay := r'; dm_pool := <[c := cont x]> (dm_pool m) |}.

Inductive steps (s : rserver) : daemon -> list event -> daemon -> Prop :=
| steps_nil m : steps s m [] m
| steps_snoc m1 tr m2 ev m3 : steps s m1 tr m2 -> step s m2 ev m3 -> steps s m1 (tr ++ [ev]) m3.
End handlers.
