(* ===== verification/RelaySystem.v ===== *)
(** The relay daemon as a whole: what each handler may do, given what it did
    before; the invariant of the daemon under every interleaving; its
    termination; and what becomes of a stream that the desktop answers. *)
From S2P Require Export Relayd.
From stdpp Require Import options.
Open Scope Z_scope.

(** * Reading off a trace *)

Definition added (o : robs) : option (string * pendingStream) :=
  match o with Obs e _ => match e with AddPending s p => Some (s, p) | _ => None end end.
Definition dropped (o : robs) : option string :=
  match o with Obs e _ => match e with DropPending s => Some s | _ => None end end.
Definition registered (o : robs) : option agent :=
  match o with Obs e _ => match e with RegisterAgent a => Some a | _ => None end end.
Definition unregistered (o : robs) : option agent :=
  match o with Obs e _ => match e with UnregisterAgent a => Some a | _ => None end end.
(** The stream and key a data connection gave, and the pending stream it was
    matched with. *)
Definition taken (o : robs) : option (string * string * pendingStream) :=
  match o with
  | Obs e x => match e in reff X return X -> option (string * string * pendingStream) with
               | TakePending stream key => fmap (fun p => (stream, key, p))
               | _ => fun _ => None
               end x
  end.
Definition found (o : robs) : option (string * agent) :=
  match o with
  | Obs e x => match e in reff X return X -> option (string * agent) with
               | LookupAgent key => fmap (fun a => (key, a))
               | _ => fun _ => None
               end x
  end.
(** A connection handed over a channel, and whether the channel took it. *)
Definition handed (o : robs) : option (conn * dataConn * bool) :=
  match o with
  | Obs e x => match e in reff X return X -> option (conn * dataConn * bool) with
               | TrySend ch d => fun ok => Some (ch, d, ok)
               | _ => fun _ => None
               end x
  end.
(** The end of a wait on a channel: a connection, or the timer. *)
Definition waited (o : robs) : option (conn * option dataConn) :=
  match o with
  | Obs e x => match e in reff X return X -> option (conn * option dataConn) with
               | Await ch => fun d => Some (ch, d)
               | _ => fun _ => None
               end x
  end.
Definition bridged (o : robs) : option (conn * dataConn) :=
  match o with Obs e _ => match e with Bridge c d => Some (c, d) | _ => None end end.
Definition replied (o : robs) : option (conn * dialResp) :=
  match o with Obs e _ => match e with WriteResp c v => Some (c, v) | _ => None end end.
(** An [open] message that could not be written. *)
Definition unsent (o : robs) : option error :=
  match o with
  | Obs e x => match e in reff X return X -> option error with
               | SendOpen _ _ => fun r => match r with Err e => Some e | Ok _ => None end
               | _ => fun _ => None
               end x
  end.
Definition is_time (o : robs) : Prop :=
  match o with Obs e _ => match e with RTime => True | _ => False end end.

(** The calls of one handler. *)
Definition call_of (c : conn) (ev : event) : option robs :=
  match ev with ECall c' o => if decide (c' = c) then Some o else None | EAccept _ _ => None end.
Notation calls_of c := (omap (call_of c)).

Lemma call_of_in c o (tr : list event) : ECall c o ∈ tr <-> o ∈ calls_of c tr.
Proof.
  rewrite list_elem_of_omap. split.
  - intros Hin. exists (ECall c o). split; [done|]. cbn. by rewrite decide_True.
  - intros ([k c'|c' o'] & Hin & Heq); [done|]. cbn in Heq. case_decide; [|done].
    by injection Heq as ->; subst.
Qed.

(** * What each handler may do *)

Section handlers.
Context (jwt_parse : (string -> option string) -> string -> Z -> option (string * option Z)).
Context (s : rserver).

(** [c] sent this line, of at most 64 KiB, before the bytes [rest]. *)
Definition line_of (past : list robs) (c : conn) (line : string) (rest : list ascii) : Prop :=
  exists b, Obs (ReadBytes c) (Ok (b, rest)) ∈ past /\ Z.of_nat (length b) <= 65536
            /\ line = TrimSpace (l2s b).

(** The token authenticates the key: it is the one configured for it, or a JWT
    under the secret whose subject is the key and which has not expired by the
    clock read in [past]. *)
Definition credential (key tok : string) (past : list robs) : Prop :=
  key <> "" /\ tok <> ""
  /\ (tokenMatches (ac_tokens (sv_auth s)) key tok = true
      \/ ac_jwtSecret (sv_auth s) <> ""
         /\ exists now subject expiresAt, Obs RTime now ∈ past
            /\ jwt_parse (jwt_key (ac_jwtSecret (sv_auth s))) tok now = Some (subject, expiresAt)
            /\ TrimSpace subject = key
            /\ forall exp, expiresAt = Some exp -> exp = 0 \/
                 exists now', Obs RTime now' ∈ past /\ now' <= exp).

Lemma credential_mono key tok past past' :
  past ⊆ past' -> credential key tok past -> credential key tok past'.
Proof using Type.
  intros Hsub (Hk & Ht & [Hm|(Hs & now & sub & exp & Hnow & Hp & Hsb & Hexp)]);
    split_and!; [done..|by left|done|done|]. right. split; [done|]. exists now, sub, exp.
  split_and!; [by apply Hsub | done..|]. intros e He.
  destruct (Hexp e He) as [?|(n & Hn & ?)]; [by left|]. right. exists n. split; [by apply Hsub | done].
Qed.

Lemma validate_spec Q key tok past :
  TrimSpace key = key -> TrimSpace tok = tok ->
  (forall past o, is_time o -> Q past o) ->
  upholds Q (fun past' ok => exists new, past' = past ++ new /\ Forall is_time new
               /\ (ok = true -> credential key tok past'))
    past (validate jwt_parse (sv_auth s) key tok).
Proof.
  intros Hk Ht HQ. unfold validate. rewrite Hk, Ht. case_decide as Hne.
  { exists []. rewrite app_nil_r. done. }
  eapply upholds_bind with (R1 := fun past' ok => exists new, past' = past ++ new /\ Forall is_time new
    /\ (ok = true -> credential key tok past')).
  - case_decide as Hsec.
    { exists []. rewrite app_nil_r. done. }
    unfold validateJWT. intros now. split; [by apply HQ|]. cbn.
    destruct (jwt_parse _ tok now) as [[sub exp]|] eqn:Hp; cbn.
    2:{ exists [Obs RTime now]. split; [done|]. split; [by repeat constructor | done]. }
    case_decide as Hsub; cbn.
    { exists [Obs RTime now]. split; [done|]. split; [by repeat constructor | done]. }
    assert (Hcred : forall new, (forall e, exp = Some e -> e = 0 \/ exists n, Obs RTime n ∈ new /\ n <= e) ->
      credential key tok (past ++ [Obs RTime now] ++ new)).
    { intros new He. apply (credential_mono _ _ ([Obs RTime now] ++ new)); [set_solver|]. split_and!; [tauto..|]. right. split; [done|].
      exists now, sub, exp. split; [set_solver|]. split_and!; [done | rewrite Hk in Hsub; destruct (decide (TrimSpace sub = key)); tauto|].
      intros e Hx. destruct (He e Hx) as [?|(n & ? & ?)]; [by left|]. right. exists n. set_solver. }
    destruct exp as [exp|]; cbn.
    2:{ exists [Obs RTime now]. split; [done|]. split; [by repeat constructor|]. intros _. by apply (Hcred []). }
    unfold IsZero. destruct (Z.eqb_spec exp 0) as [->|Hz]; cbn.
    { exists [Obs RTime now]. split; [done|]. split; [by repeat constructor|]. intros _.
      apply (Hcred []). intros e [= <-]. by left. }
    intros now'. split; [by apply HQ|]. exists ([Obs RTime now] ++ [Obs RTime now']).
    split; [by rewrite (assoc_L (++))|]. split; [by repeat constructor|]. intros Hok%negb_true_iff.
    rewrite <- (assoc_L (++)). apply (Hcred [Obs RTime now']). intros e [= <-]. right. exists now'. split; [set_solver|].
    unfold After in Hok. lia.
  - intros past' ok (new & -> & Hnew & Hcred). destruct ok; cbn.
    + exists new. split_and!; [done..|]. intros _. by apply Hcred.
    + exists new. split_and!; [done..|]. intros Hm. split_and!; [tauto..|]. by left.
Qed.

Lemma times_nil {X} (f : robs -> option X) l :
  (forall o, is_time o -> f o = None) -> Forall is_time l -> omap f l = [].
Proof using Type.
  intros Hf. induction 1 as [|o l Ho _ IH]; [done|]. cbn. by rewrite Hf.
Qed.

(** A line was read, and nothing else happened. *)
Definition just_read (c : conn) (past : list robs) (r : result error (string * list ascii)) : Prop :=
  exists x, past = [Obs (ReadBytes c) x] /\ forall line rest, r = Ok (line, rest) -> line_of past c line rest.

Lemma read_spec (Q : list robs -> robs -> Prop) c :
  (forall x, Q [] (Obs (ReadBytes c) x)) ->
  upholds Q (just_read c) [] (readLineWithRest c 65536).
Proof using Type.
  intros HQ x. split; [apply HQ|]. cbn. exists x. split; [done|]. intros line rest Hr.
  destruct x as [[b rest']|e]; [|done]. destruct (65536 <? Z.of_nat (length b)) eqn:Hl; [done|].
  injection Hr as <- <-. exists b. split; [set_solver|]. split; [|done]. lia.
Qed.

(** A line was read and the token checked: nothing else happened. *)
Definition just_validated (past : list robs) : Prop :=
  forall X (f : robs -> option X), (forall o, is_time o -> f o = None) ->
    (forall c x, f (Obs (ReadBytes c) x) = None) -> omap f past = [].

Lemma read_validated c x new : Forall is_time new -> just_validated (Obs (ReadBytes c) x :: new).
Proof using Type. intros Hn X f Hf Hr. cbn. rewrite Hr. by apply times_nil. Qed.

Lemma line_of_mono past past' c line rest :
  past ⊆ past' -> line_of past c line rest -> line_of past' c line rest.
Proof using Type. intros Hs (b & ? & ? & ?). exists b. split; [by apply Hs | done]. Qed.

Ltac quiet_obs := let o := fresh "o" in intros o; destruct o as [? e ?]; by destruct e.
Ltac none_of Hv := apply (Hv _ _); [quiet_obs | done].

(** ** Control connections *)

Section control.
Context (json_register : string -> option registerMsg).

Definition registers (past : list robs) (c : conn) (a : agent) : Prop :=
  ag_conn a = c /\ exists line rest reg,
    line_of past c line rest /\ json_register line = Some reg
    /\ ag_key a = TrimSpace (rm_Key reg) /\ credential (ag_key a) (TrimSpace (rm_Token reg)) past.

Definition control_call (c : conn) (past : list robs) (o : robs) : Prop :=
  match o with Obs e _ =>
    match e with
    | ReadBytes c' | CloseConn c' | Drain c' => c' = c
    | RTime => True
    | RegisterAgent a => registers past c a /\ omap registered past = [] /\ omap unregistered past = []
    | UnregisterAgent a => omap registered past = [a]
    | _ => False
    end
  end.

Definition control_end (c : conn) (past : list robs) : Prop :=
  Obs (CloseConn c) tt ∈ past /\ forall a, a ∈ omap registered past -> a ∈ omap unregistered past.

Lemma control_upholds c :
  upholds (control_call c) (fun past _ => control_end c past) []
    (handleControlConn json_register jwt_parse s c).
Proof using Type.
  assert (Hend : forall past (u : unit), omap registered past = [] ->
    upholds (control_call c) (fun past _ => control_end c past) past (trigger (CloseConn c))).
  { intros past _ Hr []. split; [done|]. split; [set_solver|].
    rewrite omap_app, Hr. by intros a ?%not_elem_of_nil. }
  unfold handleControlConn. eapply upholds_bind; [by apply read_spec|].
  intros past r (x & -> & Hline).
  destruct r as [[line rest]|e]; [|by apply Hend].
  destruct (json_register line) as [reg|] eqn:Hj; [|by apply Hend].
  case_decide as Hne; [by apply Hend|].
  unfold mbind at 1, prog_bind at 1.
  eapply upholds_bind with (R1 := fun past' (_ : unit) =>
    forall a, a ∈ omap registered past' -> a ∈ omap unregistered past').
  2:{ intros past' _ Hr []. split; [done|]. split; [set_solver|]. rewrite !omap_app.
      intros a [?|[]%not_elem_of_nil]%elem_of_app. apply elem_of_app. left. by apply Hr. }
  eapply upholds_bind; [apply validate_spec; [apply TrimSpace_idemp..|] |].
  { intros past o. destruct o as [? e ?]; by destruct e. }
  intros past ok (new & -> & Hnew & Hcred). pose proof (read_validated c x _ Hnew) as Hv.
  change ([Obs (ReadBytes c) x] ++ new) with (Obs (ReadBytes c) x :: new) in *.
  specialize (Hline line rest eq_refl).
  apply (line_of_mono _ (Obs (ReadBytes c) x :: new)) in Hline; [|set_solver].
  revert Hcred Hv Hline. generalize (Obs (ReadBytes c) x :: new). intros past Hcred Hv Hline.
  assert (Hreg : omap registered past = []) by none_of Hv.
  destruct ok; cbn [negb].
  2:{ cbn. rewrite Hreg. by intros a ?%not_elem_of_nil. }
  cbn [mbind prog_bind prog_bind_def trigger upholds]. intros []. split.
  { split; [|split; [done | none_of Hv]]. split; [done|]. exists line, rest, reg. split_and!; [done..|]. by apply Hcred. }
  intros []. split; [done|]. intros []. split.
  { cbn. rewrite !omap_app, Hreg. done. }
  rewrite !omap_app, Hreg. cbn. intros a ?%list_elem_of_singleton. subst a. set_solver.
Qed.

End control.

(** ** Data connections *)

Section data.
Context (json_hello : string -> option dataHello).

Definition presents (past : list robs) (d : dataConn) (stream key : string) : Prop :=
  exists line hello,
    line_of past (dc_conn d) line (dc_rest d) /\ json_hello line = Some hello
    /\ stream = TrimSpace (dh_Stream hello) /\ stream <> "" /\ key = TrimSpace (dh_Key hello)
    /\ credential key (TrimSpace (dh_Token hello)) past.

Definition data_call (c : conn) (past : list robs) (o : robs) : Prop :=
  match o with Obs e _ =>
    match e with
    | ReadBytes c' | CloseConn c' => c' = c
    | RTime => True
    | TakePending stream key =>
        (exists rest, presents past {| dc_conn := c; dc_rest := rest |} stream key)
        /\ omap taken past = [] /\ omap handed past = []
    | TrySend ch d =>
        dc_conn d = c /\ omap handed past = []
        /\ exists stream key p, omap taken past = [(stream, key, p)] /\ ps_ch p = ch /\ presents past d stream key
    | _ => False
    end
  end.

(** A data connection was closed, or handed to the client its stream is for. *)
Definition data_end (c : conn) (past : list robs) : Prop :=
  omap taken past = [] /\ Obs (CloseConn c) tt ∈ past
  \/ exists stream key p d ok, omap taken past = [(stream, key, p)] /\ omap handed past = [(ps_ch p, d, ok)] /\ dc_conn d = c.

Lemma presents_mono past past' d stream key :
  past ⊆ past' -> presents past d stream key -> presents past' d stream key.
Proof using Type.
  intros Hs (line & hello & ? & ? & ? & ? & ? & ?). exists line, hello.
  split_and!; [by eapply line_of_mono | done..| by eapply credential_mono].
Qed.

Lemma data_upholds c : upholds (data_call c) (fun past _ => data_end c past) [] (handleDataConn json_hello jwt_parse s c).
Proof using Type.
  unfold handleDataConn. eapply upholds_bind; [by apply read_spec|].
  intros past r (x & -> & Hline). destruct r as [[line rest]|e]; cbn.
  2:{ intros []. split; [done|]. left. split; [done | set_solver]. }
  destruct (json_hello line) as [hello|] eqn:Hj; cbn.
  2:{ intros []. split; [done|]. left. split; [done | set_solver]. }
  case_decide as Hne; cbn.
  { intros []. split; [done|]. left. split; [done | set_solver]. }
  eapply upholds_bind; [apply validate_spec; [apply TrimSpace_idemp..|] |].
  { intros past o. destruct o as [? e ?]; by destruct e. }
  intros past ok (new & -> & Hnew & Hcred). pose proof (read_validated c x _ Hnew) as Hv.
  change ([Obs (ReadBytes c) x] ++ new) with (Obs (ReadBytes c) x :: new) in *.
  specialize (Hline line rest eq_refl). apply (line_of_mono _ (Obs (ReadBytes c) x :: new)) in Hline; [|set_solver].
  revert Hcred Hv Hline. generalize (Obs (ReadBytes c) x :: new). intros past Hcred Hv Hline. destruct ok; cbn.
  2:{ intros []. split; [done|]. left. rewrite omap_app, (Hv _ taken) by first [quiet_obs | done].
      split; [done | set_solver]. }
  assert (Hpres : presents past {| dc_conn := c; dc_rest := rest |} (TrimSpace (dh_Stream hello)) (TrimSpace (dh_Key hello))).
  { exists line, hello. split_and!; [done..| |done|by apply Hcred]. intros Hs. apply Hne. by left. }
  intros [p|]; cbn.
  - split; [split; [by exists rest|]; split; none_of Hv|].
    assert (Ht : omap taken (past ++ [Obs (TakePending (TrimSpace (dh_Stream hello)) (TrimSpace (dh_Key hello))) (Some p)]) = [(TrimSpace (dh_Stream hello), TrimSpace (dh_Key hello), p)])
      by (rewrite omap_app, (Hv _ taken) by first [quiet_obs | done]; done).
    intros ok. split.
    + split; [done|]. split; [rewrite omap_app, (Hv _ handed) by first [quiet_obs | done]; done|].
      exists (TrimSpace (dh_Stream hello)), (TrimSpace (dh_Key hello)), p.
      split; [done|]. split; [done|].
      eapply presents_mono; [|done]. set_solver.
    + assert (Hd : forall l, omap taken l = [] -> omap handed l = [] -> data_end c
        (((past ++ [Obs (TakePending (TrimSpace (dh_Stream hello)) (TrimSpace (dh_Key hello))) (Some p)])
          ++ [Obs (TrySend (ps_ch p) {| dc_conn := c; dc_rest := rest |}) ok]) ++ l)).
      { intros l Hl1 Hl2. right. eexists _, _, p, {| dc_conn := c; dc_rest := rest |}, ok.
        rewrite !omap_app, Hl1, Hl2, (Hv _ taken), (Hv _ handed) by first [quiet_obs | done]. done. }
      destruct ok; cbn; [rewrite <- (app_nil_r (_ ++ _)); by apply Hd | intros []; split; [done | by apply Hd]].
  - split; [split; [by exists rest|]; split; none_of Hv|]. intros []. split; [done|]. left.
    rewrite !omap_app, (Hv _ taken) by first [quiet_obs | done]. split; [done | set_solver].
Qed.

End data.

(** ** Client connections *)

Section dial.
Context (json_dial : string -> option dialReq).

Definition asks (past : list robs) (c : conn) (key : string) (port : Z) : Prop :=
  exists line rest req,
    line_of past c line rest /\ json_dial line = Some req
    /\ key = TrimSpace (dr_Key req) /\ key <> "" /\ port = dr_Port req
    /\ port ∈ sv_allowedPorts s /\ 0 < port <= 65535.

Definition dial_call (c : conn) (past : list robs) (o : robs) : Prop :=
  match o with Obs e _ =>
    match e with
    | ReadBytes c' => c' = c
    | CloseConn c' => c' = c \/ exists d, dc_conn d = c' /\ omap waited past = [(c, Some d)]
    | RTime | RRand _ => True
    | LookupAgent key => exists port, asks past c key port
    | AddPending stream p =>
        ps_ch p = c /\ asks past c (ps_key p) (ps_port p) /\ omap added past = []
        /\ omap waited past = [] /\ omap dropped past = []
        /\ exists a, Obs (LookupAgent (ps_key p)) (Some a) ∈ past
    | SendOpen a m => exists stream p, omap added past = [(stream, p)]
        /\ Obs (LookupAgent (ps_key p)) (Some a) ∈ past
        /\ m = {| om_Type := "open"; om_Stream := stream; om_Port := ps_port p |}
    | DropPending stream => exists p, omap added past = [(stream, p)]
        /\ (omap unsent past <> [] \/ omap waited past = [(c, None)])
    | Await c' => c' = c /\ omap waited past = [] /\ omap unsent past = []
        /\ exists x, omap added past = [x]
    | WriteResp c' r => c' = c /\ omap replied past = []
        /\ (rs_OK r = true <-> exists d, omap waited past = [(c, Some d)])
    | Bridge c' d => c' = c /\ omap waited past = [(c, Some d)]
        /\ omap bridged past = []
        /\ exists stream p a, omap added past = [(stream, p)]
           /\ Obs (SendOpen a {| om_Type := "open"; om_Stream := stream; om_Port := ps_port p |}) (Ok tt) ∈ past
    | _ => False
    end
  end.

(** What has become of a client connection when its handler has returned. *)
Definition dial_done (c : conn) (past : list robs) : Prop :=
  (exists r, omap replied past = [(c, r)]
             /\ (rs_OK r = true <-> exists d, omap waited past = [(c, Some d)]))
  /\ (omap added past = []
      \/ exists stream p, omap added past = [(stream, p)]
         /\ (stream ∈ omap dropped past /\ (omap unsent past <> [] \/ omap waited past = [(c, None)])
             \/ exists d, omap waited past = [(c, Some d)] /\ Obs (CloseConn (dc_conn d)) tt ∈ past)).
Definition dial_end (c : conn) (past : list robs) : Prop :=
  Obs (CloseConn c) tt ∈ past /\ dial_done c past.

Lemma asks_mono past past' c key port : past ⊆ past' -> asks past c key port -> asks past' c key port.
Proof using Type.
  intros Hs (line & rest & req & ? & Hr). exists line, rest, req. split; [by eapply line_of_mono | done].
Qed.


(** Nothing of a dial has happened yet. *)
Definition clean (past : list robs) : Prop :=
  omap added past = [] /\ omap dropped past = [] /\ omap unsent past = []
  /\ omap waited past = [] /\ omap replied past = [] /\ omap bridged past = [].

Lemma clean_app past new : clean past -> clean new -> clean (past ++ new).
Proof using Type.
  intros (H1 & H2 & H3 & H4 & H5 & H6) (K1 & K2 & K3 & K4 & K5 & K6).
  unfold clean. by rewrite !omap_app, H1, H2, H3, H4, H5, H6, K1, K2, K3, K4, K5, K6.
Qed.

(** Observations of a trace, from those of its parts. *)
Ltac look Hc := destruct Hc as (Hadd & Hdrop & Huns & Hwait & Hrep & Hbri);
  repeat rewrite omap_app; rewrite ?Hadd, ?Hdrop, ?Huns, ?Hwait, ?Hrep, ?Hbri; cbn; try done.

Lemma refuse_upholds c msg past :
  omap replied past = [] -> (forall d, omap waited past <> [(c, Some d)]) ->
  (omap added past = [] \/ exists stream p, omap added past = [(stream, p)]
     /\ stream ∈ omap dropped past /\ (omap unsent past <> [] \/ omap waited past = [(c, None)])) ->
  upholds (dial_call c) (fun past' _ => dial_done c past') past (refuse c msg).
Proof using Type.
  intros Hr Hw Ha. intros x. split.
  - cbn. split; [done|]. split; [done|]. split; [done | intros [d ?]; by edestruct Hw].
  - cbn. unfold dial_done. rewrite !omap_app, Hr, !app_nil_r. cbn. split.
    + eexists. split; [done|]. cbn. split; [done | intros [d ?]; by edestruct Hw].
    + destruct Ha as [?|(st & p & ? & ? & ?)]; [by left|]. right. exists st, p. split; [done|]. by left.
Qed.

Lemma token_spec (Q : list robs -> robs -> Prop) n past :
  (forall past x, Q past (Obs RTime x)) -> (forall past m x, Q past (Obs (RRand m) x)) ->
  upholds Q (fun past' _ => exists new, past' = past ++ new /\ clean new) past (randomToken n).
Proof using Type.
  intros Ht Hr. unfold randomToken. cbn zeta. intros [b|]; (split; [apply Hr|]); cbn.
  - by eexists.
  - intros t. split; [apply Ht|]. rewrite <- (assoc_L (++)). by eexists.
Qed.

Lemma open_stream_upholds c a key port past :
  clean past -> asks past c key port -> Obs (LookupAgent key) (Some a) ∈ past ->
  upholds (dial_call c) (fun past' _ => dial_done c past') past (open_stream c a key port).
Proof using Type.
  intros Hc Hask Hlook. unfold open_stream. eapply upholds_bind; [by apply token_spec|].
  intros past0 st (new & -> & Hnew).
  apply (asks_mono _ (past ++ new)) in Hask; [|set_solver].
  assert (Hl : Obs (LookupAgent key) (Some a) ∈ past ++ new) by set_solver.
  pose proof (clean_app _ _ Hc Hnew) as Hc'. clear Hlook Hc Hnew.
  revert Hask Hl Hc'. generalize (past ++ new). clear past new. intros past Hask Hl Hc.
  cbn [mbind prog_bind prog_bind_def trigger upholds]. intros []. split.
  { split; [done|]. split; [done|]. split_and!; [look Hc..|]. by exists a. }
  set (p := {| ps_key := key; ps_port := port; ps_ch := c |}).
  intros sent. split.
  { exists st, p. split; [look Hc|]. split; [cbn; set_solver | done]. }
  destruct sent as [[]|e].
  2:{ cbn [mbind prog_bind prog_bind_def trigger upholds]. intros []. split.
      { exists p. split; [look Hc|]. left. look Hc. }
      apply refuse_upholds; [look Hc | intros d; look Hc|]. right. exists st, p.
      split; [look Hc|]. split; [look Hc; set_solver | left; look Hc]. }
  cbn [mbind prog_bind prog_bind_def trigger upholds]. intros [d|].
  2:{ split; [split; [done|]; split_and!; [look Hc..|]; eexists; look Hc|].
      intros []. split; [exists p; split; [look Hc | right; look Hc]|].
      apply refuse_upholds; [look Hc | intros d; look Hc|]. right. exists st, p.
      split; [look Hc|]. split; [look Hc; set_solver | right; look Hc]. }
  split; [split; [done|]; split_and!; [look Hc..|]; eexists; look Hc|].
  intros w. split.
  { split; [done|]. split; [look Hc|]. split; [|done]. intros _. exists d. look Hc. }
  assert (Hdone : forall past', past' = [] \/ past' = [Obs (Bridge c d) tt] ->
    dial_done c ((((((past ++ [Obs (AddPending st p) tt])
      ++ [Obs (SendOpen a {| om_Type := "open"; om_Stream := st; om_Port := port |}) (Ok tt)])
      ++ [Obs (Await c) (Some d)]) ++ [Obs (WriteResp c {| rs_OK := true; rs_Error := "" |}) w])
      ++ past') ++ [Obs (CloseConn (dc_conn d)) tt])).
  { intros past' Hp. assert (Hcl : omap added past' = [] /\ omap waited past' = [] /\ omap replied past' = [])
      by (destruct Hp as [-> | ->]; done).
    destruct Hcl as (H1 & H2 & H3). split.
    - eexists. split; [look Hc; by rewrite H3|]. cbn. split; [|done]. intros _. exists d. look Hc. by rewrite H2.
    - right. exists st, p. split; [look Hc; by rewrite H1|]. right. exists d.
      split; [look Hc; by rewrite H2 | set_solver]. }
  destruct w as [[]|e]; cbn [mbind prog_bind prog_bind_def mret prog_ret trigger upholds].
  - intros []. split.
    + split; [done|]. split; [look Hc|]. split; [look Hc|]. exists st, p, a. split; [look Hc | set_solver].
    + intros []. split; [right; exists d; split; [done | look Hc] | apply Hdone; by right].
  - intros []. split; [right; exists d; split; [done | look Hc]|]. specialize (Hdone [] (or_introl eq_refl)).
    by rewrite app_nil_r in Hdone.
Qed.

Lemma dial_upholds c :
  upholds (dial_call c) (fun past _ => dial_end c past) [] (handleDialConn json_dial s c).
Proof using Type.
  unfold handleDialConn. eapply upholds_bind with (R1 := fun past _ => dial_done c past).
  2:{ intros past _ [(r & Hr & Hi) Ha] []. split; [by left|]. split; [set_solver|].
      unfold dial_done. rewrite !omap_app. cbn. rewrite !app_nil_r. split; [by exists r|].
      destruct Ha as [?|(st & p & ? & [?|(d & ? & ?)])]; [by left|..]; right; exists st, p.
      - split; [done | by left].
      - split; [done|]. right. exists d. set_solver. }
  unfold serve_dial. eapply upholds_bind; [by apply read_spec|].
  intros past r (x & -> & Hline). assert (Hc : clean [Obs (ReadBytes c) x]) by done.
  revert Hline Hc. generalize [Obs (ReadBytes c) x]. intros past Hline Hc.
  assert (Href : forall msg, upholds (dial_call c) (fun past' _ => dial_done c past') past (refuse c msg)).
  { intros msg. apply refuse_upholds; [by look Hc | intros d; by look Hc | left; by look Hc]. }
  destruct r as [[line rest]|e]; [|done].
  destruct (json_dial line) as [req|] eqn:Hj; [|done]. case_decide as Hbad; [done|].
  case_decide as Hport; [done|]. cbn [mbind prog_bind prog_bind_def trigger upholds].
  assert (Hask : asks past c (TrimSpace (dr_Key req)) (dr_Port req)).
  { exists line, rest, req. split; [by apply Hline|]. destruct (decide (dr_Port req ∈ sv_allowedPorts s)); [|done].
    split_and!; [done | done | intros ?; apply Hbad; by left | done | done | lia | lia]. }
  intros [a|]; (split; [by exists (dr_Port req)|]).
  - apply open_stream_upholds; [by apply clean_app | eapply asks_mono; [|done]; set_solver | set_solver].
  - apply refuse_upholds; [by look Hc | intros d; by look Hc | left; by look Hc].
Qed.
End dial.

End handlers.
