(* ===== verification/RelayDaemon.v ===== *)
(** The relay daemon under every interleaving of its handlers: its invariant,
    its termination, and what becomes of a stream that the desktop answers. *)
From S2P Require Export RelaySystem.
From stdpp Require Import options.
Open Scope Z_scope.

(** [did f c x tr]: the handler of [c] made a call of which [f] reads [x]. *)
Definition did {X} (f : robs -> option X) (c : conn) (x : X) (tr : list event) : Prop :=
  x ∈ omap f (calls_of c tr).

Lemma calls_of_snoc c (tr : list event) ev :
  calls_of c (tr ++ [ev]) = calls_of c tr ++ (match call_of c ev with Some o => [o] | None => [] end).
Proof. rewrite omap_app. cbn. by destruct (call_of c ev). Qed.

Lemma calls_of_same c (tr : list event) o : calls_of c (tr ++ [ECall c o]) = calls_of c tr ++ [o].
Proof. rewrite calls_of_snoc. cbn. by rewrite decide_True. Qed.

Lemma calls_of_other c c' (tr : list event) o : c' <> c -> calls_of c (tr ++ [ECall c' o]) = calls_of c tr.
Proof. intros Hne. rewrite calls_of_snoc. cbn. by rewrite decide_False, app_nil_r. Qed.

Lemma did_iff {X} (f : robs -> option X) c x (tr : list event) :
  did f c x tr <-> exists o, ECall c o ∈ tr /\ f o = Some x.
Proof.
  unfold did. rewrite list_elem_of_omap. split; intros (o & Ho & Hf); exists o; split; try done; by apply call_of_in.
Qed.

Lemma did_snoc {X} (f : robs -> option X) c x (tr : list event) ev :
  did f c x (tr ++ [ev]) <-> did f c x tr \/ exists o, ev = ECall c o /\ f o = Some x.
Proof.
  rewrite !did_iff. split.
  - intros (o & [Hin|Hin%list_elem_of_singleton]%elem_of_app & Hf); [left | right]; eauto.
  - intros [(o & Hin & Hf)|(o & -> & Hf)]; exists o; (split; [|done]); set_solver.
Qed.

Lemma did_mono {X} (f : robs -> option X) c x (tr : list event) ev : did f c x tr -> did f c x (tr ++ [ev]).
Proof. intros H. apply did_snoc. by left. Qed.

Lemma once {X} (f : robs -> option X) (Q : list robs -> robs -> Prop) tr :
  (forall past o, Q past o -> is_Some (f o) -> omap f past = []) ->
  (forall tr1 o tr2, tr = tr1 ++ o :: tr2 -> Q tr1 o) ->
  forall x y, x ∈ omap f tr -> y ∈ omap f tr -> x = y.
Proof.
  intros HQ. induction tr as [|o tr IH] using rev_ind; intros Hall x y; [by intros ?%not_elem_of_nil|].
  rewrite omap_app. cbn. destruct (f o) as [z|] eqn:Hz; cbn.
  - rewrite (HQ tr o) by (by rewrite ?Hz || by apply (Hall tr o [])).
    intros ?%list_elem_of_singleton ?%list_elem_of_singleton. congruence.
  - rewrite app_nil_r. apply IH. intros tr1 o1 tr2 ->. apply (Hall tr1 o1 (tr2 ++ [o])).
    by rewrite <- (assoc_L (++)).
Qed.

Section daemon.
Context (json_register : string -> option registerMsg).
Context (json_hello : string -> option dataHello).
Context (json_dial : string -> option dialReq).
Context (jwt_parse : (string -> option string) -> string -> Z -> option (string * option Z)).
Context (s : rserver).

#[local] Notation handle := (handler json_register json_hello json_dial jwt_parse s).
#[local] Notation step := (step json_register json_hello json_dial jwt_parse s).
#[local] Notation steps := (steps json_register json_hello json_dial jwt_parse s).

Definition may_call (k : role) (c : conn) : list robs -> robs -> Prop :=
  match k with
  | Control => control_call jwt_parse s json_register c
  | Data => data_call jwt_parse s json_hello c
  | Dial => dial_call s json_dial c
  end.
Definition at_end (k : role) (c : conn) (past : list robs) : Prop :=
  match k with
  | Control => control_end c past
  | Data => data_end c past
  | Dial => dial_end c past
  end.

Lemma handler_upholds k c : upholds (may_call k c) (fun past _ => at_end k c past) [] (handle k c).
Proof using Type.
  destruct k; [apply control_upholds | apply data_upholds | apply dial_upholds].
Qed.

(** ** Handlers and the trace *)

Definition pool_ok (m : daemon) (tr : list event) : Prop :=
  forall c, match dm_pool m !! c with
            | None => calls_of c tr = [] /\ forall k, EAccept k c ∉ tr
            | Some p => exists k, (forall k', EAccept k' c ∈ tr <-> k' = k)
                                  /\ partial (handle k c) (calls_of c tr) p
            end.

Lemma steps_pool tr m : steps start tr m -> pool_ok m tr.
Proof using Type.
  remember start as m0 eqn:Hm0. induction 1 as [m|m1 tr m2 ev m3 _ IH Hstep].
  { subst m. intros c. cbn. rewrite lookup_empty. split; [done|]. intros k ?%not_elem_of_nil. done. }
  specialize (IH Hm0). intros c. specialize (IH c). destruct Hstep as [k c' m Hc'|c' X e cont x r' m Hc' Hact]; cbn.
  - destruct (decide (c' = c)) as [->|Hne].
    + rewrite lookup_insert_eq. rewrite Hc' in IH. destruct IH as [Hnil Hno]. exists k. split.
      * intros k'. rewrite elem_of_app, list_elem_of_singleton. split; [intros [?|[= ->]]; [by edestruct Hno | done]|].
        intros ->. by right.
      * rewrite calls_of_snoc, Hnil. apply partial_nil.
    + rewrite lookup_insert_ne by done. rewrite calls_of_snoc. cbn. rewrite app_nil_r.
      destruct (dm_pool m !! c) as [p|].
      * destruct IH as (k' & Hk & Hp). exists k'. split; [|done]. intros k2. rewrite elem_of_app, Hk, list_elem_of_singleton.
        split; [intros [?|[=]]; done | by left].
      * destruct IH as [Hnil Hno]. split; [done|]. intros k2. rewrite elem_of_app, list_elem_of_singleton.
        intros [?|[= ? ?]]; [by edestruct Hno | done].
  - assert (Hacc : forall k, EAccept k c ∈ tr ++ [ECall c' (Obs e x)] <-> EAccept k c ∈ tr).
    { intros k. rewrite elem_of_app, list_elem_of_singleton. split; [intros [?|[=]]; done | by left]. }
    destruct (decide (c' = c)) as [->|Hne].
    + rewrite lookup_insert_eq, calls_of_same. rewrite Hc' in IH. destruct IH as (k & Hk & Hp).
      exists k. split; [intros k'; by rewrite Hacc|]. by apply partial_snoc.
    + rewrite lookup_insert_ne, calls_of_other by done. destruct (dm_pool m !! c) as [p|].
      * destruct IH as (k & Hk & Hp). exists k. split; [intros k'; by rewrite Hacc | done].
      * destruct IH as [Hnil Hno]. split; [done|]. intros k. by rewrite Hacc.
Qed.

(** Every call keeps to what its handler may do. *)
Lemma steps_calls tr m c o : steps start tr m -> ECall c o ∈ tr ->
  exists k, EAccept k c ∈ tr
    /\ (exists tr1 tr2, calls_of c tr = tr1 ++ o :: tr2 /\ may_call k c tr1 o)
    /\ forall tr1 o' tr2, calls_of c tr = tr1 ++ o' :: tr2 -> may_call k c tr1 o'.
Proof using Type.
  intros Hs Hin%call_of_in. pose proof (steps_pool _ _ Hs c) as Hp.
  destruct (dm_pool m !! c) as [p|].
  - destruct Hp as (k & Hk & Hp). exists k. split; [by apply Hk|].
    pose proof (proj2 (upholds_partial _ _ _ _ _ _ (handler_upholds k c) Hp)) as Hall.
    split; [|done]. destruct (upholds_call _ _ _ _ _ _ (handler_upholds k c) Hp Hin) as (tr1 & tr2 & ? & ?). eauto.
  - destruct Hp as [Hnil _]. rewrite Hnil in Hin. by apply not_elem_of_nil in Hin.
Qed.

(** A call about to be made does too. *)
Lemma next_call tr m c X (e : reff X) cont x :
  steps start tr m -> dm_pool m !! c = Some (Vis e cont) ->
  exists k, EAccept k c ∈ tr /\ may_call k c (calls_of c tr) (Obs e x).
Proof using Type.
  intros Hs Hc. pose proof (steps_pool _ _ Hs c) as Hp. rewrite Hc in Hp. destruct Hp as (k & Hk & Hp).
  exists k. split; [by apply Hk|]. by apply (upholds_next _ _ _ _ _ _ _ (handler_upholds k c) Hp).
Qed.

(** ** What one handler did *)

Section one.
Context (tr : list event) (m : daemon) (Hs : steps start tr m).

(** The call behind an observation, with what its handler had done before. *)
Lemma did_call {X} (f : robs -> option X) c x : did f c x tr ->
  exists k o past, may_call k c past o /\ f o = Some x /\ past ⊆ calls_of c tr
    /\ (forall Y (g : robs -> option Y) y, y ∈ omap g past -> did g c y tr).
Proof using Hs.
  intros (o & Hin & Hf)%did_iff. destruct (steps_calls _ _ _ _ Hs Hin) as (k & _ & (tr1 & tr2 & Heq & Hk) & _).
  assert (Hsub : tr1 ⊆ calls_of c tr) by (rewrite Heq; set_solver).
  exists k, o, tr1. split_and!; [done..|]. intros Y g y (o' & Ho' & Hg)%list_elem_of_omap.
  apply list_elem_of_omap. exists o'. split; [by apply Hsub | done].
Qed.

Lemma did_once {X} (f : robs -> option X) c x y :
  (forall k past o, may_call k c past o -> is_Some (f o) -> omap f past = []) ->
  did f c x tr -> did f c y tr -> x = y.
Proof using Hs.
  intros Hq Hx Hy. assert (Hx' := Hx). apply did_iff in Hx' as (o & Hin & Hf).
  destruct (steps_calls _ _ _ _ Hs Hin) as (k & _ & _ & Hall). by apply (once f _ _ (Hq k) Hall).
Qed.

Ltac which_call H :=
  let k := fresh "k" in let o := fresh "o" in let past := fresh "past" in let Hm := fresh "Hm" in
  let Hf := fresh "Hf" in let Hsub := fresh "Hsub" in let Hd := fresh "Hd" in
  apply did_call in H as (k & o & past & Hm & Hf & Hsub & Hd);
  destruct o as [? [] ?]; try done; destruct k; try done; cbn in Hm, Hf; simplify_eq.

Ltac only_once :=
  intros k past o Hm [? Ho]; destruct o as [? [] ?]; try done; destruct k; try done; cbn in Hm; tauto.

Lemma added_once c x y : did added c x tr -> did added c y tr -> x = y.
Proof using Hs. apply did_once. only_once. Qed.
Lemma handed_once c x y : did handed c x tr -> did handed c y tr -> x = y.
Proof using Hs. apply did_once. only_once. Qed.
Lemma taken_once c x y : did taken c x tr -> did taken c y tr -> x = y.
Proof using Hs. apply did_once. only_once. Qed.
Lemma waited_once c x y : did waited c x tr -> did waited c y tr -> x = y.
Proof using Hs. apply did_once. only_once. Qed.
Lemma registered_once c x y : did registered c x tr -> did registered c y tr -> x = y.
Proof using Hs. apply did_once. only_once. Qed.

Lemma did_added c stream p : did added c (stream, p) tr ->
  ps_ch p = c /\ asks s json_dial (calls_of c tr) c (ps_key p) (ps_port p)
  /\ exists a, did found c (ps_key p, a) tr.
Proof using Hs.
  intros H. which_call H. destruct Hm as (-> & Ha & _ & _ & _ & a & Hl). split; [done|].
  split; [by eapply asks_mono|]. exists a. apply Hd, list_elem_of_omap. by eexists.
Qed.

Lemma did_dropped c stream : did dropped c stream tr -> exists p, did added c (stream, p) tr.
Proof using Hs.
  intros H. which_call H. destruct Hm as (p & Hp & _). exists p. apply Hd. rewrite Hp. by left.
Qed.

Lemma did_taken c stream key p : did taken c (stream, key, p) tr ->
  exists rest, presents jwt_parse s json_hello (calls_of c tr) {| dc_conn := c; dc_rest := rest |} stream key.
Proof using Hs.
  intros H. which_call H; destruct x; try done. injection Hf as -> -> ->.
  destruct Hm as ((rest & Hp) & _). exists rest. by eapply presents_mono.
Qed.

Lemma did_handed c ch d ok : did handed c (ch, d, ok) tr ->
  dc_conn d = c /\ exists stream key p, did taken c (stream, key, p) tr /\ ps_ch p = ch
    /\ presents jwt_parse s json_hello (calls_of c tr) d stream key.
Proof using Hs.
  intros H. which_call H. destruct Hm as (? & _ & stream & key & p & Ht & Hc & Hp).
  split; [done|]. exists stream, key, p. split; [apply Hd; rewrite Ht; by left|]. split; [done|].
  by eapply presents_mono.
Qed.

Lemma did_registered c a : did registered c a tr ->
  registers jwt_parse s json_register (calls_of c tr) c a.
Proof using Hs.
  intros H. which_call H. destruct Hm as ((Ha & line & rest & reg & Hl & Hj & Hk & Hc) & _).
  split; [done|]. exists line, rest, reg. split_and!; [by eapply line_of_mono | done..|by eapply credential_mono].
Qed.

Lemma did_unregistered c a : did unregistered c a tr -> did registered c a tr.
Proof using Hs. intros H. which_call H. apply Hd. rewrite Hm. by left. Qed.

Lemma did_waited c ch x : did waited c (ch, x) tr -> ch = c.
Proof using Hs. intros H. which_call H. tauto. Qed.

Lemma did_bridged c c' d : did bridged c (c', d) tr ->
  c' = c /\ did waited c (c, Some d) tr /\ exists stream p a, did added c (stream, p) tr
    /\ did found c (ps_key p, a) tr
    /\ ECall c (Obs (SendOpen a {| om_Type := "open"; om_Stream := stream; om_Port := ps_port p |}) (Ok tt)) ∈ tr.
Proof using Hs.
  intros H. which_call H. destruct Hm as (-> & Hw & _ & stream & p & a & Ha & Hsend).
  split; [done|]. split; [apply Hd; rewrite Hw; by left|]. exists stream, p, a.
  split; [apply Hd; rewrite Ha; by left|]. apply Hsub in Hsend. pose proof (proj2 (call_of_in _ _ _) Hsend) as Hin.
  split; [|done]. destruct (steps_calls _ _ _ _ Hs Hin) as (k & _ & (tr1 & tr2 & Heq & Hk) & _).
  destruct k; try done. destruct Hk as (st' & p' & Ha' & Hl & Hm). injection Hm as <- Hport.
  assert (Hp : (stream, p') = (stream, p)).
  { apply (added_once c); apply list_elem_of_omap.
    - assert (Hx : (stream, p') ∈ omap added tr1) by (rewrite Ha'; by left).
      apply list_elem_of_omap in Hx as (o & Ho & Hf). exists o. split; [rewrite Heq; set_solver | done].
    - assert (Hx : (stream, p) ∈ omap added past) by (rewrite Ha; by left).
      apply list_elem_of_omap in Hx as (o & Ho & Hf). exists o. split; [by apply Hsub | done]. }
  injection Hp as ->. apply list_elem_of_omap. eexists. split; [rewrite Heq; apply elem_of_app; left; exact Hl | done].
Qed.
End one.

(** ** The invariant of the daemon *)

(** An agent on record has been registered by its handler, and not removed. *)
Record agents_ok (tr : list event) (agents : gmap string agent) : Prop := {
  i_agents : forall key a, agents !! key = Some a ->
    ag_key a = key /\ did registered (ag_conn a) a tr /\ ~ did unregistered (ag_conn a) a tr;
  i_found : forall c key a, did found c (key, a) tr -> ag_key a = key /\ did registered (ag_conn a) a tr;
}.

(** A stream is on offer from its creation until it is dropped or taken, and at
    most one data connection takes it. *)
Record pending_ok (tr : list event) (pending : gmap string pendingStream) : Prop := {
  i_pending : forall stream p, pending !! stream = Some p ->
    did added (ps_ch p) (stream, p) tr /\ ~ did dropped (ps_ch p) stream tr
    /\ forall d st key q, did taken d (st, key, q) tr -> ps_ch q <> ps_ch p;
  i_taken : forall d stream key p, did taken d (stream, key, p) tr ->
    ps_key p = key /\ did added (ps_ch p) (stream, p) tr;
  i_winner : forall d1 st1 k1 p1 d2 st2 k2 p2,
    did taken d1 (st1, k1, p1) tr -> did taken d2 (st2, k2, p2) tr -> ps_ch p1 = ps_ch p2 -> d1 = d2;
}.

(** The channel of a taken stream is free until the connection is handed over,
    and then holds it until the client's handler receives it. *)
Record chan_ok (tr : list event) (chan : gmap conn dataConn) : Prop := {
  i_chan : forall ch d, chan !! ch = Some d -> did handed (dc_conn d) (ch, d, true) tr;
  i_waited : forall c d, did waited c (c, Some d) tr -> did handed (dc_conn d) (c, d, true) tr;
  i_free : forall d stream key p, did taken d (stream, key, p) tr ->
    (forall x, ~ did handed d x tr) -> chan !! ps_ch p = None;
  i_handed : forall c ch d ok, did handed c (ch, d, ok) tr ->
    ok = true /\ (chan !! ch = Some d \/ did waited ch (ch, Some d) tr);
}.

Record inv (tr : list event) (r : relay) : Prop := {
  inv_agents : agents_ok tr (ry_agents r);
  inv_pending : pending_ok tr (ry_pending r);
  inv_chan : chan_ok tr (ry_chan r);
}.

(** Turns what was done in [tr ++ [ev]] into what was done in [tr] or is [ev]. *)
Lemma did_call_snoc {X} (f : robs -> option X) c x (tr : list event) c' o :
  did f c x (tr ++ [ECall c' o]) <-> did f c x tr \/ c' = c /\ f o = Some x.
Proof using Type.
  rewrite did_snoc. split; (intros [?|H]; [by left|right]).
  - destruct H as (o' & Heq & Hf). by injection Heq as <- <-.
  - destruct H as [-> Hf]. eauto.
Qed.

Lemma did_other {X} (f : robs -> option X) c x (tr : list event) c' o :
  f o = None -> did f c x (tr ++ [ECall c' o]) <-> did f c x tr.
Proof using Type.
  intros Hf. rewrite did_call_snoc, Hf. split; [intros [?|[_ ?]]; done | by left].
Qed.

Ltac undo := repeat match goal with
  | H : did _ _ _ (_ ++ [_]) |- _ =>
      let Hc := fresh "Hc" in let Hf := fresh "Hf" in
      apply did_call_snoc in H; destruct H as [H|[Hc Hf]]; [|try done; cbn in Hf; simplify_eq]
  end.

Lemma agents_frame tr agents c o : agents_ok tr agents ->
  registered o = None -> unregistered o = None -> found o = None ->
  agents_ok (tr ++ [ECall c o]) agents.
Proof using Type.
  intros [H1 H2] Hr Hu Hf. split.
  - intros key a Ha. destruct (H1 _ _ Ha) as (? & ? & ?). by rewrite !did_other.
  - intros c' key a. rewrite !did_other by done. apply H2.
Qed.

Lemma pending_frame tr pending c o : pending_ok tr pending ->
  added o = None -> dropped o = None -> taken o = None -> pending_ok (tr ++ [ECall c o]) pending.
Proof using Type.
  intros [H1 H2 H3] Ha Hd Ht. split.
  - intros st p Hp. destruct (H1 _ _ Hp) as (? & ? & Hk). rewrite !did_other by done.
    split; [done|]. split; [done|]. intros d st' k q. rewrite did_other by done. apply Hk.
  - intros d st k p. rewrite !did_other by done. apply H2.
  - intros d1 st1 k1 p1 d2 st2 k2 p2. rewrite !did_other by done. apply H3.
Qed.

Lemma chan_frame tr chan c o : chan_ok tr chan ->
  taken o = None -> handed o = None -> (forall ch d, waited o <> Some (ch, Some d)) ->
  chan_ok (tr ++ [ECall c o]) chan.
Proof using Type.
  intros [H1 H2 H3 H4] Ht Hh Hw. split.
  - intros ch d Hd. rewrite did_other by done. by apply H1.
  - intros c' d H. rewrite did_other by done. apply did_call_snoc in H as [H|[_ H]]; [by apply H2 | by edestruct Hw].
  - intros d st k p. rewrite did_other by done. intros H Hn. apply (H3 _ _ _ _ H). intros x Hx.
    eapply Hn. by apply did_mono.
  - intros c' ch d ok. rewrite did_other by done. intros H. destruct (H4 _ _ _ _ H) as (? & [?|?]).
    + split; [done | by left].
    + split; [done | right; by apply did_mono].
Qed.

Section cases.
Context (tr : list event) (m : daemon) (Hs : steps start tr m).

Lemma not_did {X} (f : robs -> option X) c : omap f (calls_of c tr) = [] -> forall x, ~ did f c x tr.
Proof using Type. intros Hn x. unfold did. rewrite Hn. by intros ?%not_elem_of_nil. Qed.

Lemma register_ok agents c a : agents_ok tr agents ->
  registers jwt_parse s json_register (calls_of c tr) c a -> omap unregistered (calls_of c tr) = [] ->
  agents_ok (tr ++ [ECall c (Obs (RegisterAgent a) tt)]) (<[ag_key a := a]> agents).
Proof using Type.
  intros [H1 H2] [Hac _] Hun. pose proof (not_did _ _ Hun) as Hno. split.
  - intros key b [[<- <-]|[Hne Hb]]%lookup_insert_Some.
    + split; [done|]. rewrite Hac. split; [apply did_call_snoc; by right|]. intros Hx. undo. by apply Hno in Hx.
    + destruct (H1 _ _ Hb) as (? & ? & Hu). split; [done|]. split; [by apply did_mono|]. intros Hx. by undo.
  - intros c' key b Hx. undo. destruct (H2 _ _ _ Hx). split; [done | by apply did_mono].
Qed.

Lemma unregister_ok r c a : agents_ok tr (ry_agents r) -> omap registered (calls_of c tr) = [a] ->
  agents_ok (tr ++ [ECall c (Obs (UnregisterAgent a) tt)]) (ry_agents (unregister a r)).
Proof using Hs.
  intros [H1 H2] Hreg. assert (Hra : did registered c a tr) by (unfold did; rewrite Hreg; by left).
  split.
  - intros key b Hb. assert (Hb' : ry_agents r !! key = Some b /\ b <> a).
    { unfold unregister in Hb. case_decide as Ha.
      - cbn in Hb. apply lookup_delete_Some in Hb as [Hne Hb]. split; [done|]. intros ->. by destruct (H1 _ _ Hb) as [<- _].
      - split; [done|]. intros ->. by destruct (H1 _ _ Hb) as [<- _]. }
    destruct Hb' as [Hb' Hne]. destruct (H1 _ _ Hb') as (Hk & Hbr & Hu). split; [done|]. split; [by apply did_mono|].
    intros Hx. by undo.
  - intros c' key b Hx. undo. destruct (H2 _ _ _ Hx). split; [done | by apply did_mono].
Qed.

Lemma lookup_ok agents c key : agents_ok tr agents ->
  agents_ok (tr ++ [ECall c (Obs (LookupAgent key) (agents !! key))]) agents.
Proof using Type.
  intros [H1 H2]. split.
  - intros k a Ha. destruct (H1 _ _ Ha) as (? & ? & ?). by rewrite !did_other.
  - intros c' k a Hx. rewrite did_other by done. apply did_call_snoc in Hx as [Hx|[_ Hx]]; [by eapply H2|].
    cbn in Hx. destruct (agents !! key) as [b|] eqn:Hb; [|done]. injection Hx as <- <-.
    by destruct (H1 _ _ Hb) as (? & ? & _).
Qed.

Lemma add_ok pending c st p : pending_ok tr pending -> ps_ch p = c -> omap added (calls_of c tr) = [] ->
  pending_ok (tr ++ [ECall c (Obs (AddPending st p) tt)]) (<[st := p]> pending).
Proof using Hs.
  intros [H1 H2 H3] Hc Hno. pose proof (not_did _ _ Hno) as Hn. split.
  - intros st' q [[<- <-]|[Hne Hq]]%lookup_insert_Some.
    + rewrite Hc. split; [apply did_call_snoc; by right|]. split.
      * intros Hx. undo. apply (did_dropped _ _ Hs) in Hx as [q Hq]. by apply Hn in Hq.
      * intros d st' k q Hx. undo. intros Heq. destruct (H2 _ _ _ _ Hx) as [_ Hq]. rewrite Heq in Hq. by apply Hn in Hq.
    + destruct (H1 _ _ Hq) as (? & ? & Ht). rewrite (did_other dropped) by done. split; [by apply did_mono|]. split; [done|].
      intros d st2 k q' Hx. undo. by eapply Ht.
  - intros d st' k q Hx. undo. destruct (H2 _ _ _ _ Hx). split; [done | by apply did_mono].
  - intros d1 st1 k1 p1 d2 st2 k2 p2 Ht1 Ht2. undo. by eapply H3.
Qed.

Lemma drop_ok pending c st p : pending_ok tr pending -> omap added (calls_of c tr) = [(st, p)] ->
  pending_ok (tr ++ [ECall c (Obs (DropPending st) tt)]) (delete st pending).
Proof using Hs.
  intros [H1 H2 H3] Ha. split.
  - intros st' q [Hne Hq]%lookup_delete_Some. destruct (H1 _ _ Hq) as (? & ? & Ht).
    rewrite did_other by done. split; [done|]. split.
    + intros Hx. undo. by apply Hne.
    + intros d st2 k q' Hx. undo. by eapply Ht.
  - intros d st' k q Hx. undo. destruct (H2 _ _ _ _ Hx). split; [done | by apply did_mono].
  - intros d1 st1 k1 p1 d2 st2 k2 p2 Ht1 Ht2. undo. by eapply H3.
Qed.

Lemma take_ok r c st key x r' : pending_ok tr (ry_pending r) -> (x, r') = take_pending st key r ->
  omap taken (calls_of c tr) = [] ->
  pending_ok (tr ++ [ECall c (Obs (TakePending st key) x)]) (ry_pending r').
Proof using Hs.
  intros [H1 H2 H3] Ht Hno. pose proof (not_did _ _ Hno) as Hn. unfold take_pending in Ht.
  destruct (ry_pending r !! st) as [p|] eqn:Hp; [case_decide as Hk|]; injection Ht as -> ->.
  2-3: by apply pending_frame.
  destruct (H1 _ _ Hp) as (Hadd & Hdrop & Hfree). cbn. split.
  - intros st' q [Hne Hq]%lookup_delete_Some. destruct (H1 _ _ Hq) as (Hq1 & ? & Hq2).
    rewrite !did_other by done. split; [done|]. split; [done|]. intros d st2 k q' Hx. undo; [by eapply Hq2|].
    intros Heq. apply Hne. rewrite <- Heq in Hq1.
    pose proof (added_once _ _ Hs _ _ _ Hadd Hq1). congruence.
  - intros d st2 k q Hx. rewrite did_other by done. undo; [by eapply H2 | done].
  - intros d1 st1 k1 p1 d2 st2 k2 p2 Ht1 Ht2 Heq.
    apply did_call_snoc in Ht1 as [Ht1|[Hc1 Hf1]]; apply did_call_snoc in Ht2 as [Ht2|[Hc2 Hf2]]; cbn in *; simplify_eq.
    + by eapply H3.
    + by eapply Hfree in Ht1.
    + symmetry in Heq. by eapply Hfree in Ht2.
    + done.
Qed.

Lemma take_chan r c st key x r' : pending_ok tr (ry_pending r) -> chan_ok tr (ry_chan r) ->
  (x, r') = take_pending st key r -> chan_ok (tr ++ [ECall c (Obs (TakePending st key) x)]) (ry_chan r').
Proof using Hs.
  intros [K1 _ _] [H1 H2 H3 H4] Ht. assert (Hc : ry_chan r' = ry_chan r).
  { unfold take_pending in Ht. destruct (ry_pending r !! st); [case_decide|]; by injection Ht as -> ->. }
  rewrite Hc. clear Hc. split.
  - intros ch d Hd. apply did_mono. by apply H1.
  - intros c' d Hx. undo. apply did_mono. by apply H2.
  - intros d st' k p Hx Hn. undo.
    + apply (H3 _ _ _ _ Hx). intros y Hy. eapply Hn. by apply did_mono.
    + destruct x as [q|]; [|done]. cbn in Hf. injection Hf as <- <- <-. unfold take_pending in Ht.
      destruct (ry_pending r !! st) as [p'|] eqn:Hp; [case_decide|]; injection Ht as Hq Hr; try done. subst p'.
      destruct (K1 _ _ Hp) as (_ & _ & Hfree).
      destruct (ry_chan r !! ps_ch q) as [y|] eqn:Hy; [|done].
      apply H1, (did_handed _ _ Hs) in Hy as (_ & st2 & k2 & p2 & Ht2 & Hc2 & _). by eapply Hfree in Ht2.
  - intros c' ch d ok Hx. undo. destruct (H4 _ _ _ _ Hx) as (? & [?|?]); (split; [done|]).
    + by left.
    + right. by apply did_mono.
Qed.

(** The [default] case of the hand-over is never taken. *)
Lemma send_free r c st key p : pending_ok tr (ry_pending r) -> chan_ok tr (ry_chan r) ->
  omap handed (calls_of c tr) = [] -> omap taken (calls_of c tr) = [(st, key, p)] ->
  ry_chan r !! ps_ch p = None.
Proof using Type.
  intros _ [_ _ H3 _] Hh Ht. eapply H3; [|apply (not_did _ _ Hh)]. unfold did. rewrite Ht. by left.
Qed.

Lemma send_ok r c st key p d : pending_ok tr (ry_pending r) -> chan_ok tr (ry_chan r) -> dc_conn d = c ->
  omap handed (calls_of c tr) = [] -> omap taken (calls_of c tr) = [(st, key, p)] ->
  chan_ok (tr ++ [ECall c (Obs (TrySend (ps_ch p) d) true)]) (<[ps_ch p := d]> (ry_chan r)).
Proof using Hs.
  intros Hp Hch Hd Hh Ht. pose proof (send_free _ _ _ _ _ Hp Hch Hh Ht) as Hfree.
  assert (Htp : did taken c (st, key, p) tr) by (unfold did; rewrite Ht; by left).
  destruct Hp as [_ _ K3], Hch as [H1 H2 H3 H4]. split.
  - intros ch x [[<- <-]|[Hne Hx]]%lookup_insert_Some.
    + rewrite Hd. apply did_call_snoc. by right.
    + by apply did_mono, H1.
  - intros c' x Hx. undo. by apply did_mono, H2.
  - intros d' st' k q Hx Hn. undo.
    assert (Hne : d' <> c) by (intros ->; eapply Hn, did_call_snoc; by right).
    rewrite lookup_insert_ne by (intros Heq; apply Hne; by eapply K3).
    apply (H3 _ _ _ _ Hx). intros y Hy. by eapply Hn, did_mono.
  - intros c' ch x ok Hx. undo.
    + destruct (H4 _ _ _ _ Hx) as (? & [Hc|?]); (split; [done|]).
      * left. rewrite lookup_insert_ne; [done|]. intros <-. congruence.
      * right. by apply did_mono.
    + split; [done|]. left. by rewrite lookup_insert_eq.
Qed.

Lemma await_ok chan c d : chan_ok tr chan -> chan !! c = Some d ->
  chan_ok (tr ++ [ECall c (Obs (Await c) (Some d))]) (delete c chan).
Proof using Type.
  intros [H1 H2 H3 H4] Hd. split.
  - intros ch x [_ Hx]%lookup_delete_Some. by apply did_mono, H1.
  - intros c' x Hx. apply did_mono. undo; [by apply H2 | by apply H1].
  - intros d' st' k q Hx Hn. undo. apply lookup_delete_None. right.
    apply (H3 _ _ _ _ Hx). intros y Hy. by eapply Hn, did_mono.
  - intros c' ch x ok Hx. undo. destruct (H4 _ _ _ _ Hx) as (? & [Hc|?]); (split; [done|]).
    + destruct (decide (ch = c)) as [->|Hne].
      * right. apply did_call_snoc. right. by simplify_eq.
      * left. by rewrite lookup_delete_ne.
    + right. by apply did_mono.
Qed.
End cases.

Lemma inv_step tr m ev m' :
  steps start tr m -> inv tr (dm_relay m) -> step m ev m' -> inv (tr ++ [ev]) (dm_relay m').
Proof using Type.
  intros Hs [Ha Hp Hc] Hstep. destruct Hstep as [k c m Hfresh|c X e cont x r' m Hm Hact]; cbn.
  { assert (Hd : forall Y (f : robs -> option Y) c' y,
      did f c' y (tr ++ [EAccept k c]) <-> did f c' y tr).
    { intros Y f c' y. rewrite did_snoc. split; [intros [?|(? & ? & ?)]; done | by left]. }
    destruct Ha as [A1 A2], Hp as [P1 P2 P3], Hc as [C1 C2 C3 C4]. split; split; repeat setoid_rewrite Hd; done. }
  destruct (next_call _ _ _ _ _ _ x Hs Hm) as (k & _ & Hmay).
  destruct e; cbn in Hact; try subst r'.
  all: try (split; [by apply agents_frame | by apply pending_frame | by apply chan_frame]).
  - (* RegisterAgent *)
    destruct k; try done. destruct Hmay as (Hr & _ & Hu).
    assert (Hcore : ry_agents (register a (dm_relay m)) = <[ag_key a := a]> (ry_agents (dm_relay m))
      /\ ry_pending (register a (dm_relay m)) = ry_pending (dm_relay m)
      /\ ry_chan (register a (dm_relay m)) = ry_chan (dm_relay m)).
    { unfold register. by destruct (ry_agents (dm_relay m) !! ag_key a). }
    destruct x, Hcore as (Ea & Ep & Ec). split; rewrite ?Ea, ?Ep, ?Ec.
    + by apply register_ok.
    + by apply pending_frame.
    + by apply chan_frame.
  - (* UnregisterAgent *)
    destruct k; try done. destruct x. split; [by eapply unregister_ok|..].
    + unfold unregister. case_decide; by apply pending_frame.
    + unfold unregister. case_decide; by apply chan_frame.
  - (* LookupAgent *)
    destruct Hact as [-> ->]. split; [by apply lookup_ok | by apply pending_frame | by apply chan_frame].
  - (* AddPending *)
    destruct k; try done. destruct x. destruct Hmay as (Hch & _ & Hno & _).
    split; [by apply agents_frame | by eapply add_ok | by apply chan_frame].
  - (* DropPending *)
    destruct k; try done. destruct x. destruct Hmay as (p & Hno & _).
    split; [by apply agents_frame | by eapply drop_ok | by apply chan_frame].
  - (* TakePending *)
    destruct k; try done. destruct Hmay as (_ & Hno & _).
    assert (Hra : ry_agents r' = ry_agents (dm_relay m)).
    { unfold take_pending in Hact. destruct (ry_pending _ !! _); [case_decide|]; by injection Hact as -> ->. }
    split; [rewrite Hra; by apply agents_frame | by eapply take_ok | by eapply take_chan].
  - (* TrySend *)
    destruct k; try done. destruct Hmay as (Hd & Hno & st & key & p & Ht & <- & _).
    rewrite (send_free _ _ _ _ _ _ Hp Hc Hno Ht) in Hact. destruct Hact as [-> ->].
    split; [by apply agents_frame | by apply pending_frame | by eapply send_ok].
  - (* Await *)
    destruct k; try done. destruct Hmay as (-> & _). destruct x as [d|]; cbn in Hact.
    + destruct Hact as [Hd ->]. split; [by apply agents_frame | by apply pending_frame | by eapply await_ok].
    + subst r'. split; [by apply agents_frame | by apply pending_frame | by apply chan_frame].
Qed.

Lemma steps_inv tr m : steps start tr m -> inv tr (dm_relay m).
Proof using Type.
  intros Hs. remember start as m0 eqn:Hm0. induction Hs as [m|m1 tr m2 ev m3 Hs IH Hstep].
  - subst m. split; split; cbn; try (intros; by (rewrite lookup_empty in * || unfold did in *)).
    all: intros; exfalso; unfold did in *; cbn in *; by eapply not_elem_of_nil.
  - subst m1. eapply inv_step; [exact Hs | by apply IH | done].
Qed.

(** ** The end of a run *)

(** Nothing happens any more, unless another connection is accepted. *)
Definition settled (m : daemon) : Prop := forall ev m', step m ev m' -> exists k c, ev = EAccept k c.

(** No call blocks forever: some answer is always possible. *)
Lemma act_total {X} (e : reff X) r : exists x r', act e x r r'.
Proof using Type.
  destruct e; cbn.
  - by exists (Err (Errorf "" [])), r.
  - by exists (Err (Errorf "" [])), r.
  - by exists (Err (Errorf "" [])), r.
  - exists tt. by eexists.
  - by exists tt, r.
  - by exists tt, r.
  - by exists 0, r.
  - by exists None, r.
  - exists tt. by eexists.
  - exists tt. by eexists.
  - by exists (ry_agents r !! key), r.
  - exists tt. by eexists.
  - exists tt. by eexists.
  - destruct (take_pending stream key r) as [x r'] eqn:He. by exists x, r'.
  - destruct (ry_chan r !! ch); [by exists false, r | exists true; by eexists].
  - by exists None, r.
Qed.

Section settled.
Context (tr : list event) (m : daemon) (Hs : steps start tr m) (Hset : settled m).

Lemma settled_ret c p : dm_pool m !! c = Some p -> exists u, p = Ret u.
Proof using Hset.
  intros Hp. destruct p as [u|X e cont]; [by exists u|]. destruct (act_total e (dm_relay m)) as (x & r' & Hact).
  destruct (Hset _ _ (step_call _ _ _ _ _ _ _ _ _ _ _ _ Hp Hact)) as (k & c' & ?). done.
Qed.

(** The handler of every connection has come to its end. *)
Lemma settled_end k c : EAccept k c ∈ tr -> at_end k c (calls_of c tr).
Proof using Hs Hset.
  intros Hacc. pose proof (steps_pool _ _ Hs c) as Hp. destruct (dm_pool m !! c) as [p|] eqn:Hc.
  - destruct (settled_ret _ _ Hc) as [u ->]. destruct Hp as (k' & Hk & Hp). apply Hk in Hacc as ->.
    by apply (upholds_end _ _ _ _ _ (handler_upholds k' c) Hp).
  - destruct Hp as [_ Hno]. by edestruct Hno.
Qed.

Lemma role_once k k' c : EAccept k c ∈ tr -> EAccept k' c ∈ tr -> k = k'.
Proof using Hs.
  intros H1 H2. pose proof (steps_pool _ _ Hs c) as Hp. destruct (dm_pool m !! c) as [p|].
  - destruct Hp as (k0 & Hk & _). apply Hk in H1 as ->. by apply Hk in H2 as ->.
  - destruct Hp as [_ Hno]. by edestruct Hno.
Qed.

(** The role of a handler, by what it did. *)
Lemma role_of {X} (f : robs -> option X) c x k :
  (forall k' past o, may_call k' c past o -> is_Some (f o) -> k' = k) -> did f c x tr -> EAccept k c ∈ tr.
Proof using Hs.
  intros Hk (o & Hin & Hf)%did_iff. destruct (steps_calls _ _ _ _ Hs Hin) as (k' & Hacc & (past & _ & _ & Hm) & _).
  by rewrite <- (Hk k' past o Hm) by by exists x.
Qed.

Ltac by_role := intros k' past o Hm [? Ho]; destruct o as [? [] ?]; try done; by destruct k'.

Lemma added_role c x : did added c x tr -> EAccept Dial c ∈ tr.
Proof using Hs. apply role_of. by_role. Qed.
Lemma taken_role c x : did taken c x tr -> EAccept Data c ∈ tr.
Proof using Hs. apply role_of. by_role. Qed.
Lemma registered_role c x : did registered c x tr -> EAccept Control c ∈ tr.
Proof using Hs. apply role_of. by_role. Qed.
End settled.

Lemma partial_within {A} (p p' : rprog A) : forall n t, within n p -> partial p t p' -> (length t <= n)%nat.
Proof using Type.
  induction p as [a|X e cont IH]; intros n t Hw Hp; cbn [partial] in Hp.
  - destruct Hp as [[-> _]|?]; [cbn; lia | done].
  - destruct Hp as [[-> _]|(x & t' & -> & Hp)]; [cbn; lia|]. destruct n as [|n]; [done|].
    cbn. pose proof (IH x n t' (Hw x) Hp). lia.
Qed.

Lemma validate_within key tok : within 2 (validate jwt_parse (sv_auth s) key tok).
Proof using Type.
  unfold validate. case_decide; [done|]. case_decide; [done|]. cbn. intros now.
  destruct (jwt_parse _ _ _) as [[sub [exp|]]|]; cbn; [|by case_decide|done].
  case_decide; [done|]. destruct (IsZero exp); [done|]. cbn. intros now'. by destruct (negb _).
Qed.

Ltac count := repeat (cbn; match goal with
  | |- forall _, _ => intros ?
  | |- within _ (match ?x with _ => _ end) => destruct x
  | |- within _ (prog_bind_def _ (match ?x with _ => _ end)) => destruct x
  | |- within _ (@mbind _ _ _ _ _ (match ?x with _ => _ end)) => destruct x
  | |- True => exact I
  end).

Lemma handler_within k c : within 11 (handle k c).
Proof using Type.
  destruct k; cbn [handler].
  - unfold handleControlConn. apply (within_bind _ _ 10 1); [done|]. intros r.
    apply (within_bind _ _ 1 9); [|done]. destruct r as [[line rest]|]; [|done].
    destruct (json_register line); [|done]. case_decide; [done|].
    apply (within_bind _ _ 7 2); [apply validate_within|]. intros ok. destruct ok; done.
  - unfold handleDataConn. apply (within_bind _ _ 10 1); [done|]. intros r.
    destruct r as [[line rest]|]; [|done]. destruct (json_hello line); [|done]. case_decide; [done|].
    apply (within_bind _ _ 8 2); [apply validate_within|]. intros ok. destruct ok; count.
  - unfold handleDialConn. apply (within_bind _ _ 1 10); [|done]. unfold serve_dial.
    apply (within_bind _ _ 9 1); [done|]. intros r. destruct r as [[line rest]|]; [|done].
    destruct (json_dial line); [|done]. case_decide; [done|]. case_decide; [done|]. count.
Qed.

Lemma calls_within tr m c : steps start tr m -> (length (calls_of c tr) <= 11)%nat.
Proof using Type.
  intros Hs. pose proof (steps_pool _ _ Hs c) as Hp. destruct (dm_pool m !! c) as [p|].
  - destruct Hp as (k & _ & Hp). eapply partial_within; [apply handler_within | exact Hp].
  - destruct Hp as [-> _]. cbn. lia.
Qed.

(** ** The size of a run *)

Definition caller (ev : event) : option conn := match ev with ECall c _ => Some c | EAccept _ _ => None end.
Definition accepted (ev : event) : option conn := match ev with EAccept _ c => Some c | ECall _ _ => None end.

Lemma callers_le (tr : list event) n cs :
  (forall c, (length (calls_of c tr) <= n)%nat) ->
  (length (omap (fun ev => c ← caller ev; if decide (c ∈ cs) then Some c else None) tr)
   <= n * length cs)%nat.
Proof using Type.
  intros Hn. induction cs as [|c cs IH].
  - rewrite (Nat.mul_comm n). clear. induction tr as [|ev tr IH]; cbn; [lia|]. destruct (caller ev); cbn; [|done].
    rewrite decide_False by apply not_elem_of_nil. done.
  - enough (H : (length (omap (fun ev => c' ← caller ev; if decide (c' ∈ c :: cs) then Some c' else None) tr)
      <= length (calls_of c tr) + length (omap (fun ev => c' ← caller ev; if decide (c' ∈ cs) then Some c' else None) tr))%nat).
    { specialize (Hn c). cbn [length] in *. lia. }
    clear. induction tr as [|ev tr IH]; [cbn; lia|]. cbn. destruct ev as [k c'|c' o]; cbn; [done|].
    destruct (decide (c' = c)) as [->|Hne].
    + rewrite decide_True by by left. cbn. destruct (decide (c ∈ cs)); cbn; lia.
    + destruct (decide (c' ∈ cs)).
      * rewrite decide_True by by right. cbn. lia.
      * rewrite decide_False by (intros [?|?]%elem_of_cons; done). done.
Qed.

Lemma calls_bounded tr m : steps start tr m ->
  (length (omap caller tr) <= 11 * length (omap accepted tr))%nat.
Proof using Type.
  intros Hs. pose proof (callers_le tr 11 (omap accepted tr) (fun c => calls_within _ _ c Hs)) as Hle.
  enough (omap (fun ev => c ← caller ev; if decide (c ∈ omap accepted tr) then Some c else None) tr = omap caller tr)
    as Heq by by rewrite Heq in Hle.
  assert (Hall : forall c o, ECall c o ∈ tr -> c ∈ omap accepted tr).
  { intros c o Hin. destruct (steps_calls _ _ _ _ Hs Hin) as (k & Hacc & _). apply list_elem_of_omap.
    by exists (EAccept k c). }
  revert Hall. generalize (omap accepted tr). intros cs. clear.
  induction tr as [|ev tr IH]; intros Hall; [done|]. cbn. rewrite IH by (intros; by eapply Hall; right).
  destruct ev as [k c|c o]; cbn; [done|]. rewrite decide_True; [done|]. eapply Hall. by left.
Qed.

(** A connection its handler closed is closed. *)
Lemma closed_calls tr m c : steps start tr m ->
  (exists c', ECall c' (Obs (CloseConn c) tt) ∈ tr) -> c ∈ ry_closed (dm_relay m).
Proof using Type.
  intros Hs. remember start as m0 eqn:Hm0. induction Hs as [m|m1 tr m2 ev m3 Hs IH Hstep]; intros (c' & Hin).
  { by apply not_elem_of_nil in Hin. }
  assert (Hmono : ry_closed (dm_relay m2) ⊆ ry_closed (dm_relay m3)).
  { destruct Hstep as [|c0 X e cont x r' m Hm Hact]; [done|]. cbn.
    destruct e; cbn in Hact; unfold register, unregister, take_pending in Hact;
      try (subst r'; first [done | apply union_subseteq_r]).
    - subst r'. destruct (ry_agents _ !! _); [apply union_subseteq_r | done].
    - subst r'. by case_decide.
    - by destruct Hact as [_ ->].
    - destruct (ry_pending _ !! _); [case_decide|]; by injection Hact as -> ->.
    - destruct (ry_chan _ !! _); destruct Hact as [_ ->]; done.
    - destruct x; [destruct Hact as [_ ->] | subst r']; done. }
  apply elem_of_app in Hin as [Hin|Hin%list_elem_of_singleton].
  - apply Hmono, IH; [done|]. by exists c'.
  - destruct Hstep as [|c0 X e cont x r' m Hm Hact]; [done|]. cbn.
    pose proof (f_equal (fun ev => match ev with ECall _ o => o | _ => Obs (CloseConn c) tt end) Hin) as Heq.
    assert (Hk : forall o : robs, o = Obs (CloseConn c) tt ->
      match o with Obs e _ => match e with CloseConn c1 => c1 = c | _ => False end end) by (by intros ? ->).
    specialize (Hk _ (eq_sym Heq)). destruct e; try done. cbn in Hact. subst. apply elem_of_union. left. by apply elem_of_singleton.
Qed.

(** ** Theorems *)

(** C28: Whatever the order in which the relay's handlers run, bytes are copied
    between a client [c] and a data connection [d] only if: [c] itself asked for
    this desktop and an allowed port; the desktop's agent, registered with a
    token valid for the desktop's key, was sent the stream and the port; and [d]
    presented that very stream and a token valid for the same key.  No data
    connection serves two clients. *)
Theorem relay_streams_authorised tr m c c' d :
  steps start tr m -> did bridged c (c', d) tr ->
  c' = c
  /\ (exists key port stream a,
        asks s json_dial (calls_of c tr) c key port
        /\ ECall c (Obs (SendOpen a {| om_Type := "open"; om_Stream := stream; om_Port := port |}) (Ok tt)) ∈ tr
        /\ ag_key a = key
        /\ registers jwt_parse s json_register (calls_of (ag_conn a) tr) (ag_conn a) a
        /\ presents jwt_parse s json_hello (calls_of (dc_conn d) tr) d stream key)
  /\ forall c2 c2' d2, did bridged c2 (c2', d2) tr -> dc_conn d2 = dc_conn d -> c2 = c.
Proof using Type.
  intros Hs Hb. destruct (steps_inv _ _ Hs) as [[_ A2] [_ P2 _] [_ C2 _ _]].
  destruct (did_bridged _ _ Hs _ _ _ Hb) as (-> & Hw & stream & p & a & Hadd & Hfound & Hsend).
  pose proof (C2 _ _ Hw) as Hh. split; [done|]. split.
  - destruct (did_handed _ _ Hs _ _ _ _ Hh) as (_ & st & key & q & Ht & Hch & Hpres).
    destruct (P2 _ _ _ _ Ht) as [Hkey Hq]. rewrite Hch in Hq.
    pose proof (added_once _ _ Hs _ _ _ Hadd Hq) as Heq. injection Heq as <- <-.
    destruct (did_added _ _ Hs _ _ _ Hadd) as (_ & Hask & _). destruct (A2 _ _ _ Hfound) as [Hak Hreg].
    exists (ps_key p), (ps_port p), stream, a. split_and!; [done..| |].
    + by apply (did_registered _ _ Hs).
    + by rewrite Hkey.
  - intros c2 c2' d2 Hb2 Heq. destruct (did_bridged _ _ Hs _ _ _ Hb2) as (_ & Hw2 & _).
    pose proof (C2 _ _ Hw2) as Hh2. rewrite Heq in Hh2.
    pose proof (handed_once _ _ Hs _ _ _ Hh Hh2). congruence.
Qed.

(** C29: The relay cannot run forever on finitely many connections: whatever it
    is answered, at most eleven calls are made for each connection accepted, and
    some call is always possible until every handler has returned.  Then no
    agent is on record and no stream is pending, each control and client
    connection is closed, and each client has been answered exactly once. *)
Theorem relay_terminates tr m :
  steps start tr m ->
  (length (omap caller tr) <= 11 * length (omap accepted tr))%nat
  /\ (settled m ->
      (forall c p, dm_pool m !! c = Some p -> exists u, p = Ret u)
      /\ ry_agents (dm_relay m) = ∅ /\ ry_pending (dm_relay m) = ∅
      /\ (forall k c, EAccept k c ∈ tr -> k <> Data -> c ∈ ry_closed (dm_relay m))
      /\ forall c, EAccept Dial c ∈ tr -> exists r, omap replied (calls_of c tr) = [(c, r)]).
Proof using Type.
  intros Hs. split; [by eapply calls_bounded|]. intros Hset.
  destruct (steps_inv _ _ Hs) as [[A1 _] [P1 _ _] [_ C2 _ _]].
  split; [intros c p; by apply settled_ret|]. split_and!.
  - apply map_eq. intros key. rewrite lookup_empty. destruct (ry_agents _ !! key) as [a|] eqn:Ha; [exfalso|done].
    destruct (A1 _ _ Ha) as (_ & Hreg & Hun).
    pose proof (settled_end _ _ Hs Hset _ _ (registered_role _ _ Hs _ _ Hreg)) as [_ He]. by apply Hun, He.
  - apply map_eq. intros st. rewrite lookup_empty. destruct (ry_pending _ !! st) as [p|] eqn:Hp; [exfalso|done].
    destruct (P1 _ _ Hp) as (Hadd & Hdrop & Hfree).
    pose proof (settled_end _ _ Hs Hset _ _ (added_role _ _ Hs _ _ Hadd)) as (_ & _ & Hend).
    destruct Hend as [Hno|(st' & p' & Hone & [[Hd _]|(d & Hw & _)])].
    + unfold did in Hadd. rewrite Hno in Hadd. by apply not_elem_of_nil in Hadd.
    + unfold did in Hadd. rewrite Hone in Hadd. apply list_elem_of_singleton in Hadd as [= -> ->]. done.
    + assert (Hwd : did waited (ps_ch p) (ps_ch p, Some d) tr) by (unfold did; rewrite Hw; by left).
      apply C2, (did_handed _ _ Hs) in Hwd as (_ & st2 & k2 & q & Ht & Hch & _). by eapply Hfree in Ht.
  - intros k c Hacc Hk. apply (closed_calls _ _ _ Hs). exists c. apply call_of_in.
    pose proof (settled_end _ _ Hs Hset _ _ Hacc) as He. destruct k; [apply He | done | apply He].
  - intros c Hacc. destruct (settled_end _ _ Hs Hset _ _ Hacc) as (_ & (r & Hr & _) & _). by exists r.
Qed.

(** C30: A stream the desktop answers is not lost: when nothing more can happen,
    the data connection that was matched with a client's stream has been handed
    to that client's handler, which has received it and told the client so,
    unless its timer ran out first or the request to the desktop was not fully
    written. *)
Theorem relay_no_lost_stream tr m d stream key p :
  steps start tr m -> settled m -> did taken d (stream, key, p) tr ->
  exists x, dc_conn x = d /\ did handed d (ps_ch p, x, true) tr
    /\ (did waited (ps_ch p) (ps_ch p, Some x) tr
         /\ (exists r, rs_OK r = true /\ did replied (ps_ch p) (ps_ch p, r) tr)
        \/ did waited (ps_ch p) (ps_ch p, None) tr
        \/ exists e, did unsent (ps_ch p) e tr).
Proof using Type.
  intros Hs Hset Ht. destruct (steps_inv _ _ Hs) as [_ [_ P2 P3] [_ C2 _ C4]].
  destruct (P2 _ _ _ _ Ht) as [_ Hadd].
  destruct (settled_end _ _ Hs Hset _ _ (taken_role _ _ Hs _ _ Ht)) as [[Hno _]|(st & k & q & x & ok & H1 & H2 & Hx)].
  { unfold did in Ht. rewrite Hno in Ht. by apply not_elem_of_nil in Ht. }
  unfold did in Ht. rewrite H1 in Ht. apply list_elem_of_singleton in Ht as [= -> -> ->].
  assert (Hh : did handed d (ps_ch q, x, ok) tr) by (unfold did; rewrite H2; by left).
  destruct (C4 _ _ _ _ Hh) as [-> _]. exists x. split; [done|]. split; [done|].
  destruct (settled_end _ _ Hs Hset _ _ (added_role _ _ Hs _ _ Hadd)) as (_ & (r & Hr & Hok) & Hend).
  destruct Hend as [Hno|(st' & p' & _ & [[_ Hend]|(d' & Hw & _)])].
  - unfold did in Hadd. rewrite Hno in Hadd. by apply not_elem_of_nil in Hadd.
  - right. destruct Hend as [Hu|Hw].
    + right. destruct (omap unsent (calls_of (ps_ch q) tr)) as [|e l] eqn:He; [done|]. exists e.
      unfold did. rewrite He. by left.
    + left. unfold did. rewrite Hw. by left.
  - left. assert (Hwd : did waited (ps_ch q) (ps_ch q, Some d') tr) by (unfold did; rewrite Hw; by left).
    assert (Hd : d' = x).
    { pose proof (C2 _ _ Hwd) as Hh'. destruct (did_handed _ _ Hs _ _ _ _ Hh') as (_ & st2 & k2 & q2 & Ht2 & Hc2 & _).
      assert (Htd : did taken d (st, k, q) tr) by (unfold did; rewrite H1; by left).
      assert (Hdd : dc_conn d' = d) by (eapply P3; [exact Ht2 | exact Htd | done]). rewrite Hdd in Hh'.
      pose proof (handed_once _ _ Hs _ _ _ Hh Hh'). congruence. }
    subst d'. split; [done|]. exists r. split; [apply Hok; by exists x|]. unfold did. rewrite Hr. by left.
Qed.
End daemon.

(** * Concrete runs *)

(** What a scheduler chooses: a connection to accept, or the handler to run. *)
Inductive choice := Acc (k : role) (c : conn) | Go (c : conn).

Section drive.
Context (json_register : string -> option registerMsg).
Context (json_hello : string -> option dataHello).
Context (json_dial : string -> option dialReq).
Context (jwt_parse : (string -> option string) -> string -> Z -> option (string * option Z)).
Context (s : rserver).
(** The line a connection sends, and whether the timer of a client fires. *)
Context (sends : conn -> string) (late : conn -> bool).

Definition answer {X} (e : reff X) : relay -> X * relay :=
  match e in reff X return relay -> X * relay with
  | ReadBytes c => fun r => (Ok (s2l (sends c), []), r)
  | WriteResp _ _ | SendOpen _ _ => fun r => (Ok tt, r)
  | CloseConn c => fun r => (tt, close c r)
  | Drain _ | Bridge _ _ => fun r => (tt, r)
  | RTime => fun r => (0, r)
  | RRand n => fun r => (Some (replicate n Ascii.zero), r)
  | RegisterAgent a => fun r => (tt, register a r)
  | UnregisterAgent a => fun r => (tt, unregister a r)
  | LookupAgent key => fun r => (ry_agents r !! key, r)
  | AddPending st p => fun r => (tt, set_pending <[st := p]> r)
  | DropPending st => fun r => (tt, set_pending (delete st) r)
  | TakePending st key => fun r => take_pending st key r
  | TrySend ch d => fun r =>
      match ry_chan r !! ch with
      | None => (true, set_chan <[ch := d]> r)
      | Some _ => (false, r)
      end
  | Await ch => fun r =>
      if late ch then (None, r) else
      match ry_chan r !! ch with
      | Some d => (Some d, set_chan (delete ch) r)
      | None => (None, r)
      end
  end.

Lemma answer_act {X} (e : reff X) r : act e (answer e r).1 r (answer e r).2.
Proof using Type.
  destruct e; cbn; try done.
  - by destruct (take_pending stream key r).
  - by destruct (ry_chan r !! ch) eqn:Hc.
  - destruct (late ch); [done|]. by destruct (ry_chan r !! ch) eqn:Hc.
Qed.

Definition drive_one (st : list event * daemon) (ch : choice) : list event * daemon :=
  let '(tr, m) := st in
  match ch with
  | Acc k c =>
      match dm_pool m !! c with
      | None => (tr ++ [EAccept k c],
          {| dm_relay := dm_relay m;
             dm_pool := <[c := handler json_register json_hello json_dial jwt_parse s k c]> (dm_pool m) |})
      | Some _ => st
      end
  | Go c =>
      match dm_pool m !! c with
      | Some (Vis e cont) =>
          let a := answer e (dm_relay m) in
          (tr ++ [ECall c (Obs e a.1)], {| dm_relay := a.2; dm_pool := <[c := cont a.1]> (dm_pool m) |})
      | _ => st
      end
  end.

Definition drive (sched : list choice) : list event * daemon := fold_left drive_one sched ([], start).

Lemma drive_steps sched :
  steps json_register json_hello json_dial jwt_parse s start (drive sched).1 (drive sched).2.
Proof using Type.
  unfold drive. assert (Hs : steps json_register json_hello json_dial jwt_parse s start
    ([], start : daemon).1 ([] : list event, start).2) by constructor.
  revert Hs. generalize ([] : list event, start). induction sched as [|ch sched IH]; intros st Hs; [done|].
  cbn. apply IH. destruct st as [tr m], ch as [k c|c]; cbn in *.
  - destruct (dm_pool m !! c) as [p|] eqn:Hc; [done|]. by eapply steps_snoc, step_accept.
  - destruct (dm_pool m !! c) as [[u|X e cont]|] eqn:Hc; [done| |done].
    eapply steps_snoc; [done|]. by eapply step_call, answer_act.
Qed.

Lemma rets_settled m :
  forallb (fun cp : conn * rprog unit => match cp.2 with Ret _ => true | Vis _ _ => false end)
    (map_to_list (dm_pool m)) = true ->
  settled json_register json_hello json_dial jwt_parse s m.
Proof using Type.
  intros Hall ev m' Hstep. destruct Hstep as [k c m Hc|c X e cont x r' m Hc Hact]; [by exists k, c|].
  rewrite forallb_elem_of in Hall. apply elem_of_map_to_list in Hc. by apply Hall in Hc.
Qed.
End drive.

(** One desktop, one client, one data connection. *)
Definition demo_register (line : string) : option registerMsg :=
  if decide (line = "register") then Some {| rm_Key := "ns/d"; rm_Token := "tok" |} else None.
Definition demo_hello (line : string) : option dataHello :=
  if decide (line = "hello")
  then Some {| dh_Stream := hex_encode (replicate 16 Ascii.zero); dh_Key := "ns/d"; dh_Token := "tok" |}
  else None.
Definition demo_dial (line : string) : option dialReq :=
  if decide (line = "dial") then Some {| dr_Key := "ns/d"; dr_Port := 2222 |} else None.
Definition demo_server : rserver :=
  {| sv_auth := {| ac_tokens := {["ns/d" := "tok"]}; ac_jwtSecret := "" |}; sv_allowedPorts := {[2222]} |}.
Definition demo_sends (c : conn) : string :=
  match c with 1%nat => "register" | 2%nat => "dial" | _ => "hello" end.
Definition demo_drive (late : bool) (sched : list choice) : list event * daemon :=
  drive demo_register demo_hello demo_dial (fun _ _ _ => None) demo_server demo_sends (fun _ => late) sched.
Notation demo_steps := (steps demo_register demo_hello demo_dial (fun _ _ _ => None) demo_server start).
Notation demo_settled := (settled demo_register demo_hello demo_dial (fun _ _ _ => None) demo_server).

(** The desktop registers, the client asks, the desktop calls back in time. *)
Definition served : list choice :=
  [Acc Control 1; Go 1; Go 1; Acc Dial 2; Go 2; Go 2; Go 2; Go 2; Go 2; Acc Data 3; Go 3; Go 3; Go 3;
   Go 2; Go 2; Go 2; Go 2; Go 2; Go 1; Go 1; Go 1].
(** The client's timer fires between the match and the hand-over. *)
Definition too_late : list choice :=
  [Acc Control 1; Go 1; Go 1; Acc Dial 2; Go 2; Go 2; Go 2; Go 2; Go 2; Acc Data 3; Go 3; Go 3;
   Go 2; Go 2; Go 2; Go 2; Go 3; Go 1; Go 1; Go 1].

Definition demo_data : dataConn := {| dc_conn := 3; dc_rest := [] |}.

Lemma served_steps : demo_steps (demo_drive false served).1 (demo_drive false served).2.
Proof. apply drive_steps. Qed.
Lemma served_settled : demo_settled (demo_drive false served).2.
Proof. apply rets_settled. vm_compute. reflexivity. Qed.

Lemma relay_streams_authorised_witness :
  did bridged 2 (2%nat, demo_data) (demo_drive false served).1
  /\ exists key port, asks demo_server demo_dial (calls_of 2 (demo_drive false served).1) 2 key port.
Proof.
  assert (Hb : did bridged 2 (2%nat, demo_data) (demo_drive false served).1)
    by (unfold did; vm_compute; constructor).
  split; [exact Hb|].
  destruct (relay_streams_authorised _ _ _ _ _ _ _ _ _ _ served_steps Hb) as (_ & (key & port & st & a & Ha & _) & _).
  exists key, port. exact Ha.
Defined.

Lemma relay_terminates_witness :
  demo_settled (demo_drive false served).2 /\ ry_pending (dm_relay (demo_drive false served).2) = ∅.
Proof.
  split; [exact served_settled|].
  apply (relay_terminates _ _ _ _ _ _ _ served_steps). exact served_settled.
Defined.

Lemma relay_no_lost_stream_witness : exists p,
  did taken 3 (hex_encode (replicate 16 Ascii.zero), "ns/d", p) (demo_drive false served).1
  /\ exists x, dc_conn x = 3%nat /\ did handed 3 (ps_ch p, x, true) (demo_drive false served).1.
Proof.
  assert (Ht : did taken 3 (hex_encode (replicate 16 Ascii.zero), "ns/d",
      {| ps_key := "ns/d"; ps_port := 2222; ps_ch := 2 |}) (demo_drive false served).1)
    by (unfold did; vm_compute; constructor).
  eexists. split; [exact Ht|].
  destruct (relay_no_lost_stream _ _ _ _ _ _ _ _ _ _ _ served_steps served_settled Ht) as (x & Hx & Hh & _).
  exists x. split; [exact Hx | exact Hh].
Defined.

(** When the client's timer fires between the match and the hand-over, the data
    connection ends up in a channel nobody reads any more, and is never closed. *)
Lemma late_data_connection_leaks : exists tr m,
  demo_steps tr m /\ demo_settled m
  /\ ry_chan (dm_relay m) !! 2%nat = Some demo_data /\ 3%nat ∉ ry_closed (dm_relay m).
Proof.
  exists (demo_drive true too_late).1, (demo_drive true too_late).2.
  split; [apply drive_steps|]. split; [apply rets_settled; vm_compute; reflexivity|].
  split; [vm_compute; reflexivity|]. apply (bool_decide_unpack _). vm_compute. exact I.
Qed.
