(* ===== verification/RelayClients.v ===== *)
(** The two peers of the relay: the client run by ssh
    (src/cmd/ws-relay/main.go) and the agent in the desktop
    (src/cmd/ws-desktop-agent/main.go).

    What goes over a connection is the sequence of byte strings the reads
    return.  [encoding/json] is a parameter; the command lines are in DesktopAgent.v. *)
From S2P Require Export Relayd NetUtil.
From stdpp Require Import options.
Open Scope Z_scope.

(** * ws-relay *)

Definition parseDesktopHost (host defaultNS prefix : string) : result error (string * string) :=
  let h := TrimSpace host in
  if decide (h = "") then Err (Errorf "empty host" []) else
  if ContainsAny h (" " +:+ l2s [byte 9; byte 13; byte 10])
  then Err (Errorf "host contains whitespace" []) else
  let parts := Split h (byte 46) in
  let name := default "" (parts !! 0%nat) in
  let ns := match parts !! 1%nat with
            | Some p => if decide (TrimSpace p <> "") then TrimSpace p else defaultNS
            | None => defaultNS
            end in
  let name := if decide (prefix <> "") then TrimPrefix name prefix else name in
  let name := Trim name (byte 46) in
  if decide (name = "") then Err (Errorf "invalid host %q" [VStr host]) else
  match ValidateExactHostname (name +:+ ".example") with
  | Err _ => Err (Errorf "invalid desktop name derived from host %q" [VStr host])
  | Ok _ =>
      match ValidateExactHostname (ns +:+ ".example") with
      | Err _ => Err (Errorf "invalid namespace derived from host %q" [VStr host])
      | Ok _ => Ok (ns, name)
      end
  end.

(** The calls of the client. *)
Inductive ceff : Type -> Type :=
| DialUnix (path : string) : ceff (result error unit)
| SendReq (r : dialReq) : ceff (result error unit)
| RecvBytes : ceff (result error (list ascii * list ascii))
| PrintErr (msg : string) : ceff unit
(* standard input to the relay; [rest], then the relay, to standard output *)
| Shuttle (rest : list ascii) : ceff unit.
Notation cprog := (prog ceff).

Definition die (code : Z) (msg : string) : cprog Z := _ ← trigger (PrintErr msg); mret code.

Definition bad_client_port (p : Z) : bool := (p <=? 0) || (65535 <? p).

Section client.
Context (json_resp : string -> option dialResp).

(** The exit status. *)
Definition cmdDial (socket key : string) (port : Z) : cprog Z :=
  if decide (TrimSpace key = "" \/ bad_client_port port = true) then mret 2 else
  c ← trigger (DialUnix (TrimSpace socket));
  match c with
  | Err _ => die 1 "dial socket:"
  | Ok _ =>
      w ← trigger (SendReq {| dr_Key := TrimSpace key; dr_Port := port |});
      match w with
      | Err _ => die 1 "write request:"
      | Ok _ =>
          r ← trigger RecvBytes;
          match r with
          | Err _ => die 1 "read response:"
          | Ok (b, rest) =>
              if 65536 <? Z.of_nat (length b) then die 1 "read response:" else
              match json_resp (TrimSpace (l2s b)) with
              | None => die 1 "invalid response json:"
              | Some resp =>
                  if negb (rs_OK resp)
                  then let msg := TrimSpace (rs_Error resp) in
                       die 1 (if decide (msg = "") then "dial rejected" else msg)
                  else _ ← trigger (Shuttle rest); mret 0
              end
          end
      end
  end.

Definition cmdProxy (socket namespace hostPrefix host portStr : string) : cprog Z :=
  match Atoi (TrimSpace portStr) with
  | None => die 2 "invalid port"
  | Some p =>
      if bad_client_port p then die 2 "invalid port" else
      match parseDesktopHost (TrimSpace host) (TrimSpace namespace) (TrimSpace hostPrefix) with
      | Err _ => die 1 "invalid host"
      | Ok (deskNS, deskName) =>
          let p := if p =? 22 then 2222 else p in
          cmdDial (TrimSpace socket) (deskNS +:+ "/" +:+ deskName) p
      end
  end.
End client.

Example parseDesktopHost_ex :
  parseDesktopHost "desk-alice" "desktops" "desk-" = Ok ("desktops", "alice")
  /\ parseDesktopHost "desk-bob.team" "desktops" "desk-" = Ok ("team", "bob")
  /\ is_ok (parseDesktopHost "a/b" "desktops" "desk-") = false.
Proof. vm_compute. done. Qed.

(** * ws-desktop-agent *)

(** [r.ReadBytes('\n')] with [buf] buffered and [reads] still to come. *)
Fixpoint read_bytes (buf : list ascii) (reads : list (list ascii))
    : option (list ascii * list ascii * list (list ascii)) :=
  match index_byte (byte 10) buf with
  | Some i => Some (take (S i) buf, drop (S i) buf, reads)
  | None =>
      match reads with
      | [] => None
      | r :: reads' => read_bytes (buf ++ r) reads'
      end
  end.

(** readLineWithRest: the line, what else was buffered (discarded from the
    reader), and the reads still to come; [None] ends the connection. *)
Definition line_with_rest (reads : list (list ascii)) (maxBytes : Z)
    : option (string * list ascii * list (list ascii)) :=
  match read_bytes [] reads with
  | None => None
  | Some (b, rest, reads') =>
      if (0 <? maxBytes) && (maxBytes <? Z.of_nat (length b)) then None
      else Some (TrimSpace (l2s b), rest, reads')
  end.

Section agent.
Context (json_open : string -> option openMsg).

(** The stream an [open] message starts, if it is one. *)
Definition start_stream (line : string) : list (string * Z) :=
  match json_open line with
  | None => []
  | Some msg =>
      if decide (TrimSpace (om_Type msg) <> "open") then [] else
      let stream := TrimSpace (om_Stream msg) in
      let port := om_Port msg in
      if decide (stream = "" \/ port <= 0 \/ 65535 < port) then [] else [(stream, port)]
  end.

(** The loop of runOnce, on what the relay sends: the streams it starts.  Each
    line takes a read, so [S (length reads)] rounds are enough. *)
Fixpoint run_loop (fuel : nat) (reads : list (list ascii)) : list (string * Z) :=
  match fuel with
  | O => []
  | S fuel' =>
      match line_with_rest reads 65536 with
      | None => []
      | Some (line, _, reads') => start_stream line ++ run_loop fuel' reads'
      end
  end.
Definition runOnce (reads : list (list ascii)) : list (string * Z) := run_loop (S (length reads)) reads.
End agent.

(** The calls of one stream. *)
Inductive seff : Type -> Type :=
| DialLocal (addr : string) : seff (result error unit)
| DialData (addr : string) : seff (result error unit)
| SendHello (h : dataHello) : seff (result error unit)
| CopyBoth : seff unit.

Definition handleStream (dataAddr key token stream : string) (port : Z) : prog seff (result error unit) :=
  t ← trigger (DialLocal ("127.0.0.1:" +:+ Itoa port));
  match t with
  | Err e => mret (Err (Errorf "dial local 127.0.0.1:%d: %w" [VInt port; err_value e]))
  | Ok _ =>
      d ← trigger (DialData dataAddr);
      match d with
      | Err e => mret (Err (Errorf "dial data: %w" [err_value e]))
      | Ok _ =>
          w ← trigger (SendHello {| dh_Stream := stream; dh_Key := key; dh_Token := token |});
          match w with
          | Err e => mret (Err e)
          | Ok _ => _ ← trigger CopyBoth; mret (Ok tt)
          end
      end
  end.

(** Two requests that arrive in one read: the second one is thrown away. *)
Definition demo_open (line : string) : option openMsg :=
  if decide (line = "open1") then Some {| om_Type := "open"; om_Stream := "s1"; om_Port := 2222 |}
  else if decide (line = "open2") then Some {| om_Type := "open"; om_Stream := "s2"; om_Port := 2222 |}
  else None.
Definition demo_line (l : string) : list ascii := s2l l ++ [byte 10].

Lemma second_open_lost :
  runOnce demo_open [demo_line "open1"; demo_line "open2"] = [("s1", 2222); ("s2", 2222)]
  /\ runOnce demo_open [demo_line "open1" ++ demo_line "open2"] = [("s1", 2222)].
Proof. split; vm_compute; reflexivity. Qed.
