(* ===== verification/DesktopAgent.v ===== *)
(** The agent in the desktop (src/cmd/ws-desktop-agent/main.go) as a whole: its
    configuration, and its main loop with the goroutines of the streams, as a
    step relation.  A connection to the relay is what its reads return, up to
    its end; the goroutine of a stream runs [handleStream] and holds one slot of
    the semaphore, which outlives the connection. *)
From S2P Require Export RelayClients NetPolicy GoFlag.
From stdpp Require Import options.
Open Scope Z_scope.

(** * Configuration *)

Definition agent_intFromEnv (env : string -> string) (k : string) (def : Z) : Z :=
  let raw := TrimSpace (env k) in
  if decide (raw = "") then def else
  match Atoi raw with
  | None => def
  | Some n => n
  end.

(** The values of the flags. *)
Record tunnel_flags := {
  af_controlAddr : string;
  af_dataAddr : string;
  af_key : string;
  af_token : string;
  af_concurrency : Z;
}.
Definition tunnel_default_flags (env : string -> string) : tunnel_flags := {|
  af_controlAddr := getenv env "WS_RELAYD_CONTROL_ADDR" "";
  af_dataAddr := getenv env "WS_RELAYD_DATA_ADDR" "";
  af_key := getenv env "WS_RELAY_KEY" "";
  af_token := getenv env "WS_RELAY_TOKEN" "";
  af_concurrency := agent_intFromEnv env "WS_RELAY_CONCURRENCY" 4;
|}.

Definition tunnel_flagset (env : string -> string) : flagset :=
  let d := tunnel_default_flags env in {[
  "control-addr" := FString (af_controlAddr d); "data-addr" := FString (af_dataAddr d);
  "key" := FString (af_key d); "token" := FString (af_token d); "concurrency" := FInt (af_concurrency d) ]}.
Definition tunnel_flags_of (fl : flagset) : tunnel_flags := {|
  af_controlAddr := flag_string fl "control-addr"; af_dataAddr := flag_string fl "data-addr";
  af_key := flag_string fl "key"; af_token := flag_string fl "token"; af_concurrency := flag_int fl "concurrency" |}.

(** What the main loop runs with: the two addresses, the registration, the
    capacity of the semaphore. *)
Record agent_config := {
  cf_controlAddr : string;
  cf_dataAddr : string;
  cf_register : registerMsg;
  cf_concurrency : Z;
}.
Definition agent_configure (f : tunnel_flags) : result error agent_config :=
  if decide (TrimSpace (af_controlAddr f) = "" \/ TrimSpace (af_dataAddr f) = "")
  then Err (Errorf "missing --control-addr/--data-addr (or WS_RELAYD_CONTROL_ADDR/WS_RELAYD_DATA_ADDR)" [])
  else if decide (TrimSpace (af_key f) = "" \/ TrimSpace (af_token f) = "")
  then Err (Errorf "missing --key/--token (or WS_RELAY_KEY/WS_RELAY_TOKEN)" [])
  else Ok {| cf_controlAddr := af_controlAddr f;
             cf_dataAddr := af_dataAddr f;
             cf_register := {| rm_Key := TrimSpace (af_key f); rm_Token := TrimSpace (af_token f) |};
             cf_concurrency := if af_concurrency f <=? 0 then 1 else af_concurrency f |}.

(** The configuration of the command line, or the exit code. *)
Definition tunnel_main (env : string -> string) (args : list string) : Z + agent_config :=
  match flag_parse (tunnel_flagset env) args with
  | Parsed fl _ => match agent_configure (tunnel_flags_of fl) with Ok cf => inr cf | Err _ => inl 1 end
  | FlagHelp => inl 0
  | FlagError => inl 2
  end.

(** * The command line of ws-relay *)

Section ws_relay.
Context (json_resp : string -> option dialResp) (env : string -> string).

Definition dial_flagset : flagset := {[
  "socket" := FString (getenv env "WS_RELAYD_SOCKET" "/var/run/ws-relayd.sock"); "key" := FString "";
  "port" := FInt 0 ]}.
Definition relay_proxy_flagset : flagset := {[
  "socket" := FString (getenv env "WS_RELAYD_SOCKET" "/var/run/ws-relayd.sock");
  "namespace" := FString "desktops"; "host-prefix" := FString "desk-" ]}.

(** The exit code. *)
Definition ws_relay_main (args : list string) : cprog Z :=
  match args with
  | [] => mret 2
  | cmd :: args =>
      if decide (cmd = "dial") then
        match flag_parse dial_flagset args with
        | Parsed fl _ => cmdDial json_resp (flag_string fl "socket") (flag_string fl "key") (flag_int fl "port")
        | FlagHelp => mret 0
        | FlagError => mret 2
        end
      else if decide (cmd = "proxy") then
        match flag_parse relay_proxy_flagset args with
        | Parsed fl (host :: port :: _) =>
            cmdProxy json_resp (flag_string fl "socket") (flag_string fl "namespace") (flag_string fl "host-prefix") host port
        | Parsed fl _ => die 2 "usage: ws-relay proxy [flags] <host> <port>"
        | FlagHelp => mret 0
        | FlagError => mret 2
        end
      else if decide (cmd = "help" \/ cmd = "-h" \/ cmd = "--help") then mret 0
      else mret 2
  end.
End ws_relay.

Lemma agent_capacity f cf : agent_configure f = Ok cf ->
  0 < cf_concurrency cf /\ rm_Key (cf_register cf) <> "" /\ rm_Token (cf_register cf) <> "".
Proof.
  unfold agent_configure. repeat case_decide; try done. intros [= <-]. cbn.
  destruct (Z.leb_spec (af_concurrency f) 0); (split; [lia|]); naive_solver.
Qed.

(** * The main loop *)

Section loop.
Context (json_open : string -> option openMsg).
Context (cf : agent_config).

(** Where the main goroutine is. [conn]: what the connection brought, from its
    start. *)
Inductive agent_at :=
| Dialing
| Reading (conn reads : list (list ascii))                         (* in readLineWithRest *)
| Waiting (conn reads : list (list ascii)) (p : string * Z)        (* at [sem <- struct{}{}] *)
| Sleeping.

Record agent_state := {
  as_at : agent_at;
  as_sem : nat;                           (* slots of the semaphore in use *)
  as_streams : list (string * Z);         (* goroutines of handleStream *)
  as_begun : list (string * Z);           (* streams begun on this connection *)
}.

Inductive agent_event :=
| ADial                                   (* the connection fails *)
| ARegister (m : registerMsg) (ok : bool)
| ALine (line : string)
| AClosed
| ABegin (p : string * Z)
| AEnd (p : string * Z)
| AWake.

Definition agent_start : agent_state :=
  {| as_at := Dialing; as_sem := 0; as_streams := []; as_begun := [] |}.
Definition move (pos : agent_at) (s : agent_state) : agent_state :=
  {| as_at := pos; as_sem := as_sem s; as_streams := as_streams s; as_begun := as_begun s |}.

Inductive agent_step : agent_state -> agent_event -> agent_state -> Prop :=
| agent_dial_fails s : as_at s = Dialing -> agent_step s ADial (move Sleeping s)
| agent_registers s reads : as_at s = Dialing ->
    agent_step s (ARegister (cf_register cf) true)
      {| as_at := Reading reads reads; as_sem := as_sem s; as_streams := as_streams s; as_begun := [] |}
| agent_register_fails s : as_at s = Dialing ->
    agent_step s (ARegister (cf_register cf) false) (move Sleeping s)
| agent_skips s conn reads line rest reads' : as_at s = Reading conn reads ->
    line_with_rest reads 65536 = Some (line, rest, reads') -> start_stream json_open line = [] ->
    agent_step s (ALine line) (move (Reading conn reads') s)
| agent_accepts s conn reads line rest reads' p : as_at s = Reading conn reads ->
    line_with_rest reads 65536 = Some (line, rest, reads') -> start_stream json_open line = [p] ->
    agent_step s (ALine line) (move (Waiting conn reads' p) s)
| agent_closed s conn reads : as_at s = Reading conn reads ->
    line_with_rest reads 65536 = None ->
    agent_step s AClosed (move Sleeping s)
(* a slot is free: the goroutine starts *)
| agent_begins s conn reads p : as_at s = Waiting conn reads p ->
    Z.of_nat (as_sem s) < cf_concurrency cf ->
    agent_step s (ABegin p)
      {| as_at := Reading conn reads; as_sem := S (as_sem s);
         as_streams := p :: as_streams s; as_begun := as_begun s ++ [p] |}
(* handleStream returns; the deferred receive frees its slot *)
| agent_ends s p l1 l2 : as_streams s = l1 ++ p :: l2 ->
    agent_step s (AEnd p)
      {| as_at := as_at s; as_sem := pred (as_sem s); as_streams := l1 ++ l2; as_begun := as_begun s |}
| agent_wakes s : as_at s = Sleeping -> agent_step s AWake (move Dialing s).

Inductive agent_steps : agent_state -> list agent_event -> agent_state -> Prop :=
| agent_steps_nil s : agent_steps s [] s
| agent_steps_snoc s1 tr s2 ev s3 :
    agent_steps s1 tr s2 -> agent_step s2 ev s3 -> agent_steps s1 (tr ++ [ev]) s3.

(** * Its invariant *)

(** What the sequential loop starts from here on. *)
Definition still_to_start (reads : list (list ascii)) : list (string * Z) := runOnce json_open reads.

Definition valid_stream (p : string * Z) : Prop := p.1 <> "" /\ 0 < p.2 <= 65535.

Lemma start_stream_spec line p : p ∈ start_stream json_open line -> valid_stream p.
Proof using Type.
  unfold start_stream, valid_stream. destruct (json_open line) as [msg|]; [|set_solver].
  case_decide; [set_solver|]. case_decide as Hv; [set_solver|].
  intros ->%list_elem_of_singleton. cbn. split; [tauto|lia].
Qed.

(** A stream per slot; never more than the capacity; and the streams begun on
    this connection, followed by the one at the semaphore and those still to
    come, are the ones of [runOnce]. *)
Definition agent_inv (s : agent_state) : Prop :=
  as_sem s = length (as_streams s)
  /\ Z.of_nat (as_sem s) <= cf_concurrency cf
  /\ Forall valid_stream (as_streams s)
  /\ match as_at s with
     | Reading conn reads => runOnce json_open conn = as_begun s ++ still_to_start reads
     | Waiting conn reads p =>
         runOnce json_open conn = as_begun s ++ p :: still_to_start reads /\ valid_stream p
     | Dialing | Sleeping => True
     end.

Lemma start_stream_cases line : start_stream json_open line = [] \/ exists p, start_stream json_open line = [p].
Proof using Type.
  unfold start_stream. destruct (json_open line); [|by left]. case_decide; [by left|].
  case_decide; [by left | right; eauto].
Qed.

Lemma read_bytes_shorter reads : forall buf b rest reads',
  read_bytes buf reads = Some (b, rest, reads') ->
  (length reads' <= length reads)%nat /\ (index_byte (byte 10) buf = None -> (length reads' < length reads)%nat).
Proof using Type.
  induction reads as [|r reads IH]; intros buf b rest reads'; cbn; destruct (index_byte (byte 10) buf); try done.
  - intros [= _ _ <-]. done.
  - intros [= _ _ <-]. cbn. done.
  - intros [Hle _]%IH. lia.
Qed.

Lemma line_shorter reads n line rest reads' :
  line_with_rest reads n = Some (line, rest, reads') -> (length reads' < length reads)%nat.
Proof using Type.
  unfold line_with_rest. destruct (read_bytes [] reads) as [[[b r] reads1]|] eqn:Hr; [|done].
  destruct (_ && _); [done|]. intros [= _ _ <-]. by apply (read_bytes_shorter _ [] b r).
Qed.

(** The fuel of [runOnce] is enough. *)
Lemma run_loop_fuel n : forall m reads, (length reads < n)%nat -> (length reads < m)%nat ->
  run_loop json_open n reads = run_loop json_open m reads.
Proof using Type.
  induction n as [|n IH]; intros m reads Hn Hm; [lia|]. destruct m as [|m]; [lia|]. cbn.
  destruct (line_with_rest reads 65536) as [[[line rest] reads']|] eqn:Hl; [|done].
  f_equal. apply line_shorter in Hl. apply IH; lia.
Qed.

Lemma runOnce_line reads line rest reads' : line_with_rest reads 65536 = Some (line, rest, reads') ->
  runOnce json_open reads = start_stream json_open line ++ runOnce json_open reads'.
Proof using Type.
  intros Hl. unfold runOnce at 1. cbn [run_loop]. rewrite Hl. f_equal. apply line_shorter in Hl.
  apply run_loop_fuel; lia.
Qed.

Lemma runOnce_end reads : line_with_rest reads 65536 = None -> runOnce json_open reads = [].
Proof using Type. intros Hl. unfold runOnce. cbn. by rewrite Hl. Qed.

Lemma agent_step_inv s ev s' : agent_inv s -> agent_step s ev s' -> agent_inv s'.
Proof using Type.
  unfold agent_inv, still_to_start. intros (Hsem & Hcap & Hval & Hat) Hstep.
  destruct Hstep as [s Hp|s reads Hp|s Hp|s conn reads line rest reads' Hp Hl Hs|s conn reads line rest reads' p Hp Hl Hs
    |s conn reads Hp Hl|s conn reads p Hp Hfree|s p l1 l2 Hl|s Hp]; cbn; try rewrite Hp in Hat; try done.
  - rewrite (runOnce_line _ _ _ _ Hl), Hs in Hat. done.
  - rewrite (runOnce_line _ _ _ _ Hl), Hs in Hat. split_and!; try done.
    apply (start_stream_spec line). rewrite Hs. by left.
  - destruct Hat as [Heq Hv]. split; [by rewrite Hsem|]. split; [lia|]. split; [by constructor|].
    by rewrite <- (assoc_L (++)).
  - rewrite Hl in Hsem, Hval. rewrite length_app in Hsem. cbn in Hsem. rewrite length_app.
    apply list.Forall_app in Hval as [H1 H2]. inversion H2; subst.
    split; [lia|]. split; [lia|]. split; [by apply list.Forall_app | done].
Qed.

Lemma agent_steps_inv tr s : 0 < cf_concurrency cf -> agent_steps agent_start tr s -> agent_inv s.
Proof using Type.
  intros Hcap Hs. remember agent_start as s0 eqn:Hs0. induction Hs as [s|s1 tr s2 ev s3 _ IH Hstep].
  - subst s. unfold agent_inv. cbn. split_and!; [done | lia | constructor | done].
  - by eapply agent_step_inv; [apply IH|].
Qed.

(** Over all its connections the agent never runs more streams than the
    capacity, each for a named stream and a port; within a connection it begins
    the streams of the sequential loop, in order, each once, and all of them by
    the time it waits for the end of the connection; and it never gets stuck: a
    full semaphore means that a stream is running, whose end frees a slot. *)
Lemma agent_bounded tr s : 0 < cf_concurrency cf -> agent_steps agent_start tr s ->
  Z.of_nat (length (as_streams s)) <= cf_concurrency cf
  /\ Forall valid_stream (as_streams s)
  /\ (forall conn reads, as_at s = Reading conn reads ->
       as_begun s `prefix_of` runOnce json_open conn
       /\ (line_with_rest reads 65536 = None -> as_begun s = runOnce json_open conn))
  /\ exists ev s', agent_step s ev s'.
Proof using Type.
  intros Hpos Hs. pose proof (agent_steps_inv tr s Hpos Hs) as (Hsem & Hcap & Hval & Hat).
  split; [by rewrite <- Hsem|]. split; [done|]. split.
  - intros conn reads Hp. rewrite Hp in Hat. unfold still_to_start in Hat. split; [by eexists|].
    intros Hl. by rewrite Hat, (runOnce_end _ Hl), app_nil_r.
  - destruct (as_at s) as [|conn reads|conn reads p|] eqn:Hp.
    + eexists _, _. by apply agent_dial_fails.
    + destruct (line_with_rest reads 65536) as [[[line rest] reads']|] eqn:Hl.
      * destruct (start_stream_cases line) as [Hst|[p Hst]];
          eexists _, _; [by eapply agent_skips | by eapply agent_accepts].
      * eexists _, _. by eapply agent_closed.
    + destruct (decide (Z.of_nat (as_sem s) < cf_concurrency cf)) as [Hfree|Hfull].
      * eexists _, _. by eapply agent_begins.
      * destruct (as_streams s) as [|q l] eqn:Hl; [cbn in Hsem; lia|].
        eexists _, _. by apply (agent_ends s q [] l).
    + eexists _, _. by apply agent_wakes.
Qed.

(** It registers only with its own key and token. *)
Lemma agent_registration tr s m ok : agent_steps agent_start tr s -> ARegister m ok ∈ tr ->
  m = cf_register cf.
Proof using Type.
  intros Hs. induction Hs as [|s1 tr s2 ev s3 _ IH Hstep]; [by intros ?%not_elem_of_nil|].
  intros [Hin|Heq%list_elem_of_singleton]%elem_of_app; [by apply IH|]. subst ev. by inversion Hstep.
Qed.
End loop.
