(* ===== verification/RelayStart.v ===== *)
(** The start of the relay daemon (src/cmd/ws-relayd/main.go, main): its
    configuration from the values of the flags, its listeners and its socket.
    [loadTokens], [parseAllowedPorts], [parseSocketMode] and [parseOptionalGID]
    are in Relayd.v. *)
From S2P Require Export Relayd CliEnv NetPolicy GoFlag.
From Stdlib Require Import Sorting.Sorted Permutation.
From stdpp Require Import sorting options.
Open Scope Z_scope.

(** * The list of ports that is printed *)

(** One round of the outer loop, [x] being [out[i]]: the element left there and
    those after it. *)
Fixpoint exchange (x : Z) (l : list Z) : Z * list Z :=
  match l with
  | [] => (x, [])
  | y :: l' => if y <? x then let (m, r) := exchange y l' in (m, x :: r)
               else let (m, r) := exchange x l' in (m, y :: r)
  end.
Fixpoint exchange_sort (n : nat) (l : list Z) : list Z :=
  match n, l with
  | S n, x :: l' => let (m, r) := exchange x l' in m :: exchange_sort n r
  | _, _ => l
  end.
(** [keys]: the ports in the order in which Go iterates over the map. *)
Definition keysOf (keys : list Z) : list Z := exchange_sort (length keys) keys.

Lemma exchange_spec l : forall x m r, exchange x l = (m, r) ->
  x :: l ≡ₚ m :: r /\ m <= x /\ Forall (Z.le m) r.
Proof.
  induction l as [|y l IH]; intros x m r; cbn; [intros [= <- <-]; split_and!; [done | lia | constructor]|].
  destruct (Z.ltb_spec y x).
  - destruct (exchange y l) as [m' r'] eqn:He. intros [= <- <-]. apply IH in He as (Hp & Hm & Hr).
    split; [rewrite Hp; apply Permutation_swap|]. split; [lia|]. constructor; [lia | done].
  - destruct (exchange x l) as [m' r'] eqn:He. intros [= <- <-]. apply IH in He as (Hp & Hm & Hr).
    split; [rewrite Permutation_swap, Hp; apply Permutation_swap|]. split; [lia|]. constructor; [lia | done].
Qed.

Lemma exchange_sort_spec n : forall l, (length l <= n)%nat ->
  exchange_sort n l ≡ₚ l /\ StronglySorted Z.le (exchange_sort n l).
Proof.
  induction n as [|n IH]; intros [|x l] Hn; cbn in *; [split; [done | apply SSorted_nil] | lia | split; [done | apply SSorted_nil] |].
  destruct (exchange x l) as [m r] eqn:He. apply exchange_spec in He as (Hp & _ & Hr).
  assert (Hlen : length r = length l) by (apply Permutation_length in Hp; cbn in Hp; lia).
  destruct (IH r) as [Hp' Hs]; [lia|]. split; [by rewrite Hp', Hp|]. constructor; [done|].
  by rewrite Hp'.
Qed.

(** "Deterministic print": the order in which the map is iterated does not show. *)
Lemma keysOf_deterministic l1 l2 : l1 ≡ₚ l2 -> keysOf l1 = keysOf l2.
Proof.
  intros Hp. destruct (exchange_sort_spec (length l1) l1) as [P1 S1]; [done|].
  destruct (exchange_sort_spec (length l2) l2) as [P2 S2]; [done|].
  apply (StronglySorted_unique Z.le); [done..|]. unfold keysOf. by rewrite P1, P2.
Qed.

(** * Start-up *)

Record relayd_flags := {
  rf_controlAddr : string;
  rf_dataAddr : string;
  rf_socketPath : string;
  rf_socketMode : string;
  rf_socketGID : string;
  rf_jwtSecret : string;
  rf_tokensJSON : string;
  rf_tokensFile : string;
  rf_portsCSV : string;
  rf_streamTimeout : Z;
}.

(** The default where the text is no positive duration. *)
Definition relayd_parseDuration (raw : string) (def : Z) : Z :=
  let raw := TrimSpace raw in
  if decide (raw = "") then def else
  match ParseDuration raw with
  | Some d => if d <=? 0 then def else d
  | None => def
  end.

Definition relayd_default_flags (env : string -> string) : relayd_flags := {|
  rf_controlAddr := getenv env "WS_RELAYD_CONTROL_ADDR" ":7443";
  rf_dataAddr := getenv env "WS_RELAYD_DATA_ADDR" ":7444";
  rf_socketPath := getenv env "WS_RELAYD_SOCKET" "/var/run/ws-relayd.sock";
  rf_socketMode := getenv env "WS_RELAYD_SOCKET_MODE" "0600";
  rf_socketGID := getenv env "WS_RELAYD_SOCKET_GID" "";
  rf_jwtSecret := getenv env "WS_RELAYD_JWT_SECRET" "";
  rf_tokensJSON := getenv env "WS_RELAYD_TOKENS_JSON" "";
  rf_tokensFile := getenv env "WS_RELAYD_TOKENS_FILE" "";
  rf_portsCSV := getenv env "WS_RELAYD_ALLOWED_PORTS" "2222";
  rf_streamTimeout := relayd_parseDuration (getenv env "WS_RELAYD_STREAM_TIMEOUT" "20s") (20 * second);
|}.

Inductive leff : Type -> Type :=
| Listen (network addr : string) : leff (result error unit)
| LMkdirAll (dir : string) (mode : Z) : leff (result error unit)
(* os.Stat: None when nothing is there, else whether it is a socket *)
| LStat (path : string) : leff (result error (option bool))
| LRemove (path : string) : leff (result error unit)
| LChmod (path : string) (mode : Z) : leff unit            (* the error is ignored *)
| LChown (path : string) (gid : Z) : leff unit
| LLog (fmt : string) (args : list value) : leff unit
| LFatal (what : string) (e : error) : leff unit           (* log.Fatalf *)
(* the three accept loops, with the state they share and the timer of a stream *)
| Serve (s : rserver) (m : daemon) (streamTimeout : Z) : leff unit.

Notation lprog := (prog leff).

Definition lfatal (what : string) (e : error) : lprog Z := _ ← trigger (LFatal what e); mret 1.
Definition or_fatal {A} (what : string) (r : result error A) (k : A -> lprog Z) : lprog Z :=
  match r with
  | Ok a => k a
  | Err e => lfatal what e
  end.

Definition ensureUnixSocketDir (path : string) : lprog (result error unit) :=
  let dir := path_Dir path in
  if decide (dir = "" \/ dir = ".") then mret (Ok tt) else trigger (LMkdirAll dir 448).

Definition removeUnixSocketIfPresent (path : string) : lprog (result error unit) :=
  fi ← trigger (LStat path);
  match fi with
  | Err e => mret (Err e)
  | Ok None => mret (Ok tt)
  | Ok (Some false) => mret (Err (Errorf "%s exists and is not a unix socket" [VStr path]))
  | Ok (Some true) => trigger (LRemove path)
  end.

Section start.
Context (read_file : string -> result error string).
Context (json_tokens : string -> result error (gmap string string)).
Context (iterate : gmap string string -> list (string * string)).
Context (iterate_ports : gset Z -> list Z).

Definition relayd_server (f : relayd_flags) : (string * error) + rserver :=
  match loadTokens read_file json_tokens iterate (rf_tokensJSON f) (rf_tokensFile f) with
  | Err e => inl ("tokens", e)
  | Ok tokens =>
      let secret := TrimSpace (rf_jwtSecret f) in
      if decide (secret = "" /\ tokens = ∅)
      then inl ("", Errorf "no auth configured (set WS_RELAYD_JWT_SECRET or WS_RELAYD_TOKENS_JSON/FILE)" [])
      else
        match parseAllowedPorts (rf_portsCSV f) with
        | Err e => inl ("allowed ports", e)
        | Ok ports => inr {| sv_auth := {| ac_tokens := tokens; ac_jwtSecret := secret |};
                             sv_allowedPorts := ports |}
        end
  end.

(** The exit code, for the values of the flags. *)
Definition relayd_start (f : relayd_flags) : lprog Z :=
  match relayd_server f with
  | inl (what, e) => lfatal what e
  | inr s =>
      r ← trigger (Listen "tcp" (rf_controlAddr f)); or_fatal "listen control" r (fun _ =>
      r ← trigger (Listen "tcp" (rf_dataAddr f)); or_fatal "listen data" r (fun _ =>
      r ← ensureUnixSocketDir (rf_socketPath f); or_fatal "socket dir" r (fun _ =>
      r ← removeUnixSocketIfPresent (rf_socketPath f); or_fatal "socket" r (fun _ =>
      r ← trigger (Listen "unix" (rf_socketPath f)); or_fatal "listen socket" r (fun _ =>
      or_fatal "socket mode" (parseSocketMode (rf_socketMode f)) (fun mode =>
      _ ← trigger (LChmod (rf_socketPath f) mode);
      or_fatal "socket gid" (parseOptionalGID (rf_socketGID f)) (fun gid =>
      _ ← match gid with Some gid => trigger (LChown (rf_socketPath f) gid) | None => mret tt end;
      _ ← trigger (LLog "ws-relayd: control=%s data=%s socket=%s allowedPorts=%v"
                     [VStr (TrimSpace (rf_controlAddr f)); VStr (TrimSpace (rf_dataAddr f));
                      VStr (rf_socketPath f);
                      VList (VInt <$> keysOf (iterate_ports (sv_allowedPorts s)))]);
      _ ← trigger (Serve s start (rf_streamTimeout f));
      mret 0)))))))
  end.

(** The command line. *)
Definition relayd_flagset (env : string -> string) : flagset :=
  let d := relayd_default_flags env in {[
  "control-addr" := FString (rf_controlAddr d); "data-addr" := FString (rf_dataAddr d);
  "socket" := FString (rf_socketPath d); "socket-mode" := FString (rf_socketMode d);
  "socket-gid" := FString (rf_socketGID d); "jwt-secret" := FString (rf_jwtSecret d);
  "tokens-json" := FString (rf_tokensJSON d); "tokens-file" := FString (rf_tokensFile d);
  "allowed-ports" := FString (rf_portsCSV d); "stream-timeout" := FDuration (rf_streamTimeout d) ]}.
Definition relayd_flags_of (fl : flagset) : relayd_flags := {|
  rf_controlAddr := flag_string fl "control-addr"; rf_dataAddr := flag_string fl "data-addr";
  rf_socketPath := flag_string fl "socket"; rf_socketMode := flag_string fl "socket-mode";
  rf_socketGID := flag_string fl "socket-gid"; rf_jwtSecret := flag_string fl "jwt-secret";
  rf_tokensJSON := flag_string fl "tokens-json"; rf_tokensFile := flag_string fl "tokens-file";
  rf_portsCSV := flag_string fl "allowed-ports"; rf_streamTimeout := flag_duration fl "stream-timeout" |}.

Definition relayd_main (env : string -> string) (args : list string) : lprog Z :=
  match flag_parse (relayd_flagset env) args with
  | Parsed fl _ => relayd_start (relayd_flags_of fl)
  | FlagHelp => mret 0
  | FlagError => mret 2
  end.
End start.

(** Without flags the environment decides. *)
Lemma relayd_flags_default env : relayd_flags_of (relayd_flagset env) = relayd_default_flags env.
Proof. by destruct (relayd_default_flags env) eqn:Hd; unfold relayd_flagset; rewrite Hd. Qed.
