(* ===== verification/RelayLogin.v ===== *)
(** From the operator to the relay: the operator signs a token for a desktop
    (Desktop.v) with the secret of its environment (Operator.v); the container
    of the reverse tunnel gets it through its environment and registers with it
    (DesktopAgent.v); the relay, configured with the same secret (RelayStart.v),
    checks it (Relayd.v). *)
From S2P Require Export Operator DesktopAgent RelayStart.
From stdpp Require Import options.
Open Scope Z_scope.

(** * The JWT library *)

(** What the two programs rely on: a signed token has no blanks at its ends, and
    before its expiry (in whole seconds) it parses with the secret that signed it. *)
Class JwtLibrary (sign : string -> string -> Z -> Z -> result error string)
    (parse : (string -> option string) -> string -> Z -> option (string * option Z)) : Prop := {
  jwt_token : token_law sign;
  jwt_accepts kf sec sub iat exp tok now :
    sign sec sub iat exp = Ok tok -> kf "HS256" = Some sec -> now < exp / second * second ->
    parse kf tok now = Some (sub, Some (exp / second * second));
}.

(** * The environment of a container *)

(** The value the kubelet gives to a variable, from the container's entry and
    the data of the secrets of the namespace. *)
Definition container_env (secrets : string -> gmap string string) (c : Container) (name : string) : string :=
  match list_find (fun e => ev_Name e = name) (ct_Env c) with
  | None => ""
  | Some (_, e) =>
      match ev_ValueFrom e with
      | None => ev_Value e
      | Some ref => default "" (secrets (skr_Name ref) !! skr_Key ref)
      end
  end.

Lemma getenv_empty env k : getenv env k "" = env k.
Proof. unfold getenv. by destruct (decide (env k = "")) as [->|]. Qed.

(** The flags of the agent that the controller puts in the pod of a desktop. *)
Definition pod_tunnel_flags (r : DesktopReconciler) (d : Desktop) (data : gmap string string) : tunnel_flags :=
  tunnel_default_flags (container_env (fun n => if decide (n = relay_secret_name d) then data else ∅)
                         (relay_container r d)).

(** * Genuine tokens *)

(** The moments read from the relay's clock. *)
Definition relay_time (o : robs) : option Z :=
  match o with
  | Obs e x => match e in reff X return X -> option Z with RTime => Some | _ => fun _ => None end x
  end.

Section login.
Context (sign : string -> string -> Z -> Z -> result error string).
Context (parse : (string -> option string) -> string -> Z -> option (string * option Z)).
Context `{!JwtLibrary sign parse}.

(** Whenever the stored token passes for usable, it was signed for the desktop
    with this secret and it does expire that late. *)
Definition genuine (secret key : string) (data : gmap string string) : Prop :=
  forall now tok, valid_token data now = Some tok ->
    exists iat exp, sign secret (TrimSpace key) iat exp = Ok tok /\ now + 10 * minute < exp.

Lemma valid_token_trim data now tok : valid_token data now = Some tok ->
  TrimSpace (default "" (data !! "token")) = tok /\ tok <> "".
Proof using Type.
  unfold valid_token. case_decide as Hd; [done|].
  destruct (parse_rfc3339 _) as [t|]; [|done]. destruct (After _ _); [|done]. intros [= <-]. tauto.
Qed.

Lemma token_chosen_genuine r key now tr old new tok :
  token_chosen sign r key now tr old new tok -> genuine (dr_DesktopRelayJWTSecret r) key old ->
  0 < relay_ttl r ->
  (forall n, n ∈ omap time_read tr -> 0 <= n /\ n + relay_ttl r < four_digit_years) ->
  genuine (dr_DesktopRelayJWTSecret r) key new.
Proof using JwtLibrary0.
  intros [[Hv ->]|(Hv & n & Hin & Hs & ->)] Hold Httl Htime t tok' Hval.
  - rewrite valid_token_key in Hval. by eapply Hold.
  - destruct (Htime n Hin) as [Hn0 Hn2]. destruct (jwt_token _ _ _ _ _ Hs) as [Ht _].
    exists n, (n + relay_ttl r). pose proof (proj1 (valid_token_trim _ _ _ Hval)) as Htok.
    rewrite lookup_insert_ne, lookup_insert_eq in Htok by done. cbn in Htok. rewrite Ht in Htok. subst tok'.
    split; [done|]. unfold valid_token in Hval. case_decide; [done|]. rewrite lookup_insert_eq in Hval.
    cbn [from_option] in Hval. unfold id in Hval. rewrite format_trimmed, parse_format in Hval by lia.
    unfold After in Hval. destruct (Z.ltb_spec (t + 10 * minute) (n + relay_ttl r)); done.
Qed.

(** ** The relay *)

(** [validate] accepts a genuine token of the desktop while it lasts. *)
Lemma validate_genuine a secret key tok now iat exp tr b :
  ac_jwtSecret a = secret -> secret <> "" -> TrimSpace key = key -> key <> "" ->
  sign secret key iat exp = Ok tok -> now + 10 * minute < exp ->
  exec (validate parse a key tok) tr b ->
  (forall t, t ∈ omap relay_time tr -> t + second <= now + 10 * minute) -> b = true.
Proof using JwtLibrary0.
  intros Ha Hsec Hk Hne Hs Hexp H Htime. destruct (jwt_token _ _ _ _ _ Hs) as [Ht Htne].
  assert (Hlate : forall t, t + second <= now + 10 * minute -> t < exp / second * second).
  { intros t Hle. pose proof (Z.div_mod exp second ltac:(done)).
    pose proof (Z.mod_pos_bound exp second ltac:(done)). lia. }
  unfold validate in H. rewrite Hk, Ht, Ha in H. rewrite decide_False in H by tauto.
  rewrite decide_False in H by done. unfold validateJWT in H.
  apply exec_bind in H as (t1 & t2 & ok & -> & H1 & H2).
  apply exec_bind in H1 as (t3 & t4 & t & -> & H3%exec_trigger & H4). subst t3.
  rewrite (jwt_accepts _ _ _ _ _ _ t Hs eq_refl) in H4 by (apply Hlate, Htime; cbn; by left).
  rewrite Hk in H4. rewrite decide_False in H4 by tauto.
  assert (ok = true) as ->; [|by destruct H2].
  destruct (IsZero _); [by destruct H4|].
  apply exec_bind in H4 as (t5 & t6 & t' & -> & H5%exec_trigger & [-> ->]). subst t5.
  assert (t' < exp / second * second) by (apply Hlate, Htime; rewrite !omap_app; set_solver).
  unfold After. destruct (Z.ltb_spec (exp / second * second) t'); [lia | done].
Qed.

Context (json_register : string -> option registerMsg) (json_hello : string -> option dataHello).

Definition bytes_read (o : robs) : option (result error (list ascii * list ascii)) :=
  match o with
  | Obs e x => match e in reff X return X -> option (result error (list ascii * list ascii)) with
               | ReadBytes _ => Some
               | _ => fun _ => None
               end x
  end.

Lemma read_line_exec {A} c line rest (k : result error (string * list ascii) -> rprog A) tr a :
  Z.of_nat (length line) <= 65536 ->
  exec (readLineWithRest c 65536 ≫= k) (Obs (ReadBytes c) (Ok (line, rest)) :: tr) a ->
  exec (k (Ok (TrimSpace (l2s line), rest))) tr a.
Proof using Type.
  intros Hlen (t1 & t2 & r & Heq & H & Hk)%exec_bind.
  apply exec_bind in H as (t3 & t4 & x & -> & H%exec_trigger & [-> ->]). subst t3.
  rewrite app_nil_r in Heq. cbn in Heq. pose proof (f_equal tail Heq) as Ht. cbn in Ht. subst t2.
  pose proof (f_equal (fun l => head l ≫= bytes_read) Heq) as Hx. cbn in Hx. injection Hx as <-.
  destruct (Z.ltb_spec 65536 (Z.of_nat (length line))); [lia|]. done.
Qed.

(** The two handshakes with such a token. *)
Definition admits (s : rserver) (key tok : string) (deadline : Z) (c : conn) : Prop :=
  (forall line rest tr, Z.of_nat (length line) <= 65536 ->
     json_register (TrimSpace (l2s line)) = Some {| rm_Key := key; rm_Token := tok |} ->
     exec (handleControlConn json_register parse s c) (Obs (ReadBytes c) (Ok (line, rest)) :: tr) tt ->
     (forall t, t ∈ omap relay_time tr -> t + second <= deadline) ->
     Obs (RegisterAgent {| ag_key := key; ag_conn := c |}) tt ∈ tr)
  /\ (forall line rest tr stream, Z.of_nat (length line) <= 65536 -> TrimSpace stream <> "" ->
     json_hello (TrimSpace (l2s line)) = Some {| dh_Stream := stream; dh_Key := key; dh_Token := tok |} ->
     exec (handleDataConn json_hello parse s c) (Obs (ReadBytes c) (Ok (line, rest)) :: tr) tt ->
     (forall t, t ∈ omap relay_time tr -> t + second <= deadline) ->
     exists p, Obs (TakePending (TrimSpace stream) key) p ∈ tr).

Lemma admits_genuine s secret key tok now iat exp c :
  ac_jwtSecret (sv_auth s) = secret -> secret <> "" -> TrimSpace key = key -> key <> "" ->
  sign secret key iat exp = Ok tok -> now + 10 * minute < exp ->
  admits s key tok (now + 10 * minute) c.
Proof using JwtLibrary0.
  intros Ha Hsec Hk Hne Hs Hexp. destruct (jwt_token _ _ _ _ _ Hs) as [Ht Htne].
  split.
  - intros line rest tr Hlen Hj H Htime. unfold handleControlConn in H. apply read_line_exec in H; [|done].
    rewrite Hj in H. cbn [rm_Key rm_Token dh_Stream dh_Key dh_Token] in H. cbv zeta in H. rewrite Hk, Ht, decide_False in H by tauto.
    apply exec_bind in H as (t1 & t2 & u & -> & H & _).
    apply exec_bind in H as (t3 & t4 & ok & -> & Hv & H).
    rewrite (validate_genuine _ _ _ _ _ _ _ _ _ Ha Hsec Hk Hne Hs Hexp Hv) in H
      by (intros t Hin; apply Htime; rewrite !omap_app; set_solver).
    cbn in H. destruct H as (x & t5 & -> & _). destruct x. set_solver.
  - intros line rest tr stream Hlen Hst Hj H Htime. unfold handleDataConn in H. apply read_line_exec in H; [|done].
    rewrite Hj in H. cbn [rm_Key rm_Token dh_Stream dh_Key dh_Token] in H. cbv zeta in H. rewrite Hk, Ht, decide_False in H by tauto.
    apply exec_bind in H as (t3 & t4 & ok & -> & Hv & H).
    rewrite (validate_genuine _ _ _ _ _ _ _ _ _ Ha Hsec Hk Hne Hs Hexp Hv) in H
      by (intros t Hin; apply Htime; rewrite !omap_app; set_solver).
    cbn in H. destruct H as (x & t5 & -> & _). exists x. set_solver.
Qed.
End login.

(** * From the operator's environment to the relay's tables *)

Lemma relay_env_values secrets r d :
  let env := container_env secrets (relay_container r d) in
  env "WS_RELAYD_CONTROL_ADDR" = TrimSpace (dr_DesktopRelaydControlAddr r)
  /\ env "WS_RELAYD_DATA_ADDR" = TrimSpace (dr_DesktopRelaydDataAddr r)
  /\ env "WS_RELAY_KEY" = m_Namespace (d_Meta d) +:+ "/" +:+ m_Name (d_Meta d)
  /\ env "WS_RELAY_TOKEN" = default "" (secrets (relay_secret_name d) !! "token").
Proof. split_and!; reflexivity. Qed.

(** The agent in the pod runs with the desktop's key and the secret's token. *)
Lemma pod_agent_configured r d data now tok :
  relay_configured r = true -> valid_token data now = Some tok ->
  TrimSpace (m_Namespace (d_Meta d) +:+ "/" +:+ m_Name (d_Meta d)) <> "" ->
  exists cf, agent_configure (pod_tunnel_flags r d data) = Ok cf
    /\ cf_register cf = {| rm_Key := TrimSpace (m_Namespace (d_Meta d) +:+ "/" +:+ m_Name (d_Meta d));
                           rm_Token := tok |}
    /\ cf_concurrency cf = 4.
Proof.
  intros Hr [Ht Hne]%valid_token_trim Hk. unfold relay_configured in Hr.
  rewrite !andb_true_iff, !bool_decide_eq_true in Hr. destruct Hr as [[[_ Hc] Hd] _].
  unfold agent_configure, pod_tunnel_flags, tunnel_default_flags.
  cbn [af_controlAddr af_dataAddr af_key af_token af_concurrency]. rewrite !getenv_empty.
  change (agent_intFromEnv _ _ _) with 4.
  destruct (relay_env_values (fun n => if decide (n = relay_secret_name d) then data else ∅) r d)
    as (-> & -> & -> & ->).
  rewrite (decide_True (P := relay_secret_name d = relay_secret_name d)), Ht, !TrimSpace_idemp by done.
  rewrite decide_False by tauto. rewrite decide_False by tauto. by eexists.
Qed.


Section whole.
Context (sign : string -> string -> Z -> Z -> result error string).
Context (parse : (string -> option string) -> string -> Z -> option (string * option Z)).
Context (json_register : string -> option registerMsg) (json_hello : string -> option dataHello).
Context (read_file : string -> result error string).
Context (json_tokens : string -> result error (gmap string string)).
Context (iterate : gmap string string -> list (string * string)).

Lemma relayd_server_secret fl s :
  relayd_server read_file json_tokens iterate fl = inr s ->
  ac_jwtSecret (sv_auth s) = TrimSpace (rf_jwtSecret fl).
Proof using Type.
  unfold relayd_server. destruct (loadTokens _ _ _ _ _); [|done]. cbv zeta. case_decide; [done|].
  destruct (parseAllowedPorts _); [|done]. by intros [= <-].
Qed.

(** C24: a desktop in relay mode can always log in.  When the operator and the
    relay are started with the same signing secret, every reconcile that ensures
    the secret of a desktop leaves a token in it with which the agent that the
    controller puts into the pod is configured, and with which the relay, for
    the next ten minutes, registers that agent under the desktop's own key and
    looks its data connections up; the hash that rolls the pod is the one of
    that token.  The stored token is only assumed genuine (signed with this
    secret for this desktop, expiring as recorded), and the reconcile keeps it
    so.  (The lifetime exceeds ten minutes, the operator's clock does not go
    back, no date passes the year 9999.) *)
Theorem relay_admits_desktop env f fl s d labels tr sha now :
  JwtLibrary sign parse ->
  let r := operator_desktop env f in
  let key := m_Namespace (d_Meta d) +:+ "/" +:+ m_Name (d_Meta d) in
  let secret := relay_jwt_secret env in
  relayd_server read_file json_tokens iterate fl = inr s -> TrimSpace (rf_jwtSecret fl) = secret ->
  relay_configured r = true -> TrimSpace key = key ->
  exec (ensureDesktopRelaySecret sign r d labels key) tr (Ok sha) -> kept relay_kept tr ->
  head (omap time_read tr) = Some now -> 10 * minute < relay_jwt_ttl f ->
  (forall n, n ∈ omap time_read tr -> now <= n /\ 0 <= n /\ n + relay_jwt_ttl f < four_digit_years) ->
  (forall stored, Obs (Fetch KSecret (m_Namespace (d_Meta d)) (relay_secret_name d)) (Ok (Some stored)) ∈ tr ->
     genuine sign secret key (sec_Data stored)) ->
  exists s' w cf,
    Obs (Write KSecret s') (Ok w) ∈ tr /\ genuine sign secret key (sec_Data s')
    /\ agent_configure (pod_tunnel_flags r d (sec_Data s')) = Ok cf
    /\ rm_Key (cf_register cf) = key /\ sha = sha256Hex (rm_Token (cf_register cf))
    /\ forall c, admits parse json_register json_hello s key (rm_Token (cf_register cf)) (now + 10 * minute) c.
Proof using Type.
  intros Hjwt r key secret Hs Hsec Hr Hk H Hkept Hnow Httl Htime Hstored.
  pose proof (relayd_server_secret _ _ Hs) as Hauth. rewrite Hsec in Hauth.
  assert (Hne : secret <> "").
  { unfold relay_configured in Hr. rewrite !andb_true_iff, !bool_decide_eq_true in Hr. tauto. }
  assert (Hkne : key <> "") by (subst key; by destruct (m_Namespace (d_Meta d))).
  assert (Hl : relay_ttl r = relay_jwt_ttl f).
  { unfold relay_ttl. cbn. pose proof (relay_jwt_ttl_pos f). by destruct (Z.leb_spec (relay_jwt_ttl f) 0); [lia|]. }
  assert (Hm : 0 < minute) by done.
  destruct (ensure_relay_data _ _ _ _ _ _ _ _ H Hkept Hnow) as (cur & so & s' & w & tok & Hin & Hso & Hw & -> & Hch).
  assert (Hold : genuine sign secret key (sec_Data so)).
  { rewrite Hso. destruct cur as [stored|]; [by apply Hstored|]. intros t k Hv. by vm_compute in Hv. }
  pose proof (token_chosen_genuine sign parse r key now tr _ _ tok Hch Hold ltac:(lia)
    ltac:(intros n Hn; rewrite Hl; destruct (Htime n Hn); tauto)) as Hgen.
  destruct (relay_token_usable sign r key now tr _ _ tok jwt_token Hch ltac:(lia)
    ltac:(intros n Hn; rewrite Hl; by apply Htime)) as (Hval & _ & _).
  destruct (Hgen _ _ Hval) as (iat & exp & Hsign & Hexp). rewrite Hk in Hsign.
  destruct (pod_agent_configured r d _ _ _ Hr Hval ltac:(fold key; by rewrite Hk)) as (cf & Hcf & Hreg & _).
  exists s', w, cf. rewrite Hreg. cbn [rm_Key rm_Token]. fold key. split_and!; try done.
  intros c. by eapply admits_genuine.
Qed.
End whole.

(** * A rotated secret

    The controller keeps a stored token by its recorded expiry alone: after the
    signing secret of both programs has been changed it goes on handing out the
    token signed with the old one, which the relay refuses, until ten minutes
    before that expiry. *)
Lemma rotation_locks_out sign parse r key now tr old new tok0 tok a vtr b :
  token_chosen sign r key now tr old new tok0 -> valid_token old now = Some tok ->
  ac_tokens a = ∅ -> (forall t, parse (jwt_key (ac_jwtSecret a)) tok t = None) ->
  exec (validate parse a key tok) vtr b ->
  valid_token new now = Some tok /\ b = false.
Proof.
  intros [[Hv ->]|[Hv _]] Hold Ha Hp H; [|congruence]. split; [by rewrite valid_token_key|].
  unfold validate in H. case_decide; [by destruct H|].
  apply exec_bind in H as (t1 & t2 & ok & -> & H1 & H2).
  assert (ok = false) as ->.
  { case_decide; [by destruct H1|]. unfold validateJWT in H1.
    apply exec_bind in H1 as (t3 & t4 & t & -> & H3%exec_trigger & H4). rewrite Hp in H4. by destruct H4. }
  destruct H2 as [-> ->]. unfold tokenMatches. rewrite Ha, lookup_empty. cbn.
  apply bool_decide_eq_false. by intros [? _].
Qed.

(** * Concrete inputs *)

(** Tokens of one desktop under one secret. *)
Definition demo_jwt_sign (sec sub : string) (iat exp : Z) : result error string :=
  if decide (sec = "s3cret" /\ sub = "ws/alice" /\ 0 <= exp < 2 ^ 63)
  then Ok ("t" +:+ Itoa (exp / second * second)) else Err (Errorf "" []).
Definition demo_jwt_parse (kf : string -> option string) (tok : string) (now : Z)
    : option (string * option Z) :=
  match tok with
  | String _ r =>
      exp ← Atoi r;
      if decide (kf "HS256" = Some "s3cret" /\ now < exp) then Some ("ws/alice", Some exp) else None
  | EmptyString => None
  end.

Lemma demo_jwt_library : JwtLibrary demo_jwt_sign demo_jwt_parse.
Proof.
  split.
  - intros sec sub iat exp tok. unfold demo_jwt_sign. case_decide; [|done]. intros [= <-]. split; [|done].
    apply TrimSpace_solid. cbn. constructor; [split; vm_compute; [lia | done] | apply Itoa_solid].
  - intros kf sec sub iat exp tok now. unfold demo_jwt_sign. case_decide as H; [|done].
    destruct H as (-> & -> & H). intros [= <-] Hkf Hnow. unfold demo_jwt_parse.
    pose proof (Z.div_mod exp second ltac:(done)). pose proof (Z.mod_pos_bound exp second ltac:(done)).
    cbv beta iota zeta delta [String.append]. rewrite Atoi_Itoa by (unfold int64_range, second in *; lia). cbn [mbind option_bind]. by rewrite decide_True.
Qed.

Definition demo_env (k : string) : string :=
  if decide (k = "DESKTOP_RELAY_JWT_SECRET") then " s3cret" else
  if decide (k = "DESKTOP_RELAYD_CONTROL_ADDR") then "relay:7443" else
  if decide (k = "DESKTOP_RELAYD_DATA_ADDR") then "relay:7444" else
  if decide (k = "WS_RELAYD_JWT_SECRET") then "s3cret " else "".
Definition demo_tokens (_ : string) : result error (gmap string string) := Err (Errorf "" []).
Definition demo_server : rserver := {|
  sv_auth := {| ac_tokens := ∅; ac_jwtSecret := "s3cret" |}; sv_allowedPorts := {[2222]} |}.

Definition login_run :=
  run (echo_world 1 (fun _ _ _ => Err NotFound) (fun _ => []) (fun _ => Err (Errorf "" [])))
    (ensureDesktopRelaySecret demo_jwt_sign (operator_desktop demo_env (default_flags demo_env))
       (demo_desktop "relay" 0 ∅ None) ∅ "ws/alice") tt.
Definition login_token : string := "t" +:+ Itoa (86400 * second).

(** A secret found by a call. *)
Definition found_secret (o : kobs) : option Secret :=
  match o with
  | Obs e x => match e in eff X return X -> option Secret with
               | Fetch k _ _ =>
                   match k return result kerr (option (obj k)) -> option Secret with
                   | KSecret => fun r => match r with Ok (Some s) => Some s | _ => None end
                   | _ => fun _ => None
                   end
               | _ => fun _ => None
               end x
  end.
Lemma login_run_first : Forall (fun o => found_secret o = None) login_run.1.2.
Proof. apply run_forall. intros X e w. destruct e as [| | | | |k| | | | | | | |]; try done; by destruct k. Qed.

Lemma relay_admits_desktop_witness : exists s' w cf,
  Obs (Write KSecret s') (Ok w) ∈ login_run.1.2
  /\ agent_configure (pod_tunnel_flags (operator_desktop demo_env (default_flags demo_env))
                        (demo_desktop "relay" 0 ∅ None) (sec_Data s')) = Ok cf
  /\ (fun s => sec_Data s !! "token") <$> omap (written KSecret) login_run.1.2 = [Some login_token]
  /\ forall c, admits demo_jwt_parse (fun _ => Some {| rm_Key := "ws/alice"; rm_Token := login_token |})
                (fun _ => None) demo_server "ws/alice" (rm_Token (cf_register cf)) (1 + 10 * minute) c.
Proof.
  destruct (relay_admits_desktop demo_jwt_sign demo_jwt_parse
    (fun _ => Some {| rm_Key := "ws/alice"; rm_Token := login_token |}) (fun _ => None)
    (fun _ => Err (Errorf "" [])) demo_tokens (fun _ => []) demo_env (default_flags demo_env)
    (relayd_default_flags demo_env) demo_server (demo_desktop "relay" 0 ∅ None) ∅ login_run.1.2
    (sha256Hex login_token) 1 demo_jwt_library) as (s' & w & cf & Hw & _ & Hcf & _ & _ & Hadm).
  - vm_compute. reflexivity.
  - vm_compute. reflexivity.
  - vm_compute. reflexivity.
  - vm_compute. reflexivity.
  - assert (He : login_run.1.1 = Ok (sha256Hex login_token)) by (vm_compute; reflexivity).
    rewrite <- He. apply run_is_exec.
  - apply echo_kept. by intros [].
  - vm_compute. reflexivity.
  - vm_compute. reflexivity.
  - assert (Ht : omap time_read login_run.1.2 = [1; 1]) by (vm_compute; reflexivity).
    rewrite Ht. intros n Hn. rewrite !elem_of_cons, elem_of_nil in Hn.
    destruct Hn as [->|[->|[]]]; split_and!; try lia; vm_compute; reflexivity.
  - intros stored Hin. pose proof login_run_first as Hf. rewrite list.Forall_forall in Hf. by specialize (Hf _ Hin).
  - exists s', w, cf. split_and!; [exact Hw | exact Hcf | vm_compute; reflexivity | exact Hadm].
Defined.
