(* ===== verification/Access.v ===== *)
(** The ways to a desktop, end to end: the host that [wsctl ssh-config] writes
    (SshConfig), [wsctl proxy] and [ws-proxy] (WsProxy), [ws-relay] (RelayClients)
    and the Service and the activity of the Desktop controller (Desktop). *)
From S2P Require Export WsProxy GoTime.
From S2P Require Desktop RelayClients Wsctl.
From stdpp Require Import options.
Open Scope Z_scope.

(** A name without dots and blanks, as the API server admits for the objects
    these hosts are made of. *)
Definition plain_name (n : string) : Prop := n <> "" /\ Forall solid (s2l n) /\ (byte 46 ∉ s2l n).

Lemma plain_trim n : plain_name n -> TrimSpace n = n.
Proof. intros (_ & Hs & _). by apply TrimSpace_solid. Qed.

Lemma solid_no_blank s : Forall solid (s2l s) -> ContainsAny s (l2s [byte 32; byte 9; byte 13; byte 10]) = false.
Proof.
  intros Hs. destruct (ContainsAny _ _) eqn:Hc; [|done]. apply ContainsAny_spec in Hc as (c & Hc & Hin).
  rewrite list.Forall_forall in Hs. apply Hs in Hc as [_ Hb]. rewrite s2l_l2s in Hin. exfalso. revert Hb.
  repeat (apply elem_of_cons in Hin as [->|Hin]; [by vm_compute|]). by apply not_elem_of_nil in Hin.
Qed.

(** ** Hosts *)

Lemma service_part n : byte 46 ∉ s2l n -> byte 46 ∉ s2l ("desktop-" +:+ n +:+ "-ssh").
Proof.
  intros Hn. rewrite !s2l_app, !not_elem_of_app. split; [by apply (bool_decide_unpack _)|].
  split; [done | by apply (bool_decide_unpack _)].
Qed.

Lemma parse_service svc ns cd : byte 46 ∉ s2l svc -> byte 46 ∉ s2l ns ->
  parseServiceHost (with_domain (svc +:+ "." +:+ ns) cd) = Ok (svc, ns).
Proof.
  intros Hs Hn. unfold parseServiceHost, with_domain. case_decide.
  - replace ((svc +:+ "." +:+ ns) +:+ ".svc." +:+ cd) with (svc +:+ String (byte 46) (ns +:+ String (byte 46) ("svc." +:+ cd))).
    + by rewrite !Split_app.
    + apply s2l_inj. rewrite !s2l_app. cbn [s2l]. by rewrite !s2l_app, <- !app_assoc.
  - change (svc +:+ "." +:+ ns) with (svc +:+ String (byte 46) ns). by rewrite Split_app, Split_none.
Qed.

Lemma host_text n ns : "desktop-" +:+ n +:+ "-ssh" +:+ "." +:+ ns = ("desktop-" +:+ n +:+ "-ssh") +:+ "." +:+ ns.
Proof. apply s2l_inj. rewrite !s2l_app. by rewrite <- !app_assoc. Qed.

Lemma friendly_prefix prefix n : plain_name n -> friendly_name (prefix +:+ n) prefix = n.
Proof.
  intros (Hne & _ & Hd). unfold friendly_name. case_bool_decide as Hp; cbn [andb].
  - rewrite (proj2 (HasPrefix_spec _ _)) by by exists n. by rewrite TrimPrefix_app, Trim_none.
  - destruct (decide (prefix = "")) as [->|?]; [by rewrite Trim_none | tauto].
Qed.

(** The host of the ssh configuration leads to the Service of the desktop. *)
Definition host_of (d : Desktop) (host : string) : Prop :=
  (exists cd, host = ssh_host cd d)
  \/ exists prefix cd, Forall solid (s2l prefix) /\ (byte 46 ∉ s2l prefix)
       /\ resolveDesktopServiceHost (prefix +:+ m_Name (d_Meta d)) (m_Namespace (d_Meta d)) prefix cd = Ok host.

Lemma resolved_host d prefix cd : plain_name (m_Name (d_Meta d)) -> plain_name (m_Namespace (d_Meta d)) ->
  is_service_name (m_Name (d_Meta d)) = false -> Forall solid (s2l prefix) -> byte 46 ∉ s2l prefix ->
  resolveDesktopServiceHost (prefix +:+ m_Name (d_Meta d)) (m_Namespace (d_Meta d)) prefix cd
  = checked_host "invalid computed service host" (ssh_host (normalizeClusterDomain cd) d).
Proof.
  intros Hn Hns Hsvc Hps Hpd. pose proof Hn as (Hne & Hsol & Hdot). pose proof Hns as (Hnse & _ & _).
  unfold resolveDesktopServiceHost.
  assert (Hhs : Forall solid (s2l (prefix +:+ m_Name (d_Meta d)))) by (rewrite s2l_app; by apply list.Forall_app).
  rewrite (TrimSpace_solid _ Hhs), (solid_no_blank _ Hhs). rewrite decide_False; cycle 1.
  { intros He. apply (f_equal s2l) in He. rewrite s2l_app in He. apply app_eq_nil in He as [_ He].
    by apply Hne, s2l_nil. }
  cbv zeta. rewrite Split_none by (rewrite s2l_app; by apply not_elem_of_app). cbn [lookup list_lookup length].
  rewrite decide_False by (intros [Hlt _]; lia). unfold default, from_option, id.
  rewrite (friendly_prefix _ _ Hn), Hsvc, (plain_trim _ Hns), !decide_False by done.
  unfold ssh_host. by rewrite host_text.
Qed.

Lemma host_service d host : plain_name (m_Name (d_Meta d)) -> plain_name (m_Namespace (d_Meta d)) ->
  is_service_name (m_Name (d_Meta d)) = false -> host_of d host ->
  parseServiceHost host = Ok (Desktop.ssh_name d, m_Namespace (d_Meta d)).
Proof.
  intros Hn Hns Hsvc Hh. pose proof Hn as (_ & _ & Hdot). pose proof Hns as (_ & _ & Hnsdot).
  assert (Hcd : forall cd, parseServiceHost (ssh_host cd d) = Ok (Desktop.ssh_name d, m_Namespace (d_Meta d))).
  { intros cd. unfold ssh_host, Desktop.ssh_name. rewrite host_text.
    apply (parse_service _ _ cd); [by apply service_part | done]. }
  destruct Hh as [(cd & ->)|(prefix & cd & Hps & Hpd & Hr)]; [done|].
  rewrite resolved_host in Hr by done. unfold checked_host in Hr.
  destruct (ValidateExactHostname _); [|done]. by injection Hr as <-.
Qed.

(** ** Sessions *)

Lemma touched_desktop n svc : plain_name n ->
  (forall s, svc = Some s -> ks_Labels s !! labelDesktop = None \/ ks_Labels s !! labelDesktop = Some n) ->
  service_desktop ("desktop-" +:+ n +:+ "-ssh") svc = n.
Proof.
  intros Hn Hl. pose proof Hn as (Hne & _ & _). unfold service_desktop.
  assert (Hlab : TrimSpace match svc with Some s => default "" (ks_Labels s !! labelDesktop) | None => "" end = n
    \/ TrimSpace match svc with Some s => default "" (ks_Labels s !! labelDesktop) | None => "" end = "").
  { destruct svc as [s|]; [|by right]. destruct (Hl s eq_refl) as [->| ->]; [by right | left; by apply plain_trim]. }
  change "workspaces.platform.dev/desktop" with labelDesktop.
  replace (TrimSpace match svc with Some s => default "" (ks_Labels s !! labelDesktop) | None => "" end)
    with (match svc with Some s => TrimSpace (default "" (ks_Labels s !! labelDesktop)) | None => "" end) in Hlab by by destruct svc.
  case_decide as Hd; [by destruct Hlab|].
  rewrite (proj2 (HasPrefix_spec _ _)) by by exists (n +:+ "-ssh").
  rewrite (proj2 (HasSuffix_spec _ _)); cycle 1.
  { exists ("desktop-" +:+ n). apply s2l_inj. rewrite !s2l_app. by rewrite <- !app_assoc. }
  assert (Hlen : (0 < length (s2l n))%nat).
  { destruct (s2l n) eqn:E; [by apply s2l_nil in E | cbn; lia]. }
  rewrite !str_length_app, <- (s2l_length n). change (String.length "desktop-") with 8%nat. change (String.length "-ssh") with 4%nat.
  rewrite (proj2 (Nat.ltb_lt _ _)) by lia. cbn [andb].
  unfold str_take, str_drop. rewrite s2l_l2s, !s2l_app.
  change (drop 8 (s2l "desktop-" ++ s2l n ++ s2l "-ssh")) with (s2l n ++ s2l "-ssh"). replace (8 + (length (s2l n) + 4) - 4 - 8)%nat with (length (s2l n)) by lia.
  by rewrite take_app_length, l2s_s2l.
Qed.

Section session.
Context (d : Desktop) (t : list pobs).
Let n := m_Name (d_Meta d).
Let ns := m_Namespace (d_Meta d).

(** The calls of a session are about the desktop's Service and the desktop. *)
Definition session_rule (o : pobs) : Prop :=
  match o with
  | Obs (PGetService ns' svc) _ => ns' = ns /\ svc = Desktop.ssh_name d
  | Obs (PPatchDesktop ns' n' ts) _ =>
      ns' = ns /\ n' = n /\ exists now, Obs PNow now ∈ t /\ ts = format_rfc3339nano now
  | _ => True
  end.
Definition labelled (svc : kservice) : Prop :=
  ks_Labels svc !! labelDesktop = None \/ ks_Labels svc !! labelDesktop = Some n.
Context (Hn : plain_name n).
Context (Hlab : forall svc, Obs (PGetService ns (Desktop.ssh_name d)) (Ok svc) ∈ t -> labelled svc).

Notation ruled := (safe (fun o => o ∈ t) session_rule).

Lemma touch_ruled dyn svc : labelled svc ->
  ruled (touchDesktop dyn ns (Desktop.ssh_name d) (Some svc)) (fun _ => True).
Proof using Hn.
  intros Hl. unfold touchDesktop. destruct dyn; [cbn [negb]|by apply safe_ret]. cbv zeta.
  unfold Desktop.ssh_name. rewrite (touched_desktop _ _ Hn) by (by intros s [= <-]).
  case_decide; [by apply safe_ret|].
  apply (safe_bind _ _ _ _ (fun now => Obs PNow now ∈ t)); [by apply safe_trigger|].
  intros now Hnow. apply safe_trigger. intros x _. split; [|done]. split_and!; [done..|]. by exists now.
Qed.

Lemma beats_ruled beat k : ruled beat (fun _ => True) -> ruled (heartbeats beat k) (fun _ => True).
Proof using Type.
  intros Hb. induction k as [|k IH]; [by apply safe_ret|]. by apply (safe_bind _ _ _ _ (fun _ => True)).
Qed.

Lemma proxyOnce_ruled pod port every beat : ruled beat (fun _ => True) ->
  ruled (proxyOnce ns pod port every beat) (fun _ => True).
Proof using Type.
  intros Hb. unfold proxyOnce.
  repeat (cbv zeta; match goal with
  | |- safe _ _ (heartbeats _ _) _ => by apply beats_ruled
  | |- safe _ _ (mret _) _ => by apply safe_ret
  | |- safe _ _ (trigger _) _ => by apply safe_trigger
  | |- safe _ _ (_ ≫= _) _ => apply (safe_bind _ _ _ _ (fun _ => True)); [|intros ? _]
  | |- safe _ _ (match ?x with _ => _ end) _ => destruct x
  end).
Qed.

Lemma session_ruled env f port svc pod : labelled svc ->
  ruled (proxy_session env f ns (Desktop.ssh_name d) port svc pod) (fun _ => True).
Proof using Hn.
  intros Hl. unfold proxy_session, pfail.
  apply (safe_bind _ _ _ _ (fun _ => True)); [by apply safe_trigger|]. intros dyn _.
  apply (safe_bind _ _ _ _ (fun _ => True)); [by apply touch_ruled|]. intros _ _.
  destruct (if wf_targetPort f =? 0 then _ else _); [|calls].
  apply (safe_bind _ _ _ _ (fun _ => True)); [by apply proxyOnce_ruled, touch_ruled|]. intros r _. calls.
Qed.

Lemma main_ruled env f host portStr :
  wf_namespace f = "" -> wf_service f = "" -> parseServiceHost host = Ok (Desktop.ssh_name d, ns) ->
  ruled (wsproxy_main env f [host; portStr]) (fun _ => True).
Proof using Hn Hlab.
  intros Hfn Hfs Hp. unfold wsproxy_main, pfail. destruct (Atoi portStr) as [port|]; [|calls].
  destruct (_ || _); [calls|]. unfold target_service. rewrite Hfn, Hfs, Hp. cbn [mbind result_bind].
  rewrite !decide_True by auto.
  apply (safe_bind _ _ _ _ (fun _ => True)); [by apply safe_trigger|]. intros cfg _. destruct cfg; [|calls].
  apply (safe_bind _ _ _ _ (fun _ => True)); [by apply safe_trigger|]. intros c _. destruct c; [|calls].
  apply (safe_bind _ _ _ _ (fun r => forall svc, r = Ok svc -> labelled svc)).
  { apply safe_trigger. intros r Hin. split; [done|]. intros svc ->. by apply Hlab. }
  intros [svc|e] Hsvc; [|calls]. specialize (Hsvc svc eq_refl). case_decide; [calls|].
  apply (safe_bind _ _ _ _ (fun _ => True)); [by apply safe_trigger|]. intros pods _. destruct pods as [pods|]; [|calls].
  destruct (pickReadyPod pods); [by apply session_ruled | calls].
Qed.
End session.

(** [ws-proxy] goes on to the pod: it asks for the Service unless it has no API
    client, lists the pods the Service selects, and forwards the port of the ready
    one it picks. *)
Definition leads_to_pod (d : Desktop) (f : wsproxy_flags) (port : Z) (t : list pobs) : Prop :=
  let ns := m_Namespace (d_Meta d) in
  (exists e, Obs PLoadConfig (Err e) ∈ t) \/ (exists e, Obs PNewClient (Err e) ∈ t)
  \/ exists found, Obs (PGetService ns (Desktop.ssh_name d)) found ∈ t
     /\ forall svc, found = Ok svc -> ks_Selector svc <> ∅ ->
        exists pods, Obs (PListPods ns (ks_Selector svc)) pods ∈ t
        /\ forall l pod remote, pods = Ok l -> pickReadyPod l = Ok pod ->
           (if wf_targetPort f =? 0 then resolveServiceTargetPort svc port pod else Ok (wf_targetPort f)) = Ok remote ->
           (exists e, Obs PDialer (Err e) ∈ t) \/ exists st, Obs (PForward ns (kp_Name pod) remote) st ∈ t.

Lemma proxyOnce_forwards ns pod port every beat t r : exec (proxyOnce ns pod port every beat) t r ->
  (exists e, Obs PDialer (Err e) ∈ t) \/ exists st, Obs (PForward ns pod port) st ∈ t.
Proof.
  unfold proxyOnce. intros (t1 & t2 & dl & -> & H1%exec_trigger & H)%exec_bind. subst t1.
  destruct dl as [u|e]; [right|left; exists e; by left].
  apply exec_bind in H as (t3 & t4 & st & -> & H3%exec_trigger & _). subst t3.
  exists st. right. by left.
Qed.

Lemma session_forwards env f ns name port svc pod t code remote :
  exec (proxy_session env f ns name port svc pod) t code ->
  (if wf_targetPort f =? 0 then resolveServiceTargetPort svc (wrap32 port) pod else Ok (wf_targetPort f)) = Ok remote ->
  (exists e, Obs PDialer (Err e) ∈ t) \/ exists st, Obs (PForward ns (kp_Name pod) remote) st ∈ t.
Proof.
  unfold proxy_session. intros (t1 & t2 & dyn & -> & _ & H)%exec_bind Hr.
  apply exec_bind in H as (t3 & t4 & u & -> & _ & H). rewrite Hr in H.
  apply exec_bind in H as (t5 & t6 & x & -> & H5%proxyOnce_forwards & _).
  setoid_rewrite elem_of_app. setoid_rewrite elem_of_app. setoid_rewrite elem_of_app.
  destruct H5 as [[e ?]|[st ?]]; [left; exists e | right; exists st]; tauto.
Qed.

Lemma main_leads d env f host portStr port t code :
  wf_namespace f = "" -> wf_service f = "" ->
  parseServiceHost host = Ok (Desktop.ssh_name d, m_Namespace (d_Meta d)) ->
  Atoi portStr = Some port -> 0 < port <= 65535 ->
  exec (wsproxy_main env f [host; portStr]) t code -> leads_to_pod d f port t.
Proof.
  intros Hfn Hfs Hp Ha Hport H. unfold wsproxy_main in H. rewrite Ha in H.
  rewrite (proj2 (Z.leb_gt _ _)), (proj2 (Z.ltb_ge _ _)) in H by lia. cbn [orb] in H.
  unfold target_service in H. rewrite Hfn, Hfs, Hp in H. cbn [mbind result_bind] in H.
  rewrite !decide_True in H by auto. unfold leads_to_pod.
  apply exec_bind in H as (t1 & t2 & cfg & -> & H1%exec_trigger & H). subst t1.
  destruct cfg as [u|e]; [right|left; exists e; by left].
  apply exec_bind in H as (t1 & t3 & c & -> & H1%exec_trigger & H). subst t1.
  destruct c as [v|e]; [right|left; exists e; right; by left].
  apply exec_bind in H as (t1 & t4 & found & -> & H1%exec_trigger & H). subst t1.
  exists found. split; [right; right; by left|]. intros svc -> Hsel. rewrite decide_False in H by done.
  apply exec_bind in H as (t1 & t5 & pods & -> & H1%exec_trigger & H). subst t1.
  exists pods. split; [right; right; right; by left|]. intros l pod remote -> Hpick Hr. rewrite Hpick in H.
  rewrite <- (wrap32_id port) in Hr by (unfold int32_range; lia).
  destruct (session_forwards _ _ _ _ _ _ _ _ _ _ H Hr) as [[e ?]|[st ?]]; [left; exists e | right; exists st];
    cbn; by do 4 right.
Qed.

(** [WS_RELAY_KEY] of the agent that the Desktop controller puts into the pod. *)
Definition relay_key (r : Desktop.DesktopReconciler) (d : Desktop) : option string :=
  ev_Value <$> head (filter (fun v => ev_Name v = "WS_RELAY_KEY") (ct_Env (Desktop.relay_container r d))).

Lemma relay_host prefix d : plain_name (m_Name (d_Meta d)) -> Forall solid (s2l prefix) -> byte 46 ∉ s2l prefix ->
  match RelayClients.parseDesktopHost (prefix +:+ m_Name (d_Meta d)) (m_Namespace (d_Meta d)) prefix with
  | Ok (ns, n) => ns = m_Namespace (d_Meta d) /\ n = m_Name (d_Meta d)
  | Err _ => ValidateExactHostname (m_Name (d_Meta d) +:+ ".example") <> Ok tt
             \/ ValidateExactHostname (m_Namespace (d_Meta d) +:+ ".example") <> Ok tt
  end.
Proof.
  intros Hn Hps Hpd. pose proof Hn as (Hne & Hsol & Hdot). unfold RelayClients.parseDesktopHost.
  assert (Hhs : Forall solid (s2l (prefix +:+ m_Name (d_Meta d)))) by (rewrite s2l_app; by apply list.Forall_app).
  rewrite (TrimSpace_solid _ Hhs). rewrite decide_False; cycle 1.
  { intros He. apply (f_equal s2l) in He. rewrite s2l_app in He. apply app_eq_nil in He as [_ He].
    by apply Hne, s2l_nil. }
  change (" " +:+ l2s [byte 9; byte 13; byte 10]) with (l2s [byte 32; byte 9; byte 13; byte 10]).
  rewrite (solid_no_blank _ Hhs). cbv zeta.
  rewrite Split_none by (rewrite s2l_app; by apply not_elem_of_app). cbn [lookup list_lookup].
  unfold default, from_option, id.
  assert (Hname : Trim (if decide (prefix <> "") then TrimPrefix (prefix +:+ m_Name (d_Meta d)) prefix
    else prefix +:+ m_Name (d_Meta d)) (byte 46) = m_Name (d_Meta d)).
  { destruct (decide (prefix <> "")) as [Hp|Hp]; [rewrite TrimPrefix_app; by apply Trim_none|].
    destruct (decide (prefix = "")) as [->|?]; [by apply Trim_none | tauto]. }
  rewrite Hname, decide_False by done.
  destruct (ValidateExactHostname _); [|by left]. destruct (ValidateExactHostname _); [done | by right].
Qed.

(** A desktop whose annotation has a time of the clock was active then, and is not
    suspended for idleness before its timeout. *)
Lemma active_stays d now later : 0 <= now < four_digit_years ->
  m_Annotations (d_Meta d) !! Desktop.annotationLastActiveAt = Some (format_rfc3339nano now) ->
  ds_Suspended (d_Spec d) = false -> time_sub later now < seconds (ds_IdleTimeoutSeconds (d_Spec d)) ->
  Desktop.last_active d = Some now /\ Desktop.should_suspend d (Desktop.last_active d) later = false.
Proof.
  intros Htime Ha Hsus Hidle.
  assert (Hl : Desktop.last_active d = Some now).
  { unfold Desktop.last_active. rewrite Ha.
    unfold default, from_option, id. rewrite format_trimmed. case_decide as He.
    { exfalso. pose proof (parse_format now Htime) as Hpf. by rewrite He in Hpf. }
    by apply parse_format. }
  split; [done|]. rewrite Hl. unfold Desktop.should_suspend. rewrite Hsus. cbn [orb].
  rewrite (proj2 (Z.leb_gt _ _)) by lia. apply andb_false_r.
Qed.

(** [wsctl desktop resume] wakes a desktop for good: what it writes counts as
    active at that moment, however long the desktop had been idle; [suspend]
    keeps it suspended at any time. *)
Lemma resume_wakes d now later : 0 <= now < four_digit_years ->
  time_sub later now < seconds (ds_IdleTimeoutSeconds (d_Spec d)) ->
  Desktop.should_suspend (Wsctl.set_suspended false now d)
    (Desktop.last_active (Wsctl.set_suspended false now d)) later = false
  /\ forall last t, Desktop.should_suspend (Wsctl.set_suspended true now d) last t = true.
Proof.
  intros Htime Hidle. split; [|done]. apply (active_stays _ now); [done | | done | done].
  cbn. apply lookup_insert_eq.
Qed.

(** C37: All ways lead to the same desktop.  Let the name and the namespace of a
    desktop have no dots, and the name not look like that of a Service.  [wsctl
    proxy] computes from its prefixed name the host that [wsctl ssh-config] writes
    for it, where that is a valid host name.  From this host and a valid port
    [ws-proxy] asks for the Service the Desktop controller makes for the desktop,
    and for no other, unless it has no API client, and forwards the port of a
    ready pod among those the Service selects; if the Service has the label of the
    controller or none, every heartbeat is for this desktop, with a time of the
    clock that the controller reads back, so that the desktop is not suspended for
    idleness until its timeout has passed.  [ws-relay] computes from the prefixed
    name the key under which the controller lets the desktop's agent register,
    where name and namespace are valid. *)
Theorem ssh_reaches_desktop d r host prefix env f portStr t code :
  plain_name (m_Name (d_Meta d)) -> plain_name (m_Namespace (d_Meta d)) ->
  is_service_name (m_Name (d_Meta d)) = false ->
  Forall solid (s2l prefix) -> byte 46 ∉ s2l prefix ->
  host_of d host -> wf_namespace f = "" -> wf_service f = "" ->
  exec (wsproxy_main env f [host; portStr]) t code ->
  (forall svc, Obs (PGetService (m_Namespace (d_Meta d)) (Desktop.ssh_name d)) (Ok svc) ∈ t -> labelled d svc) ->
  (forall now, Obs PNow now ∈ t -> 0 <= now < four_digit_years) ->
  (forall cd, ValidateExactHostname (ssh_host (normalizeClusterDomain cd) d) = Ok tt ->
     resolveDesktopServiceHost (prefix +:+ m_Name (d_Meta d)) (m_Namespace (d_Meta d)) prefix cd
     = Ok (ssh_host (normalizeClusterDomain cd) d))
  /\ (forall port, Atoi portStr = Some port -> 0 < port <= 65535 -> leads_to_pod d f port t)
  /\ (forall ns svc x, Obs (PGetService ns svc) x ∈ t -> ns = m_Namespace (d_Meta d) /\ svc = Desktop.ssh_name d)
  /\ (forall ns n ts x, Obs (PPatchDesktop ns n ts) x ∈ t ->
        ns = m_Namespace (d_Meta d) /\ n = m_Name (d_Meta d)
        /\ exists now, Obs PNow now ∈ t /\ forall d' later,
             m_Annotations (d_Meta d') !! Desktop.annotationLastActiveAt = Some ts ->
             ds_Suspended (d_Spec d') = false -> time_sub later now < seconds (ds_IdleTimeoutSeconds (d_Spec d')) ->
             Desktop.last_active d' = Some now /\ Desktop.should_suspend d' (Desktop.last_active d') later = false)
  /\ match RelayClients.parseDesktopHost (prefix +:+ m_Name (d_Meta d)) (m_Namespace (d_Meta d)) prefix with
     | Ok (ns, n) => relay_key r d = Some (ns +:+ "/" +:+ n)
     | Err _ => ValidateExactHostname (m_Name (d_Meta d) +:+ ".example") <> Ok tt
                \/ ValidateExactHostname (m_Namespace (d_Meta d) +:+ ".example") <> Ok tt
     end.
Proof.
  intros Hn Hns Hsvc Hps Hpd Hh Hfn Hfs Hx Hlab Htime.
  pose proof (host_service _ _ Hn Hns Hsvc Hh) as Hp.
  destruct (main_ruled d t Hn Hlab env f host portStr Hfn Hfs Hp t code Hx) as [HQ _]; [by apply list.Forall_forall|].
  rewrite list.Forall_forall in HQ. split_and!.
  - intros cd Hv. rewrite resolved_host by done. unfold checked_host. by rewrite Hv.
  - intros port Ha Hport. by eapply main_leads.
  - intros ns svc x Hin. exact (HQ _ Hin).
  - intros ns n ts x Hin. destruct (HQ _ Hin) as (-> & -> & now & Hnow & ->). split_and!; [done..|].
    exists now. split; [done|]. intros d' later Ha Hsus Hidle. apply active_stays; [by apply Htime | done..].
  - pose proof (relay_host prefix d Hn Hps Hpd) as Hr.
    destruct (RelayClients.parseDesktopHost _ _ _) as [[ns n]|e]; [|done]. by destruct Hr as [-> ->].
Qed.

(** The condition on the name is needed: the friendly host of a desktop called like
    a Service leads to another desktop, the one the Service is of. *)
Example friendly_name_shadowed :
  resolveDesktopServiceHost "desk-desktop-bob-ssh" "desktops" "desk-" ""
    = resolveDesktopServiceHost "desk-bob" "desktops" "desk-" "".
Proof. vm_compute. done. Qed.

(** * A session *)

Definition demo_kservice : kservice := {|
  ks_Labels := {[labelDesktop := "alice"]}; ks_Selector := {[labelDesktop := "alice"]};
  ks_Ports := [(2222, 0, "ssh")] |}.
Definition demo_kpod : kpod := {|
  kp_Name := "desktop-alice-0"; kp_Deleting := false; kp_Phase := "Running"; kp_Conditions := [("Ready", "True")];
  kp_Ports := [[("ssh", 2222)]] |}.
Definition proxy_world (X : Type) (e : peff X) : unit -> X * unit :=
  match e in peff T return unit -> T * unit with
  | PErr _ | PStop => fun u => (tt, u)
  | PLoadConfig | PNewClient | PDialer | PDial _ | PPatchDesktop _ _ _ => fun u => (Ok tt, u)
  | PGetService _ _ => fun u => (Ok demo_kservice, u)
  | PListPods _ _ => fun u => (Ok [demo_kpod], u)
  | PDynamic => fun u => (true, u)
  | PNow => fun u => (738944 * day, u)
  | PForward _ _ _ => fun u => (FReady, u)
  | PGetPorts => fun u => (Ok [40123], u)
  | PCopy _ => fun u => (1%nat, u)
  end.
Definition demo_session : pprog Z :=
  wsproxy_main (fun _ => "") {| wf_namespace := ""; wf_service := ""; wf_targetPort := 0 |} ["desktop-alice-ssh.ws"; "2222"].
Definition demo_session_run : Z * list pobs * unit := run proxy_world demo_session tt.
Definition patched_desktop (o : pobs) : option (string * string * string) :=
  match o with Obs (PPatchDesktop ns n ts) _ => Some (ns, n, ts) | _ => None end.

Example demo_session_ex : demo_session_run.1.1 = 0
  /\ omap patched_desktop demo_session_run.1.2
     = [("ws", "alice", "2024-02-29T00:00:00Z"); ("ws", "alice", "2024-02-29T00:00:00Z")].
Proof. vm_compute. done. Qed.

Definition alice : Desktop := Desktop.demo_desktop "" 600 ∅ None.

Lemma ssh_reaches_desktop_witness :
  relay_key Desktop.demo_reconciler alice = Some "ws/alice"
  /\ leads_to_pod alice {| wf_namespace := ""; wf_service := ""; wf_targetPort := 0 |} 2222 demo_session_run.1.2
  /\ forall ns n ts x, Obs (PPatchDesktop ns n ts) x ∈ demo_session_run.1.2 -> ns = "ws" /\ n = "alice".
Proof.
  assert (Hplain : plain_name "alice" /\ plain_name "ws").
  { split; (split; [done | split; [|by apply (bool_decide_unpack _)]]); repeat constructor; vm_compute; lia. }
  assert (Hprefix : Forall solid (s2l "desk-")) by (repeat constructor; vm_compute; lia).
  assert (Hrun : Forall (fun o : pobs => match o with
      | Obs e x => match e in peff T return T -> Prop with
                   | PGetService _ _ => fun r => forall svc, r = Ok svc -> labelled alice svc
                   | PNow => fun now => 0 <= now < four_digit_years
                   | _ => fun _ => True
                   end x end) demo_session_run.1.2).
  { apply run_forall. intros X e w. destruct e; try exact I.
    - intros svc [= <-]. right. reflexivity.
    - vm_compute. split; congruence. }
  rewrite list.Forall_forall in Hrun.
  destruct (ssh_reaches_desktop alice Desktop.demo_reconciler "desktop-alice-ssh.ws" "desk-" (fun _ => "")
    {| wf_namespace := ""; wf_service := ""; wf_targetPort := 0 |} "2222" demo_session_run.1.2 demo_session_run.1.1
    (proj1 Hplain) (proj2 Hplain) eq_refl Hprefix) as (_ & Hlead & _ & Htouch & Hrelay).
  - by apply (bool_decide_unpack _).
  - left. by exists "".
  - done.
  - done.
  - exact (run_is_exec proxy_world demo_session tt).
  - intros svc Hin. exact (Hrun _ Hin svc eq_refl).
  - intros now Hin. exact (Hrun _ Hin).
  - split; [exact Hrelay|]. split; [apply Hlead; [reflexivity | lia]|]. intros ns n ts x Hin.
    destruct (Htouch ns n ts x Hin) as (-> & -> & _). done.
Defined.
