(* ===== verification/AuditLog.v ===== *)
(** The audit trail: the emitters of src/internal/audit/audit.go and the
    verifier of src/cmd/auditctl/main.go.

    Events go to one file per stream and day, a line per event, each line with
    the hash of the event and of the previous hash.  [encoding/json] is a
    parameter (marshalling a payload, reading a record back); the line the
    emitter writes for a record is spelled out, its strings being hexadecimal. *)
From S2P Require Export GoCrypto GoFlag.
From stdpp Require Import options.
Open Scope Z_scope.

Definition nl : ascii := byte 10.

(** * Records *)

Record fileAuditRecord := {
  ar_Seq : Z; ar_PrevHash : string; ar_Hash : string; ar_Event : list ascii;
}.

Record checkpointRecord := {
  cp_TS : string; cp_Component : string; cp_Stream : string; cp_File : string;
  cp_Seq : Z; cp_Hash : string; cp_Sig : string;
}.

#[global] Instance fileAuditRecord_eq_dec : EqDecision fileAuditRecord.
Proof. solve_decision. Defined.

Definition DQ : string := l2s [byte 34].

(** [json.Marshal(rec)]: the strings are hexadecimal and the event is the output
    of [json.Marshal], so nothing needs an escape. *)
Definition encode_record (r : fileAuditRecord) : list ascii :=
  s2l ("{" +:+ DQ +:+ "seq" +:+ DQ +:+ ":" +:+ Itoa (ar_Seq r) +:+ ","
       +:+ DQ +:+ "prev_hash" +:+ DQ +:+ ":" +:+ DQ +:+ ar_PrevHash r +:+ DQ +:+ ","
       +:+ DQ +:+ "hash" +:+ DQ +:+ ":" +:+ DQ +:+ ar_Hash r +:+ DQ +:+ ","
       +:+ DQ +:+ "event" +:+ DQ +:+ ":")
  ++ ar_Event r ++ s2l "}".

(** * The file emitter *)

Record Config := {
  cf_Stream : string; cf_Dir : string; cf_CheckpointEveryN : Z; cf_CheckpointEveryDuration : Z;
  cf_FsyncOnCheckpoint : bool; cf_HMACKey : list ascii;
}.

(** [fe_eventsF], [fe_checkF]: the paths of the open files. *)
Record fileEmitter := {
  fe_component : string; fe_stream : string; fe_dir : string;
  fe_checkEveryN : Z; fe_checkEveryDur : Z; fe_fsync : bool; fe_hmacKey : list ascii;
  fe_openDate : string; fe_eventsF : option string; fe_checkF : option string;
  fe_seq : Z; fe_prevHash : list ascii; fe_lastCheckpoint : Z;
}.

Inductive aeff : Type -> Type :=
| ANow : aeff Z
| AMkdirAll (dir : string) : aeff (result error unit)
(* os.OpenFile(path, O_CREATE|O_APPEND|O_WRONLY, 0600) *)
| AOpen (path : string) : aeff (result error unit)
| AClose (path : string) : aeff unit
| AWrite (path : string) (b : list ascii) : aeff (result error unit)
| ASync (path : string) : aeff unit
(* the contents of a file; None when it does not exist *)
| ARead (path : string) : aeff (result error (option (list ascii)))
| ALog (fmt : string) (args : list value) : aeff unit.

Notation aprog := (prog aeff).
Notation aobs := (obs aeff).

Definition zero_hash : list ascii := replicate 32 (byte 0).

(** [readLastJSONLLine(path, maxBytes)] on the contents of the file: [None] is
    [io.EOF].  Only the last [maxBytes] bytes are read, and the first line of
    the tail is dropped when it may be partial. *)
Definition readLastJSONLLine (content : option (list ascii)) (maxBytes : Z) : option (list ascii) :=
  match content with
  | None => None
  | Some f =>
      let size := Z.of_nat (length f) in
      if size =? 0 then None else
      let start := Z.max 0 (size - maxBytes) in
      let b := drop (Z.to_nat start) f in
      b ← (if 0 <? start then
             match index_byte nl b with Some i => Some (drop (S i) b) | None => None end
           else Some b);
      let b := TrimSpaceL b in
      if decide (b = []) then None else
      Some (match last_index_byte nl b with Some i => drop (S i) b | None => b end)
  end.

(** What [rotateLocked] needs of the last line of an events file; [None] is
    [io.EOF]. *)
Section emitter.
Context (json_Marshal : gmap string value -> result error (list ascii)).
Context (decode_record : list ascii -> result error fileAuditRecord).
Context (encode_checkpoint : checkpointRecord -> list ascii).

Definition readLastAuditState (content : option (list ascii))
    : result error (option (Z * list ascii)) :=
  match readLastJSONLLine content (4 * 2 ^ 20) with
  | None => Ok None
  | Some line =>
      rec ← decode_record line;
      if ar_Seq rec <? 0 then Err (Errorf "invalid seq in audit record" []) else
      match hex_decode (ar_Hash rec) with
      | Some hb => if decide (length hb = 32%nat) then Ok (Some (ar_Seq rec, hb))
                   else Err (Errorf "invalid hash in audit record" [])
      | None => Err (Errorf "invalid hash in audit record" [])
      end
  end.

Definition events_path (e : fileEmitter) (date : string) : string :=
  fe_dir e +:+ "/" +:+ "events-" +:+ fe_stream e +:+ "-" +:+ date +:+ ".jsonl".
Definition check_path (e : fileEmitter) (date : string) : string :=
  fe_dir e +:+ "/" +:+ "checkpoints-" +:+ fe_stream e +:+ "-" +:+ date +:+ ".jsonl".

Definition closeOpt (f : option string) : aprog unit :=
  match f with Some p => trigger (AClose p) | None => mret tt end.

(** The second half of [rotateLocked]: new files, the chain seeded from the
    events file. *)
Definition rotate (e : fileEmitter) (date : string) : aprog (fileEmitter * result error unit) :=
  _ ← closeOpt (fe_eventsF e);
  _ ← closeOpt (fe_checkF e);
  let eventsPath := events_path e date in
  let checkPath := check_path e date in
  ev ← trigger (AOpen eventsPath);
  match ev with
  | Err err => mret (e, Err err)
  | Ok _ =>
      ck ← trigger (AOpen checkPath);
      match ck with
      | Err err => _ ← trigger (AClose eventsPath); mret (e, Err err)
      | Ok _ =>
          content ← trigger (ARead eventsPath);
          match (c ← content; readLastAuditState c) with
          | Err err => _ ← trigger (AClose eventsPath); _ ← trigger (AClose checkPath); mret (e, Err err)
          | Ok last =>
              let '(seq, prevHash) := default (0, zero_hash) last in
              mret ({| fe_component := fe_component e; fe_stream := fe_stream e; fe_dir := fe_dir e;
                fe_checkEveryN := fe_checkEveryN e; fe_checkEveryDur := fe_checkEveryDur e;
                fe_fsync := fe_fsync e; fe_hmacKey := fe_hmacKey e; fe_openDate := date;
                fe_eventsF := Some eventsPath; fe_checkF := Some checkPath;
                fe_seq := seq; fe_prevHash := prevHash; fe_lastCheckpoint := 0 |}, Ok tt)
          end
      end
  end.

Definition rotateLocked (e : fileEmitter) (now : Z) : aprog (fileEmitter * result error unit) :=
  let date := format_date now in
  if decide (fe_openDate e = date /\ fe_eventsF e <> None /\ fe_checkF e <> None)
  then mret (e, Ok tt) else rotate e date.

Definition newFileEmitter (cfg : Config) (component : string)
    : aprog (result error fileEmitter) :=
  mk ← trigger (AMkdirAll (cf_Dir cfg));
  match mk with
  | Err err => mret (Err err)
  | Ok _ =>
      now ← trigger ANow;
      '(e, r) ← rotateLocked {| fe_component := component; fe_stream := cf_Stream cfg;
        fe_dir := cf_Dir cfg; fe_checkEveryN := cf_CheckpointEveryN cfg;
        fe_checkEveryDur := cf_CheckpointEveryDuration cfg; fe_fsync := cf_FsyncOnCheckpoint cfg;
        fe_hmacKey := cf_HMACKey cfg; fe_openDate := ""; fe_eventsF := None; fe_checkF := None;
        fe_seq := 0; fe_prevHash := zero_hash; fe_lastCheckpoint := 0 |} now;
      mret (_ ← r; Ok e)
  end.

(** [filepath.Base] of a path that does not end in a slash. *)
Definition Base (path : string) : string :=
  match last_index_byte (byte 47) (s2l path) with
  | Some i => str_drop (S i) path
  | None => path
  end.

(** The string a checkpoint's signature covers. *)
Definition checkpoint_msg (component stream file : string) (seq : Z) (hash ts : string) : list ascii :=
  s2l (component +:+ "|" +:+ stream +:+ "|" +:+ file +:+ "|" +:+ Itoa seq +:+ "|" +:+ hash +:+ "|" +:+ ts).

Definition checkpoint_of (e : fileEmitter) (now : Z) : checkpointRecord :=
  let ts := format_rfc3339nano now in
  let file := Base (default "" (fe_eventsF e)) in
  let hash := hex_encode (fe_prevHash e) in
  {| cp_TS := ts; cp_Component := fe_component e; cp_Stream := fe_stream e; cp_File := file;
     cp_Seq := fe_seq e; cp_Hash := hash;
     cp_Sig := if decide (fe_hmacKey e = []) then "" else
       hex_encode (hmac_sha256 (fe_hmacKey e)
         (checkpoint_msg (fe_component e) (fe_stream e) file (fe_seq e) hash ts)) |}.

Definition writeCheckpointLocked (e : fileEmitter) (now : Z) : aprog fileEmitter :=
  w ← trigger (AWrite (default "" (fe_checkF e)) (encode_checkpoint (checkpoint_of e now) ++ [nl]));
  match w with
  | Err _ => mret e
  | Ok _ =>
      _ ← (if fe_fsync e then
             _ ← trigger (ASync (default "" (fe_eventsF e)));
             trigger (ASync (default "" (fe_checkF e)))
           else mret tt);
      mret {| fe_component := fe_component e; fe_stream := fe_stream e; fe_dir := fe_dir e;
        fe_checkEveryN := fe_checkEveryN e; fe_checkEveryDur := fe_checkEveryDur e;
        fe_fsync := fe_fsync e; fe_hmacKey := fe_hmacKey e; fe_openDate := fe_openDate e;
        fe_eventsF := fe_eventsF e; fe_checkF := fe_checkF e; fe_seq := fe_seq e;
        fe_prevHash := fe_prevHash e; fe_lastCheckpoint := now |}
  end.

(** The payload: the event's fields over the common ones. *)
Definition payload (component stream eventType : string) (now : Z) (fields : list (string * value))
    : gmap string value :=
  fold_left (fun m '(k, v) => <[k := v]> m) fields
    {["type" := VStr eventType; "ts" := VStr (format_rfc3339nano now);
      "component" := VStr component; "stream" := VStr stream]}.

(** The record of the next event. *)
Definition next_record (e : fileEmitter) (event : list ascii) : fileAuditRecord := {|
  ar_Seq := wrap64 (fe_seq e + 1); ar_PrevHash := hex_encode (fe_prevHash e);
  ar_Hash := hex_encode (sha256 (fe_prevHash e ++ event)); ar_Event := event |}.

Definition advance (e : fileEmitter) (event : list ascii) : fileEmitter := {|
  fe_component := fe_component e; fe_stream := fe_stream e; fe_dir := fe_dir e;
  fe_checkEveryN := fe_checkEveryN e; fe_checkEveryDur := fe_checkEveryDur e;
  fe_fsync := fe_fsync e; fe_hmacKey := fe_hmacKey e; fe_openDate := fe_openDate e;
  fe_eventsF := fe_eventsF e; fe_checkF := fe_checkF e; fe_seq := wrap64 (fe_seq e + 1);
  fe_prevHash := sha256 (fe_prevHash e ++ event); fe_lastCheckpoint := fe_lastCheckpoint e |}.

Definition need_checkpoint (e : fileEmitter) (now : Z) : bool :=
  ((0 <? fe_checkEveryN e) && (Z.rem (fe_seq e) (fe_checkEveryN e) =? 0))
  || ((0 <? fe_checkEveryDur e) && (fe_checkEveryDur e <=? time_sub now (fe_lastCheckpoint e))).

Definition fileEmit (e : fileEmitter) (eventType : string) (fields : list (string * value))
    : aprog fileEmitter :=
  now ← trigger ANow;
  '(e, r) ← rotateLocked e now;
  match r with
  | Err err => _ ← trigger (ALog "AUDIT rotate failed: %v" [err_value err]); mret e
  | Ok _ =>
      match json_Marshal (payload (fe_component e) (fe_stream e) eventType now fields) with
      | Err err => _ ← trigger (ALog "AUDIT marshal failed: %v" [err_value err]); mret e
      | Ok event =>
          w ← trigger (AWrite (default "" (fe_eventsF e)) (encode_record (next_record e event) ++ [nl]));
          match w with
          | Err err => _ ← trigger (ALog "AUDIT write failed: %v" [err_value err]); mret e
          | Ok _ =>
              let e := advance e event in
              if need_checkpoint e now then writeCheckpointLocked e now else mret e
          end
      end
  end.

(** * The emitter on standard output, and the choice of one *)

Inductive emitter :=
| StdoutEmitter (component stream : string)
| FileEmitter (e : fileEmitter).

Definition Emit (e : emitter) (eventType : string) (fields : list (string * value))
    : aprog emitter :=
  match e with
  | StdoutEmitter component stream =>
      now ← trigger ANow;
      _ ← (match json_Marshal (payload component stream eventType now fields) with
           | Err err => trigger (ALog "AUDIT marshal failed: %v" [err_value err])
           | Ok b => trigger (ALog "AUDIT %s" [VStr (l2s b)])
           end);
      mret e
  | FileEmitter f => f ← fileEmit f eventType fields; mret (FileEmitter f)
  end.

Definition audit_getenv (env : string -> string) (k def : string) : string :=
  if decide (env k <> "") then env k else def.
Definition stringsTrimLower (s : string) : string := ToLower (TrimSpace s).
Definition parseInt64 (raw : string) : option Z := ParseInt (TrimSpace raw) 64.

(** A setting that must be a positive integer. *)
Definition env_positive (env : string -> string) (k def : string) (dflt : Z) : result error Z :=
  let raw := audit_getenv env k def in
  if decide (raw = "") then Ok dflt else
  match parseInt64 raw with
  | Some n => if n <=? 0 then Err (Errorf (k +:+ " must be a positive integer") []) else Ok n
  | None => Err (Errorf (k +:+ " must be a positive integer") [])
  end.

(** The configuration of the file sink. *)
Definition file_config (env : string -> string) (stream : string) : result error Config :=
  let dir := audit_getenv env "AUDIT_DIR" "" in
  if decide (dir = "") then Err (Errorf "AUDIT_DIR is required when AUDIT_SINK=file" []) else
  checkEveryN ← env_positive env "AUDIT_CHECKPOINT_EVERY_N" "500" 500;
  secs ← env_positive env "AUDIT_CHECKPOINT_EVERY_SECONDS" "60" 60;
  hmacKey ← (let raw := TrimSpace (env "AUDIT_HMAC_KEY") in
             if decide (raw = "") then Ok [] else
             match hex_decode raw with
             | Some k => if (length k <? 16)%nat
                         then Err (Errorf "AUDIT_HMAC_KEY must be a hex-encoded key (recommend >=16 bytes)" [])
                         else Ok k
             | None => Err (Errorf "AUDIT_HMAC_KEY must be a hex-encoded key (recommend >=16 bytes)" [])
             end);
  Ok {| cf_Stream := stream; cf_Dir := dir; cf_CheckpointEveryN := checkEveryN;
        cf_CheckpointEveryDuration := seconds secs;
        cf_FsyncOnCheckpoint :=
          bool_decide (stringsTrimLower (audit_getenv env "AUDIT_FSYNC_ON_CHECKPOINT" "false") = "true");
        cf_HMACKey := hmacKey |}.

Definition NewFromEnv (env : string -> string) (component : string) : aprog (result error emitter) :=
  let sink := stringsTrimLower (audit_getenv env "AUDIT_SINK" "stdout") in
  let stream := stringsTrimLower (audit_getenv env "AUDIT_STREAM" component) in
  if decide (sink = "" \/ sink = "stdout") then mret (Ok (StdoutEmitter component stream))
  else if decide (sink = "file") then
    match file_config env stream with
    | Err err => mret (Err err)
    | Ok cfg => e ← newFileEmitter cfg component; mret (e ← e; Ok (FileEmitter e))
    end
  else mret (Err (Errorf "unknown AUDIT_SINK %q (expected stdout|file)" [VStr sink])).

Definition Close (e : emitter) : aprog unit :=
  match e with
  | StdoutEmitter _ _ => mret tt
  | FileEmitter f => _ ← closeOpt (fe_eventsF f); closeOpt (fe_checkF f)
  end.
End emitter.

(** * bufio.Scanner with a maximal token size

    The lines before the end or the first line of at least [max] bytes, and
    whether there was such a line. *)
Fixpoint scan (max : Z) (pieces : list (list ascii)) : list (list ascii) * bool :=
  match pieces with
  | [] => ([], false)
  | [last] => if max <=? Z.of_nat (length last) then ([], true)
              else (if decide (last = []) then [] else [last], false)
  | l :: rest => if max <=? Z.of_nat (length l) then ([], true)
                 else let '(ls, long) := scan max rest in (l :: ls, long)
  end.

(** A token is a line without its final carriage return. *)
Definition drop_cr (l : list ascii) : list ascii :=
  match list.last l with
  | Some c => if decide (c = byte 13) then take (length l - 1) l else l
  | None => l
  end.
Definition scan_lines (max : Z) (f : list ascii) : list (list ascii) * bool :=
  let '(ls, long) := scan max (splitL nl f) in (drop_cr <$> ls, long).

(** * auditctl *)

Definition is_ws (c : ascii) : bool := bool_decide (code c ∈ [32; 9; 10; 13]%nat).

Fixpoint drop_ws (l : list ascii) : list ascii :=
  match l with
  | c :: l' => if is_ws c then drop_ws l' else l
  | [] => []
  end.
Definition bytesTrimSpace (b : list ascii) : list ascii := rev (drop_ws (rev (drop_ws b))).

Section verifier.
Context (decode_record : list ascii -> result error fileAuditRecord).
Context (decode_checkpoint : list ascii -> result error checkpointRecord).

(** The state of the loop: the last sequence number and hash. *)
Record vstate := { v_seq : Z; v_hash : list ascii }.

(** What the verifier checks of the checkpoint of a record. *)
Definition check_checkpoint (hmacKey : list ascii) (cp : checkpointRecord) (seq : Z) (wantHash : string)
    : result error unit :=
  if decide (TrimSpace (cp_Hash cp) <> wantHash)
  then Err (Errorf "checkpoint hash mismatch at seq %d: got %s want %s"
         [VInt seq; VStr (TrimSpace (cp_Hash cp)); VStr wantHash])
  else if decide (cp_Sig cp <> "" /\ hmacKey <> []) then
    let msg := checkpoint_msg (TrimSpace (cp_Component cp)) (TrimSpace (cp_Stream cp))
                 (TrimSpace (cp_File cp)) (cp_Seq cp) (TrimSpace (cp_Hash cp)) (TrimSpace (cp_TS cp)) in
    if decide (TrimSpace (cp_Sig cp) = hex_encode (hmac_sha256 hmacKey msg)) then Ok tt
    else Err (Errorf "checkpoint sig mismatch at seq %d" [VInt seq])
  else Ok tt.

(** One line of the events file; an error comes with the state reached. *)
Definition verify_line (checkpoints : gmap Z checkpointRecord) (hmacKey : list ascii)
    (line : list ascii) (s : vstate) : result (vstate * error) vstate :=
  let line := bytesTrimSpace line in
  if decide (line = []) then Ok s else
  match decode_record line with
  | Err e => Err (s, Errorf "parse record: %w" [err_value e])
  | Ok rec =>
      if decide (ar_Seq rec <> wrap64 (v_seq s + 1))
      then Err (s, Errorf "seq mismatch: got %d want %d" [VInt (ar_Seq rec); VInt (wrap64 (v_seq s + 1))])
      else if decide (TrimSpace (ar_PrevHash rec) <> hex_encode (v_hash s))
      then Err (s, Errorf "prev_hash mismatch at seq %d: got %s want %s"
             [VInt (ar_Seq rec); VStr (TrimSpace (ar_PrevHash rec)); VStr (hex_encode (v_hash s))])
      else
        let sum := sha256 (v_hash s ++ ar_Event rec) in
        let wantHash := hex_encode sum in
        if decide (TrimSpace (ar_Hash rec) <> wantHash)
        then Err (s, Errorf "hash mismatch at seq %d: got %s want %s"
               [VInt (ar_Seq rec); VStr (TrimSpace (ar_Hash rec)); VStr wantHash])
        else
          let s := {| v_seq := ar_Seq rec; v_hash := sum |} in
          match checkpoints !! ar_Seq rec with
          | None => Ok s
          | Some cp =>
              match check_checkpoint hmacKey cp (ar_Seq rec) wantHash with
              | Ok _ => Ok s
              | Err e => Err (s, e)
              end
          end
  end.

Fixpoint verify_lines (checkpoints : gmap Z checkpointRecord) (hmacKey : list ascii)
    (lines : list (list ascii)) (s : vstate) : result (vstate * error) vstate :=
  match lines with
  | [] => Ok s
  | l :: rest => s ← verify_line checkpoints hmacKey l s; verify_lines checkpoints hmacKey rest s
  end.

(** [verifyEvents] on the contents of the events file: the last sequence number
    and hash, or those reached with an error. *)
Definition verifyEvents (f : list ascii) (checkpoints : gmap Z checkpointRecord)
    (hmacKey : list ascii) : result (Z * string * error) (Z * string) :=
  let '(lines, long) := scan_lines (4 * 2 ^ 20) f in
  match verify_lines checkpoints hmacKey lines {| v_seq := 0; v_hash := zero_hash |} with
  | Err (s, e) => Err (v_seq s, hex_encode (v_hash s), e)
  | Ok s =>
      if long : bool then Err (v_seq s, hex_encode (v_hash s), Errorf "bufio.Scanner: token too long" [])
      else if v_seq s =? 0 then Err (0, "", Errorf "no records found" [])
      else Ok (v_seq s, hex_encode (v_hash s))
  end.

Definition readCheckpoints (f : list ascii) : result error (list checkpointRecord) :=
  let '(lines, long) := scan_lines (2 ^ 20) f in
  cps ← forE (fun _ line out =>
          let line := bytesTrimSpace line in
          if decide (line = []) then Ok out
          else cp ← decode_checkpoint line; Ok (out ++ [cp])) lines [];
  if long : bool then Err (Errorf "bufio.Scanner: token too long" []) else Ok cps.

Definition want_checkpoints (cps : list checkpointRecord) : gmap Z checkpointRecord :=
  fold_left (fun m cp => if cp_Seq cp <=? 0 then m else <[cp_Seq cp := cp]> m) cps ∅.

(** [cmdVerify] after its flags: the files and the key given on the command
    line; [Err] is the message it dies with. *)
Definition cmdVerify (hmacKeyHex : string) (checkpointsFile : option (result error (list ascii)))
    (eventsFile : result error (list ascii)) : result error (Z * string) :=
  hmacKey ← (let raw := TrimSpace hmacKeyHex in
             if decide (raw = "") then Ok [] else
             match hex_decode raw with
             | None => Err (Errorf "encoding/hex: invalid" [])
             | Some k => if (length k <? 16)%nat then Err (Errorf "hmac-key must be >=16 bytes" [])
                         else Ok k
             end);
  want ← (match checkpointsFile with
          | None => Ok ∅
          | Some f => f ← f; cps ← readCheckpoints f; Ok (want_checkpoints cps)
          end);
  f ← eventsFile;
  match verifyEvents f want hmacKey with
  | Ok r => Ok r
  | Err (_, _, e) => Err e
  end.

(** The command line: the exit code, and what is printed on success. *)
Definition verify_flags : flagset :=
  {["events" := FString ""; "checkpoints" := FString ""; "hmac-key" := FString ""]}.
Definition auditctl_main (read_file : string -> result error (list ascii)) (args : list string)
    : Z * option (Z * string) :=
  match args with
  | [] => (2, None)
  | cmd :: args =>
      if decide (cmd = "verify") then
        match flag_parse verify_flags args with
        | Parsed fl _ =>
            let events := flag_string fl "events" in
            let checkpoints := flag_string fl "checkpoints" in
            if decide (TrimSpace events = "") then (2, None) else
            match cmdVerify (flag_string fl "hmac-key")
                    (if decide (TrimSpace checkpoints <> "") then Some (read_file checkpoints) else None)
                    (read_file events) with
            | Ok r => (0, Some r)
            | Err _ => (1, None)
            end
        | FlagHelp => (0, None)
        | FlagError => (2, None)
        end
      else if decide (cmd = "help" \/ cmd = "-h" \/ cmd = "--help") then (0, None)
      else (2, None)
  end.
End verifier.
