(* ===== verification/AuditTrail.v ===== *)
(** The audit trail verifies: the files the emitter writes, over any sequence of
    events, day changes and restarts, are accepted by the verifier; what the
    verifier accepts determines the events (up to SHA-256 collisions); and what
    it does not notice. *)
From S2P Require Export GoTime AuditLog.
From stdpp Require Import options.
Open Scope Z_scope.

(** * Chains of records *)

Fixpoint chain (seq : Z) (prev : list ascii) (recs : list fileAuditRecord) : Prop :=
  match recs with
  | [] => True
  | r :: rs =>
      let sum := sha256 (prev ++ ar_Event r) in
      ar_Seq r = wrap64 (seq + 1) /\ ar_PrevHash r = hex_encode prev
      /\ ar_Hash r = hex_encode sum /\ chain (ar_Seq r) sum rs
  end.

Fixpoint chain_end (seq : Z) (prev : list ascii) (recs : list fileAuditRecord) : Z * list ascii :=
  match recs with
  | [] => (seq, prev)
  | r :: rs => chain_end (ar_Seq r) (sha256 (prev ++ ar_Event r)) rs
  end.

Lemma chain_app seq prev l1 : forall l2,
  chain seq prev (l1 ++ l2) <->
  chain seq prev l1 /\ chain (chain_end seq prev l1).1 (chain_end seq prev l1).2 l2.
Proof.
  revert seq prev. induction l1 as [|r l1 IH]; intros seq prev l2; cbn; [tauto|]. rewrite IH. tauto.
Qed.
Lemma chain_end_app seq prev l1 : forall l2,
  chain_end seq prev (l1 ++ l2) = chain_end (chain_end seq prev l1).1 (chain_end seq prev l1).2 l2.
Proof. revert seq prev. induction l1 as [|r l1 IH]; intros seq prev l2; [done|]. cbn. apply IH. Qed.

Lemma chain_end_length recs : forall seq prev,
  length prev = 32%nat -> length (chain_end seq prev recs).2 = 32%nat.
Proof. induction recs as [|r recs IH]; intros; cbn; [done|]. by apply IH. Qed.

(** * Lines *)

Lemma scan_lines_concat max ls : Forall (fun l => (nl ∉ l) /\ Z.of_nat (length l) < max /\ drop_cr l = l) ls ->
  0 < max -> scan_lines max (concat ((fun l : list ascii => l ++ [nl]) <$> ls)) = (ls, false).
Proof.
  intros Hl Hmax. unfold scan_lines.
  enough (scan max (splitL nl (concat ((fun l : list ascii => l ++ [nl]) <$> ls))) = (ls, false)) as ->.
  { f_equal. induction Hl as [|l ls (_ & _ & Hcr) _ IH]; [done|]. cbn. by rewrite Hcr, IH. }
  induction Hl as [|l ls (Hnl & Hlen & _) _ IH]; cbn.
  - destruct (Z.leb_spec max (Z.of_nat 0)); [lia | done].
  - rewrite <- app_assoc. cbn. rewrite splitL_app by done.
    pose proof (splitL_nonempty nl (concat ((fun l : list ascii => l ++ [nl]) <$> ls))).
    cbn. destruct (splitL nl _) as [|x xs] eqn:E; [done|].
    destruct (Z.leb_spec max (Z.of_nat (length l))); [lia|]. by rewrite IH.
Qed.

(** A line between solid bytes is what trimming leaves. *)
Definition framed (l : list ascii) : Prop :=
  exists a m b, l = a :: m ++ [b] /\ solid a /\ solid b.

Lemma solid_not_ws c : solid c -> is_ws c = false.
Proof.
  intros [Hlt Hs]. unfold is_ws. apply bool_decide_false. intros Hin.
  rewrite !elem_of_cons, elem_of_nil in Hin. unfold space1 in Hs.
  destruct Hin as [Hc|[Hc|[Hc|[Hc|[]]]]]; rewrite Hc in Hs; discriminate.
Qed.

Lemma framed_trim l : framed l -> bytesTrimSpace l = l.
Proof.
  intros (a & m & b & -> & Ha & Hb). unfold bytesTrimSpace.
  cbn [drop_ws]. rewrite (solid_not_ws a) by done. cbn [rev]. rewrite rev_app_distr. cbn [rev app drop_ws].
  rewrite (solid_not_ws b) by done. cbn [rev]. by rewrite rev_app_distr, rev_involutive.
Qed.

Lemma framed_TrimSpace l : framed l -> TrimSpaceL l = l.
Proof.
  intros (a & m & b & -> & Ha & Hb). apply TrimSpaceL_id; [by apply leads_fwd_solid|].
  change (a :: m ++ [b]) with ((a :: m) ++ [b]). by apply leads_bwd_solid.
Qed.

Lemma framed_cr l : framed l -> drop_cr l = l.
Proof.
  intros (a & m & b & -> & Ha & Hb). unfold drop_cr. change (a :: m ++ [b]) with ((a :: m) ++ [b]).
  rewrite list.last_snoc. rewrite decide_False; [done|]. intros ->. destruct Hb as [_ Hb]. discriminate.
Qed.

Lemma framed_app l k : framed l -> framed k -> forall m, framed (l ++ m ++ k).
Proof.
  intros (a & m1 & b & -> & Ha & Hb) (c & m2 & d & -> & Hc & Hd) m.
  exists a, (m1 ++ [b] ++ m ++ c :: m2), d. split; [|done]. by simplify_list_eq.
Qed.

Lemma index_byte_app c l k : c ∉ l -> index_byte c (l ++ c :: k) = Some (length l).
Proof.
  intros Hc. unfold index_byte. rewrite list_find_app_r; cycle 1.
  { apply list_find_None, list.Forall_forall. intros x Hx He. subst x. by apply Hc. }
  cbn. rewrite decide_True by done. cbn. f_equal; lia.
Qed.
Lemma index_byte_none c l : c ∉ l -> index_byte c l = None.
Proof.
  intros Hc. unfold index_byte.
  replace (list_find _ l) with (@None (nat * ascii)); [done|]. symmetry.
  apply list_find_None, list.Forall_forall. intros x Hx He. subst x. by apply Hc.
Qed.

Lemma last_index_app c l k : c ∉ k -> last_index_byte c (l ++ c :: k) = Some (length l).
Proof.
  intros Hc. unfold last_index_byte. rewrite reverse_app, reverse_cons, <- app_assoc. cbn.
  rewrite index_byte_app by (by rewrite elem_of_reverse). cbn.
  rewrite length_app, length_reverse. cbn. f_equal; lia.
Qed.
Lemma last_index_none c l : c ∉ l -> last_index_byte c l = None.
Proof. intros Hc. unfold last_index_byte. by rewrite index_byte_none by (by rewrite elem_of_reverse). Qed.

(** Trimming a file of lines leaves it without its last newline. *)
Lemma trim_file l m : framed (m ++ l) -> TrimSpaceL (m ++ l ++ [nl]) = m ++ l.
Proof.
  intros (a & k & b & Heq & Ha & Hb). rewrite app_assoc, Heq.
  unfold TrimSpaceL, trim_left. rewrite trimL_id by (by apply leads_fwd_solid).
  unfold trim_right. change ((a :: k ++ [b]) ++ [nl]) with (a :: (k ++ [b]) ++ [nl]).
  replace (a :: (k ++ [b]) ++ [nl]) with ((a :: k ++ [b]) ++ [nl]) by done.
  rewrite reverse_snoc, trimL_cons. change (space1 nl) with true. cbv iota.
  rewrite trimL_id; [apply reverse_involutive|].
  change (a :: k ++ [b]) with ((a :: k) ++ [b]). by apply leads_bwd_solid.
Qed.

Lemma hex_encode_digits l : Forall (fun c => solid c /\ (48 <= code c)%nat) (s2l (hex_encode l)).
Proof.
  unfold hex_encode. rewrite s2l_l2s. induction l as [|c l IH]; [constructor|].
  pose proof (code_lt c). cbn [hex_encodeL].
  assert (Hs : forall n, (n < 16)%nat -> solid (hex_digit n) /\ (48 <= code (hex_digit n))%nat).
  { intros n Hn. unfold solid. do 16 (destruct n as [|n]; [vm_compute; split; [split; [lia|done]|lia]|]). lia. }
  constructor; [|constructor; [|done]]; apply Hs.
  - apply Nat.Div0.div_lt_upper_bound. lia.
  - apply Nat.mod_upper_bound. lia.
Qed.

Lemma hex_encode_trim l : TrimSpace (hex_encode l) = hex_encode l.
Proof.
  unfold TrimSpace. rewrite TrimSpaceL_solid, l2s_s2l; [done|].
  eapply list.Forall_impl; [apply hex_encode_digits|]. by intros c [? _].
Qed.

Lemma nl_not_hex l : nl ∉ s2l (hex_encode l).
Proof.
  intros Hin. pose proof (hex_encode_digits l) as Hd. rewrite list.Forall_forall in Hd.
  destruct (Hd nl Hin) as [_ Hc]. vm_compute in Hc. lia.
Qed.

Lemma encode_record_framed r : framed (encode_record r).
Proof.
  unfold encode_record. eexists (byte 123), _, (byte 125). split; [|vm_compute; intuition lia].
  rewrite s2l_app. change (s2l "{") with [byte 123]. rewrite app_comm_cons, <- app_assoc.
  change (s2l "}") with [byte 125]. cbn [app]. rewrite app_assoc. reflexivity.
Qed.

Lemma encode_record_no_nl seq p h event : nl ∉ event ->
  nl ∉ encode_record {| ar_Seq := seq; ar_PrevHash := hex_encode p; ar_Hash := hex_encode h; ar_Event := event |}.
Proof.
  intros He. unfold encode_record. cbn [ar_Seq ar_PrevHash ar_Hash ar_Event].
  rewrite !s2l_app, !elem_of_app.
  assert (nl ∉ s2l (Itoa seq)) by (apply Itoa_not_in; vm_compute; lia).
  pose proof (nl_not_hex p). pose proof (nl_not_hex h).
  assert (Hlit : forall s, bool_decide (nl ∈ s2l s) = false -> nl ∉ s2l s)
    by (intros s; apply bool_decide_eq_false).
  repeat match goal with
  | |- context [nl ∈ s2l (String ?c ?s)] =>
      let H := fresh in assert (H : nl ∉ s2l (String c s)) by (apply Hlit; vm_compute; reflexivity);
      revert H; generalize (s2l (String c s)); intros ? ?
  | |- context [nl ∈ s2l DQ] =>
      let H := fresh in assert (H : nl ∉ s2l DQ) by (apply Hlit; vm_compute; reflexivity);
      revert H; generalize (s2l DQ); intros ? ?
  end. tauto.
Qed.

(** * Files of records *)

Definition file_of (recs : list fileAuditRecord) : list ascii :=
  concat ((fun r => encode_record r ++ [nl]) <$> recs).

Lemma file_of_app l1 l2 : file_of (l1 ++ l2) = file_of l1 ++ file_of l2.
Proof. unfold file_of. by rewrite fmap_app, concat_app. Qed.

Section files.
Context (decode_record : list ascii -> result error fileAuditRecord).

(** A record whose line is read back, and short enough. *)
Definition rec_ok (r : fileAuditRecord) : Prop :=
  decode_record (encode_record r) = Ok r /\ (nl ∉ encode_record r)
  /\ Z.of_nat (length (encode_record r)) + 2 < 4 * 2 ^ 20 /\ 0 < ar_Seq r.

Definition file_ok (f : list ascii) (recs : list fileAuditRecord) : Prop :=
  f = file_of recs /\ chain 0 zero_hash recs /\ Forall rec_ok recs.

Lemma file_framed recs r : Forall rec_ok recs -> framed (file_of recs ++ encode_record r).
Proof.
  intros _. destruct recs as [|r1 recs]; [apply encode_record_framed|].
  unfold file_of. cbn. rewrite <- !app_assoc. cbn.
  change (nl :: concat ?x ++ ?y) with (([nl] ++ concat x) ++ y).
  apply framed_app; apply encode_record_framed.
Qed.

Lemma file_last recs : recs = [] \/ exists f, file_of recs = f ++ [nl].
Proof.
  destruct recs as [|r l _] using rev_ind; [by left|right].
  rewrite file_of_app. unfold file_of at 2. cbn. rewrite app_nil_r, app_assoc. by eexists.
Qed.

(** A tail of a file of lines, after its first newline, is a file of lines. *)
Lemma file_tail recs : forall k, Forall rec_ok recs -> (k < length (file_of recs))%nat ->
  exists i recs', index_byte nl (drop k (file_of recs)) = Some i
    /\ drop (S i) (drop k (file_of recs)) = file_of recs' /\ Forall rec_ok recs'.
Proof.
  induction recs as [|r recs IH]; intros k Hok Hk; [cbn in Hk; lia|].
  apply list.Forall_cons in Hok as [Hr Hok].
  assert (Hf : file_of (r :: recs) = encode_record r ++ nl :: file_of recs).
  { unfold file_of. cbn. by rewrite <- app_assoc. }
  rewrite Hf in *. destruct (decide (k <= length (encode_record r))%nat) as [Hle|Hgt].
  - rewrite drop_app_le by done.
    assert (nl ∉ drop k (encode_record r)) as Hnl.
    { intros Hin. destruct Hr as (_ & Hnl & _). apply Hnl.
      rewrite <- (take_drop k (encode_record r)), elem_of_app. by right. }
    exists (length (drop k (encode_record r))), recs. split; [by apply index_byte_app|].
    split; [|done]. rewrite drop_app_ge by lia.
    replace (S _ - _)%nat with 1%nat by lia. done.
  - rewrite drop_app_ge by lia. rewrite length_app in Hk. cbn in Hk.
    destruct (k - length (encode_record r))%nat as [|k'] eqn:E; [lia|]. cbn [drop].
    apply IH; [done|]. lia.
Qed.

Lemma last_line recs r : Forall rec_ok recs -> nl ∉ encode_record r ->
  (match last_index_byte nl (file_of recs ++ encode_record r) with
   | Some i => drop (S i) (file_of recs ++ encode_record r)
   | None => file_of recs ++ encode_record r end) = encode_record r.
Proof.
  intros Hok Hr. destruct (file_last recs) as [->|[f Hf]].
  - cbn [file_of fmap list_fmap concat app]. by rewrite last_index_none.
  - rewrite Hf, <- app_assoc. cbn. rewrite last_index_app by done.
    rewrite drop_app_ge by lia. by replace (S _ - _)%nat with 1%nat by lia.
Qed.

Lemma readLast_line recs r : Forall rec_ok recs -> rec_ok r ->
  readLastJSONLLine (Some (file_of (recs ++ [r]))) (4 * 2 ^ 20) = Some (encode_record r).
Proof.
  intros Hok (Hdec & Hnl & Hlen & _). set (max := 4 * 2 ^ 20) in *.
  rewrite file_of_app. unfold file_of at 2. cbn [fmap list_fmap concat]. rewrite app_nil_r.
  unfold readLastJSONLLine. set (f := file_of recs ++ encode_record r ++ [nl]).
  assert (Hsz : length f = (length (file_of recs) + length (encode_record r) + 1)%nat).
  { unfold f. rewrite !length_app. cbn. lia. }
  destruct (Z.eqb_spec (Z.of_nat (length f)) 0); [lia|]. cbv zeta.
  enough (Hb : exists recs', Forall rec_ok recs' /\
    (if 0 <? Z.max 0 (Z.of_nat (length f) - max)
     then match index_byte nl (drop (Z.to_nat (Z.max 0 (Z.of_nat (length f) - max))) f) with
          | Some i => Some (drop (S i) (drop (Z.to_nat (Z.max 0 (Z.of_nat (length f) - max))) f))
          | None => None end
     else Some (drop (Z.to_nat (Z.max 0 (Z.of_nat (length f) - max))) f))
    = Some (file_of recs' ++ encode_record r ++ [nl])).
  { destruct Hb as (recs' & Hok' & ->). cbn [mbind option_bind].
    rewrite trim_file by (by apply file_framed).
    rewrite decide_False; [by rewrite last_line|].
    intros [_ He]%app_eq_nil. destruct (encode_record_framed r) as (? & ? & ? & Hf & _). by rewrite Hf in He. }
  destruct (Z.ltb_spec 0 (Z.max 0 (Z.of_nat (length f) - max))) as [Hpos|Hz].
  - set (k := Z.to_nat _). assert (Hk : (k < length (file_of recs))%nat) by lia.
    destruct (file_tail recs k Hok Hk) as (i & recs' & Hi & Hd & Hok').
    exists recs'. split; [done|]. unfold f. rewrite drop_app_le by lia.
    unfold index_byte in Hi |- *. destruct (list_find _ (drop k (file_of recs))) as [[i0 c]|] eqn:Hfi; [|done].
    cbn in Hi. injection Hi as ->. rewrite (list_find_app_l _ _ _ _ _ Hfi). cbn [fmap option_fmap option_map fst].
    f_equal. rewrite <- Hd. apply list_find_Some in Hfi as (Hlk & _ & _). apply lookup_lt_Some in Hlk.
    by rewrite (drop_app_le (drop k (file_of recs))) by lia.
  - exists recs. split; [done|]. replace (Z.max 0 _) with 0 by lia. done.
Qed.

Lemma readLast_state recs : chain 0 zero_hash recs -> Forall rec_ok recs ->
  readLastAuditState decode_record (Some (file_of recs))
  = Ok (if decide (recs = []) then None else Some (chain_end 0 zero_hash recs)).
Proof.
  intros Hc Hok. destruct recs as [|r recs _] using rev_ind; [done|].
  apply list.Forall_app in Hok as [Hok [Hr _]%list.Forall_cons].
  unfold readLastAuditState. rewrite readLast_line by done. destruct Hr as (-> & _ & _ & Hseq).
  cbn [mbind result_bind]. destruct (Z.ltb_spec (ar_Seq r) 0); [lia|].
  apply chain_app in Hc as [_ (Hs & _ & Hh & _)]. rewrite Hh, hex_decode_encode, decide_True by done.
  rewrite decide_False by (by intros [_ ?]%app_eq_nil). rewrite chain_end_app. reflexivity.
Qed.

Lemma verify_line_ok cps key r seq prev : rec_ok r -> ar_Seq r = wrap64 (seq + 1) ->
  ar_PrevHash r = hex_encode prev -> ar_Hash r = hex_encode (sha256 (prev ++ ar_Event r)) ->
  (forall cp, cps !! ar_Seq r = Some cp -> check_checkpoint key cp (ar_Seq r) (ar_Hash r) = Ok tt) ->
  verify_line decode_record cps key (encode_record r) {| v_seq := seq; v_hash := prev |}
  = Ok {| v_seq := ar_Seq r; v_hash := sha256 (prev ++ ar_Event r) |}.
Proof.
  intros (Hdec & _) Hs Hp Hh Hcp. unfold verify_line. rewrite (framed_trim _ (encode_record_framed r)).
  rewrite decide_False.
  2:{ intros He. destruct (encode_record_framed r) as (? & ? & ? & Hf & _). by rewrite Hf in He. }
  rewrite Hdec. cbn [v_seq v_hash]. rewrite decide_False by (intros Hn; by apply Hn).
  rewrite decide_False by (rewrite Hp, hex_encode_trim; intros Hn; by apply Hn).
  rewrite decide_False by (rewrite Hh, hex_encode_trim; intros Hn; by apply Hn).
  destruct (cps !! ar_Seq r) as [cp|] eqn:E; [|done].
  specialize (Hcp _ eq_refl). rewrite Hh in Hcp. by rewrite Hcp.
Qed.

Lemma verify_lines_ok cps key recs : forall seq prev,
  chain seq prev recs -> Forall rec_ok recs ->
  (forall r cp, r ∈ recs -> cps !! ar_Seq r = Some cp ->
     check_checkpoint key cp (ar_Seq r) (ar_Hash r) = Ok tt) ->
  verify_lines decode_record cps key (encode_record <$> recs) {| v_seq := seq; v_hash := prev |}
  = Ok {| v_seq := (chain_end seq prev recs).1; v_hash := (chain_end seq prev recs).2 |}.
Proof.
  induction recs as [|r recs IH]; intros seq prev Hc Hok Hcp; [done|].
  destruct Hc as (Hs & Hp & Hh & Hc). apply list.Forall_cons in Hok as [Hr Hok].
  cbn. rewrite verify_line_ok; try done; [|intros cp; apply Hcp; by left].
  cbn. apply IH; [done..|]. intros r' cp Hin. apply Hcp. by right.
Qed.

Lemma verify_file cps key recs : chain 0 zero_hash recs -> Forall rec_ok recs -> recs <> [] ->
  (forall r cp, r ∈ recs -> cps !! ar_Seq r = Some cp ->
     check_checkpoint key cp (ar_Seq r) (ar_Hash r) = Ok tt) ->
  verifyEvents decode_record (file_of recs) cps key
  = Ok ((chain_end 0 zero_hash recs).1, hex_encode (chain_end 0 zero_hash recs).2).
Proof.
  intros Hc Hok Hne Hcp. unfold verifyEvents, file_of.
  replace ((fun r => encode_record r ++ [nl]) <$> recs)
    with ((fun l : list ascii => l ++ [nl]) <$> (encode_record <$> recs)) by (by rewrite <- list_fmap_compose).
  rewrite scan_lines_concat; [|apply Forall_fmap; eapply list.Forall_impl; [exact Hok|]|lia].
  2:{ intros r (_ & Hnl & Hlen & _). cbn. split; [done|]. split; [lia|]. apply framed_cr, encode_record_framed. }
  rewrite verify_lines_ok by done. cbn [v_seq v_hash].
  destruct recs as [|r recs _] using rev_ind; [done|].
  apply list.Forall_app in Hok as [_ [(_ & _ & _ & Hseq) _]%list.Forall_cons].
  rewrite chain_end_app. cbn. destruct (Z.eqb_spec (ar_Seq r) 0); [lia | done].
Qed.
End files.

Lemma chain_seq recs : forall seq prev, chain seq prev recs -> 0 <= seq ->
  seq + Z.of_nat (length recs) < 2 ^ 63 -> (chain_end seq prev recs).1 = seq + Z.of_nat (length recs).
Proof.
  induction recs as [|r recs IH]; intros seq prev Hc H0 Hlt; cbn [length] in *; [cbn; lia|].
  destruct Hc as (Hs & _ & _ & Hc). cbn [chain_end].
  rewrite wrap64_id in Hs by (unfold int64_range; lia). rewrite IH; [lia|done|lia..].
Qed.

Lemma file_length recs : (length recs <= length (file_of recs))%nat.
Proof.
  induction recs as [|r recs IH]; [done|]. unfold file_of in *. cbn. rewrite !length_app. cbn. lia.
Qed.

(** * The files of an emitter *)

Notation afs := (gmap string (list ascii)).

(** The effect of a call with its answer on the files.  A write that fails may
    have written a part; [whole] are the paths where it never has. *)
Definition fs_obs (whole : string -> Prop) (o : aobs) (m m1 : afs) : Prop :=
  match o with
  | Obs e x =>
      match e in aeff T return T -> Prop with
      | AOpen p => fun r => m1 = if is_ok r then <[p := default [] (m !! p)]> m else m
      | AWrite p b => fun r =>
          if is_ok r then m1 = <[p := default [] (m !! p) ++ b]> m else
          m1 = m \/ ~ whole p /\ exists k, m1 = <[p := default [] (m !! p) ++ take k b]> m
      | ARead p => fun r => m1 = m /\ forall c, r = Ok c -> c = m !! p
      | _ => fun _ => m1 = m
      end x
  end.

Fixpoint follows (whole : string -> Prop) (tr : list aobs) (m m' : afs) : Prop :=
  match tr with
  | [] => m' = m
  | o :: tr' => exists m1, fs_obs whole o m m1 /\ follows whole tr' m1 m'
  end.

Lemma follows_app whole t1 : forall t2 m m', follows whole (t1 ++ t2) m m' <->
  exists m1, follows whole t1 m m1 /\ follows whole t2 m1 m'.
Proof.
  induction t1 as [|o t1 IH]; intros t2 m m'; cbn.
  - split; [intros H; by exists m | by intros (? & -> & ?)].
  - setoid_rewrite IH. naive_solver.
Qed.

(** Every line written there is shorter than what the verifier (and a restart)
    reads. *)
Definition short_writes (whole : string -> Prop) (tr : list aobs) : Prop :=
  forall p b, whole p -> Obs (AWrite p b) (Ok tt) ∈ tr -> Z.of_nat (length b) + 1 < 4 * 2 ^ 20.
Definition small_files (m : afs) : Prop :=
  forall p f, m !! p = Some f -> Z.of_nat (length f) < 2 ^ 62.

Lemma short_app whole t1 t2 : short_writes whole (t1 ++ t2) ->
  short_writes whole t1 /\ short_writes whole t2.
Proof. unfold short_writes. intros H. split; intros p b Hp Hin; apply (H p); rewrite ?elem_of_app; auto. Qed.

Section reach.
Context (json_Marshal : gmap string value -> result error (list ascii)).
Context (decode_record : list ascii -> result error fileAuditRecord).
Context (encode_checkpoint : checkpointRecord -> list ascii).
(** The paths where no line is too long and no failing write leaves a part. *)
Context (whole : string -> Prop).
#[local] Notation follows := (follows whole).
#[local] Notation short_writes := (short_writes whole).

(** What is used of [encoding/json]: a marshalled payload has no newline, and
    the line of a record is read back as that record. *)
Definition json_law : Prop := forall v event, json_Marshal v = Ok event ->
  (nl ∉ event) /\ forall seq p h, 0 < seq < 2 ^ 63 -> length p = 32%nat -> length h = 32%nat ->
    let r := {| ar_Seq := seq; ar_PrevHash := hex_encode p; ar_Hash := hex_encode h; ar_Event := event |} in
    decode_record (encode_record r) = Ok r.

(** One event, or a restart of the service on the same files. *)
Inductive audit_step (cfg : Config) (component : string)
    : fileEmitter * afs -> fileEmitter * afs -> Prop :=
| step_emit e m ty fields tr e' m' :
    exec (fileEmit json_Marshal decode_record encode_checkpoint e ty fields) tr e' ->
    follows tr m m' -> short_writes tr -> small_files m ->
    audit_step cfg component (e, m) (e', m')
| step_restart e m tr e' m' :
    exec (newFileEmitter decode_record cfg component) tr (Ok e') -> follows tr m m' ->
    audit_step cfg component (e, m) (e', m').

Definition same_names (e e' : fileEmitter) : Prop :=
  fe_dir e' = fe_dir e /\ fe_stream e' = fe_stream e /\ fe_component e' = fe_component e
  /\ fe_hmacKey e' = fe_hmacKey e.

(** Every such events file of the emitter is a chain, and the emitter is at the end
    of the one it has open. *)
Definition files_ok (e : fileEmitter) (m : afs) : Prop :=
  forall date f, whole (events_path e date) -> m !! events_path e date = Some f -> exists recs, file_ok decode_record f recs.
Definition at_end (e : fileEmitter) (m : afs) : Prop :=
  forall p, fe_eventsF e = Some p -> p = events_path e (fe_openDate e)
    /\ fe_checkF e = Some (check_path e (fe_openDate e))
    /\ (whole p -> exists recs, m !! p = Some (file_of recs) /\ chain 0 zero_hash recs
       /\ Forall (rec_ok decode_record) recs
       /\ (fe_seq e, fe_prevHash e) = chain_end 0 zero_hash recs).
Definition emitter_ok (s : fileEmitter * afs) : Prop := files_ok s.1 s.2 /\ at_end s.1 s.2.

Lemma paths_differ e d1 d2 : check_path e d1 <> events_path e d2.
Proof.
  unfold check_path, events_path. intros H. apply (f_equal s2l) in H. rewrite !(s2l_app (fe_dir e)) in H.
  apply app_inv_head in H. discriminate.
Qed.

Lemma same_paths e e' d : same_names e e' -> events_path e' d = events_path e d.
Proof. unfold events_path. by intros (-> & -> & _). Qed.

(** Opening an events file, or writing a checkpoint, keeps the files chains. *)
Lemma files_ok_open e m p : files_ok e m -> files_ok e (<[p := default [] (m !! p)]> m).
Proof.
  intros Hf date f Hw. destruct (decide (p = events_path e date)) as [->|Hne].
  - rewrite lookup_insert_eq. intros [= <-]. destruct (m !! events_path e date) as [f|] eqn:E.
    + by apply (Hf date).
    + exists []. done.
  - rewrite lookup_insert_ne by done. by apply Hf.
Qed.

Lemma files_ok_other e m p b : (forall d, whole (events_path e d) -> p <> events_path e d) ->
  files_ok e m -> files_ok e (<[p := b]> m).
Proof. intros Hp Hf date f Hw. rewrite lookup_insert_ne by by apply Hp. by apply Hf. Qed.

Lemma at_end_other e m p b : (forall d, whole (events_path e d) -> p <> events_path e d) ->
  at_end e m -> at_end e (<[p := b]> m).
Proof.
  intros Hp He q Hq. destruct (He q Hq) as (-> & Hc & Hrest). split; [done|]. split; [done|].
  intros Hw. rewrite lookup_insert_ne by by apply Hp. auto.
Qed.

Lemma at_end_open e m p : at_end e m -> at_end e (<[p := default [] (m !! p)]> m).
Proof.
  intros He q Hq. destruct (He q Hq) as (Hp & Hc & Hrest). split; [done|]. split; [done|].
  intros Hw. destruct (Hrest Hw) as (recs & Hm & Hrest'). exists recs. split; [|done]. destruct (decide (p = q)) as [->|Hne].
  - rewrite lookup_insert_eq, Hm. done.
  - by rewrite lookup_insert_ne.
Qed.

Lemma rotate_ok e date tr e' r m m' :
  exec (rotate decode_record e date) tr (e', r) -> follows tr m m' -> files_ok e m ->
  files_ok e m' /\ same_names e e' /\ (at_end e m -> at_end e' m')
  /\ (r = Ok tt -> at_end e' m') /\ (r <> Ok tt -> e' = e).
Proof.
  unfold rotate, closeOpt. intros Hx Hm Hf.
  assert (Hclose : forall (f : option string) (k : aprog (fileEmitter * result error unit)) t m1 m2 x,
    exec (_ ← (match f with Some p => trigger (AClose p) | None => mret tt end); k) t x ->
    follows t m1 m2 -> exists t', exec k t' x /\ follows t' m1 m2).
  { intros [p|] k t m1 m2 x Ht Hfo; cbn in Ht; [|by exists t].
    destruct Ht as (? & t' & -> & Ht). destruct Hfo as (? & -> & Hfo). by exists t'. }
  destruct (Hclose _ _ _ _ _ _ Hx Hm) as (t1 & Hx1 & Hm1).
  destruct (Hclose _ _ _ _ _ _ Hx1 Hm1) as (t2 & Hx2 & Hm2). clear Hclose Hx Hm Hx1 Hm1.
  cbv zeta in Hx2. apply exec_bind in Hx2 as (ta & tb & ev & -> & ->%exec_trigger & Hx).
  destruct Hm2 as (m1 & Hev & Hm). cbn in Hev.
  assert (Hok1 : files_ok e m1 /\ (at_end e m -> at_end e m1)).
  { destruct ev; cbn in Hev; subst m1; [|done]. split; [by apply files_ok_open | apply at_end_open]. }
  destruct Hok1 as [Hf1 He1].
  destruct ev as [[]|err]; [|destruct Hx as [-> [= -> ->]]; cbn in Hm; subst m'; split_and!; try done].
  apply exec_bind in Hx as (tc & td & ck & -> & ->%exec_trigger & Hx).
  destruct Hm as (m2 & Hck & Hm). cbn in Hck.
  assert (Hok2 : files_ok e m2 /\ (at_end e m1 -> at_end e m2)).
  { destruct ck; cbn in Hck; subst m2; [|done]. split; [by apply files_ok_open | apply at_end_open]. }
  destruct Hok2 as [Hf2 He2].
  destruct ck as [[]|err]; [|walk Hx; simplify_eq; cbn in Hm; destruct Hm as (? & -> & ->); split_and!; auto; done].
  apply exec_bind in Hx as (te & tf & content & -> & ->%exec_trigger & Hx).
  destruct Hm as (m3 & [-> Hread] & Hm).
  destruct content as [c|err]; cbn [mbind result_bind] in Hx.
  2:{ walk Hx; simplify_eq; cbn in Hm. destruct Hm as (? & -> & ? & -> & ->). split_and!; auto; done. }
  specialize (Hread _ eq_refl). cbn in Hev, Hck. subst c.
  assert (Hfile : exists f, m2 !! events_path e date = Some f).
  { subst m1 m2. destruct (decide (check_path e date = events_path e date)) as [Hd|Hd]; [by apply paths_differ in Hd|].
    rewrite lookup_insert_ne by done. rewrite lookup_insert_eq. by eexists. }
  destruct Hfile as (f & Hfile).
  destruct (readLastAuditState _ _) as [last|err] eqn:Hlast; cycle 1.
  { walk Hx; simplify_eq; cbn in Hm. destruct Hm as (? & -> & ? & -> & ->). split_and!; auto; done. }
  destruct (default (0, zero_hash) last) as [seq h] eqn:Hdef.
  destruct Hx as [-> [= -> ->]]. cbn in Hm. subst m'.
  assert (Hat : at_end {| fe_component := fe_component e; fe_stream := fe_stream e; fe_dir := fe_dir e;
    fe_checkEveryN := fe_checkEveryN e; fe_checkEveryDur := fe_checkEveryDur e; fe_fsync := fe_fsync e;
    fe_hmacKey := fe_hmacKey e; fe_openDate := date; fe_eventsF := Some (events_path e date);
    fe_checkF := Some (check_path e date); fe_seq := seq; fe_prevHash := h; fe_lastCheckpoint := 0 |} m2).
  { intros p [= <-]. split; [done|]. split; [done|]. intros Hwh.
    destruct (Hf2 date f Hwh Hfile) as (recs & -> & Hc & Hrecs). exists recs. split; [done|].
    split; [done|]. split; [done|]. cbn [fe_seq fe_prevHash]. rewrite <- Hdef.
    rewrite Hfile, (readLast_state decode_record recs Hc Hrecs) in Hlast. injection Hlast as <-.
    case_decide; by subst. }
  split_and!; auto; done.
Qed.

Lemma rotateLocked_ok e now tr e' r m m' :
  exec (rotateLocked decode_record e now) tr (e', r) -> follows tr m m' -> files_ok e m ->
  files_ok e m' /\ same_names e e' /\ (at_end e m -> at_end e' m')
  /\ (r = Ok tt -> at_end e m -> at_end e' m' /\ fe_eventsF e' <> None) /\ (r <> Ok tt -> e' = e).
Proof.
  unfold rotateLocked. intros Hx Hm Hf. case_decide as Hd.
  - destruct Hx as [-> [= -> ->]]. cbn in Hm. subst m'. destruct Hd as (_ & Hev & _). split_and!; auto; done.
  - destruct (rotate_ok _ _ _ _ _ _ _ Hx Hm Hf) as (? & ? & ? & Hok & ?). split_and!; auto.
    intros Hr He. split; [auto|]. revert Hr Hx. clear. intros -> Hx. unfold rotate, closeOpt in Hx.
    destruct (fe_eventsF e), (fe_checkF e); walk Hx; by simplify_eq.
Qed.

(** The rotation writes nothing. *)
Lemma rotate_small e now tr e' r m m' :
  exec (rotateLocked decode_record e now) tr (e', r) -> follows tr m m' ->
  small_files m -> small_files m'.
Proof.
  intros Hx Hm. assert (Hw : Forall (fun o => match o with Obs (AWrite _ _) _ => False | _ => True end) tr).
  { unfold rotateLocked, rotate, closeOpt in Hx. case_decide; [by destruct Hx as [-> _]|].
    destruct (fe_eventsF e), (fe_checkF e); walk Hx; repeat constructor. }
  clear Hx. revert m m' Hm. induction Hw as [|o tr Ho _ IH]; intros m m' Hm Hs; cbn in Hm; [by subst|].
  destruct Hm as (m1 & Ho1 & Hm). apply (IH _ _ Hm). destruct o as [X e0 x]. destruct e0; cbn in Ho1; try (by subst).
  - destruct (is_ok x); subst m1; [|done]. intros p f. destruct (decide (path = p)) as [->|Hne].
    + rewrite lookup_insert_eq. intros [= <-]. destruct (m !! p) eqn:E; [by apply (Hs p)|]. cbn. lia.
    + rewrite lookup_insert_ne by done. apply Hs.
  - destruct Ho1 as [-> _]. done.
Qed.

Lemma checkpoint_ok e now tr e' m m' :
  exec (writeCheckpointLocked encode_checkpoint e now) tr e' -> follows tr m m' ->
  fe_eventsF e <> None -> files_ok e m -> at_end e m ->
  files_ok e m' /\ same_names e e' /\ at_end e' m'.
Proof.
  unfold writeCheckpointLocked. intros Hx Hm Hne Hf He.
  assert (exists p, fe_eventsF e = Some p) as [p Hev] by (destruct (fe_eventsF e); eauto; done).
  destruct (He p Hev) as (Hp & Hc & _). rewrite Hc in Hx. cbn [default] in Hx.
  apply exec_bind in Hx as (t1 & t2 & w & -> & ->%exec_trigger & Hx). destruct Hm as (m1 & Hw & Hm). cbn [app] in Hm.
  cbn in Hw. assert (Hm1 : files_ok e m1 /\ at_end e m1).
  { assert (Hother : forall b, files_ok e (<[check_path e (fe_openDate e) := b]> m)
        /\ at_end e (<[check_path e (fe_openDate e) := b]> m)).
    { intros b. split; [apply files_ok_other | apply at_end_other]; try done; intros d _; apply paths_differ. }
    destruct w; cbn in Hw; [by subst m1|]. destruct Hw as [->|(_ & k & ->)]; [done | apply Hother]. }
  destruct Hm1 as [Hf1 He1]. clear Hw.
  assert (Hend1 : m' = m1 /\ same_names e e' /\ fe_eventsF e' = fe_eventsF e
    /\ fe_checkF e' = fe_checkF e /\ fe_openDate e' = fe_openDate e /\ fe_seq e' = fe_seq e
    /\ fe_prevHash e' = fe_prevHash e).
  { destruct w; [destruct (fe_fsync e) eqn:Hfs|]; walk Hx; cbn in Hm;
      [destruct Hm as (? & -> & ? & -> & Hm)| |]; unfold same_names; split_and!; done || congruence. }
  destruct Hend1 as (-> & Hsame & H1 & H2 & H3 & H4 & H5). split; [done|]. split; [done|].
  intros q Hq. rewrite H1 in Hq. destruct (He1 q Hq) as (? & ? & Hrest).
  rewrite H2, H3, H4, H5. rewrite (same_paths e e') by done. unfold check_path.
  destruct Hsame as (-> & -> & _). done.
Qed.

Lemma emit_ok e ty fields tr e' m m' :
  json_law -> exec (fileEmit json_Marshal decode_record encode_checkpoint e ty fields) tr e' ->
  follows tr m m' -> short_writes tr -> small_files m -> emitter_ok (e, m) ->
  emitter_ok (e', m') /\ same_names e e'.
Proof.
  intros Hlaw Hx Hm Hshort Hsmall [Hf He]. cbn [fst snd] in *. unfold fileEmit in Hx.
  apply exec_bind in Hx as (t0 & t1 & now & -> & ->%exec_trigger & Hx). destruct Hm as (m0 & -> & Hm). cbn [app] in Hm.
  apply (short_app _ [_]) in Hshort as [_ Hshort].
  apply exec_bind in Hx as (t2 & t3 & [e1 r] & -> & Hrot & Hx). apply follows_app in Hm as (m1 & Hm1 & Hm).
  apply short_app in Hshort as [_ Hshort].
  destruct (rotateLocked_ok _ _ _ _ _ _ _ Hrot Hm1 Hf) as (Hf1 & Hsame & He1 & Hr & Hrf). specialize (He1 He).
  assert (Hf1' : files_ok e1 m1). { intros d f. rewrite (same_paths e e1) by done. apply Hf1. }
  destruct r as [[]|err]; cycle 1.
  { walk Hx. destruct Hm as (? & -> & ->). by split. }
  destruct (Hr eq_refl He) as [_ Hne].
  destruct (json_Marshal _) as [event|err] eqn:Hj; cycle 1.
  { walk Hx. destruct Hm as (? & -> & ->). by split. }
  apply exec_bind in Hx as (t4 & t5 & w & -> & ->%exec_trigger & Hx). destruct Hm as (m2 & Hw & Hm). cbn [app] in Hm.
  destruct w as [[]|err]; cycle 1.
  { walk Hx. cbn in Hw, Hm. destruct Hm as (? & -> & ->).
    destruct Hw as [->|(Hnw & k & ->)]; [by split|].
    assert (exists p, fe_eventsF e1 = Some p) as [p Hev] by (destruct (fe_eventsF e1); eauto; done).
    rewrite Hev in Hnw |- *. cbn in Hnw |- *. split; [|done].
    split; cbn [fst snd]; [apply files_ok_other | apply at_end_other]; try done; intros d Hd ->; by apply Hnw. }
  assert (exists p, fe_eventsF e1 = Some p) as [p Hev] by (destruct (fe_eventsF e1); eauto; done).
  destruct (He1 p Hev) as (Hp & Hck & Hopen).
  rewrite Hev in Hw, Hshort. cbn in Hw, Hshort.
  set (r := next_record e1 event) in *.
  assert (Hnew : whole p -> exists recs, m2 = <[p := file_of (recs ++ [r])]> m1
     /\ chain 0 zero_hash (recs ++ [r]) /\ Forall (rec_ok decode_record) (recs ++ [r])
     /\ (fe_seq (advance e1 event), fe_prevHash (advance e1 event)) = chain_end 0 zero_hash (recs ++ [r])).
  { intros Hwh. destruct (Hopen Hwh) as (recs & Hrecs & Hchain & Hok & Hend). exists recs.
    assert (Hlen : Z.of_nat (length recs) < 2 ^ 62).
    { pose proof (rotate_small _ _ _ _ _ _ _ Hrot Hm1 Hsmall p _ Hrecs) as Hlt.
      pose proof (file_length recs). lia. }
    pose proof (chain_seq recs 0 zero_hash Hchain ltac:(lia) ltac:(lia)) as Hseq.
    pose proof (chain_end_length recs 0 zero_hash eq_refl) as Hh. rewrite <- Hend in Hseq, Hh. cbn in Hseq, Hh.
    assert (Hw64 : wrap64 (fe_seq e1 + 1) = fe_seq e1 + 1) by (apply wrap64_id; unfold int64_range; lia).
    destruct (Hlaw _ _ Hj) as [Hnl Hdec].
    split; [subst m2; rewrite Hrecs, file_of_app; unfold file_of at 3; cbn; by rewrite app_nil_r|].
    split; [apply chain_app; split; [done|]; rewrite <- Hend; done|].
    split; [|by rewrite chain_end_app, <- Hend].
    apply list.Forall_app. split; [done|]. apply list.Forall_cons. split; [|done].
    split; [|split; [|split]].
    - apply Hdec; [cbn; lia | done | apply sha256_length].
    - by apply encode_record_no_nl.
    - specialize (Hshort p (encode_record r ++ [nl]) Hwh (list_elem_of_here _ _)).
      rewrite length_app in Hshort. cbn in Hshort. lia.
    - cbn. lia. }
  assert (Hok2 : files_ok (advance e1 event) m2 /\ at_end (advance e1 event) m2).
  { split.
    - intros d f Hwh. change (events_path (advance e1 event) d) with (events_path e1 d) in *.
      destruct (decide (p = events_path e1 d)) as [Heq|Hd].
      + rewrite <- Heq in *. destruct (Hnew Hwh) as (recs & -> & ? & ? & _). rewrite lookup_insert_eq.
        intros [= <-]. by exists (recs ++ [r]).
      + rewrite Hw, lookup_insert_ne by done. by apply Hf1'.
    - intros q Hq. cbn in Hq. rewrite Hev in Hq. injection Hq as <-. split; [done|]. split; [done|].
      intros Hwh. destruct (Hnew Hwh) as (recs & -> & ? & ? & ?).
      exists (recs ++ [r]). rewrite lookup_insert_eq. done. }
  destruct Hok2 as [Hf2 He2]. cbv zeta in Hx.
  assert (Hsame2 : same_names e (advance e1 event)) by done.
  destruct (need_checkpoint _ _).
  - destruct (checkpoint_ok _ _ _ _ _ _ Hx Hm) as (Hf3 & Hs3 & He3); [by cbn; rewrite Hev | done | done|].
    split; [split; [|done]|].
    + intros d f. cbn. rewrite (same_paths (advance e1 event) e') by done. apply Hf3.
    + destruct Hsame2 as (? & ? & ? & ?), Hs3 as (? & ? & ? & ?). unfold same_names. split_and!; congruence.
  - destruct Hx as [-> ->]. cbn in Hm. subst m'. by split.
Qed.

Lemma restart_ok cfg component tr e' m m' :
  exec (newFileEmitter decode_record cfg component) tr (Ok e') -> follows tr m m' ->
  (forall e, fe_dir e = cf_Dir cfg -> fe_stream e = cf_Stream cfg -> files_ok e m) ->
  emitter_ok (e', m') /\ fe_dir e' = cf_Dir cfg /\ fe_stream e' = cf_Stream cfg
  /\ fe_component e' = component /\ fe_hmacKey e' = cf_HMACKey cfg.
Proof.
  unfold newFileEmitter. intros Hx Hm Hf.
  apply exec_bind in Hx as (t0 & t1 & mk & -> & ->%exec_trigger & Hx). destruct Hm as (m0 & -> & Hm).
  cbn [app] in Hm. destruct mk; [|by destruct Hx].
  apply exec_bind in Hx as (t2 & t3 & now & -> & ->%exec_trigger & Hx). destruct Hm as (m1 & -> & Hm).
  cbn [app] in Hm. apply exec_bind in Hx as (t4 & t5 & [e1 r] & -> & Hx & [-> Hr]).
  rewrite app_nil_r in Hm. destruct r as [[]|]; [|done]. injection Hr as <-.
  match type of Hx with exec (rotateLocked _ ?e0 _) _ _ => set (e00 := e0) in * end.
  destruct (rotateLocked_ok e00 _ _ _ _ _ _ Hx Hm) as (Hf1 & Hs & He & _); [by apply Hf|].
  split; [split|]; cbn.
  - intros d f. rewrite (same_paths e00 e') by done. apply Hf1.
  - apply He. intros p Hp. done.
  - destruct Hs as (? & ? & ? & ?). done.
Qed.
End reach.

(** All events files of the stream [cfg] names, for the whole run. *)
Definition audit_inv (decode_record : list ascii -> result error fileAuditRecord)
    (whole : string -> Prop) (cfg : Config) (component : string) (s : fileEmitter * afs) : Prop :=
  emitter_ok decode_record whole s /\ fe_dir s.1 = cf_Dir cfg /\ fe_stream s.1 = cf_Stream cfg
  /\ fe_component s.1 = component /\ fe_hmacKey s.1 = cf_HMACKey cfg.

Lemma audit_step_inv jm dr ec wh cfg component s s' : json_law jm dr ->
  audit_step jm dr ec wh cfg component s s' -> audit_inv dr wh cfg component s -> audit_inv dr wh cfg component s'.
Proof.
  intros Hlaw Hst (Hok & Hd & Hs & Hc & Hk). destruct Hst as [e m ty fields tr e' m' Hx Hm Hsh Hsm|e m tr e' m' Hx Hm].
  - destruct (emit_ok jm dr ec wh _ _ _ _ _ _ _ Hlaw Hx Hm Hsh Hsm Hok) as (Hok' & ? & ? & ? & ?).
    cbn in *. unfold audit_inv. cbn. split_and!; [done|congruence..].
  - destruct (restart_ok dr wh cfg component tr e' m m' Hx Hm) as (Hok' & ? & ? & ? & ?).
    + intros e0 H1 H2 d f. unfold events_path. rewrite H1, H2. cbn in *. rewrite <- Hd, <- Hs. apply Hok.
    + done.
Qed.

Lemma audit_run_inv jm dr ec wh cfg component s s' : json_law jm dr ->
  rtc (audit_step jm dr ec wh cfg component) s s' -> audit_inv dr wh cfg component s -> audit_inv dr wh cfg component s'.
Proof. intros Hlaw. induction 1; [done|]. intros Hi. eauto using audit_step_inv. Qed.

(** * Checkpoints *)

Lemma framed_trim_string s : framed (s2l s) -> TrimSpace s = s.
Proof. intros Hf. unfold TrimSpace. by rewrite framed_TrimSpace, l2s_s2l. Qed.

Lemma date_no_slash t : byte 47 ∉ s2l (format_date t).
Proof.
  unfold format_date. destruct (civil (t / day)) as [[y mo] d].
  assert (Hp : forall n z, byte 47 ∉ s2l (pad n z)).
  { intros n z Hin. pose proof (pad_digits n z) as Hd. rewrite list.Forall_forall in Hd.
    by destruct (Hd _ Hin). }
  rewrite !s2l_app, !elem_of_app. pose proof (Hp 4%nat y). pose proof (Hp 2%nat mo). pose proof (Hp 2%nat d).
  assert (byte 47 ∉ s2l "-") by (by vm_compute; intros ?%list_elem_of_singleton). tauto.
Qed.

Lemma Base_events e t : byte 47 ∉ s2l (fe_stream e) ->
  TrimSpace (Base (events_path e (format_date t))) = Base (events_path e (format_date t)).
Proof.
  intros Hst. unfold Base, events_path. set (name := "events-" +:+ _).
  assert (Hname : byte 47 ∉ s2l name).
  { unfold name. rewrite !s2l_app, !elem_of_app. pose proof (date_no_slash t).
    assert (Hlit : forall s, bool_decide (byte 47 ∈ s2l s) = false -> byte 47 ∉ s2l s)
      by (intros s; apply bool_decide_eq_false).
    pose proof (Hlit "events-" eq_refl). pose proof (Hlit "-" eq_refl). pose proof (Hlit ".jsonl" eq_refl). tauto. }
  rewrite !s2l_app. change (s2l "/") with [byte 47]. cbn [app]. rewrite last_index_app by done.
  unfold str_drop. rewrite !s2l_app. change (s2l "/") with [byte 47]. cbn [app].
  rewrite drop_app_ge by lia. replace (S (length (s2l (fe_dir e))) - length (s2l (fe_dir e)))%nat with 1%nat by lia.
  change (drop 1 (byte 47 :: s2l name)) with (s2l name). rewrite !l2s_s2l. apply framed_trim_string. unfold name. rewrite !s2l_app.
  change (s2l "events-") with (byte 101 :: s2l "vents-"). change (s2l ".jsonl") with (s2l ".json" ++ [byte 108]).
  eexists (byte 101), _, (byte 108). split; [|vm_compute; intuition lia].
  cbn [app]. f_equal. rewrite !app_assoc. reflexivity.
Qed.

Lemma checkpoint_check e now t : fe_eventsF e = Some (events_path e (format_date t)) ->
  byte 47 ∉ s2l (fe_stream e) -> TrimSpace (fe_stream e) = fe_stream e ->
  TrimSpace (fe_component e) = fe_component e ->
  check_checkpoint (fe_hmacKey e) (checkpoint_of e now) (fe_seq e) (hex_encode (fe_prevHash e)) = Ok tt.
Proof.
  intros Hev Hsl Hst Hco. unfold check_checkpoint, checkpoint_of. rewrite Hev. cbn [from_option]. unfold id.
  cbn [cp_Hash cp_Sig cp_Component cp_Stream cp_File cp_Seq cp_TS].
  rewrite hex_encode_trim. rewrite decide_False by (intros Hn; by apply Hn).
  destruct (decide (fe_hmacKey e = [])) as [Hk|Hk]; [by rewrite decide_False by (intros [Hn _]; by apply Hn)|].
  case_decide; [|done]. rewrite Hst, Hco, Base_events, format_trimmed, hex_encode_trim by done.
  by rewrite decide_True.
Qed.

(** The record of a chain with the last sequence number is the last record. *)
Lemma chain_last_record recs r : chain 0 zero_hash recs -> Z.of_nat (length recs) < 2 ^ 62 -> r ∈ recs ->
  ar_Seq r = (chain_end 0 zero_hash recs).1 -> ar_Hash r = hex_encode (chain_end 0 zero_hash recs).2.
Proof.
  intros Hc Hlen (l1 & l2 & ->)%list_elem_of_split Hs. rewrite length_app in Hlen. cbn in Hlen.
  rewrite (chain_seq _ 0 zero_hash Hc) in Hs by (rewrite ?length_app; cbn; lia).
  replace (l1 ++ r :: l2) with ((l1 ++ [r]) ++ l2) in * by (by rewrite <- app_assoc).
  apply chain_app in Hc as [Hc1 _]. pose proof (chain_seq _ 0 zero_hash Hc1) as Hs1.
  rewrite chain_end_app in Hs1. cbn in Hs1. rewrite !length_app in *. cbn in *.
  destruct l2; [|cbn in *; rewrite Hs1 in Hs; lia].
  rewrite app_nil_r. apply chain_app in Hc1 as [_ (_ & _ & Hh & _)]. rewrite chain_end_app. done.
Qed.

(** * The trail verifies *)

(** The start: no events file of the stream, no open files. *)
Definition audit_start (cfg : Config) (component : string) (s : fileEmitter * afs) : Prop :=
  fe_dir s.1 = cf_Dir cfg /\ fe_stream s.1 = cf_Stream cfg /\ fe_component s.1 = component
  /\ fe_hmacKey s.1 = cf_HMACKey cfg /\ fe_eventsF s.1 = None
  /\ forall date, s.2 !! events_path s.1 date = None.

Lemma audit_start_inv dr wh cfg component s : audit_start cfg component s -> audit_inv dr wh cfg component s.
Proof.
  intros (H1 & H2 & H3 & H4 & H5 & Hf). unfold audit_inv. split_and!; [|done..]. split.
  - intros d f _ Hd. by rewrite Hf in Hd.
  - intros p Hp. by rewrite H5 in Hp.
Qed.

Lemma chain_start_pos dr recs : Forall (rec_ok dr) recs -> recs <> [] -> 0 < (chain_end 0 zero_hash recs).1.
Proof.
  destruct recs as [|r recs _] using rev_ind; [done|]. intros [_ [(_ & _ & _ & H) _]%list.Forall_cons]%list.Forall_app _.
  by rewrite chain_end_app.
Qed.

(** C17: the audit trail verifies.  From an empty directory, after any sequence of
    events and restarts, at any times (over several days), with any calls
    failing: every events file on which all lines written are below 4 MiB and no
    failing write has left a part of its line ([whole]) is empty or accepted by
    [auditctl]; and if it is the file that is open, the verifier finds the
    emitter's own sequence number and hash, also when it is given the checkpoint
    the emitter would sign at that moment, with the emitter's key. *)
Theorem audit_trail_verifies jm dr ec (whole : string -> Prop) cfg component s0 s date f :
  json_law jm dr -> audit_start cfg component s0 ->
  rtc (audit_step jm dr ec whole cfg component) s0 s ->
  whole (events_path s.1 date) -> s.2 !! events_path s.1 date = Some f -> f <> [] ->
  (forall key, exists n h, verifyEvents dr f ∅ key = Ok (n, h)) /\
  (fe_eventsF s.1 = Some (events_path s.1 date) -> (exists now, date = format_date now) ->
   Z.of_nat (length f) < 2 ^ 62 ->
   byte 47 ∉ s2l (cf_Stream cfg) -> TrimSpace (cf_Stream cfg) = cf_Stream cfg ->
   TrimSpace component = component ->
   forall now, verifyEvents dr f {[fe_seq s.1 := checkpoint_of s.1 now]} (cf_HMACKey cfg)
     = Ok (fe_seq s.1, hex_encode (fe_prevHash s.1))).
Proof.
  intros Hlaw Hstart Hrun Hwh Hf Hne.
  destruct (audit_run_inv jm dr ec whole cfg component s0 s Hlaw Hrun
    (audit_start_inv dr whole cfg component s0 Hstart)) as ((Hfiles & Hat) & Hd & Hs & Hc & Hk).
  split.
  - intros key. destruct (Hfiles date f Hwh Hf) as (recs & -> & Hchain & Hok).
    rewrite (verify_file dr ∅ key recs Hchain Hok); [by eexists _, _ | by intros -> | done].
  - intros Hopen [t ->] Hlen Hsl Hst Hco now.
    destruct (Hat _ Hopen) as (_ & _ & Hrecs). destruct (Hrecs Hwh) as (recs & Hr & Hchain & Hok & Hend).
    rewrite Hf in Hr. injection Hr as ->. assert (Hrne : recs <> []) by (by intros ->).
    pose proof (file_length recs). rewrite (verify_file dr _ _ recs Hchain Hok Hrne).
    + by rewrite <- Hend.
    + intros r cp Hin Hcp. destruct (decide (ar_Seq r = fe_seq s.1)) as [Hs1|Hs1];
        [|by rewrite lookup_singleton_ne in Hcp].
      rewrite Hs1, lookup_singleton_eq in Hcp. injection Hcp as <-.
      assert (Hh : ar_Hash r = hex_encode (fe_prevHash s.1)).
      { rewrite (chain_last_record recs r Hchain), <- Hend; [done|lia|done|]. by rewrite <- Hend. }
      rewrite Hs1, Hh, <- Hk. apply (checkpoint_check _ _ t); congruence.
Qed.

(** * A run *)

(** A file system on which every call succeeds, at a time. *)
Definition fs_world (now : Z) (X : Type) (e : aeff X) : afs -> X * afs :=
  match e in aeff T return afs -> T * afs with
  | ANow => fun m => (now, m)
  | AMkdirAll _ => fun m => (Ok tt, m)
  | AOpen p => fun m => (Ok tt, <[p := default [] (m !! p)]> m)
  | AClose _ | ASync _ | ALog _ _ => fun m => (tt, m)
  | AWrite p b => fun m => (Ok tt, <[p := default [] (m !! p) ++ b]> m)
  | ARead p => fun m => (Ok (m !! p), m)
  end.

Lemma run_follows {A} now (p : aprog A) : forall m a tr m',
  run (fs_world now) p m = (a, tr, m') -> exec p tr a /\ forall whole, follows whole tr m m'.
Proof.
  intros m a tr m' Hr. split; [by eapply run_exec|]. intros whole. revert m a tr m' Hr.
  induction p as [a0|X e k IH]; intros m a tr m' Hr; cbn in Hr; [by simplify_eq|].
  destruct (fs_world now X e m) as [x m1] eqn:Hw. destruct (run _ (k x) m1) as [[a1 tr1] m2] eqn:Hk.
  simplify_eq. exists m1. split; [|by eapply IH].
  destruct e; cbn in Hw; simplify_eq; cbn; try done. split; [done|]. by intros c [= <-].
Qed.

(** A reader of the emitter's lines. *)
Definition demo_decode (l : list ascii) : result error fileAuditRecord :=
  let rest := drop 7 l in
  match index_byte (byte 44) rest with
  | None => Err (Errorf "json" [])
  | Some i =>
      match Atoi (l2s (take i rest)) with
      | None => Err (Errorf "json" [])
      | Some n =>
          let r1 := drop 14 (drop i rest) in
          let r2 := drop 10 (drop 64 r1) in
          let r3 := drop 10 (drop 64 r2) in
          Ok {| ar_Seq := n; ar_PrevHash := l2s (take 64 r1); ar_Hash := l2s (take 64 r2);
                ar_Event := take (length r3 - 1) r3 |}
      end
  end.
Definition demo_marshal (m : gmap string value) : result error (list ascii) := Ok (s2l "{}").

Lemma hex_length l : length (s2l (hex_encode l)) = (2 * length l)%nat.
Proof. unfold hex_encode. rewrite s2l_l2s. induction l as [|c l IH]; cbn in *; lia. Qed.

Lemma demo_json_law : json_law demo_marshal demo_decode.
Proof.
  intros v event [= <-]. assert (Hnl : bool_decide (nl ∈ s2l "{}") = false) by (vm_compute; reflexivity).
  split; [by apply bool_decide_eq_false in Hnl|]. clear Hnl.
  intros seq p h Hseq Hp Hh. cbv zeta. unfold demo_decode, encode_record.
  cbn [ar_Seq ar_PrevHash ar_Hash ar_Event]. rewrite !s2l_app.
  pose proof (hex_length p) as Lp. pose proof (hex_length h) as Lh. rewrite Hp in Lp. rewrite Hh in Lh.
  pose proof (Itoa_not_in (byte 44) seq ltac:(vm_compute; lia)) as Hcomma.
  set (sq := s2l (Itoa seq)) in *. set (P := s2l (hex_encode p)) in *. set (H := s2l (hex_encode h)) in *.
  set (L := _ ++ _). assert (HL : drop 7 L = sq ++ byte 44 :: (s2l (DQ +:+ "prev_hash" +:+ DQ +:+ ":" +:+ DQ)
    ++ P ++ s2l (DQ +:+ "," +:+ DQ +:+ "hash" +:+ DQ +:+ ":" +:+ DQ)
    ++ H ++ s2l (DQ +:+ "," +:+ DQ +:+ "event" +:+ DQ +:+ ":") ++ s2l "{}" ++ s2l "}")).
  { unfold L. rewrite !s2l_app, <- !app_assoc. reflexivity. }
  cbv zeta. rewrite HL. rewrite index_byte_app by done.
  rewrite take_app_length, drop_app_length. unfold sq. rewrite l2s_s2l, Atoi_Itoa
    by (unfold int64_range; lia).
  match goal with |- context [drop 14 (byte 44 :: ?a ++ ?b)] =>
    change (drop 14 (byte 44 :: a ++ b)) with b end.
  rewrite (drop_app_length' _ _ 64), (take_app_length' _ _ 64) by done.
  match goal with |- context [drop 10 (?a ++ ?b)] => change (drop 10 (a ++ b)) with b end.
  rewrite (drop_app_length' _ _ 64), (take_app_length' _ _ 64) by done.
  unfold P, H. rewrite !l2s_s2l. reflexivity.
Qed.

Definition demo_cfg : Config := {|
  cf_Stream := "broker"; cf_Dir := "/var/audit"; cf_CheckpointEveryN := 500;
  cf_CheckpointEveryDuration := 60 * second; cf_FsyncOnCheckpoint := true; cf_HMACKey := replicate 16 (byte 7) |}.
Definition demo_emitter : fileEmitter := {|
  fe_component := "broker"; fe_stream := "broker"; fe_dir := "/var/audit"; fe_checkEveryN := 500;
  fe_checkEveryDur := 60 * second; fe_fsync := true; fe_hmacKey := replicate 16 (byte 7);
  fe_openDate := ""; fe_eventsF := None; fe_checkF := None; fe_seq := 0; fe_prevHash := zero_hash;
  fe_lastCheckpoint := 0 |}.
Definition demo_emit : fileEmitter * list aobs * afs :=
  run (fs_world (738944 * day)) (fileEmit demo_marshal demo_decode (fun _ => s2l "{}") demo_emitter
    "networkgrant.approve" [("name", VStr "g1")]) ∅.
Definition demo_file : list ascii := default [] (demo_emit.2 !! events_path demo_emit.1.1 "2024-02-29").

Lemma demo_step : audit_step demo_marshal demo_decode (fun _ => s2l "{}") (fun _ => True) demo_cfg "broker"
  (demo_emitter, ∅) (demo_emit.1.1, demo_emit.2).
Proof.
  destruct (run_follows (738944 * day) (fileEmit demo_marshal demo_decode (fun _ => s2l "{}") demo_emitter
    "networkgrant.approve" [("name", VStr "g1")]) ∅ demo_emit.1.1 demo_emit.1.2 demo_emit.2) as [Hx Hm].
  { unfold demo_emit. destruct (run _ _ _) as [[? ?] ?]. done. }
  eapply step_emit; [exact Hx | exact (Hm _) | |].
  - intros p b _ Hin. assert (Hs : forallb (fun o => match o with
      | Obs (AWrite _ b) _ => Z.of_nat (length b) + 1 <? 4 * 2 ^ 20 | _ => true end) demo_emit.1.2 = true)
      by (vm_compute; reflexivity).
    rewrite forallb_elem_of in Hs. specialize (Hs _ Hin). cbn in Hs. by apply Z.ltb_lt in Hs.
  - intros p f Hp. by rewrite lookup_empty in Hp.
Qed.

Lemma audit_trail_verifies_witness :
  length demo_file = 174%nat /\
  verifyEvents demo_decode demo_file {[fe_seq demo_emit.1.1 := checkpoint_of demo_emit.1.1 0]}
    (cf_HMACKey demo_cfg) = Ok (1, hex_encode (fe_prevHash demo_emit.1.1)).
Proof.
  split; [vm_compute; reflexivity|].
  apply (audit_trail_verifies demo_marshal demo_decode (fun _ => s2l "{}") (fun _ => True) demo_cfg "broker"
    (demo_emitter, ∅) (demo_emit.1.1, demo_emit.2) "2024-02-29" demo_file demo_json_law).
  - unfold audit_start. do 5 (split; [reflexivity|]). intros date. apply lookup_empty.
  - apply rtc_once, demo_step.
  - exact I.
  - vm_compute. reflexivity.
  - vm_compute. discriminate.
  - vm_compute. reflexivity.
  - exists (738944 * day). vm_compute. reflexivity.
  - vm_compute. reflexivity.
  - apply (proj1 (bool_decide_eq_false _)). vm_compute. reflexivity.
  - vm_compute. reflexivity.
  - vm_compute. reflexivity.
Defined.

(** A torn write: the disk is full after ten bytes of the first record, the
    next event is written.  The emitter goes on in the middle of the line, so the
    file holds one line, which is no JSON value ([{] and a key, then [{] again). *)
Definition torn_world (now : Z) (X : Type) (e : aeff X) : afs -> X * afs :=
  match e in aeff T return afs -> T * afs with
  | AWrite p b => fun m =>
      (Err (Errorf "no space left on device" []), <[p := default [] (m !! p) ++ take 10 b]> m)
  | e => fs_world now _ e
  end.
Definition demo_fields : list (string * value) := [("name", VStr "g1")].
Definition torn_first : fileEmitter * list aobs * afs :=
  run (torn_world (738944 * day)) (fileEmit demo_marshal demo_decode (fun _ => s2l "{}") demo_emitter
    "networkgrant.approve" demo_fields) ∅.
Definition torn_second : fileEmitter * list aobs * afs :=
  run (fs_world (738944 * day)) (fileEmit demo_marshal demo_decode (fun _ => s2l "{}") torn_first.1.1
    "networkgrant.approve" demo_fields) torn_first.2.
Definition torn_line : list ascii :=
  take 10 (encode_record (next_record demo_emitter (s2l "{}")))
  ++ encode_record (next_record demo_emitter (s2l "{}")).

(** Whatever reader does not take such a line for a record, the file is refused. *)
Lemma torn_write_breaks_trail dr : is_ok (dr torn_line) = false ->
  torn_second.2 !! events_path demo_emitter "2024-02-29" = Some (torn_line ++ [nl])
  /\ is_ok (verifyEvents dr (torn_line ++ [nl]) ∅ []) = false.
Proof.
  intros Hdr. split; [vm_compute; reflexivity|]. unfold verifyEvents.
  assert (Hs : scan_lines (4 * 2 ^ 20) (torn_line ++ [nl]) = ([torn_line], false)) by (vm_compute; reflexivity).
  rewrite Hs. cbn [verify_lines]. unfold verify_line.
  assert (Ht : bytesTrimSpace torn_line = torn_line) by (vm_compute; reflexivity).
  rewrite Ht. rewrite decide_False by (vm_compute; discriminate).
  cbv zeta. destruct (dr torn_line) as [r|e]; [discriminate Hdr | reflexivity].
Qed.

(** * What the verifier's answer says *)

Section evidence.
Context (dr : list ascii -> result error fileAuditRecord).

(** The event of a line, if any. *)
Definition line_event (l : list ascii) : option (list ascii) :=
  let l := bytesTrimSpace l in
  if decide (l = []) then None else ar_Event <$> ok_opt (dr l).
(** The events of a file. *)
Definition events_of (f : list ascii) : list (list ascii) :=
  omap line_event (scan_lines (4 * 2 ^ 20) f).1.

Definition hash_events (prev : list ascii) (evs : list (list ascii)) : list ascii :=
  fold_left (fun p e => sha256 (p ++ e)) evs prev.

Lemma hash_events_length evs : forall prev, length prev = 32%nat -> length (hash_events prev evs) = 32%nat.
Proof. induction evs as [|e evs IH]; intros prev Hp; cbn; [done|]. by apply IH. Qed.

Lemma verify_line_spec cps key l s s' : verify_line dr cps key l s = Ok s' ->
  match line_event l with
  | None => s' = s
  | Some e => s' = {| v_seq := wrap64 (v_seq s + 1); v_hash := sha256 (v_hash s ++ e) |}
  end.
Proof.
  unfold verify_line, line_event. cbv zeta. case_decide; [by intros [= ->]|].
  destruct (dr (bytesTrimSpace l)) as [r|]; [|done]. cbn.
  destruct (decide (ar_Seq r <> _)) as [|Hs]; [done|]. destruct (decide (TrimSpace (ar_PrevHash r) <> _)); [done|].
  destruct (decide (TrimSpace (ar_Hash r) <> _)); [done|].
  assert (ar_Seq r = wrap64 (v_seq s + 1)) as <- by (destruct (decide (ar_Seq r = wrap64 (v_seq s + 1))); tauto).
  destruct (cps !! ar_Seq r) as [cp|]; [destruct (check_checkpoint _ _ _ _)|]; congruence.
Qed.

Lemma verify_lines_spec cps key ls : forall s s', verify_lines dr cps key ls s = Ok s' ->
  0 <= v_seq s -> v_seq s + Z.of_nat (length ls) < 2 ^ 63 ->
  v_seq s' = v_seq s + Z.of_nat (length (omap line_event ls))
  /\ v_hash s' = hash_events (v_hash s) (omap line_event ls).
Proof.
  induction ls as [|l ls IH]; intros s s' H H0 Hlt; cbn in H.
  - injection H as <-. cbn. split; [lia | done].
  - destruct (verify_line _ _ _ _ _) as [s1|] eqn:Hl; [|done]. cbn in H. cbn [length] in Hlt.
    pose proof (verify_line_spec _ _ _ _ _ Hl) as Hs. cbn [omap list_omap].
    destruct (line_event l) as [e|]; subst s1.
    + assert (Hw : wrap64 (v_seq s + 1) = v_seq s + 1) by (apply wrap64_id; unfold int64_range; lia).
      rewrite Hw in H. destruct (IH _ _ H) as [-> ->]; cbn; [lia..|]. split; [lia | done].
    + destruct (IH _ _ H) as [-> ->]; [lia..|]. done.
Qed.

Lemma scan_cons max p rest : rest <> [] ->
  scan max (p :: rest) = if max <=? Z.of_nat (length p) then ([], true)
    else let '(ls, long) := scan max rest in (p :: ls, long).
Proof. by destruct rest. Qed.

Lemma scan_length max f : (length (scan_lines max f).1 <= S (length f))%nat.
Proof.
  unfold scan_lines. assert (H : forall ps, (length (scan max ps).1 <= length ps)%nat).
  { induction ps as [|p ps IH]; [done|]. destruct (decide (ps = [])) as [->|Hne].
    - cbn. destruct (max <=? _); cbn; [lia|]. case_decide; cbn; lia.
    - rewrite scan_cons by done. destruct (max <=? _); cbn; [lia|].
      destruct (scan max ps) as [ls b]. cbn in *. lia. }
  assert (Hs : forall l, (length (splitL nl l) <= S (length l))%nat).
  { induction l as [|c l IH]; cbn; [done|]. case_decide; cbn; [lia|]. destruct (splitL nl l); cbn in *; lia. }
  specialize (H (splitL nl f)). specialize (Hs f). destruct (scan max (splitL nl f)) as [ls b]. cbn in *.
  rewrite length_fmap. lia.
Qed.

Lemma verifyEvents_spec f cps key n h : verifyEvents dr f cps key = Ok (n, h) ->
  Z.of_nat (length f) < 2 ^ 62 ->
  n = Z.of_nat (length (events_of f)) /\ h = hex_encode (hash_events zero_hash (events_of f)).
Proof.
  unfold verifyEvents, events_of. intros H Hlen. pose proof (scan_length (4 * 2 ^ 20) f) as Hsl.
  destruct (scan_lines _ f) as [ls long]. cbn [fst] in *.
  destruct (verify_lines _ _ _ _ _) as [s|[]] eqn:Hv; [|done].
  apply verify_lines_spec in Hv as [Hs Hh]; [|cbn; lia..]. cbn in Hs, Hh.
  destruct long; [done|]. destruct (v_seq s =? 0); [done|]. injection H as <- <-. by rewrite Hs, Hh.
Qed.

(** The bytes hashed for the event number [i]: the hash before it, then the event. *)
Definition hash_input (p : list ascii) (evs : list (list ascii)) (i : nat) : list ascii :=
  hash_events p (take i evs) ++ default [] (evs !! i).

(** At some event the two files hash different bytes to the same value. *)
Definition collide (p : list ascii) (evs1 evs2 : list (list ascii)) : Prop :=
  exists i, (i < length evs1)%nat /\ (i < length evs2)%nat
    /\ hash_input p evs1 i <> hash_input p evs2 i
    /\ sha256 (hash_input p evs1 i) = sha256 (hash_input p evs2 i).

Lemma hash_input_app p l1 l2 i : (i < length l1)%nat -> hash_input p (l1 ++ l2) i = hash_input p l1 i.
Proof. intros Hi. unfold hash_input. by rewrite take_app_le, lookup_app_l by lia. Qed.
Lemma hash_input_end p l e : hash_input p (l ++ [e]) (length l) = hash_events p l ++ e.
Proof. unfold hash_input. by rewrite take_app_length, list_lookup_middle. Qed.

Lemma hash_events_inj evs1 : forall evs2 p, length p = 32%nat -> length evs1 = length evs2 ->
  hash_events p evs1 = hash_events p evs2 ->
  evs1 = evs2 \/ collide p evs1 evs2.
Proof.
  induction evs1 as [|e1 l1 IH] using rev_ind; intros evs2 p Hp Hlen Heq.
  - left. by destruct evs2.
  - destruct evs2 as [|e2 l2 _] using rev_ind; rewrite !length_app in Hlen; cbn in Hlen; [lia|].
    unfold hash_events in Heq. rewrite !fold_left_app in Heq. cbn in Heq.
    fold (hash_events p l1) (hash_events p l2) in Heq.
    assert (Hl : length l1 = length l2) by lia.
    destruct (decide (hash_events p l1 ++ e1 = hash_events p l2 ++ e2)) as [Hsame|Hne].
    + apply app_inj_1 in Hsame as [Hh ->]; [|by rewrite !hash_events_length].
      destruct (IH l2 p Hp Hl Hh) as [->|(i & H1 & H2 & Hi)]; [by left|right].
      exists i. rewrite !length_app, !hash_input_app by done. split; [lia|]. split; [lia | done].
    + right. exists (length l1). rewrite !length_app, hash_input_end, Hl, hash_input_end.
      cbn. split; [lia|]. split; [lia|]. split; [done | exact Heq].
Qed.
End evidence.

(** C18: tamper evidence.  The last hash [auditctl] prints fixes the events: two
    files it accepts with the same sequence number and the same hash (whatever
    the checkpoints and keys) hold the same events in the same order, unless the
    two files collide: at some event both have, the bytes the chain hashes there
    (the hash so far and the event) differ, and their SHA-256 hashes do not. *)
Theorem audit_hash_fixes_events dr f1 f2 c1 c2 k1 k2 n h :
  verifyEvents dr f1 c1 k1 = Ok (n, h) -> verifyEvents dr f2 c2 k2 = Ok (n, h) ->
  Z.of_nat (length f1) < 2 ^ 62 -> Z.of_nat (length f2) < 2 ^ 62 ->
  events_of dr f1 = events_of dr f2 \/ collide zero_hash (events_of dr f1) (events_of dr f2).
Proof.
  intros H1 H2 L1 L2. destruct (verifyEvents_spec dr _ _ _ _ _ H1 L1) as [-> ->].
  destruct (verifyEvents_spec dr _ _ _ _ _ H2 L2) as [Hn Hh].
  apply (inj hex_encode) in Hh. by eapply hash_events_inj; [|lia|exact Hh].
Qed.

Lemma scan_prefix max ps : forall rest ls, rest <> [] -> scan max (ps ++ rest) = (ls, false) -> 0 < max ->
  exists ls', ls = ps ++ ls' /\ scan max (ps ++ [[]]) = (ps, false).
Proof.
  induction ps as [|p ps IH]; intros rest ls Hne Hs Hmax.
  - exists ls. split; [done|]. cbn. by destruct (Z.leb_spec max (Z.of_nat 0)); [lia|].
  - cbn [app] in *. rewrite scan_cons in * by (intros [_ ?]%app_eq_nil; done).
    destruct (max <=? Z.of_nat (length p)); [done|].
    destruct (scan max (ps ++ rest)) as [ls1 b] eqn:Hs1. injection Hs as <- ->.
    destruct (IH rest ls1 Hne Hs1 Hmax) as (ls' & -> & Hp). exists ls'. split; [done|]. by rewrite Hp.
Qed.

Lemma verify_lines_app dr cps key l1 : forall l2 s s', verify_lines dr cps key (l1 ++ l2) s = Ok s' ->
  exists s1, verify_lines dr cps key l1 s = Ok s1.
Proof.
  induction l1 as [|l l1 IH]; intros l2 s s' H; cbn in *; [by exists s|].
  destruct (verify_line _ _ _ _ _); [|done]. by eapply IH.
Qed.

(** A truncated trail verifies.  Cutting whole lines off the end of an
    accepted file leaves a file that is accepted with the same checkpoints and
    key, as long as an event is left: the verifier looks up a checkpoint when it
    meets the record of its sequence number, so the checkpoints of the records
    that were cut off are never missed. *)
Lemma truncated_trail_verifies dr g k cps key r :
  verifyEvents dr (g ++ nl :: k) cps key = Ok r -> Z.of_nat (length (g ++ nl :: k)) < 2 ^ 62 ->
  events_of dr (g ++ [nl]) <> [] ->
  exists n h, verifyEvents dr (g ++ [nl]) cps key = Ok (n, h)
    /\ n = Z.of_nat (length (events_of dr (g ++ [nl]))).
Proof.
  intros H Hlen Hev. assert (Hok : exists n h, verifyEvents dr (g ++ [nl]) cps key = Ok (n, h)).
  { unfold verifyEvents, events_of, scan_lines in *. rewrite splitL_sep in *.
    destruct (scan _ (splitL nl g ++ splitL nl k)) as [ls long] eqn:Hs.
    destruct (verify_lines _ _ _ _ _) as [s|[]] eqn:Hv; [|done]. destruct long; [done|].
    destruct (scan_prefix _ _ _ _ (splitL_nonempty nl k) Hs ltac:(lia)) as (ls' & -> & Hp).
    change (splitL nl []) with [@nil ascii] in *. rewrite Hp in *. cbn [fst] in Hev.
    rewrite fmap_app in Hv. destruct (verify_lines_app _ _ _ _ _ _ _ Hv) as [s1 Hs1]. rewrite Hs1.
    pose proof (verify_lines_spec dr _ _ _ _ _ Hs1) as Hspec. cbn [v_seq v_hash] in Hspec.
    destruct Hspec as [Hq _]; [lia| |].
    - rewrite length_fmap. assert (length (splitL nl g) <= S (length g))%nat.
      { clear. induction g as [|c l IH]; cbn; [done|]. case_decide; cbn; [lia|]. destruct (splitL nl l); cbn in *; lia. }
      rewrite length_app in Hlen. lia.
    - destruct (Z.eqb_spec (v_seq s1) 0) as [Hz|]; [|by eexists _, _].
      exfalso. apply Hev. apply length_zero_iff_nil. lia. }
  destruct Hok as (n & h & Hok). exists n, h. split; [done|].
  eapply verifyEvents_spec in Hok as [? _]; [done|]. rewrite length_app in *. cbn in *. lia.
Qed.

Lemma audit_hash_fixes_events_witness :
  demo_file <> demo_file ++ s2l "  " ++ [nl] /\
  (events_of demo_decode demo_file = events_of demo_decode (demo_file ++ s2l "  " ++ [nl])
   \/ collide zero_hash (events_of demo_decode demo_file)
        (events_of demo_decode (demo_file ++ s2l "  " ++ [nl]))).
Proof.
  split; [vm_compute; discriminate|].
  apply (audit_hash_fixes_events demo_decode demo_file (demo_file ++ s2l "  " ++ [nl]) ∅ ∅ [] [] 1
    (hex_encode (fe_prevHash demo_emit.1.1))); vm_compute; reflexivity.
Defined.

(** Two events, with a signed checkpoint of the second. *)
Definition demo_emitter2 : fileEmitter := advance demo_emit.1.1 (s2l "{}").
Definition demo_line2 : list ascii := encode_record (next_record demo_emit.1.1 (s2l "{}")) ++ [nl].
Definition demo_cut : list ascii := take (length demo_file - 1) demo_file.

Lemma truncated_trail_verifies_witness :
  verifyEvents demo_decode (demo_cut ++ nl :: demo_line2)
    {[2 := checkpoint_of demo_emitter2 0]} (cf_HMACKey demo_cfg) = Ok (2, hex_encode (fe_prevHash demo_emitter2))
  /\ exists n h, verifyEvents demo_decode (demo_cut ++ [nl]) {[2 := checkpoint_of demo_emitter2 0]}
    (cf_HMACKey demo_cfg) = Ok (n, h) /\ n = 1.
Proof.
  split; [vm_compute; reflexivity|].
  destruct (truncated_trail_verifies demo_decode demo_cut demo_line2 {[2 := checkpoint_of demo_emitter2 0]}
    (cf_HMACKey demo_cfg) (2, hex_encode (fe_prevHash demo_emitter2))) as (n & h & Hv & Hn).
  - vm_compute. reflexivity.
  - vm_compute. reflexivity.
  - vm_compute. discriminate.
  - exists n, h. split; [exact Hv|]. rewrite Hn. vm_compute. reflexivity.
Defined.
