(* ===== verification/AuditShip.v ===== *)
(** [auditship] (src/cmd/auditship/main.go): the audit files of a directory are
    uploaded, oldest first.

    [os.ReadDir], the files and the upload are calls; the configuration of the
    store is Artifacts'.  Theorem: what a run has uploaded is a prefix of the sorted
    audit files, all of them when it succeeds, each under a key of its own; the files
    the emitter writes (AuditLog) are among them. *)
From stdpp Require Import sorting.
From S2P Require Export Artifacts CliEnv AuditTrail.
From stdpp Require Import options.
Open Scope Z_scope.

Inductive seff : Type -> Type :=
| SErr (msg : string) : seff unit
| SOut (msg : string) : seff unit
(* the entries with their names and whether they are directories *)
| SReadDir (dir : string) : seff (result error (list (string * bool)))
| SReadFile (path : string) : seff (result error (list ascii))
| SPut (key contentType : string) (body : list ascii) : seff (result error unit).
Notation sprog := (prog seff).
Notation sobs := (obs seff).

(** * Names *)

Definition is_digit (c : ascii) : bool := ((48 <=? code c) && (code c <=? 57))%nat.
(** [dateRe] on a text of ten bytes. *)
Definition dateRe (s : list ascii) : bool :=
  match s with
  | [y1; y2; y3; y4; d1; m1; m2; d2; a; b] =>
      forallb is_digit [y1; y2; y3; y4; m1; m2; a; b] && bool_decide (d1 = byte 45) && bool_decide (d2 = byte 45)
  | _ => false
  end.

Definition parseStreamDate (stem : string) : option (string * string) :=
  let stem := s2l (TrimSpace stem) in
  if (length stem <? 12)%nat then None else
  let date := drop (length stem - 10) stem in
  if negb (dateRe date) then None else
  if decide (stem !! (length stem - 11)%nat <> Some (byte 45)) then None else
  let stream := TrimSpace (l2s (take (length stem - 11) stem)) in
  if decide (stream = "") then None else Some (stream, l2s date).

Definition parse_kind (name kind : string) : option (string * string * string) :=
  '(stream, date) ← parseStreamDate (TrimSuffix (TrimPrefix name (kind +:+ "-")) ".jsonl");
  Some (stream, date, kind).
Definition parseAuditFilename (name : string) : option (string * string * string) :=
  if HasPrefix name "events-" && HasSuffix name ".jsonl" then parse_kind name "events" else
  if HasPrefix name "checkpoints-" && HasSuffix name ".jsonl" then parse_kind name "checkpoints" else None.

(** * The files *)

Record item := { it_name : string; it_stream : string; it_date : string; it_kind : string }.

Definition audit_item (de : string * bool) : option item :=
  if de.2 then None else
  '(stream, date, kind) ← parseAuditFilename de.1;
  Some {| it_name := de.1; it_stream := stream; it_date := date; it_kind := kind |}.

(** By date, stream and name. *)
Definition ship_le (a b : item) : Prop :=
  if decide (it_date a = it_date b) then
    if decide (it_stream a = it_stream b) then str_le (it_name a) (it_name b) else str_le (it_stream a) (it_stream b)
  else str_le (it_date a) (it_date b).
#[global] Instance ship_le_dec a b : Decision (ship_le a b).
Proof. unfold ship_le. repeat case_decide; apply _. Defined.

Definition item_key (store : S3Store) (it : item) : string :=
  Key store ["audit"; it_date it; "stream=" +:+ it_stream it; it_name it].

Section ship.
Context (store : S3Store) (dir : string) (dryRun : bool).

Definition sfail (code : Z) (msg : string) : sprog Z := _ ← trigger (SErr msg); mret code.

Fixpoint ship (items : list item) : sprog Z :=
  match items with
  | [] => mret 0
  | it :: rest =>
      b ← trigger (SReadFile (path_Join dir (it_name it)));
      match b with
      | Err _ => sfail 1 "read"
      | Ok b =>
          if dryRun then _ ← trigger (SOut ("would upload " +:+ path_Join dir (it_name it) +:+ " -> " +:+ item_key store it)); ship rest
          else
            r ← Put (Some store) (item_key store it) "text/plain; charset=utf-8" (fun key ct => trigger (SPut key ct b));
            match r with
            | Err _ => sfail 1 "upload"
            | Ok _ => _ ← trigger (SOut ("uploaded " +:+ it_name it +:+ " -> " +:+ item_key store it)); ship rest
            end
      end
  end.
End ship.

Section command.
Context (url_Parse : string -> result error unit) (LoadDefaultConfig : S3Config -> result error unit)
  (env : string -> string).

Definition auditship (dir prefix : string) (dryRun : bool) : sprog Z :=
  if decide (TrimSpace dir = "") then sfail 2 "missing --dir (or AUDIT_DIR)" else
  match NewS3FromEnvWithPrefix url_Parse LoadDefaultConfig env (TrimSpace prefix) with
  | Err _ => sfail 1 "s3:"
  | Ok store =>
      files ← trigger (SReadDir dir);
      match files with
      | Err _ => sfail 1 "readdir:"
      | Ok files =>
          match omap audit_item files with
          | [] => sfail 1 "no audit files found"
          | items => ship store dir dryRun (merge_sort ship_le items)
          end
      end
  end.
End command.

Example parse_ex : (parseAuditFilename "events-broker-2026-01-31.jsonl", parseAuditFilename "checkpoints-a-b-2026-01-31.jsonl",
    parseAuditFilename "events-2026-01-31.jsonl", parseAuditFilename "events-x-2026-1-31.jsonl", parseAuditFilename "events-x.jsonl")
  = (Some ("broker", "2026-01-31", "events"), Some ("a-b", "2026-01-31", "checkpoints"), None, None, None).
Proof. vm_compute. done. Qed.

(** * Keys *)

Definition object_of (store : S3Store) (it : item) : string := object_key (item_key store it).

Lemma trim_left_stop c r : solid c -> forall n P, (length P < n)%nat ->
  exists P', trim_left (P ++ c :: r) = P' ++ c :: r.
Proof.
  intros Hc. assert (Hlow : forall k, (128 <= k)%nat -> (code c =? k)%nat = false).
  { destruct Hc as [Hc _]. intros k Hk. apply Nat.eqb_neq. lia. }
  assert (Hle : (0x80 <=? code c)%nat = false) by (apply Nat.leb_gt; by destruct Hc).
  unfold trim_left. induction n as [|n IH]; intros P Hn; [lia|].
  destruct P as [|a P1]; [exists []; by apply trimL_id, leads_fwd_solid|]. cbn [app length] in *.
  rewrite trimL_cons. destruct (space1 a); [apply IH; lia|].
  destruct P1 as [|b P2]; cbn [app length] in *.
  { exists [a]. unfold space2. rewrite !Hlow, orb_diag, andb_false_r by lia. destruct r as [|d r]; [done|].
    unfold space3. rewrite !Hlow by lia. by rewrite !andb_false_r. }
  destruct (space2 a b); [apply IH; lia|]. destruct P2 as [|d P3]; cbn [app length] in *.
  { exists [a; b]. unfold space3. rewrite !Hlow, Hle by lia. by rewrite !andb_false_r. }
  destruct (space3 a b d); [apply IH; lia | by exists (a :: b :: d :: P3)].
Qed.

Lemma trim_right_stop l c : solid c -> trim_right (l ++ [c]) = l ++ [c].
Proof.
  intros Hc. unfold trim_right. rewrite trimL_id; [apply reverse_involutive|]. by apply leads_bwd_solid.
Qed.

Lemma drop_byte_last sep P n : sep ∉ n -> list.last (splitL sep (drop_byte sep (P ++ sep :: n))) = Some n.
Proof.
  intros Hn. induction P as [|c P IH]; cbn [app drop_byte].
  - rewrite decide_True by done. by rewrite drop_byte_none, splitL_none.
  - case_decide; [done|]. rewrite app_comm_cons, splitL_sep, (splitL_none sep n) by done. by rewrite last_snoc.
Qed.

(** A name of an audit file: no slash, and neither end can be trimmed. *)
Definition audit_name (name : string) : Prop :=
  byte 47 ∉ s2l name /\ exists a m b, s2l name = a :: m ++ [b] /\ solid a /\ solid b.

Lemma key_part_id name : audit_name name -> key_part name = name.
Proof.
  intros (Hs & Hf). unfold key_part. by rewrite framed_trim_string, Trim_none.
Qed.

(** The key ends with the last part, behind a slash. *)
Lemma Key_last store ps name : audit_name name -> ps <> [] ->
  exists P, s2l (Key store (ps ++ [name])) = P ++ byte 47 :: s2l name.
Proof.
  intros Hn _. pose proof (key_part_id _ Hn) as Hk. destruct Hn as (_ & a & m & b & Hf & _).
  unfold Key. rewrite fmap_app. cbn [fmap list_fmap]. rewrite Hk, list.filter_app, filter_cons_True, filter_nil
    by (intros He; by rewrite He in Hf).
  generalize (filter (fun t => t <> "") (key_part <$> ps)) as qs. intros qs. rewrite s2l_Join.
  generalize (st_prefix store) as x. induction qs as [|q qs IH]; intros x; [by exists (s2l x)|].
  destruct (IH q) as [P HP]. cbn [app fmap list_fmap] in *. exists (s2l x ++ byte 47 :: P).
  rewrite joinL_cons by done. rewrite HP. by rewrite <- app_assoc.
Qed.

Lemma object_last store it : audit_name (it_name it) ->
  list.last (splitL (byte 47) (s2l (object_of store it))) = Some (s2l (it_name it)).
Proof.
  intros Hn. destruct (Key_last store ["audit"; it_date it; "stream=" +:+ it_stream it] _ Hn ltac:(done)) as [P HP].
  destruct Hn as (Hs & a & m & b & Hf & Ha & Hb).
  unfold object_of, object_key, TrimSpace. rewrite !s2l_l2s.
  change (item_key store it) with (Key store (["audit"; it_date it; "stream=" +:+ it_stream it] ++ [it_name it])).
  rewrite HP. unfold TrimSpaceL.
  destruct (trim_left_stop (byte 47) (s2l (it_name it)) ltac:(vm_compute; intuition lia) (S (length P)) P ltac:(lia)) as [P' ->].
  replace (P' ++ byte 47 :: s2l (it_name it)) with ((P' ++ byte 47 :: a :: m) ++ [b]) by (rewrite Hf; by rewrite <- app_assoc).
  rewrite trim_right_stop by done. rewrite <- app_assoc. cbn [app]. rewrite <- Hf. by apply drop_byte_last.
Qed.

Lemma audit_item_name de it : audit_item de = Some it -> de = (it_name it, false) /\
  parseAuditFilename (it_name it) = Some (it_stream it, it_date it, it_kind it).
Proof.
  destruct de as [name []]; unfold audit_item; cbn [fst snd]; [done|].
  destruct (parseAuditFilename name) as [[[stream date] kind]|] eqn:Hp; [|done]. cbn. by intros [= <-].
Qed.

Lemma parsed_ends name r : parseAuditFilename name = Some r ->
  exists a x y, s2l name = a :: x /\ solid a /\ s2l name = y ++ s2l ".jsonl".
Proof.
  unfold parseAuditFilename. intros H.
  assert (Hp : exists p, (p = "events-" \/ p = "checkpoints-") /\ HasPrefix name p = true /\ HasSuffix name ".jsonl" = true).
  { destruct (HasPrefix name "events-") eqn:H1, (HasSuffix name ".jsonl") eqn:H2; cbn [andb] in H;
      [by exists "events-"; auto | | |]; destruct (HasPrefix name "checkpoints-") eqn:H3; try done; by exists "checkpoints-"; auto. }
  destruct Hp as (p & Hp & [x Hx]%HasPrefix_spec & [y Hy]%HasSuffix_spec).
  destruct Hp as [-> | ->]; [exists (byte 101), (s2l ("vents-" +:+ x)), (s2l y) | exists (byte 99), (s2l ("heckpoints-" +:+ x)), (s2l y)];
    (split; [by rewrite Hx, !s2l_app | split; [vm_compute; intuition lia | by rewrite Hy at 1; rewrite s2l_app]]).
Qed.

Lemma parsed_audit_name name r : parseAuditFilename name = Some r -> byte 47 ∉ s2l name -> audit_name name.
Proof.
  intros (a & x & y & Hx & Ha & Hy)%parsed_ends Hs. split; [done|].
  change (s2l ".jsonl") with (s2l ".json" ++ [byte 108]) in Hy. rewrite (assoc_L (++)) in Hy.
  destruct (y ++ s2l ".json") as [|a' m] eqn:E; [by apply app_nil in E as [_ ?]|].
  exists a, m, (byte 108). rewrite Hx in Hy. injection Hy as <- ->. rewrite Hx. split; [done|]. split; [done|].
  vm_compute. intuition lia.
Qed.

Lemma object_inj store a b : audit_name (it_name a) -> audit_name (it_name b) ->
  object_of store a = object_of store b -> it_name a = it_name b.
Proof.
  intros Ha Hb Heq. apply s2l_inj, (inj Some). rewrite <- (object_last store a Ha), Heq. by apply object_last.
Qed.

(** * What a run uploads *)

Definition put_key (o : sobs) : option string := match o with Obs (SPut k _ _) _ => Some k | _ => None end.

Section run.
Context (store : S3Store) (dir : string).

(** The file of the item was read, and its bytes accepted under its key. *)
Definition uploaded (t : list sobs) (it : item) : Prop := exists ct b,
  Obs (SReadFile (path_Join dir (it_name it))) (Ok b) ∈ t /\ Obs (SPut (object_of store it) ct b) (Ok tt) ∈ t.

Lemma Put_exec {E} st key ct (call : string -> string -> prog E (result error unit)) t r :
  exec (Put st key ct call) t r ->
  (t = [] /\ exists e, r = Err e) \/ exists ct', exec (call (object_key key) ct') t r.
Proof.
  unfold Put. destruct (negb (Enabled st)); [intros [-> ->]; eauto|]. case_decide; [intros [-> ->]; eauto|].
  intros Hx. right. eauto.
Qed.

Lemma uploaded_more t1 t2 t3 it : uploaded t2 it -> uploaded (t1 ++ t2 ++ t3) it.
Proof.
  intros (ct & b & Hr & Hp). exists ct, b. rewrite !elem_of_app. auto.
Qed.

Definition ship_spec (dryRun : bool) (items : list item) (t : list sobs) (code : Z) : Prop :=
  omap put_key t `prefix_of` (if dryRun then [] else object_of store <$> items)
  /\ (code = 0 -> dryRun = false -> omap put_key t = object_of store <$> items /\ Forall (uploaded t) items)
  /\ (forall k ct b r, Obs (SPut k ct b) r ∈ t -> exists it, it ∈ items /\ k = object_of store it
        /\ Obs (SReadFile (path_Join dir (it_name it))) (Ok b) ∈ t).

Lemma ship_stop dryRun items t code : omap put_key t = [] -> code <> 0 -> ship_spec dryRun items t code.
Proof.
  intros Ht Hc. unfold ship_spec. rewrite Ht. split; [apply prefix_nil|]. split; [by intros ->|].
  intros k ct b r Hin. exfalso. assert (Hk : k ∈ omap put_key t) by (apply list_elem_of_omap; by eexists (Obs _ _)).
  rewrite Ht in Hk. by apply not_elem_of_nil in Hk.
Qed.

Lemma ship_more dryRun it items t code b ct m :
  ship_spec dryRun items t code ->
  ship_spec dryRun (it :: items) (Obs (SReadFile (path_Join dir (it_name it))) (Ok b)
    :: (if dryRun then [] else [Obs (SPut (object_of store it) ct b) (Ok tt)]) ++ Obs (SOut m) tt :: t) code.
Proof.
  intros (H1 & H2 & H3). destruct dryRun; unfold ship_spec; cbn [omap list_omap put_key app].
  - split; [done|]. split; [done|]. intros k ct' b' r. rewrite !elem_of_cons. intros [|[|Hin]]; [done | done|].
    destruct (H3 _ _ _ _ Hin) as (it' & ? & ? & ?). exists it'. rewrite !elem_of_cons. auto 10.
  - split; [by apply prefix_cons|]. split.
    + intros Hc _. destruct (H2 Hc eq_refl) as [-> HF]. split; [done|]. constructor.
      * exists ct, b. split; [by left | by right; left].
      * eapply list.Forall_impl; [exact HF|]. intros x (ct' & b' & Hr & Hp). exists ct', b'. split; by do 3 right.
    + intros k ct' b' r. rewrite !elem_of_cons. intros [|[Hin|[|Hin]]]; [done | | done|].
      * inversion Hin; subst. exists it. split; [by left|]. split; [done | by left].
      * destruct (H3 _ _ _ _ Hin) as (it' & ? & ? & ?). exists it'. rewrite !elem_of_cons. auto 10.
Qed.

Lemma ship_refused it items b ct e m :
  ship_spec false (it :: items) [Obs (SReadFile (path_Join dir (it_name it))) (Ok b);
    Obs (SPut (object_of store it) ct b) (Err e); Obs (SErr m) tt] 1.
Proof.
  unfold ship_spec. cbn [omap list_omap put_key]. split; [apply prefix_cons, prefix_nil|]. split; [done|].
  intros k ct' b' r. rewrite !elem_of_cons. intros [|[Hin|[|[]%elem_of_nil]]]; [done | | done].
  inversion Hin; subst. exists it. split; [by left|]. split; [done | by left].
Qed.

Lemma ship_exec dryRun items : forall t code, exec (ship store dir dryRun items) t code -> ship_spec dryRun items t code.
Proof.
  induction items as [|it rest IH]; intros t code; cbn [ship].
  { intros [-> ->]. split; [by destruct dryRun|]. split; [done|]. by intros k ct b r ?%not_elem_of_nil. }
  intros (t1 & t2 & r & -> & ->%exec_trigger & Hx)%exec_bind. destruct r as [b|e]; cycle 1.
  { destruct Hx as ([] & ? & -> & -> & ->). by apply ship_stop. }
  destruct dryRun.
  - apply exec_bind in Hx as (t1 & t3 & [] & -> & ->%exec_trigger & Hx). by eapply (ship_more true), IH.
  - apply exec_bind in Hx as (t1 & t3 & r & -> & Hput & Hx).
    apply Put_exec in Hput as [(-> & e & ->)|(ct & ->%exec_trigger)].
    { destruct Hx as ([] & ? & -> & -> & ->). by apply ship_stop. }
    destruct r as [[]|e]; [|destruct Hx as ([] & ? & -> & -> & ->); apply ship_refused].
    apply exec_bind in Hx as (t1 & t4 & [] & -> & ->%exec_trigger & Hx). by eapply (ship_more false), IH.
  Unshelve. all: exact "".
Qed.
End run.

(** * The emitter's files *)

Lemma leads_fwd_app l c r : l <> [] -> leads_fwd l = false -> solid c -> leads_fwd (l ++ c :: r) = false.
Proof.
  intros Hne Hl Hc. assert (Hlow : forall k, (128 <= k)%nat -> (code c =? k)%nat = false).
  { destruct Hc as [Hc _]. intros k Hk. apply Nat.eqb_neq. lia. }
  assert (Hle : (0x80 <=? code c)%nat = false) by (apply Nat.leb_gt; by destruct Hc).
  unfold leads_fwd, leads in *. destruct l as [|a [|b [|d l]]]; [done| | |done]; cbn [app].
  - destruct r as [|x r]; rewrite Hl; unfold space2, space3; rewrite ?Hlow by lia; by rewrite !andb_false_r.
  - apply orb_false_iff in Hl as [-> ->]. unfold space3. rewrite !Hlow, Hle by lia. by rewrite !andb_false_r.
Qed.

Lemma trimmed_leads s : TrimSpace s = s -> leads_fwd (s2l s) = false.
Proof.
  intros Hs. rewrite <- Hs. unfold TrimSpace. rewrite s2l_l2s. unfold TrimSpaceL.
  assert (Hm : leads_fwd (trim_left (s2l s)) = false) by apply trimL_leads.
  destruct (trim_right_prefix (trim_left (s2l s))) as [r Hr]. rewrite Hr in Hm. by apply leads_app in Hm.
Qed.

Lemma digit_is c : is_Some (digit_val c) -> is_digit c = true.
Proof. unfold digit_val, is_digit. case_match; [done | by intros [? ?]]. Qed.

Lemma pad_length n : forall z, length (s2l (pad n z)) = n.
Proof. induction n as [|n IH]; intros z; [done|]. cbn [pad]. rewrite s2l_app, length_app, IH. cbn. lia. Qed.

Lemma date_text t : dateRe (s2l (format_date t)) = true.
Proof.
  unfold format_date. destruct (civil (t / day)) as [[y m] d]. rewrite !s2l_app.
  assert (Hp : forall n z, length (s2l (pad n z)) = n /\ Forall (fun c => is_digit c = true) (s2l (pad n z))).
  { intros n z. split; [apply pad_length|]. eapply list.Forall_impl; [apply pad_digits | apply digit_is]. }
  destruct (Hp 4%nat y) as [Ly Fy], (Hp 2%nat m) as [Lm Fm], (Hp 2%nat d) as [Ld Fd].
  destruct (s2l (pad 4 y)) as [|? [|? [|? [|? []]]]]; try done.
  destruct (s2l (pad 2 m)) as [|? [|? []]]; try done. destruct (s2l (pad 2 d)) as [|? [|? []]]; try done.
  decompose_Forall_hyps. cbn [app dateRe forallb]. change (s2l "-") with [byte 45]. cbn [app dateRe forallb].
  repeat match goal with H : is_digit _ = true |- _ => rewrite H; clear H end. done.
Qed.

Lemma date_ends l : dateRe l = true -> length l = 10%nat /\ exists m b, l = m ++ [b] /\ solid b.
Proof.
  destruct l as [|a1 [|a2 [|a3 [|a4 [|a5 [|a6 [|a7 [|a8 [|a9 [|b []]]]]]]]]]]; try done. intros H. split; [done|].
  exists [a1; a2; a3; a4; a5; a6; a7; a8; a9], b. split; [done|]. cbn [dateRe forallb] in H.
  rewrite !andb_true_iff in H. assert (Hb : is_digit b = true) by tauto. unfold is_digit in Hb.
  apply andb_true_iff in Hb as [H1%Nat.leb_le H2%Nat.leb_le]. split; [lia|]. unfold space1.
  apply orb_false_iff. split; [apply andb_false_iff; right; apply Nat.leb_gt; lia | apply Nat.eqb_neq; lia].
Qed.

Lemma parse_stem s d : s <> "" -> TrimSpace s = s -> dateRe (s2l d) = true ->
  parseStreamDate (s +:+ "-" +:+ d) = Some (s, d).
Proof.
  intros Hne Hs Hd. destruct (date_ends _ Hd) as [Hlen (m & b & Hmb & Hb)].
  assert (Hl : s2l (s +:+ "-" +:+ d) = s2l s ++ byte 45 :: s2l d) by by rewrite !s2l_app.
  assert (Hst : s2l s <> []) by (intros E; by apply s2l_nil in E).
  assert (Ht : TrimSpaceL (s2l s ++ byte 45 :: s2l d) = s2l s ++ byte 45 :: s2l d).
  { apply TrimSpaceL_id.
    - apply leads_fwd_app; [done | by apply trimmed_leads | vm_compute; intuition lia].
    - rewrite Hmb. rewrite app_comm_cons, (assoc_L (++)). by apply leads_bwd_solid. }
  assert (Ht' : TrimSpace (s +:+ "-" +:+ d) = s +:+ "-" +:+ d) by (unfold TrimSpace; by rewrite Hl, Ht, <- Hl, l2s_s2l).
  unfold parseStreamDate. cbv zeta. rewrite Ht', Hl, length_app. cbn [length]. rewrite Hlen.
  assert (Hpos : (0 < length (s2l s))%nat) by (destruct (s2l s); [done | cbn; lia]).
  rewrite (proj2 (Nat.ltb_ge _ _)) by lia.
  replace (length (s2l s) + 11 - 10)%nat with (S (length (s2l s))) by lia.
  replace (length (s2l s) + 11 - 11)%nat with (length (s2l s)) by lia.
  rewrite drop_app_ge, take_app_length by lia. replace (S (length (s2l s)) - length (s2l s))%nat with 1%nat by lia.
  change (drop 1 (byte 45 :: s2l d)) with (s2l d). rewrite Hd. cbn [negb].
  rewrite lookup_app_r, Nat.sub_diag by lia. rewrite decide_False by (intros H; by apply H).
  by rewrite !l2s_s2l, Hs, decide_False.
Qed.

Lemma TrimSuffix_app s t : TrimSuffix (s +:+ t) t = s.
Proof.
  unfold TrimSuffix. rewrite (proj2 (HasSuffix_spec _ _)) by by exists s.
  rewrite s2l_app, str_length_app, <- !s2l_length. replace (_ + _ - _)%nat with (length (s2l s)) by lia.
  by rewrite take_app_length, l2s_s2l.
Qed.

Definition audit_file (kind stream date : string) : string := kind +:+ "-" +:+ stream +:+ "-" +:+ date +:+ ".jsonl".

Lemma parse_emitted kind s t : kind = "events" \/ kind = "checkpoints" -> s <> "" -> TrimSpace s = s ->
  parseAuditFilename (audit_file kind s (format_date t)) = Some (s, format_date t, kind).
Proof.
  intros Hk Hne Hs. set (name := audit_file _ _ _).
  assert (Hshape : name = (kind +:+ "-") +:+ (s +:+ "-" +:+ format_date t) +:+ ".jsonl").
  { unfold name, audit_file. apply s2l_inj. rewrite !s2l_app. by rewrite <- !app_assoc. }
  assert (Hsuf : HasSuffix name ".jsonl" = true).
  { apply HasSuffix_spec. exists ((kind +:+ "-") +:+ (s +:+ "-" +:+ format_date t)). rewrite Hshape.
    apply s2l_inj. rewrite !s2l_app. by rewrite <- !app_assoc. }
  assert (Hpre : HasPrefix name (kind +:+ "-") = true) by (apply HasPrefix_spec; eauto).
  assert (Hp : parse_kind name kind = Some (s, format_date t, kind)).
  { unfold parse_kind. rewrite Hshape, TrimPrefix_app, TrimSuffix_app, parse_stem by (try done; apply date_text). done. }
  unfold parseAuditFilename. rewrite Hsuf, !andb_true_r. destruct Hk as [-> | ->].
  - change "events-" with ("events" +:+ "-"). by rewrite Hpre.
  - destruct (HasPrefix name "events-") eqn:He.
    { exfalso. apply HasPrefix_spec in He as [x Hx]. apply (f_equal s2l) in Hx. rewrite Hshape, !s2l_app in Hx. done. }
    change "checkpoints-" with ("checkpoints" +:+ "-"). by rewrite Hpre.
Qed.

Lemma emitted_path e t kind : kind = "events" -> events_path e (format_date t) = fe_dir e +:+ "/" +:+ audit_file kind (fe_stream e) (format_date t).
Proof. by intros ->. Qed.

(** ** The items in order *)

#[global] Instance ship_le_total : Total ship_le.
Proof.
  intros a b. unfold ship_le. destruct (decide (it_date a = it_date b)) as [Hd|Hd].
  - rewrite (decide_True (P := it_date b = it_date a)) by done. destruct (decide (it_stream a = it_stream b)) as [Hs|Hs].
    + rewrite decide_True by done. apply (total str_le).
    + rewrite decide_False by congruence. apply (total str_le).
  - rewrite decide_False by congruence. apply (total str_le).
Qed.

Lemma ship_le_date a b : ship_le a b -> str_le (it_date a) (it_date b).
Proof. unfold ship_le. case_decide as Hd; [|done]. intros _. rewrite Hd. apply leL_refl. Qed.

Lemma sorted_dates l : Sorted ship_le l -> Sorted (fun a b => str_le (it_date a) (it_date b)) l.
Proof.
  induction 1 as [|a l _ IH Hd]; constructor; [done|]. destruct Hd; constructor. by apply ship_le_date.
Qed.

Lemma items_from (es : list (string * bool)) it : it ∈ omap audit_item es <->
  (it_name it, false) ∈ es /\ parseAuditFilename (it_name it) = Some (it_stream it, it_date it, it_kind it).
Proof.
  rewrite list_elem_of_omap. split.
  - intros (de & Hin & Hit). apply audit_item_name in Hit as [-> ?]. done.
  - intros [Hin Hp]. exists (it_name it, false). split; [done|]. unfold audit_item. cbn [fst snd]. rewrite Hp. by destruct it.
Qed.

Lemma items_nodup (es : list (string * bool)) : NoDup (fst <$> es) -> NoDup (omap audit_item es).
Proof.
  induction es as [|de es IH]; cbn; [constructor|]. intros [Hn Hd]%list.NoDup_cons.
  destruct (audit_item de) as [it|] eqn:E; [|by apply IH]. apply list.NoDup_cons. split; [|by apply IH].
  intros [Hin _]%items_from. apply audit_item_name in E as [-> _]. apply Hn. cbn [fst].
  apply list_elem_of_fmap. by exists (it_name it, false).
Qed.

Lemma items_keys store (es : list (string * bool)) : NoDup (fst <$> es) -> Forall (fun de => byte 47 ∉ s2l de.1) es ->
  NoDup (object_of store <$> merge_sort ship_le (omap audit_item es)).
Proof.
  intros Hn Hs. apply NoDup_fmap_2_strong; cycle 1.
  { rewrite merge_sort_Permutation. by apply items_nodup. }
  assert (Hname : forall it, it ∈ omap audit_item es -> audit_name (it_name it)).
  { intros it [Hin Hp]%items_from. apply (parsed_audit_name _ _ Hp). rewrite list.Forall_forall in Hs. exact (Hs _ Hin). }
  intros x y. rewrite !merge_sort_Permutation. intros Hx Hy Hxy.
  pose proof (object_inj store x y (Hname x Hx) (Hname y Hy) Hxy) as He.
  apply items_from in Hx as [_ Hx], Hy as [_ Hy]. rewrite He, Hy in Hx. destruct x, y; cbn in *. congruence.
Qed.

(** The name of a file of the emitter in its directory. *)
Definition emitted (e : fileEmitter) (now : Z) (kind name : string) : Prop :=
  (kind = "events" /\ events_path e (format_date now) = fe_dir e +:+ "/" +:+ name)
  \/ (kind = "checkpoints" /\ check_path e (format_date now) = fe_dir e +:+ "/" +:+ name).

Lemma emitted_name e now kind name : emitted e now kind name ->
  (kind = "events" \/ kind = "checkpoints") /\ name = audit_file kind (fe_stream e) (format_date now).
Proof.
  intros H. assert (Hk : kind = "events" \/ kind = "checkpoints") by (destruct H as [[? _]|[? _]]; auto). split; [done|].
  apply s2l_inj, (app_inv_head (s2l (fe_dir e +:+ "/"))).
  unfold audit_file. rewrite s2l_app, <- !app_assoc.
  destruct H as [[-> H]|[-> H]]; unfold events_path, check_path in H; apply (f_equal s2l) in H;
    rewrite !s2l_app in H; rewrite <- H, !s2l_app; done.
Qed.

(** C38: A run of auditship.  Let the names of the directory's entries differ and
    have no slash.  Then only contents of its audit files go out, each under a key
    of its own; the uploads are a prefix of the audit files in the order of their
    dates.  When the run succeeds (and is not a dry run) all of them went out, among
    them every events and checkpoints file of every emitter whose stream is a
    trimmed name, under its stream and date.  Otherwise nothing says so: the exit
    code is not 0. *)
Theorem auditship_ships_trail url_Parse LoadDefaultConfig env dir prefix dryRun t code :
  exec (auditship url_Parse LoadDefaultConfig env dir prefix dryRun) t code ->
  (forall es : list (string * bool), Obs (SReadDir dir) (Ok es) ∈ t ->
     NoDup (fst <$> es) /\ Forall (fun de => byte 47 ∉ s2l de.1) es) ->
  (omap put_key t = [] /\ code <> 0) \/
  exists store (es : list (string * bool)), let items : list item := merge_sort ship_le (omap audit_item es) in
    Obs (SReadDir dir) (Ok es) ∈ t
    /\ omap put_key t `prefix_of` (if dryRun then [] else object_of store <$> items)
    /\ NoDup (object_of store <$> items) /\ Sorted (fun a b => str_le (it_date a) (it_date b)) items
    /\ (forall k ct b r, Obs (SPut k ct b) r ∈ t -> exists it, it ∈ items /\ k = object_of store it
          /\ Obs (SReadFile (path_Join dir (it_name it))) (Ok b) ∈ t)
    /\ (code = 0 -> dryRun = false -> Forall (uploaded store dir t) items
        /\ forall e now kind name, 0 <= now < four_digit_years -> fe_stream e <> "" -> TrimSpace (fe_stream e) = fe_stream e ->
             emitted e now kind name -> (name, false) ∈ es ->
             uploaded store dir t {| it_name := name; it_stream := fe_stream e; it_date := format_date now; it_kind := kind |}).
Proof.
  unfold auditship, sfail. intros Hx Hdir. case_decide; [left; by destruct Hx as ([] & ? & -> & -> & ->)|].
  destruct (NewS3FromEnvWithPrefix _ _ _ _) as [store|e]; [|left; by destruct Hx as ([] & ? & -> & -> & ->)].
  apply exec_bind in Hx as (t1 & t2 & r & -> & ->%exec_trigger & Hx).
  destruct r as [es|e]; [|left; by destruct Hx as ([] & ? & -> & -> & ->)].
  assert (Hes : Obs (SReadDir dir) (Ok es) ∈ [Obs (SReadDir dir) (Ok es)] ++ t2) by by left.
  destruct (Hdir es Hes) as [Hn Hs]. destruct (omap audit_item es) as [|i l] eqn:Hitems.
  { left. by destruct Hx as ([] & ? & -> & -> & ->). }
  rewrite <- Hitems in Hx. right. exists store, es. apply ship_exec in Hx as (Hp & Hall & Hput).
  assert (Hmore : forall it, uploaded store dir t2 it -> uploaded store dir ([Obs (SReadDir dir) (Ok es)] ++ t2) it).
  { intros it Hu. rewrite <- (app_nil_r t2). by apply uploaded_more. }
  split; [done|]. split; [done|]. split; [by apply items_keys|]. split.
  { apply sorted_dates, (Sorted_merge_sort ship_le). }
  split.
  { intros k ct b r [Hin|Hin]%elem_of_cons; [done|]. destruct (Hput _ _ _ _ Hin) as (it & ? & ? & ?).
    exists it. split_and!; [done..|]. by right. }
  intros Hc Hd. destruct (Hall Hc Hd) as [_ HF]. split.
  - eapply list.Forall_impl; [exact HF | exact Hmore].
  - intros e now kind name _ Hne Htr [Hk ->]%emitted_name Hin. apply Hmore. rewrite list.Forall_forall in HF. apply HF.
    rewrite merge_sort_Permutation. apply items_from. cbn [it_name it_stream it_date it_kind]. split; [done|].
    by apply parse_emitted.
Qed.

Definition demo_ship_env (k : string) : string :=
  if decide (k = "AUDIT_S3_ENDPOINT") then "http://minio:9000" else
  if decide (k = "AUDIT_S3_BUCKET") then "audit" else
  if decide (k = "AUDIT_S3_ACCESS_KEY_ID" \/ k = "AUDIT_S3_SECRET_ACCESS_KEY") then "key" else "".
Definition demo_dir : list (string * bool) :=
  [("old", true); ("events-broker-1970-01-02.jsonl", false); ("events-broker-1970-01-01.jsonl", false); ("notes.txt", false)].
Definition ship_world (X : Type) (e : seff X) : unit -> X * unit :=
  match e in seff T return unit -> T * unit with
  | SErr _ | SOut _ => fun u => (tt, u)
  | SReadDir _ => fun u => (Ok demo_dir, u)
  | SReadFile _ => fun u => (Ok [byte 123; byte 125], u)
  | SPut _ _ _ => fun u => (Ok tt, u)
  end.
Definition demo_ship : Z * list sobs * unit :=
  run ship_world (auditship (fun _ => Ok tt) (fun _ => Ok tt) demo_ship_env "/var/audit" "AUDIT_" false) tt.

Example demo_ship_ex : demo_ship.1.1 = 0 /\ omap put_key demo_ship.1.2
  = ["workspaces/audit/1970-01-01/stream=broker/events-broker-1970-01-01.jsonl";
     "workspaces/audit/1970-01-02/stream=broker/events-broker-1970-01-02.jsonl"].
Proof. vm_compute. done. Qed.

Lemma auditship_ships_trail_witness : exists k, omap put_key demo_ship.1.2 `prefix_of` k /\ NoDup k.
Proof.
  destruct (auditship_ships_trail (fun _ => Ok tt) (fun _ => Ok tt) demo_ship_env "/var/audit" "AUDIT_" false _ _ (run_is_exec ship_world _ tt))
    as [[_ Hc]|(store & es & _ & Hp & Hn & _)].
  - assert (Hall : Forall (fun o : sobs => match o with
      | Obs e x => match e in seff T return T -> Prop with
                   | SReadDir _ => fun r => forall es, r = Ok es -> es = demo_dir
                   | _ => fun _ => True end x end) demo_ship.1.2).
    { apply run_forall. intros X e w. destruct e; try exact I. by intros es [= <-]. }
    rewrite list.Forall_forall in Hall. intros es Hin. rewrite (Hall _ Hin es eq_refl). split; by apply (bool_decide_unpack _).
  - exfalso. by apply Hc.
  - eexists. split; [exact Hp | exact Hn].
Defined.
